(* ===== verification/_CoqProject ===== *)
-Q . S2P
Prelude.v
Kernel.v
Ctype.v
CString.v
CStringFacts.v
StringAsm.v
StringAsmFacts.v
Numbers.v
Vsprintf.v
VsprintfFacts.v
Vsscanf.v
VsscanfFacts.v
Proc.v
ProcFacts.v
LzoDecompress.v
LzoCompress.v
LzoFormat.v
LzoCompressFacts.v
LzoDecompressFacts.v
LzoRoundtrip.v
Compression.v
Bigbuffer.v
Logger.v
Mutex.v
Mm.v
ArchCheckpoint.v
Startup.v
StartupFacts.v
EnvConfFacts.v
Bits.v
Tls.v
TlsFacts.v
Checkpoint.v
CheckpointFacts.v
CheckpointRun.v
UserEntry.v
UserEntryFacts.v
Elf.v
RelocFacts.v
ElfFacts.v
Interp.v
InterpFacts.v
SyscallLog.v
SyscallLogFacts.v
Exceptions.v
ExceptionsFacts.v
PrintfText.v
Recorder.v
RecorderFacts.v
LoggerAll.v
HexDump.v
HexDumpFacts.v
SizeText.v
SizeTextFacts.v
BinPrintf.v
BinPrintfFacts.v
Debug.v
ProcDump.v
LinuxList.v
LinuxListFacts.v
MmLinks.v
