(* ===== verification/Prelude.v ===== *)
(** A verification of snitchaser, the record and checkpoint loader of this
    repository ([src/src/]).

    * The program

    The loader is an ELF interpreter for i386 Linux that runs in front of a
    program. It reads the start-up stack and its options from the environment,
    gives every thread an area of its own (pages behind an LDT segment), records
    the results of system calls in a log, and can write the whole process to a
    checkpoint file. It is linked without a C library: it brings the string,
    printf and LZO routines of the Linux kernel (lib/), its own page and object
    allocator, a futex mutex and a reader of /proc/self/maps.

    * How the code is modelled

    C functions are Rocq functions with the names of the source. Memory is a
    list of bytes with pointers as offsets; machine integers are [Z] with the
    wrap-around written out ([u32], [s32], ...). A function that can fail
    returns [result]: [Ok], [Fatal] (a failed assertion, which ends the
    process), [Stray] (an access outside the object: undefined behaviour) or
    [NoFuel]. Loops that are not structural take fuel; the fuel is computed
    from the sizes of the memory ([rounds m] is more than the bytes of [m],
    [stack_rounds], [find_fuel]) and the theorems show that it is enough, so
    none is of the form "if it returns". Loops over machine words take the
    number of their digits (64). System calls are the operations of classes
    over an abstract kernel state: [Kernel] and [KernelFiles] (Kernel.v),
    [KernelPages] (Mm.v), [KernelTls] (ArchCheckpoint.v), [KernelLdt] (Tls.v),
    [KernelMaps] (CheckpointFacts.v), [KernelProt] (UserEntryFacts.v),
    [KernelImages] (Elf.v), [KernelExec] (Interp.v), [KernelUser]
    (SyscallLog.v), [KernelProc] (Recorder.v), [KernelFrame] (LoggerAll.v),
    [KernelDup] (Debug.v).
    Their laws state what the manual pages promise; a concrete
    kernel satisfies each ([Ram], [Pages], [Gdt], [Machine], [Snap], [Vm],
    [Desk]), and the witnesses run on it.

    * The files

    - Prelude.v: this file. Results, machine integers, lists indexed by [Z],
      little-endian words, bit and alignment lemmas.
    - Kernel.v: files and descriptors, complete writes.
    - Ctype.v: lib/ctype.c and the macros of linux/ctype.h.
    - CString.v, CStringFacts.v: lib/string.c; what memmove, strlcpy, strcmp
      and strstr do for every layout of their arguments.
    - StringAsm.v, StringAsmFacts.v: lib/string_32.c and lib/memcpy_32.c, the
      inline assembly that replaces half of string.c on i386, as lists of
      instructions for a small processor; it equals the C versions.
    - Numbers.v: the number parsers and the decimal conversion of
      lib/vsprintf.c; equivalence with the digits of the number.
    - Vsprintf.v, VsprintfFacts.v: format_decode, number, string, the pointer
      extensions and the vsnprintf family of lib/vsprintf.c; one text whatever
      the buffer, never a write outside it; printing then parsing an integer.
    - Vsscanf.v, VsscanfFacts.v: vsscanf and sscanf; they end and stay within
      their strings, and the conversions proc.c uses read what was printed.
    - Proc.v, ProcFacts.v: core/loader/proc.c; the text the kernel documents for
      a list of mappings is parsed to that list, and both searches are right.
    - LzoDecompress.v, LzoCompress.v: lib/lzo1x_decompress.c (a goto program, as
      labelled steps) and lib/lzo1x_compress.c.
    - LzoFormat.v, LzoCompressFacts.v, LzoDecompressFacts.v, LzoRoundtrip.v: the
      format both share, as a list of items; the compressor emits items of its
      input, the decompressor executes them, so they are inverse; the worst
      case of the size; memory safety on arbitrary input.
    - Compression.v: core/loader/compression.c, against the interface [LzoApi]
      which LzoRoundtrip.v discharges; the blocks decode to the buffer.
    - Bigbuffer.v: core/loader/bigbuffer.c refines a byte stream.
    - Logger.v: core/loader/logger.c and logger.h refine a stream of events.
    - Mutex.v: core/loader/mutex.c and signal.c, the threads of the process as
      a step relation; exclusion, no lost wake-up, the signal masks.
    - Mm.v: core/loader/mm.c; objects are disjoint and inside the buckets.
    - ArchCheckpoint.v: core/loader/arch_checkpoint.c and processor.c; registers
      and thread-local segments are restored as they were saved.
    - Startup.v, StartupFacts.v, EnvConfFacts.v: core/loader/startup_stack.c and
      env_conf.c; the pointers into a stack laid out as the kernel does it, and
      the options of an environment.
    - Bits.v: include/bithacks.h; population counts and the bits of a slot map.
    - Tls.v, TlsFacts.v: core/loader/tls.c; slots, LDT entries and pages of the
      areas belong together, and freed areas leave nothing behind.
    - Checkpoint.v, CheckpointFacts.v, CheckpointRun.v: core/loader/checkpoint.c
      on top of Proc.v, Mm.v, ArchCheckpoint.v, Bigbuffer.v and Startup.v; the
      file determines the process: a reader of the format gets back the
      strings, the processor state and every mapping with its contents.
    - UserEntry.v, UserEntryFacts.v: core/loader/user_entry.c and
      arch_user_entry.c; the jump over the entry point and its removal.
    - Elf.v, RelocFacts.v, ElfFacts.v: core/loader/elf.c; the relocation of the
      loader, and the segments of an image in the address space.
    - Interp.v, InterpFacts.v: core/loader/interp_main.c on top of Startup.v and
      Elf.v; from the stack the kernel built to the stack and the entry point
      the program (or its real interpreter) is started with.
    - SyscallLog.v, SyscallLogFacts.v: core/loader/wrapper.c and the handlers and
      the table of core/syscall/; the log of a program's system calls can be
      read back, call by call.
    - Exceptions.v, ExceptionsFacts.v: core/replay/exception.c and exception.h;
      TRY, CATCH and FINALLY as a state machine over saved contexts refine what
      their text says.
    - PrintfText.v: the text of a known format, round by round of vsnprintf.
    - Recorder.v, RecorderFacts.v: core/loader/snitchaser_main.c and
      snitchaser_tpd.c, the operations of the other files on the private data
      of the calling thread, enter_user_entry and the clones that take a
      checkpoint; the names of the recorder's files, the thread that is set up,
      and what happens when the program reaches its entry point.
    - LoggerAll.v: flush_all_logger of core/loader/logger.c; the logs of
      different threads do not mix.
    - HexDump.v, HexDumpFacts.v: lib/hexdump.c; a row in any buffer that has
      room for its NUL, and a blob that can be read back from its rows.
    - SizeText.v, SizeTextFacts.v: lib/string_helpers.c; the unit and the figures
      of a size, and how far they are from it. Nothing calls these two.
    - BinPrintf.v, BinPrintfFacts.v: vbin_printf, bprintf and bstr_printf of
      lib/vsprintf.c, which this build leaves out; printing from the saved words
      is vsnprintf.
    - Debug.v: core/loader/debug.c and fdbnprintf.c with include/debug.h; what a
      message leaves in the file of the debug descriptor.
    - ProcDump.v: read_pid_procmap and flush_mem_to_ckpt of core/loader/proc.c,
      which nothing calls.
    - LinuxList.v, LinuxListFacts.v: the doubly linked lists of linux/list.h with
      the loops of include/list_patch.h, over a map of nodes; programs of list
      operations refine programs on sequences. It is why Mm.v and Tls.v keep the
      buckets and the areas, which the code links, in Rocq lists.
    - MmLinks.v: the loops of core/loader/mm.c over the links of the buckets are
      the functions Mm.v has on the list of them, and touch no freed node.

    * The groups of theorems

    Round trips: LZO, compressed blocks, numbers, memory maps, processor state,
    checkpoints, the log of system calls, hex dumps. Refinement: big buffer and logger of a
    stream, linked lists of sequences, the exception machine of a reference
    interpreter. Invariants of
    reachable states: mutex, object allocator, thread-local areas. Functional
    correctness against a description of the data: strings, start-up stack,
    options, relocations, ELF images, the patched entry point, the start of the
    program and of the recorder. A type for the configurations of the exception machine. Safety and
    termination on arbitrary input: decompressor, vsnprintf, vsscanf; the logs of
    all threads stay apart; the allocator is cleaned without touching freed links.
    Equivalence with a definition: decimal conversion, the
    assembly of the string library with its C versions, the two halves of the
    binary printf with vsnprintf. A debug message is its head and its text. Error
    behaviour, where the code stops or goes astray: an exactly filled big buffer
    or bucket, a truncated LZO stream, a last unnamed line of the maps, numbers
    of more than 32 bits, an unsupported system call, the byte strncat stores
    too many, a string that fills the words of the binary printf, an empty
    environment or an auxiliary vector without the entries the loader needs, a
    read-only segment that does not end with a page, a group of 0 bytes in a hex
    dump. Most of these are branches of the theorem that says what happens
    otherwise.

    * Bounds

    The blocks of LZO are shorter than 2^31 bytes, and input that need not be a
    stream at most 2^24, behind which a counter of the decompressor can wrap
    around. The memory of a process ends a page below 2^32; a mapping, and what a
    checkpoint saves besides, is shorter than 2^31 bytes, and the text of the
    maps shorter than the buffer the code allocates for it. Buffers of printf are
    shorter than 2^31 bytes. Each theorem's comment names the conditions it has
    besides.

    * Not modelled

    The debug messages of the other components, which change no state of theirs.
    The system call wrappers (syscall.c, arch_syscall.c, futex.c), each of which
    is one system call in assembly: they are the operations of the kernel
    classes. The assembly stubs around xmain, the
    system call entry and the user entry; where C reads or writes processor state
    (processor.c) the state is an argument. The program that prints the offsets
    of the private data; the size of the record is a variable. Of the
    hex dump the text of printk, which is empty in this build: the calls are a
    list. The loops of linux/list.h that list_patch.h leaves as they are, and its
    hash lists: the loader uses neither. malloc.c and third-party/ are
    vendored and not part of the loader; linux-include/ are kernel headers. *)
From Stdlib Require Export ZArith Lia Bool.
From Stdlib Require Ascii String.
Export (notations) String Ascii.
From stdpp Require Export base tactics numbers list gmap.

Open Scope Z_scope.

(** ** Outcomes of C code *)

(** A C function that returns gives [Ok]; [Fatal] is a failed [assert] or
    [CASSERT], or a call of [FATAL] (all three end the process: a breakpoint,
    then [sys_exit(-1)]); [Stray] is a memory access outside the object the
    pointer was derived from (undefined behaviour in C); [NoFuel] is a loop
    that did not finish within the fuel its model was given. An access is a write,
    a read at or past the end of an object, or ([Back]) a read before its start;
    a block that is not inside its object ([mem_read]) and a string at the null
    pointer count as [Rd]. *)
Inductive access := Rd | Wr | Back.

Inductive result (A : Type) : Type :=
| Ok (a : A)
| Fatal
| Stray (k : access)
| NoFuel.
Arguments Ok {A} _.
Arguments Fatal {A}.
Arguments Stray {A} _.
Arguments NoFuel {A}.

#[global] Instance result_ret : MRet result := fun A a => Ok a.
#[global] Instance result_bind : MBind result := fun A B f m =>
  match m with
  | Ok a => f a
  | Fatal => Fatal
  | Stray k => Stray k
  | NoFuel => NoFuel
  end.

#[global] Instance access_eq_dec : EqDecision access.
Proof. solve_decision. Defined.
#[global] Instance result_eq_dec {A} `{EqDecision A} : EqDecision (result A).
Proof. solve_decision. Defined.

(** [assert(c)]: the rest of the function runs only when [c] holds. *)
Definition assert (c : bool) : result unit := if c then Ok () else Fatal.

Lemma bind_Ok {A B} (a : A) (f : A -> result B) : (Ok a ≫= f) = f a.
Proof. reflexivity. Qed.

Lemma bind_Ok_inv {A B} (m : result A) (f : A -> result B) (b : B) :
  (m ≫= f) = Ok b -> exists a, m = Ok a /\ f a = Ok b.
Proof. destruct m; simpl; try discriminate; eauto. Qed.

Lemma bind_assoc {A B C} (m : result A) (f : A -> result B) (g : B -> result C) :
  ((m ≫= f) ≫= g) = (m ≫= (fun a => f a ≫= g)).
Proof. by destruct m. Qed.

Lemma assert_Ok c u : assert c = Ok u -> c = true.
Proof. unfold assert. by destruct c. Qed.

(** Breaks a hypothesis [m ≫= f = Ok b] into its steps. *)
Ltac inv_bind H :=
  repeat match type of H with
  | (_ ≫= _) = Ok _ =>
      let a := fresh "a" in let E := fresh "E" in
      apply bind_Ok_inv in H as (a & E & H)
  end.

(** ** String literals *)

(** The bytes of a C string literal, without and with its NUL. *)
Fixpoint codes (s : String.string) : list Z :=
  match s with
  | String.EmptyString => []
  | String.String c s => Z.of_N (Ascii.N_of_ascii c) :: codes s
  end.
Arguments codes s%_string_scope.
Definition literal (s : String.string) : list Z := codes s ++ [0].
Arguments literal s%_string_scope.

(** ** Machine integers *)

(** Unsigned and signed values of a given width (the target is i386: [int],
    [long], [size_t] and pointers are 32 bits wide). *)
Definition u8 (z : Z) : Z := z mod 2 ^ 8.
Definition u16 (z : Z) : Z := z mod 2 ^ 16.
Definition u32 (z : Z) : Z := z mod 2 ^ 32.
Definition u64 (z : Z) : Z := z mod 2 ^ 64.
Definition swrap (w z : Z) : Z := (z + 2 ^ (w - 1)) mod 2 ^ w - 2 ^ (w - 1).
Definition s8 (z : Z) : Z := swrap 8 z.
Definition s16 (z : Z) : Z := swrap 16 z.
Definition s32 (z : Z) : Z := swrap 32 z.
Definition s64 (z : Z) : Z := swrap 64 z.

Lemma u8_small z : 0 <= z < 256 -> u8 z = z.
Proof. intros; unfold u8; apply Z.mod_small; lia. Qed.
Lemma u16_small z : 0 <= z < 65536 -> u16 z = z.
Proof. intros; unfold u16; apply Z.mod_small; lia. Qed.
Lemma u32_small z : 0 <= z < 4294967296 -> u32 z = z.
Proof. intros; unfold u32; apply Z.mod_small; lia. Qed.
Lemma u64_small z : 0 <= z < 18446744073709551616 -> u64 z = z.
Proof. intros; unfold u64; apply Z.mod_small; lia. Qed.
Lemma u8_range z : 0 <= u8 z < 256.
Proof. unfold u8. pose proof (Z.mod_pos_bound z (2 ^ 8)). lia. Qed.
Lemma u16_range z : 0 <= u16 z < 65536.
Proof. unfold u16. pose proof (Z.mod_pos_bound z (2 ^ 16)). lia. Qed.
Lemma u32_range z : 0 <= u32 z < 4294967296.
Proof. unfold u32. pose proof (Z.mod_pos_bound z (2 ^ 32)). lia. Qed.
Lemma u64_range z : 0 <= u64 z < 18446744073709551616.
Proof. unfold u64. pose proof (Z.mod_pos_bound z (2 ^ 64)). lia. Qed.
Lemma s32_small z : - 2147483648 <= z < 2147483648 -> s32 z = z.
Proof. intros; unfold s32, swrap; rewrite Z.mod_small; lia. Qed.
Lemma s32_range z : - 2147483648 <= s32 z < 2147483648.
Proof.
  unfold s32, swrap. change (2 ^ (32 - 1)) with 2147483648.
  change (2 ^ 32) with 4294967296.
  pose proof (Z.mod_pos_bound (z + 2147483648) 4294967296). lia.
Qed.

Lemma s16_small z : - 32768 <= z < 32768 -> s16 z = z.
Proof. intros; unfold s16, swrap; rewrite Z.mod_small; lia. Qed.
Lemma s16_range z : - 32768 <= s16 z < 32768.
Proof.
  unfold s16, swrap. change (2 ^ (16 - 1)) with 32768. change (2 ^ 16) with 65536.
  pose proof (Z.mod_pos_bound (z + 32768) 65536). lia.
Qed.
Lemma s16_u16 z : 0 <= s16 z -> u16 (z + 1) = s16 z + 1.
Proof.
  unfold s16, swrap, u16. change (2 ^ (16 - 1)) with 32768. change (2 ^ 16) with 65536.
  Z.div_mod_to_equations. lia.
Qed.

Definition is_byte (b : Z) : Prop := 0 <= b < 256.
#[global] Instance is_byte_dec b : Decision (is_byte b).
Proof. unfold is_byte; apply _. Defined.

Definition is_u32 (z : Z) : Prop := 0 <= z < 2 ^ 32.
#[global] Instance is_u32_dec z : Decision (is_u32 z).
Proof. unfold is_u32; apply _. Defined.

(** ** Lists indexed by [Z] *)

Definition zlen {A} (l : list A) : Z := Z.of_nat (length l).

Lemma zlen_app {A} (l k : list A) : zlen (l ++ k) = zlen l + zlen k.
Proof. unfold zlen. rewrite length_app. lia. Qed.
Lemma zlen_nonneg {A} (l : list A) : 0 <= zlen l.
Proof. unfold zlen. lia. Qed.
Lemma zlen_cons {A} (x : A) (l : list A) : zlen (x :: l) = 1 + zlen l.
Proof. unfold zlen. simpl. lia. Qed.
Lemma zlen_nil {A} : zlen (@nil A) = 0.
Proof. reflexivity. Qed.

(** Computes the length of appended and explicit lists. *)
Create HintDb zlen.
Create Rewrite HintDb zlen.
#[export] Hint Rewrite @zlen_app @zlen_cons @zlen_nil : zlen.
Ltac zlen_simp := autorewrite with zlen.

#[export] Hint Resolve zlen_nonneg : zlen.

(** [l[i]] in C: an index outside the array is a stray read. *)
Definition rd {A} (l : list A) (i : Z) : result A :=
  if i <? 0 then Stray Back
  else match l !! Z.to_nat i with
       | Some b => Ok b
       | None => Stray Rd
       end.

Lemma rd_Ok_iff {A} (l : list A) i b :
  rd l i = Ok b <-> 0 <= i /\ l !! Z.to_nat i = Some b.
Proof.
  unfold rd. destruct (Z.ltb_spec i 0); split.
  - discriminate.
  - lia.
  - destruct (l !! Z.to_nat i) eqn:E; intros [= ->]. split; [lia|done].
  - intros [_ ->]. done.
Qed.

Lemma rd_range {A} (l : list A) i b : rd l i = Ok b -> 0 <= i < zlen l.
Proof.
  intros [H E]%rd_Ok_iff. apply lookup_lt_Some in E. unfold zlen. lia.
Qed.

Lemma rd_in_range {A} (l : list A) i : 0 <= i < zlen l -> exists b, rd l i = Ok b.
Proof.
  intros [H1 H2]. destruct (lookup_lt_is_Some_2 l (Z.to_nat i)) as [b Hb].
  { unfold zlen in H2. lia. }
  exists b. apply rd_Ok_iff. done.
Qed.

Lemma rd_app_l {A} (l k : list A) i : 0 <= i < zlen l -> rd (l ++ k) i = rd l i.
Proof.
  intros [H1 H2]. unfold rd. rewrite lookup_app_l; [done|]. unfold zlen in H2. lia.
Qed.

Lemma rd_app_r {A} (l k : list A) i :
  zlen l <= i -> rd (l ++ k) i = rd k (i - zlen l).
Proof.
  intros H. unfold rd. unfold zlen in *.
  destruct (Z.ltb_spec i 0), (Z.ltb_spec (i - Z.of_nat (length l)) 0); try lia; try done.
  rewrite lookup_app_r by lia.
  replace (Z.to_nat i - length l)%nat with (Z.to_nat (i - Z.of_nat (length l))) by lia.
  done.
Qed.

Lemma rd_not_write {A} (l : list A) i : rd l i <> Stray Wr.
Proof. unfold rd. destruct (_ <? _); [done|]. by destruct (_ !! _). Qed.

Lemma rd_app_at {A} (l k : list A) x : rd (l ++ x :: k) (zlen l) = Ok x.
Proof.
  rewrite rd_app_r by lia. rewrite Z.sub_diag. reflexivity.
Qed.

(** A slice [l[i..i+n)], in the range of [l]. *)
Definition zslice {A} (l : list A) (i n : Z) : list A :=
  take (Z.to_nat n) (drop (Z.to_nat i) l).

(** ** Bit operations as arithmetic *)

Lemma land_mask x k : 0 <= k -> Z.land x (2 ^ k - 1) = x mod 2 ^ k.
Proof. intros. rewrite <- Z.land_ones by lia. f_equal. rewrite Z.ones_equiv. lia. Qed.

Lemma lor_low a b k : 0 <= k -> 0 <= b < 2 ^ k -> Z.lor (a * 2 ^ k) b = a * 2 ^ k + b.
Proof.
  intros Hk Hb. symmetry. apply Z.add_nocarry_lor.
  apply Z.bits_inj'; intros n Hn. rewrite Z.land_spec, Z.bits_0.
  destruct (Z.ltb_spec n k).
  - by rewrite Z.mul_pow2_bits_low by lia.
  - rewrite <- (Z.mod_small b (2 ^ k)) by lia.
    rewrite Z.mod_pow2_bits_high by lia. apply andb_false_r.
Qed.

Lemma land_bit x k : 0 <= k -> Z.land x (2 ^ k) = ((x / 2 ^ k) mod 2) * 2 ^ k.
Proof.
  intros Hk. apply Z.bits_inj'; intros n Hn.
  rewrite Z.land_spec, Z.pow2_bits_eqb, Z.mul_pow2_bits, Zmod_odd by lia.
  rewrite <- Z.shiftr_div_pow2, <- Z.bit0_odd, Z.shiftr_spec, Z.add_0_l by lia.
  destruct (Z.eqb_spec k n) as [->|Hne].
  - rewrite andb_true_r, Z.sub_diag. by destruct (Z.testbit x n).
  - rewrite andb_false_r. destruct (Z.testbit x k); [|by rewrite Z.bits_0].
    symmetry. change 1 with (2 ^ 0). destruct (Z.ltb_spec (n - k) 0).
    + apply Z.testbit_neg_r. lia.
    + rewrite Z.pow2_bits_eqb by lia. apply Z.eqb_neq. lia.
Qed.

(** [ALIGN_DOWN] and [ALIGN_UP] of include/defs.h, on words. *)
Definition ALIGN_DOWN (v a : Z) : Z := Z.land (u32 v) (u32 (Z.lnot (a - 1))).
Definition ALIGN_UP (v a : Z) : Z := ALIGN_DOWN (u32 v + u32 a - 1) a.

Lemma align_down_page v : ALIGN_DOWN v 4096 = u32 v - u32 v mod 4096.
Proof.
  unfold ALIGN_DOWN. change (u32 (Z.lnot (4096 - 1))) with (Z.ldiff (Z.ones 32) (Z.ones 12)).
  assert (E : Z.land (u32 v) (Z.ldiff (Z.ones 32) (Z.ones 12)) = Z.ldiff (u32 v) (Z.ones 12)).
  { apply Z.bits_inj'. intros n Hn. rewrite Z.land_spec, !Z.ldiff_spec.
    unfold u32. rewrite <- Z.land_ones by lia. rewrite Z.land_spec.
    by destruct (Z.testbit v n), (Z.testbit (Z.ones 32) n), (Z.testbit (Z.ones 12) n). }
  rewrite E, Z.ldiff_ones_r, Z.shiftr_div_pow2, Z.shiftl_mul_pow2 by lia.
  change (2 ^ 12) with 4096. pose proof (Z.div_mod (u32 v) 4096 ltac:(lia)). lia.
Qed.

Lemma align_up_page v : 0 <= v <= 2 ^ 32 - 4096 ->
  ALIGN_UP v 4096 = v + (- v) mod 4096.
Proof.
  intros Hv. unfold ALIGN_UP. rewrite align_down_page. change (u32 4096) with 4096.
  rewrite (u32_small v) by lia. rewrite u32_small by lia. Z.div_mod_to_equations. lia.
Qed.

Lemma align_up_aligned v : 0 <= v <= 2 ^ 32 - 4096 -> v mod 4096 = 0 -> ALIGN_UP v 4096 = v.
Proof. intros Hv Hm. rewrite align_up_page by done. Z.div_mod_to_equations. lia. Qed.

(** Turns shifts and masks by constants into [/], [*] and [mod]. *)
Ltac bits_to_arith :=
  rewrite ?Z.shiftr_div_pow2, ?Z.shiftl_mul_pow2 by lia.

Lemma zlen_zslice {A} (l : list A) i n :
  0 <= i -> 0 <= n -> i + n <= zlen l -> zlen (zslice l i n) = n.
Proof.
  intros. unfold zslice, zlen in *. rewrite length_take, length_drop. lia.
Qed.

Lemma zslice_S {A} (l : list A) i n b :
  0 <= n -> rd l i = Ok b -> zslice l i (1 + n) = b :: zslice l (i + 1) n.
Proof.
  intros Hn [Hi Hb]%rd_Ok_iff. unfold zslice.
  replace (Z.to_nat (1 + n)) with (S (Z.to_nat n)) by lia.
  replace (Z.to_nat (i + 1)) with (S (Z.to_nat i)) by lia.
  by rewrite (drop_S _ b _ Hb).
Qed.

Lemma take_zslice {A} (l : list A) i n :
  0 <= i -> 0 <= n ->
  take (Z.to_nat i) l ++ zslice l i n = take (Z.to_nat (i + n)) l.
Proof.
  intros. unfold zslice. rewrite Z2Nat.inj_add by lia.
  by rewrite take_take_drop.
Qed.

Lemma zlen_take {A} (l : list A) i : 0 <= i <= zlen l -> zlen (take (Z.to_nat i) l) = i.
Proof. unfold zlen. intros. rewrite length_take. lia. Qed.

Lemma Forall_rd {A} (P : A -> Prop) (l : list A) i b : Forall P l -> rd l i = Ok b -> P b.
Proof. intros H [_ Hb]%rd_Ok_iff. rewrite Forall_lookup in H. eauto. Qed.

(** ** Reading past the end as the only error *)

(** [m] returns a value that satisfies [P], or reads past the end of an object; it
    does not read before the start of one or write outside of one, does not abort
    and does not run out of fuel. *)
Definition safe {A} (m : result A) (P : A -> Prop) : Prop :=
  match m with
  | Ok a => P a
  | Stray Rd => True
  | _ => False
  end.

Lemma safe_bind {A B} (m : result A) (f : A -> result B) P Q :
  safe m P -> (forall a, P a -> safe (f a) Q) -> safe (m ≫= f) Q.
Proof. destruct m as [a| |[]|]; simpl; auto; contradiction. Qed.

Lemma safe_rd {A} (l : list A) i (P : A -> Prop) :
  0 <= i -> (forall b, rd l i = Ok b -> P b) -> safe (rd l i) P.
Proof.
  intros Hi H. unfold rd in *. destruct (Z.ltb_spec i 0); [lia|]. destruct (_ !! _); simpl; auto.
Qed.

Lemma safe_mono {A} (m : result A) (P Q : A -> Prop) :
  safe m P -> (forall a, P a -> Q a) -> safe m Q.
Proof. destruct m as [a| |[]|]; simpl; auto. Qed.

(** ** Bytes of an integer, least significant first *)

Fixpoint le (n : nat) (z : Z) : list Z :=
  match n with
  | O => []
  | S n => z mod 256 :: le n (z / 256)
  end.

Fixpoint of_le (l : list Z) : Z :=
  match l with
  | [] => 0
  | b :: l => b + 256 * of_le l
  end.

Definition le16 : Z -> list Z := le 2.
Definition le32 : Z -> list Z := le 4.
Definition le64 : Z -> list Z := le 8.

Lemma length_le n z : length (le n z) = n.
Proof. revert z. induction n as [|n IH]; intros z; simpl; [done|]. by rewrite IH. Qed.

Lemma zlen_le n z : zlen (le n z) = Z.of_nat n.
Proof. unfold zlen. by rewrite length_le. Qed.

Lemma le_bytes n z : Forall is_byte (le n z).
Proof.
  revert z. induction n as [|n IH]; intros z; simpl; constructor; [|done].
  unfold is_byte. pose proof (Z.mod_pos_bound z 256). lia.
Qed.

Lemma of_le_le n z : of_le (le n z) = z mod 2 ^ (8 * Z.of_nat n).
Proof.
  revert z. induction n as [|n IH]; intros z; cbn [le of_le].
  - change (2 ^ (8 * Z.of_nat 0)) with 1. by rewrite Z.mod_1_r.
  - rewrite IH. replace (8 * Z.of_nat (S n)) with (8 + 8 * Z.of_nat n) by lia.
    rewrite Z.pow_add_r by lia. change (2 ^ 8) with 256.
    rewrite Z.rem_mul_r by lia. lia.
Qed.

Lemma le_mod n z : le n (z mod 2 ^ (8 * Z.of_nat n)) = le n z.
Proof.
  revert z. induction n as [|n IH]; intros z; [done|]. cbn [le].
  replace (8 * Z.of_nat (S n)) with (8 + 8 * Z.of_nat n) by lia.
  rewrite Z.pow_add_r by lia. change (2 ^ 8) with 256.
  pose proof (Z.pow_pos_nonneg 2 (8 * Z.of_nat n) ltac:(lia) ltac:(lia)) as Hp.
  rewrite Z.rem_mul_r by lia. f_equal.
  - rewrite Z.mul_comm, Z.mod_add by lia. by rewrite Z.mod_mod by lia.
  - rewrite Z.add_comm, Z.mul_comm, Z.div_add_l by lia.
    rewrite (Z.div_small (z mod 256)) by (apply Z.mod_pos_bound; lia).
    by rewrite Z.add_0_r, IH.
Qed.

Lemma of_le_range l : Forall is_byte l -> 0 <= of_le l < 2 ^ (8 * Z.of_nat (length l)).
Proof.
  induction 1 as [|b l Hb Hl IH]; cbn [of_le length]; [done|].
  replace (8 * Z.of_nat (S (length l))) with (8 + 8 * Z.of_nat (length l)) by lia.
  rewrite Z.pow_add_r by lia. unfold is_byte in Hb. change (2 ^ 8) with 256. lia.
Qed.

Lemma le_of_le l : Forall is_byte l -> le (length l) (of_le l) = l.
Proof.
  induction 1 as [|b l Hb Hl IH]; cbn [of_le length le]; [done|]. unfold is_byte in Hb.
  rewrite (Z.mul_comm 256), Z.mod_add, Z.div_add, Z.div_small, Z.mod_small, Z.add_0_l by lia. by rewrite IH.
Qed.

Lemma of_le32 z : 0 <= z < 2 ^ 32 -> of_le (le32 z) = z.
Proof. intros. unfold le32. rewrite of_le_le. by apply Z.mod_small. Qed.

(** ** Arrays of fixed size *)

(** [memcpy(l + i, bs, zlen bs)]: nothing may be stored outside [l]. *)
Definition mem_write {A} (l : list A) (i : Z) (bs : list A) : result (list A) :=
  if (0 <=? i) && (i + zlen bs <=? zlen l)
  then Ok (take (Z.to_nat i) l ++ bs ++ drop (Z.to_nat (i + zlen bs)) l)
  else Stray Wr.

Lemma mem_write_ok {A} (l : list A) i bs :
  0 <= i -> i + zlen bs <= zlen l ->
  exists l', mem_write l i bs = Ok l' /\ zlen l' = zlen l /\
    take (Z.to_nat (i + zlen bs)) l' = take (Z.to_nat i) l ++ bs.
Proof.
  intros Hi Hl. unfold mem_write. pose proof (zlen_nonneg bs).
  destruct (Z.leb_spec 0 i); [|lia]. destruct (Z.leb_spec (i + zlen bs) (zlen l)); [|lia].
  simpl. eexists. split; [done|]. split.
  - unfold zlen in *. rewrite !length_app, length_take, length_drop. lia.
  - rewrite app_assoc. apply take_app_length'. unfold zlen in *.
    rewrite length_app, length_take. lia.
Qed.

Lemma zslice_all {A} (l : list A) : zslice l 0 (zlen l) = l.
Proof. unfold zslice, zlen. rewrite Nat2Z.id. apply firstn_all. Qed.

Lemma zlen_drop {A} (l : list A) n : 0 <= n <= zlen l -> zlen (drop (Z.to_nat n) l) = zlen l - n.
Proof. unfold zlen. intros. rewrite length_drop. lia. Qed.

(** ** Aborting as the only error *)

(** [m] returns a value that satisfies [P]; it aborts only when [up] fails; it
    never touches memory outside an object or runs out of fuel. *)
Definition outcome {A} (up : Prop) (m : result A) (P : A -> Prop) : Prop :=
  match m with
  | Ok a => P a
  | Fatal => ~ up
  | _ => False
  end.

Lemma outcome_bind {A B} up (m : result A) (f : A -> result B) P Q :
  outcome up m P -> (forall a, P a -> outcome up (f a) Q) -> outcome up (m ≫= f) Q.
Proof. destruct m; simpl; auto; contradiction. Qed.

Lemma outcome_mono {A} up (m : result A) (P Q : A -> Prop) :
  outcome up m P -> (forall a, P a -> Q a) -> outcome up m Q.
Proof. destruct m; simpl; auto. Qed.

Lemma outcome_assert up c (P : unit -> Prop) :
  (up -> c = true) -> (c = true -> P ()) -> outcome up (assert c) P.
Proof. destruct c; simpl; auto. intros H _ Hu. by specialize (H Hu). Qed.

(** With [up], the outcome is a value. *)
Lemma outcome_up {A} up (m : result A) (P : A -> Prop) :
  outcome up m P -> up -> exists a, m = Ok a /\ P a.
Proof. destruct m; simpl; [eauto|contradiction..]. Qed.

Lemma outcome_Ok {A} up (m : result A) (P : A -> Prop) a :
  outcome up m P -> m = Ok a -> P a.
Proof. by intros H ->. Qed.

(** The bytes [l[i .. i + n)] handed to a callee. *)
Definition mem_read {A} (l : list A) (i n : Z) : result (list A) :=
  if (0 <=? i) && (0 <=? n) && (i + n <=? zlen l) then Ok (zslice l i n) else Stray Rd.

Lemma mem_read_ok {A} (l : list A) i n :
  0 <= i -> 0 <= n -> i + n <= zlen l -> mem_read l i n = Ok (zslice l i n).
Proof.
  intros. unfold mem_read. destruct (Z.leb_spec 0 i), (Z.leb_spec 0 n),
    (Z.leb_spec (i + n) (zlen l)); try lia. done.
Qed.

Lemma Forall_mem_write {A} (P : A -> Prop) (l : list A) i bs l' :
  Forall P l -> Forall P bs -> mem_write l i bs = Ok l' -> Forall P l'.
Proof.
  intros Hl Hb. unfold mem_write. destruct (_ && _); [|done]. intros [= <-].
  rewrite !Forall_app. auto using Forall_take, Forall_drop.
Qed.

(** A filter that drops nothing. *)
Lemma filter_all {A} (P : A -> Prop) `{!forall x, Decision (P x)} (l : list A) : Forall P l -> filter P l = l.
Proof.
  induction 1 as [|x l Hx Hl IH]; [done|]. by rewrite filter_cons, decide_True, IH by done.
Qed.

(** ** Stores *)

(** [bs] stored at [i]. *)
Definition poke {A} (l : list A) (i : Z) (bs : list A) : list A :=
  take (Z.to_nat i) l ++ bs ++ drop (Z.to_nat (i + zlen bs)) l.

Lemma mem_write_poke {A} (l : list A) i bs : 0 <= i -> i + zlen bs <= zlen l -> mem_write l i bs = Ok (poke l i bs).
Proof. intros Hi Hl. unfold mem_write. by destruct (Z.leb_spec 0 i), (Z.leb_spec (i + zlen bs) (zlen l)); try lia. Qed.

Lemma zlen_poke {A} (l : list A) i bs : 0 <= i -> i + zlen bs <= zlen l -> zlen (poke l i bs) = zlen l.
Proof.
  intros Hi Hl. unfold poke, zlen in *. rewrite !length_app, length_take, length_drop. lia.
Qed.

(** Two stores in a row are one. *)
Lemma poke_poke {A} (l : list A) i a b :
  0 <= i -> i + zlen a + zlen b <= zlen l -> poke (poke l i a) (i + zlen a) b = poke l i (a ++ b).
Proof.
  intros Hi Hl. unfold poke, zlen in *. rewrite length_app, !app_assoc. f_equal.
  - f_equal. rewrite take_app_le by (rewrite length_app, length_take; lia).
    rewrite take_ge by (rewrite length_app, length_take; lia). done.
  - rewrite drop_app_ge by (rewrite length_app, length_take; lia).
    rewrite drop_drop, length_app, length_take. f_equal. lia.
Qed.

(** Storing what was there undoes a store. *)
Lemma poke_undo {A} (l : list A) i bs :
  0 <= i -> i + zlen bs <= zlen l -> poke (poke l i bs) i (zslice l i (zlen bs)) = l.
Proof.
  intros Hi Hl. pose proof (zlen_nonneg bs).
  assert (E1 : take (Z.to_nat i) (poke l i bs) = take (Z.to_nat i) l).
  { unfold poke, zlen in *. apply take_app_length'. rewrite length_take. lia. }
  assert (E2 : drop (Z.to_nat (i + zlen bs)) (poke l i bs) = drop (Z.to_nat (i + zlen bs)) l).
  { unfold poke, zlen in *. rewrite app_assoc. apply drop_app_length'. rewrite length_app, length_take. lia. }
  unfold poke at 1. rewrite zlen_zslice, E1, E2 by lia. rewrite app_assoc, take_zslice by lia. apply take_drop.
Qed.

(** Reading what was stored, and what was not. *)
Lemma zslice_poke {A} (l : list A) i bs :
  0 <= i -> i + zlen bs <= zlen l -> zslice (poke l i bs) i (zlen bs) = bs.
Proof.
  intros Hi Hl. unfold poke, zslice, zlen in *. rewrite drop_app_length' by (rewrite length_take; lia).
  apply take_app_length'. lia.
Qed.

Lemma lookup_poke {A} (l : list A) i bs (j : nat) :
  0 <= i -> i + zlen bs <= zlen l -> Z.of_nat j < i \/ i + zlen bs <= Z.of_nat j -> poke l i bs !! j = l !! j.
Proof.
  intros Hi Hl Hj. unfold poke, zlen in *. destruct Hj.
  - rewrite lookup_app_l by (rewrite length_take; lia). apply lookup_take_lt. lia.
  - rewrite app_assoc, lookup_app_r by (rewrite length_app, length_take; lia).
    rewrite lookup_drop, length_app, length_take. f_equal. lia.
Qed.

Lemma zslice_ext {A} (l l' : list A) i n :
  0 <= i -> 0 <= n -> (forall j : nat, i <= Z.of_nat j < i + n -> l !! j = l' !! j) -> zslice l i n = zslice l' i n.
Proof.
  intros Hi Hn Hl. unfold zslice. apply list_eq. intros x. destruct (decide (x < Z.to_nat n)%nat).
  - rewrite !lookup_take_lt, !lookup_drop by done. apply Hl. lia.
  - by rewrite !lookup_take_ge by lia.
Qed.

Lemma zslice_poke_apart {A} (l : list A) i bs j n :
  0 <= i -> i + zlen bs <= zlen l -> 0 <= j -> 0 <= n -> j + n <= i \/ i + zlen bs <= j ->
  zslice (poke l i bs) j n = zslice l j n.
Proof. intros Hi Hl Hj Hn Hap. apply zslice_ext; [done..|]. intros x Hx. apply lookup_poke; lia. Qed.
