(* ===== verification/Kernel.v ===== *)
(** The operating system as the program sees it: the system calls issued by the
    wrappers of [src/src/core/loader/syscall.c].

    The kernel is not part of the program, so it is a parameter: a class
    [Kernel] of its calls over an abstract state [K], a class [KernelFiles] of
    the documented behaviour of files the program relies on, and a class
    [KernelUp] of a kernel whose calls succeed. [Ram] is a small kernel that
    satisfies both; the witnesses run on it. *)
From S2P Require Import Prelude.

(** linux/fcntl.h *)
Definition O_RDONLY : Z := 0.
Definition O_WRONLY : Z := 1.
Definition O_CREAT : Z := 64.
Definition O_TRUNC : Z := 512.
Definition O_APPEND : Z := 1024.

Definition has_flag (flags f : Z) : bool := negb (Z.land flags f =? 0).

(** A file name is its bytes without the terminating zero. *)
Abbreviation fname := (list Z) (only parsing).

Class Kernel (K : Type) := {
  sys_write : K -> Z -> list Z -> Z * K;
  sys_open : K -> fname -> Z -> Z -> Z * K;
  sys_close : K -> Z -> Z * K;
  (** the return value and the bytes stored at the start of the buffer *)
  sys_read : K -> Z -> Z -> Z * list Z * K;
  (** the error code and [st_size] *)
  sys_stat64 : K -> fname -> Z * Z * K;
  sys_mprotect : K -> Z -> Z -> Z -> Z * K;
  sys_brk : K -> Z -> Z * K
}.

(** What open(2), write(2) and close(2) promise about the bytes of a file that
    is opened to be truncated or appended to and written in sequence:
    [file_bytes k fn] are the bytes of the file named [fn], [fd_file k fd] is
    the file a descriptor is open on. *)
Class KernelFiles (K : Type) `{Kernel K} := {
  file_bytes : K -> fname -> list Z;
  fd_file : K -> Z -> option fname;
  open_ok : forall k fn flags mode fd k',
    sys_open k fn flags mode = (fd, k') -> 0 <= fd ->
    has_flag flags O_TRUNC || has_flag flags O_APPEND = true ->
    fd_file k' fd = Some fn /\
    file_bytes k' fn = (if has_flag flags O_TRUNC then [] else file_bytes k fn);
  open_fail : forall k fn flags mode fd k' fn',
    sys_open k fn flags mode = (fd, k') -> fd < 0 -> file_bytes k' fn' = file_bytes k fn';
  write_range : forall k fd l n k', sys_write k fd l = (n, k') -> - 4095 <= n <= zlen l;
  write_ok : forall k fd fn l k',
    fd_file k fd = Some fn -> sys_write k fd l = (zlen l, k') ->
    fd_file k' fd = Some fn /\ file_bytes k' fn = file_bytes k fn ++ l;
  close_ok : forall k fd n k' fn,
    sys_close k fd = (n, k') -> file_bytes k' fn = file_bytes k fn
}.

(** A kernel with room on its disks: every open succeeds, a write to an open
    descriptor is complete, and so is a close. *)
Class KernelUp (K : Type) `{KernelFiles K} : Prop := {
  open_up : forall k fn flags mode, 0 <= (sys_open k fn flags mode).1;
  write_up : forall k fd fn l,
    fd_file k fd = Some fn -> (sys_write k fd l).1 = zlen l;
  close_up : forall k fd fn, fd_file k fd = Some fn -> (sys_close k fd).1 = 0
}.

(** ** Complete writes *)

(** The program writes with [err = sys_write(...); assert(err == size)], where
    [size] is unsigned: past the assertion the bytes are in the file. *)
Section writes.
Context {K : Type} `{KernelFiles K} (up : Prop) (Hup : up -> KernelUp K).

Lemma write_asserted {A} k fd fn l n (f : K -> result A) Q :
  n = zlen l -> zlen l < 2 ^ 31 -> fd_file k fd = Some fn ->
  (forall k', fd_file k' fd = Some fn -> file_bytes k' fn = file_bytes k fn ++ l ->
     outcome up (f k') Q) ->
  outcome up (let '(err, k') := sys_write k fd l in _ ← assert (u32 err =? n); f k') Q.
Proof.
  intros -> Hl Hfd Hf. destruct (sys_write k fd l) as [err k'] eqn:Hw.
  pose proof (write_range _ _ _ _ _ Hw) as Hr. pose proof (zlen_nonneg l).
  apply (outcome_bind _ _ _ (fun _ => err = zlen l)).
  - apply outcome_assert.
    + intros Hu. destruct (Hup Hu) as [_ Hwu _]. specialize (Hwu _ _ _ l Hfd).
      rewrite Hw in Hwu. simpl in Hwu. subst err. rewrite u32_small by lia. apply Z.eqb_refl.
    + intros E%Z.eqb_eq. unfold u32 in E. Z.div_mod_to_equations. lia.
  - intros _ ->. destruct (write_ok _ _ _ _ _ Hfd Hw). auto.
Qed.

End writes.

Module Ram.

Record ram := Ramk {
  files : gmap fname (list Z);
  fds : gmap Z fname
}.

Definition bytes (k : ram) (fn : fname) : list Z := default [] (files k !! fn).

Definition write (k : ram) (fd : Z) (l : list Z) : Z * ram :=
  match fds k !! fd with
  | Some fn => (zlen l, Ramk (<[fn := bytes k fn ++ l]> (files k)) (fds k))
  | None => (-9, k)
  end.

(** A descriptor above the open ones. *)
Definition next_fd (k : ram) : Z := foldr (fun r a => Z.max (r.1 + 1) a) 3 (map_to_list (fds k)).

Definition open (k : ram) (fn : fname) (flags mode : Z) : Z * ram :=
  let fd := next_fd k in
  let d := if has_flag flags O_TRUNC then [] else bytes k fn in
  (fd, Ramk (<[fn := d]> (files k)) (<[fd := fn]> (fds k))).

Definition close (k : ram) (fd : Z) : Z * ram :=
  match fds k !! fd with
  | Some _ => (0, Ramk (files k) (delete fd (fds k)))
  | None => (-9, k)
  end.

Lemma next_fd_spec k : 3 <= next_fd k /\ forall fd fn, fds k !! fd = Some fn -> fd < next_fd k.
Proof.
  assert (Hl : forall l, 3 <= foldr (fun (r : Z * fname) a => Z.max (r.1 + 1) a) 3 l /\
    forall r, r ∈ l -> r.1 < foldr (fun r a => Z.max (r.1 + 1) a) 3 l).
  { induction l as [|r l [IH1 IH2]]; cbn [foldr]; [split; [lia|by intros r Hr; apply not_elem_of_nil in Hr]|].
    split; [lia|]. intros r' [->|Hr]%elem_of_cons; [lia|]. apply IH2 in Hr. lia. }
  split; [apply Hl|]. intros fd fn Hfd. by apply (proj2 (Hl _) (fd, fn)), elem_of_map_to_list.
Qed.

#[global] Instance ram_kernel : Kernel ram := {
  sys_write := write;
  sys_open := open;
  sys_close := close;
  sys_read k fd n :=
    match fds k !! fd with
    | Some fn => let d := take (Z.to_nat n) (bytes k fn) in (zlen d, d, k)
    | None => (-9, [], k)
    end;
  sys_stat64 k fn :=
    match files k !! fn with Some d => (0, zlen d, k) | None => (-2, 0, k) end;
  sys_mprotect k _ _ _ := (0, k);
  sys_brk k _ := (0x8100000, k)
}.

#[global] Program Instance ram_files : KernelFiles ram := {
  file_bytes := bytes;
  fd_file k fd := fds k !! fd
}.
Next Obligation.
  intros k fn flags mode fd k' [= <- <-] _ _. unfold bytes; simpl.
  rewrite !lookup_insert_eq. by destruct (has_flag flags O_TRUNC).
Qed.
Next Obligation. intros k fn flags mode fd k' fn' [= <- <-]. pose proof (proj1 (next_fd_spec k)). lia. Qed.
Next Obligation.
  intros k fd l n k'. simpl. unfold write. pose proof (zlen_nonneg l).
  destruct (fds k !! fd); intros [= <- <-]; lia.
Qed.
Next Obligation.
  intros k fd fn l k' Hfd. simpl. unfold write. rewrite Hfd. intros [= <-].
  split; [done|]. unfold bytes at 1; simpl. by rewrite lookup_insert_eq.
Qed.
Next Obligation.
  intros k fd n k' fn. simpl. unfold close. destruct (fds k !! fd); by intros [= <- <-].
Qed.

#[global] Program Instance ram_up : KernelUp ram.
Next Obligation. intros k fn flags mode. simpl. pose proof (proj1 (next_fd_spec k)). lia. Qed.
Next Obligation. intros k fd fn l Hfd. simpl in *. unfold write. by rewrite Hfd. Qed.
Next Obligation. intros k fd fn Hfd. simpl in *. unfold close. by rewrite Hfd. Qed.

Definition empty : ram := Ramk ∅ ∅.

End Ram.
