(* ===== verification/Ctype.v ===== *)
(** Character classes: the table of [src/src/lib/ctype.c] and the macros of
    [linux/ctype.h] that read it. *)
From S2P Require Import Prelude.

Module Ctype.

Definition _U : Z := 0x01.
Definition _L : Z := 0x02.
Definition _D : Z := 0x04.
Definition _C : Z := 0x08.
Definition _P : Z := 0x10.
Definition _S : Z := 0x20.
Definition _X : Z := 0x40.
Definition _SP : Z := 0x80.

(** The 256 entries, row by row. *)
Definition _ctype : list Z :=
  replicate 8 _C ++
  [_C; Z.lor _C _S; Z.lor _C _S; Z.lor _C _S; Z.lor _C _S; Z.lor _C _S; _C; _C] ++
  replicate 16 _C ++
  [Z.lor _S _SP] ++ replicate 15 _P ++
  replicate 10 _D ++ replicate 6 _P ++
  [_P] ++ replicate 6 (Z.lor _U _X) ++ replicate 20 _U ++ replicate 5 _P ++
  [_P] ++ replicate 6 (Z.lor _L _X) ++ replicate 20 _L ++ replicate 4 _P ++ [_C] ++
  replicate 32 0 ++
  [Z.lor _S _SP] ++ replicate 31 _P ++
  replicate 23 _U ++ [_P] ++ replicate 7 _U ++ [_L] ++
  replicate 23 _L ++ [_P] ++ replicate 8 _L.

(** [__ismask(x)]: the index is a converted [unsigned char], so the access is
    in range for every argument. *)
Definition __ismask (x : Z) : Z := nth (Z.to_nat (u8 x)) _ctype 0.
Definition has_mask (x m : Z) : bool := negb (Z.land (__ismask x) m =? 0).

Definition isdigit (c : Z) : bool := has_mask c _D.
Definition isspace (c : Z) : bool := has_mask c _S.
Definition isupper (c : Z) : bool := has_mask c _U.
Definition islower (c : Z) : bool := has_mask c _L.
Definition isalpha (c : Z) : bool := has_mask c (Z.lor _U _L).
Definition isalnum (c : Z) : bool := has_mask c (Z.lor (Z.lor _U _L) _D).
Definition isxdigit (c : Z) : bool := has_mask c (Z.lor _D _X).
Definition isprint (c : Z) : bool :=
  has_mask c (Z.lor (Z.lor (Z.lor (Z.lor _P _U) _L) _D) _SP).

Definition tolower (c : Z) : Z := let c := u8 c in if isupper c then u8 (c + 32) else c.
Definition toupper (c : Z) : Z := let c := u8 c in if islower c then u8 (c - 32) else c.

(** ** Facts, by inspection of the 256 characters *)

Lemma ctype_length : length _ctype = 256%nat.
Proof. by vm_compute. Qed.

Lemma char_ind (Q : Z -> Prop) (D : forall c, Decision (Q c)) :
  forallb (fun c => bool_decide (Q c)) (map Z.of_nat (seq 0 256)) = true ->
  forall c, is_byte c -> Q c.
Proof.
  intros HQ c Hc. rewrite forallb_forall in HQ. apply (bool_decide_unpack (Q c)).
  apply Is_true_true, HQ, in_map_iff. exists (Z.to_nat c). unfold is_byte in Hc.
  split; [lia|]. apply in_seq. lia.
Qed.

(** Decides a property of all characters by evaluating it. *)
Ltac by_chars :=
  refine (char_ind _ _ _); vm_compute; reflexivity.

(** The ASCII classes are what their names say. *)
Lemma isdigit_spec c : is_byte c -> isdigit c = (48 <=? c) && (c <=? 57).
Proof. revert c. by_chars. Qed.

Lemma isxdigit_spec c :
  is_byte c -> isxdigit c =
    (48 <=? c) && (c <=? 57) || (65 <=? c) && (c <=? 70) || (97 <=? c) && (c <=? 102).
Proof. revert c. by_chars. Qed.

Lemma isspace_spec c :
  is_byte c -> isspace c = (c =? 32) || (9 <=? c) && (c <=? 13) || (c =? 160).
Proof. revert c. by_chars. Qed.

Lemma isspace_0 : isspace 0 = false.
Proof. by vm_compute. Qed.

Lemma tolower_ascii c :
  0 <= c < 128 -> tolower c = if (65 <=? c) && (c <=? 90) then c + 32 else c.
Proof.
  intros Hc. assert (Hb : is_byte c) by (unfold is_byte; lia). revert Hc. revert c Hb. by_chars.
Qed.

(** Folding to lower case is idempotent on all 256 characters, Latin-1
    letters included, and gives a character with no upper-case class. *)
Lemma tolower_idempotent c :
  is_byte c -> tolower (tolower c) = tolower c /\ isupper (tolower c) = false.
Proof. revert c. by_chars. Qed.

End Ctype.
