(* ===== verification/CString.v ===== *)
(** The string library, [src/src/lib/string.c].

    On i386 the build replaces the ones named in asm/string_32.h by assembly
    (StringAsm.v); the C versions are what StringAsmFacts.v compares it with.

    All strings live in one byte array [m] (so that areas may overlap), a
    pointer is an index into it and [NULL] is [None]. A byte is kept as its
    unsigned value; comparisons of two [char]s for equality do not depend on
    their sign. A loop that moves a pointer upwards until it meets a NUL gets
    one round per byte of memory, after which the pointer is outside it. *)
From S2P Require Import Prelude Ctype.

Module Str.
Import Ctype.

Abbreviation NULL := (@None Z).

(** [*p = b] *)
Definition wr (m : list Z) (p b : Z) : result (list Z) :=
  if (0 <=? p) && (p <? zlen m) then Ok (<[Z.to_nat p := u8 b]> m) else Stray Wr.

Definition rounds (m : list Z) : nat := S (length m).

(** ** Comparison *)

(** The body after [do]; [n] is the number of rounds [len] allows. *)
Fixpoint strnicmp_loop (n : nat) (m : list Z) (s1 s2 : Z) : result Z :=
  c1 ← rd m s1;
  c2 ← rd m s2;
  if (c1 =? 0) || (c2 =? 0) then Ok (c1 - c2)
  else
    let next c1 c2 :=
      match n with
      | O | S O => Ok (c1 - c2)
      | S n => strnicmp_loop n m (s1 + 1) (s2 + 1)
      end in
    if c1 =? c2 then next c1 c2
    else
      let c1 := tolower c1 in
      let c2 := tolower c2 in
      if negb (c1 =? c2) then Ok (c1 - c2) else next c1 c2.

Definition strnicmp (m : list Z) (s1 s2 len : Z) : result Z :=
  if len =? 0 then Ok 0 else strnicmp_loop (Z.to_nat len) m s1 s2.

Fixpoint strcasecmp_loop (fuel : nat) (m : list Z) (s1 s2 : Z) : result Z :=
  match fuel with
  | O => NoFuel
  | S fuel =>
      b1 ← rd m s1; b2 ← rd m s2;
      let c1 := tolower b1 in
      let c2 := tolower b2 in
      if (c1 =? c2) && negb (c1 =? 0) then strcasecmp_loop fuel m (s1 + 1) (s2 + 1)
      else Ok (c1 - c2)
  end.
Definition strcasecmp (m : list Z) (s1 s2 : Z) : result Z :=
  strcasecmp_loop (rounds m) m s1 s2.

(** [n] is decremented before it is tested: 0 wraps around. *)
Fixpoint strncasecmp_loop (fuel : nat) (m : list Z) (s1 s2 n : Z) : result Z :=
  match fuel with
  | O => NoFuel
  | S fuel =>
      b1 ← rd m s1; b2 ← rd m s2;
      let c1 := tolower b1 in
      let c2 := tolower b2 in
      let n := u32 (n - 1) in
      if (0 <? n) && (c1 =? c2) && negb (c1 =? 0)
      then strncasecmp_loop fuel m (s1 + 1) (s2 + 1) n
      else Ok (c1 - c2)
  end.
Definition strncasecmp (m : list Z) (s1 s2 n : Z) : result Z :=
  strncasecmp_loop (rounds m) m s1 s2 n.

Fixpoint strcmp_loop (fuel : nat) (m : list Z) (cs ct : Z) : result Z :=
  match fuel with
  | O => NoFuel
  | S fuel =>
      c1 ← rd m cs; c2 ← rd m ct;
      if negb (c1 =? c2) then Ok (if c1 <? c2 then -1 else 1)
      else if c1 =? 0 then Ok 0
      else strcmp_loop fuel m (cs + 1) (ct + 1)
  end.
Definition strcmp (m : list Z) (cs ct : Z) : result Z := strcmp_loop (rounds m) m cs ct.

Fixpoint strncmp_loop (n : nat) (m : list Z) (cs ct : Z) : result Z :=
  match n with
  | O => Ok 0
  | S n =>
      c1 ← rd m cs; c2 ← rd m ct;
      if negb (c1 =? c2) then Ok (if c1 <? c2 then -1 else 1)
      else if c1 =? 0 then Ok 0
      else strncmp_loop n m (cs + 1) (ct + 1)
  end.
Definition strncmp (m : list Z) (cs ct count : Z) : result Z :=
  strncmp_loop (Z.to_nat count) m cs ct.

Fixpoint memcmp_loop (n : nat) (m : list Z) (su1 su2 : Z) : result Z :=
  match n with
  | O => Ok 0
  | S n =>
      b1 ← rd m su1; b2 ← rd m su2;
      let res := b1 - b2 in
      if negb (res =? 0) then Ok res else memcmp_loop n m (su1 + 1) (su2 + 1)
  end.
Definition memcmp (m : list Z) (cs ct count : Z) : result Z :=
  memcmp_loop (Z.to_nat count) m cs ct.

Fixpoint sysfs_loop (fuel : nat) (m : list Z) (s1 s2 : Z) : result (Z * Z) :=
  match fuel with
  | O => NoFuel
  | S fuel =>
      b1 ← rd m s1;
      if b1 =? 0 then Ok (s1, s2)
      else
        b2 ← rd m s2;
        if b1 =? b2 then sysfs_loop fuel m (s1 + 1) (s2 + 1) else Ok (s1, s2)
  end.
Definition sysfs_streq (m : list Z) (s1 s2 : Z) : result bool :=
  '(s1, s2) ← sysfs_loop (rounds m) m s1 s2;
  b1 ← rd m s1; b2 ← rd m s2;
  if b1 =? b2 then Ok true
  else
    r1 ← (if (b1 =? 0) && (b2 =? 10) then c ← rd m (s2 + 1); Ok (c =? 0) else Ok false);
    if (r1 : bool) then Ok true
    else
      r2 ← (if b1 =? 10 then c ← rd m (s1 + 1); Ok ((c =? 0) && (b2 =? 0)) else Ok false);
      Ok (r2 : bool).

(** ** Length and search *)

Fixpoint strlen_loop (fuel : nat) (m : list Z) (sc : Z) : result Z :=
  match fuel with
  | O => NoFuel
  | S fuel => b ← rd m sc; if b =? 0 then Ok sc else strlen_loop fuel m (sc + 1)
  end.
Definition strlen (m : list Z) (s : Z) : result Z :=
  sc ← strlen_loop (rounds m) m s; Ok (sc - s).

Fixpoint strnlen_loop (n : nat) (m : list Z) (sc : Z) : result Z :=
  match n with
  | O => Ok sc
  | S n => b ← rd m sc; if b =? 0 then Ok sc else strnlen_loop n m (sc + 1)
  end.
(** A count beyond the size of the memory cannot be used up. *)
Definition strnlen (m : list Z) (s count : Z) : result Z :=
  sc ← strnlen_loop (Z.to_nat (Z.min count (zlen m + 1))) m s; Ok (sc - s).

Fixpoint strchr_loop (fuel : nat) (m : list Z) (s c : Z) : result (option Z) :=
  match fuel with
  | O => NoFuel
  | S fuel =>
      b ← rd m s;
      if negb (b =? u8 c) then
        if b =? 0 then Ok NULL else strchr_loop fuel m (s + 1) c
      else Ok (Some s)
  end.
Definition strchr (m : list Z) (s c : Z) : result (option Z) := strchr_loop (rounds m) m s c.

(** [n] is [p - s], so the loop ends after [p == s]. *)
Fixpoint strrchr_loop (n : nat) (m : list Z) (s c : Z) : result (option Z) :=
  let p := s + Z.of_nat n in
  b ← rd m p;
  if b =? u8 c then Ok (Some p)
  else match n with
       | O => Ok NULL
       | S n => strrchr_loop n m s c
       end.
Definition strrchr (m : list Z) (s c : Z) : result (option Z) :=
  n ← strlen m s; strrchr_loop (Z.to_nat n) m s c.

Fixpoint strnchr_loop (n : nat) (m : list Z) (s c : Z) : result (option Z) :=
  match n with
  | O => Ok NULL
  | S n =>
      b ← rd m s;
      if b =? 0 then Ok NULL
      else if b =? u8 c then Ok (Some s) else strnchr_loop n m (s + 1) c
  end.
Definition strnchr (m : list Z) (s count c : Z) : result (option Z) :=
  strnchr_loop (Z.to_nat count) m s c.

Fixpoint memscan_loop (n : nat) (m : list Z) (p c : Z) : result Z :=
  match n with
  | O => Ok p
  | S n => b ← rd m p; if b =? c then Ok p else memscan_loop n m (p + 1) c
  end.
Definition memscan (m : list Z) (addr c size : Z) : result Z :=
  memscan_loop (Z.to_nat size) m addr c.

Fixpoint memchr_loop (n : nat) (m : list Z) (p c : Z) : result (option Z) :=
  match n with
  | O => Ok NULL
  | S n => b ← rd m p; if u8 c =? b then Ok (Some p) else memchr_loop n m (p + 1) c
  end.
Definition memchr (m : list Z) (s c n : Z) : result (option Z) :=
  memchr_loop (Z.to_nat n) m s c.

(** Whether a character is in the NUL-terminated set at [a]: the inner loop of
    [strspn], [strcspn] and [strpbrk]. *)
Fixpoint in_set (fuel : nat) (m : list Z) (b a : Z) : result bool :=
  match fuel with
  | O => NoFuel
  | S fuel =>
      x ← rd m a;
      if x =? 0 then Ok false else if b =? x then Ok true else in_set fuel m b (a + 1)
  end.

Fixpoint strspn_loop (fuel : nat) (m : list Z) (p accept count : Z) : result Z :=
  match fuel with
  | O => NoFuel
  | S fuel =>
      b ← rd m p;
      if b =? 0 then Ok count
      else
        f ← in_set (rounds m) m b accept;
        if (f : bool) then strspn_loop fuel m (p + 1) accept (count + 1) else Ok count
  end.
Definition strspn (m : list Z) (s accept : Z) : result Z :=
  strspn_loop (rounds m) m s accept 0.

Fixpoint strcspn_loop (fuel : nat) (m : list Z) (p reject count : Z) : result Z :=
  match fuel with
  | O => NoFuel
  | S fuel =>
      b ← rd m p;
      if b =? 0 then Ok count
      else
        f ← in_set (rounds m) m b reject;
        if (f : bool) then Ok count else strcspn_loop fuel m (p + 1) reject (count + 1)
  end.
Definition strcspn (m : list Z) (s reject : Z) : result Z :=
  strcspn_loop (rounds m) m s reject 0.

Fixpoint strpbrk_loop (fuel : nat) (m : list Z) (sc1 ct : Z) : result (option Z) :=
  match fuel with
  | O => NoFuel
  | S fuel =>
      b ← rd m sc1;
      if b =? 0 then Ok NULL
      else
        f ← in_set (rounds m) m b ct;
        if (f : bool) then Ok (Some sc1) else strpbrk_loop fuel m (sc1 + 1) ct
  end.
Definition strpbrk (m : list Z) (cs ct : Z) : result (option Z) :=
  strpbrk_loop (rounds m) m cs ct.

(** The token, the new [*s] and memory; the [*s] passed in may be [NULL]. *)
Definition strsep (m : list Z) (s : option Z) (ct : Z) :
    result (option Z * option Z * list Z) :=
  match s with
  | None => Ok (NULL, NULL, m)
  | Some sbegin =>
      e ← strpbrk m sbegin ct;
      match e with
      | Some e => m ← wr m e 0; Ok (Some sbegin, Some (e + 1), m)
      | None => Ok (Some sbegin, NULL, m)
      end
  end.

(** [l1] counts down; [l] is its value at the head of the [while]. *)
Fixpoint strstr_loop (fuel : nat) (m : list Z) (s1 s2 l1 l2 : Z) : result (option Z) :=
  if l2 <=? l1 then
    match fuel with
    | O => NoFuel
    | S fuel =>
        r ← memcmp m s1 s2 l2;
        if r =? 0 then Ok (Some s1) else strstr_loop fuel m (s1 + 1) s2 (l1 - 1) l2
    end
  else Ok NULL.
Definition strstr (m : list Z) (s1 s2 : Z) : result (option Z) :=
  l2 ← strlen m s2;
  if l2 =? 0 then Ok (Some s1)
  else
    l1 ← strlen m s1;
    strstr_loop (S (Z.to_nat l1)) m s1 s2 l1 l2.

Definition strnstr (m : list Z) (s1 s2 len : Z) : result (option Z) :=
  l2 ← strlen m s2;
  if l2 =? 0 then Ok (Some s1)
  else strstr_loop (S (Z.to_nat len)) m s1 s2 len l2.

(** ** Copying *)

Fixpoint strcpy_loop (fuel : nat) (m : list Z) (dest src : Z) : result (list Z) :=
  match fuel with
  | O => NoFuel
  | S fuel =>
      b ← rd m src;
      m ← wr m dest b;
      if b =? 0 then Ok m else strcpy_loop fuel m (dest + 1) (src + 1)
  end.
Definition strcpy (m : list Z) (dest src : Z) : result (list Z) :=
  strcpy_loop (rounds m) m dest src.

Fixpoint strncpy_loop (n : nat) (m : list Z) (tmp src : Z) : result (list Z) :=
  match n with
  | O => Ok m
  | S n =>
      b ← rd m src;
      m ← wr m tmp b;
      strncpy_loop n m (tmp + 1) (if b =? 0 then src else src + 1)
  end.
Definition strncpy (m : list Z) (dest src count : Z) : result (list Z) :=
  strncpy_loop (Z.to_nat count) m dest src.

Fixpoint memset_loop (n : nat) (m : list Z) (xs c : Z) : result (list Z) :=
  match n with
  | O => Ok m
  | S n => m ← wr m xs c; memset_loop n m (xs + 1) c
  end.
Definition memset (m : list Z) (s c count : Z) : result (list Z) :=
  memset_loop (Z.to_nat count) m s c.

Fixpoint memcpy_loop (n : nat) (m : list Z) (tmp s : Z) : result (list Z) :=
  match n with
  | O => Ok m
  | S n => b ← rd m s; m ← wr m tmp b; memcpy_loop n m (tmp + 1) (s + 1)
  end.
Definition memcpy (m : list Z) (dest src count : Z) : result (list Z) :=
  memcpy_loop (Z.to_nat count) m dest src.

(** The loop that copies from the end; [n] bytes are left. *)
Fixpoint memmove_down (n : nat) (m : list Z) (dest src : Z) : result (list Z) :=
  match n with
  | O => Ok m
  | S n =>
      b ← rd m (src + Z.of_nat n);
      m ← wr m (dest + Z.of_nat n) b;
      memmove_down n m dest src
  end.
Definition memmove (m : list Z) (dest src count : Z) : result (list Z) :=
  if dest <=? src then memcpy_loop (Z.to_nat count) m dest src
  else memmove_down (Z.to_nat count) m dest src.

Definition strlcpy (m : list Z) (dest src size : Z) : result (Z * list Z) :=
  ret ← strlen m src;
  if size =? 0 then Ok (ret, m)
  else
    let len := if size <=? ret then size - 1 else ret in
    m ← memcpy m dest src len;
    m ← wr m (dest + len) 0;
    Ok (ret, m).

Definition strcat (m : list Z) (dest src : Z) : result (list Z) :=
  dest ← strlen_loop (rounds m) m dest;
  strcpy m dest src.

(** [--count] is tested after a copied byte that is not NUL. *)
Fixpoint strncat_loop (fuel : nat) (m : list Z) (dest src count : Z) : result (list Z) :=
  match fuel with
  | O => NoFuel
  | S fuel =>
      b ← rd m src;
      m ← wr m dest b;
      if b =? 0 then Ok m
      else
        let count := u32 (count - 1) in
        if count =? 0 then wr m (dest + 1) 0
        else strncat_loop fuel m (dest + 1) (src + 1) count
  end.
Definition strncat (m : list Z) (dest src count : Z) : result (list Z) :=
  if count =? 0 then Ok m
  else
    dest ← strlen_loop (rounds m) m dest;
    strncat_loop (rounds m) m dest src count.

Definition strlcat (m : list Z) (dest src count : Z) : result (Z * list Z) :=
  dsize ← strlen m dest;
  len ← strlen m src;
  let res := u32 (dsize + len) in
  _ ← assert (negb (count <=? dsize));
  let dest := dest + dsize in
  let count := count - dsize in
  let len := if count <=? len then count - 1 else len in
  m ← memcpy m dest src len;
  m ← wr m (dest + len) 0;
  Ok (res, m).

(** ** Trimming *)

Fixpoint skip_spaces_loop (fuel : nat) (m : list Z) (str : Z) : result Z :=
  match fuel with
  | O => NoFuel
  | S fuel => b ← rd m str; if isspace b then skip_spaces_loop fuel m (str + 1) else Ok str
  end.
Definition skip_spaces (m : list Z) (str : Z) : result Z :=
  skip_spaces_loop (rounds m) m str.

(** [n] is [end - s + 1]: the loop stops below [s]. *)
Fixpoint strim_loop (n : nat) (m : list Z) (s : Z) : result nat :=
  match n with
  | O => Ok O
  | S n' => b ← rd m (s + Z.of_nat n'); if isspace b then strim_loop n' m s else Ok n
  end.
Definition strim (m : list Z) (s : Z) : result (Z * list Z) :=
  s ← skip_spaces m s;
  size ← strlen m s;
  if size =? 0 then Ok (s, m)
  else
    n ← strim_loop (Z.to_nat size) m s;
    m ← wr m (s + Z.of_nat n) 0;
    Ok (s, m).

End Str.
