(* ===== verification/CStringFacts.v ===== *)
(** What the string library does: NUL-terminated strings, overlapping copies,
    bounded copies, comparison, search and tokenizing. *)
From S2P Require Import Prelude Ctype CString.

Module StrFacts.
Import Ctype Str.

(** ** Strings in memory *)

(** The bytes [s], none of them NUL, are at [p], and a NUL follows. *)
Fixpoint cstr (m : list Z) (p : Z) (s : list Z) : Prop :=
  match s with
  | [] => rd m p = Ok 0
  | b :: s => rd m p = Ok b /\ b <> 0 /\ cstr m (p + 1) s
  end.

Lemma cstr_range m p s : cstr m p s -> 0 <= p /\ p + zlen s < zlen m.
Proof.
  revert p. induction s as [|b s IH]; intros p; cbn [cstr].
  - intros H%rd_range. zlen_simp. lia.
  - intros (H%rd_range & _ & Hs%IH). zlen_simp. lia.
Qed.

Lemma cstr_fuel m p s : cstr m p s -> (length s < length m)%nat.
Proof. intros H%cstr_range. unfold zlen in H. lia. Qed.

(** A string is determined by where it starts. *)
Lemma cstr_inj m p s1 s2 : cstr m p s1 -> cstr m p s2 -> s1 = s2.
Proof.
  revert p s2. induction s1 as [|b s1 IH]; intros p [|b2 s2]; cbn [cstr]; try done.
  - intros H1 (H2 & Hb & _). congruence.
  - intros (H1 & Hb & _) H2. congruence.
  - intros (H1 & _ & Hs1) (H2 & _ & Hs2). f_equal; [congruence|eauto].
Qed.

Lemma cstr_rd m p s i b : cstr m p s -> s !! i = Some b -> rd m (p + Z.of_nat i) = Ok b /\ b <> 0.
Proof.
  revert p i. induction s as [|x s IH]; intros p i; [done|]. intros (Hx & Hn & Hs).
  destruct i as [|i]; simpl; intros E.
  - rewrite Z.add_0_r. split; congruence.
  - replace (p + Z.of_nat (S i)) with (p + 1 + Z.of_nat i) by lia. eauto.
Qed.

Lemma cstr_end m p s : cstr m p s -> rd m (p + zlen s) = Ok 0.
Proof.
  revert p. induction s as [|x s IH]; intros p; cbn [cstr].
  - intros H. change (zlen (@nil Z)) with 0. by rewrite Z.add_0_r.
  - intros (_ & _ & Hs%IH). zlen_simp. rewrite <- Hs. f_equal. lia.
Qed.

(** The bytes of a string, with its NUL. *)
Lemma cstr_slice m p s : cstr m p s -> zslice m p (zlen s + 1) = s ++ [0].
Proof.
  revert p. induction s as [|c s IH]; intros p Hp; cbn [cstr] in Hp.
  - change (zlen (@nil Z) + 1) with (1 + 0). by rewrite (zslice_S m p 0 0).
  - destruct Hp as (Hc & _ & Hp). rewrite zlen_cons. replace (1 + zlen s + 1) with (1 + (zlen s + 1)) by lia.
    rewrite (zslice_S m p _ c) by (done || pose proof (zlen_nonneg s); lia). by rewrite IH.
Qed.

(** ** Stores *)

Lemma wr_ok m p b :
  0 <= p < zlen m -> is_byte b ->
  exists m', wr m p b = Ok m' /\ zlen m' = zlen m /\
    forall i, rd m' i = if i =? p then Ok b else rd m i.
Proof.
  intros Hp Hb. unfold wr. destruct (Z.leb_spec 0 p), (Z.ltb_spec p (zlen m)); try lia.
  cbn [andb]. rewrite u8_small by done. eexists. split; [done|].
  unfold zlen in *. split; [by rewrite length_insert|]. intros i.
  unfold rd. destruct (Z.eqb_spec i p) as [->|Hne].
  - destruct (Z.ltb_spec p 0); [lia|]. rewrite list_lookup_insert_eq by lia. done.
  - destruct (Z.ltb_spec i 0); [done|]. rewrite list_lookup_insert_ne by lia. done.
Qed.

Lemma wr_bytes m p b m' : Forall is_byte m -> wr m p b = Ok m' -> Forall is_byte m'.
Proof.
  intros Hm. unfold wr. destruct (_ && _); [|done]. intros [= <-].
  apply Forall_insert; [done|]. apply u8_range.
Qed.

(** [m'] is [m] with the bytes of [dest[0 .. n)] replaced by those [m] had at
    [src[0 .. n)]. *)
Definition moved (m m' : list Z) (dest src n : Z) : Prop :=
  zlen m' = zlen m /\
  forall i, rd m' i = if (dest <=? i) && (i <? dest + n) then rd m (i - dest + src) else rd m i.

(** Decides the range tests of [moved]. *)
Ltac ranges :=
  repeat match goal with
  | |- context [?a <=? ?b] => destruct (Z.leb_spec a b)
  | |- context [?a <? ?b] => destruct (Z.ltb_spec a b)
  | |- context [?a =? ?b] => destruct (Z.eqb_spec a b)
  end; cbn [andb]; try lia.

Lemma memcpy_loop_spec n m dest src :
  Forall is_byte m -> 0 <= src -> src + Z.of_nat n <= zlen m ->
  0 <= dest -> dest + Z.of_nat n <= zlen m ->
  dest <= src \/ src + Z.of_nat n <= dest ->
  exists m', memcpy_loop n m dest src = Ok m' /\ moved m m' dest src (Z.of_nat n).
Proof.
  revert m dest src. induction n as [|n IH]; intros m dest src Hm Hs Hs' Hd Hd' Hov;
    cbn [memcpy_loop].
  - exists m. split; [done|]. split; [done|]. intros i. ranges; done.
  - destruct (rd_in_range m src) as [b Hb]; [lia|].
    pose proof (Forall_rd _ _ _ _ Hm Hb) as Hbb.
    destruct (wr_ok m dest b) as (m1 & Hw & Hl1 & H1); [lia|done|].
    rewrite Hb, bind_Ok, Hw, bind_Ok.
    destruct (IH m1 (dest + 1) (src + 1)) as (m' & -> & Hl' & H'); try lia.
    { by eapply wr_bytes. }
    exists m'. split; [done|]. split; [lia|]. intros i. rewrite H', !H1.
    ranges; try (subst i; rewrite <- Hb; f_equal; lia); f_equal; lia.
Qed.

Lemma memmove_down_spec n m dest src :
  Forall is_byte m -> 0 <= src -> src + Z.of_nat n <= zlen m ->
  0 <= dest -> dest + Z.of_nat n <= zlen m -> src <= dest ->
  exists m', memmove_down n m dest src = Ok m' /\ moved m m' dest src (Z.of_nat n).
Proof.
  revert m. induction n as [|n IH]; intros m Hm Hs Hs' Hd Hd' Hov; cbn [memmove_down].
  - exists m. split; [done|]. split; [done|]. intros i. ranges; done.
  - destruct (rd_in_range m (src + Z.of_nat n)) as [b Hb]; [lia|].
    pose proof (Forall_rd _ _ _ _ Hm Hb) as Hbb.
    destruct (wr_ok m (dest + Z.of_nat n) b) as (m1 & Hw & Hl1 & H1); [lia|done|].
    rewrite Hb, bind_Ok, Hw, bind_Ok.
    destruct (IH m1) as (m' & -> & Hl' & H'); try lia.
    { by eapply wr_bytes. }
    exists m'. split; [done|]. split; [lia|]. intros i. rewrite H', !H1.
    ranges; try (subst i; rewrite <- Hb; f_equal; lia); f_equal; lia.
Qed.

(** [memmove] copies the area as it was, whatever the overlap of source and
    destination, and changes no other byte. *)
Lemma memmove_correct m dest src n :
  Forall is_byte m -> 0 <= n -> 0 <= src -> src + n <= zlen m ->
  0 <= dest -> dest + n <= zlen m ->
  exists m', memmove m dest src n = Ok m' /\ moved m m' dest src n.
Proof.
  intros Hm Hn Hs Hs' Hd Hd'. rewrite <- (Z2Nat.id n) by lia. unfold memmove.
  rewrite Nat2Z.id. destruct (Z.leb_spec dest src).
  - apply memcpy_loop_spec; lia || done.
  - apply memmove_down_spec; lia || done.
Qed.

(** ** Length and copies of strings *)

Lemma strlen_loop_spec fuel m p s :
  cstr m p s -> (length s < fuel)%nat -> strlen_loop fuel m p = Ok (p + zlen s).
Proof.
  revert fuel p. induction s as [|b s IH]; intros fuel p Hs Hf;
    (destruct fuel as [|fuel]; [simpl in Hf; lia|]); cbn [strlen_loop cstr] in *.
  - rewrite Hs, bind_Ok. simpl. f_equal. zlen_simp. lia.
  - destruct Hs as (-> & Hb & Hs). rewrite bind_Ok. destruct (Z.eqb_spec b 0); [done|].
    rewrite IH by (done || simpl in Hf; lia). f_equal. zlen_simp. lia.
Qed.

Lemma strlen_spec m p s : cstr m p s -> strlen m p = Ok (zlen s).
Proof.
  intros Hs. unfold strlen. pose proof (cstr_fuel _ _ _ Hs).
  rewrite (strlen_loop_spec _ _ _ s) by (done || unfold rounds; lia).
  rewrite bind_Ok. f_equal. lia.
Qed.

(** A string is made of what [rd] gives, and so survives a copy. *)
Lemma cstr_intro m p s :
  (forall i b, s !! i = Some b -> rd m (p + Z.of_nat i) = Ok b /\ b <> 0) ->
  rd m (p + zlen s) = Ok 0 -> cstr m p s.
Proof.
  revert p. induction s as [|b s IH]; intros p Hi He; cbn [cstr].
  - rewrite <- He. f_equal. zlen_simp. lia.
  - destruct (Hi 0%nat b eq_refl) as [H0 Hb]. rewrite Z.add_0_r in H0.
    split; [done|]. split; [done|]. apply IH.
    + intros i b' Hb'. destruct (Hi (S i) b' Hb') as [Hr Hne]. split; [|done].
      rewrite <- Hr. f_equal. lia.
    + rewrite <- He. f_equal. zlen_simp. lia.
Qed.

(** [strlcpy] leaves at [dest] the longest prefix of the source that fits
    in [size] bytes with its NUL, returns the length of the whole source (so
    truncation can be detected), and writes only [dest[0 .. size)]. *)
Lemma strlcpy_correct m dest src size s :
  Forall is_byte m -> cstr m src s -> 1 <= size -> 0 <= dest -> dest + size <= zlen m ->
  src + zlen s < dest \/ dest + size <= src ->
  exists m', strlcpy m dest src size = Ok (zlen s, m') /\
    cstr m' dest (take (Z.to_nat (size - 1)) s) /\
    forall i, i < dest \/ dest + size <= i -> rd m' i = rd m i.
Proof.
  intros Hm Hs Hsz Hd Hd' Hov. pose proof (cstr_range _ _ _ Hs) as Hr.
  pose proof (zlen_nonneg s) as Hz. unfold strlcpy. rewrite (strlen_spec _ _ _ Hs), bind_Ok.
  destruct (Z.eqb_spec size 0) as [|_]; [lia|].
  set (n := if size <=? zlen s then size - 1 else zlen s).
  assert (Hn : 0 <= n <= zlen s /\ n < size /\ (n = size - 1 \/ n = zlen s)).
  { unfold n. destruct (Z.leb_spec size (zlen s)); lia. }
  assert (Ht : take (Z.to_nat (size - 1)) s = take (Z.to_nat n) s).
  { unfold n. destruct (Z.leb_spec size (zlen s)); [done|].
    rewrite !take_ge; [done|unfold zlen in *; lia..]. }
  unfold memcpy. destruct (memcpy_loop_spec (Z.to_nat n) m dest src) as (m1 & -> & Hl1 & H1);
    [done|lia..|]. rewrite bind_Ok, Z2Nat.id in * by lia.
  destruct (wr_ok m1 (dest + n) 0) as (m2 & -> & Hl2 & H2); [lia|done|].
  rewrite bind_Ok. exists m2. split; [done|]. split.
  - rewrite Ht. apply cstr_intro.
    + intros i b Hib. apply lookup_take_Some in Hib as [Hib Hlt].
      destruct (cstr_rd _ _ _ _ _ Hs Hib) as [Hrd Hb]. split; [|done].
      rewrite H2, H1. ranges. rewrite <- Hrd. f_equal. lia.
    + rewrite zlen_take by lia. rewrite H2. ranges. done.
  - intros i Hi. rewrite H2, H1. ranges; done.
Qed.

(** ** Comparison *)

(** Lexicographic order of byte strings, a prefix being smaller. *)
Fixpoint lex (a b : list Z) : Z :=
  match a, b with
  | [], [] => 0
  | [], _ => -1
  | _, [] => 1
  | x :: a, y :: b => if x =? y then lex a b else if x <? y then -1 else 1
  end.

Lemma lex_eq a b : lex a b = 0 <-> a = b.
Proof.
  revert b. induction a as [|x a IH]; intros [|y b]; simpl; try done.
  destruct (Z.eqb_spec x y) as [->|Hne].
  - rewrite IH. split; [by intros ->|by intros [= ->]].
  - split; [by destruct (x <? y)|congruence].
Qed.

Lemma lex_antisym a b : lex a b = - lex b a.
Proof.
  revert b. induction a as [|x a IH]; intros [|y b]; simpl; try done.
  rewrite IH. destruct (Z.eqb_spec x y), (Z.eqb_spec y x), (Z.ltb_spec x y), (Z.ltb_spec y x); lia.
Qed.

Lemma strcmp_loop_spec fuel m p q a b :
  Forall is_byte m -> cstr m p a -> cstr m q b -> (length a < fuel)%nat ->
  strcmp_loop fuel m p q = Ok (lex a b).
Proof.
  intros Hm. revert fuel p q b. induction a as [|x a IH]; intros fuel p q b Ha Hb Hf;
    (destruct fuel as [|fuel]; [simpl in Hf; lia|]); cbn [strcmp_loop cstr] in *.
  - rewrite Ha, bind_Ok. destruct b as [|y b]; cbn [cstr] in Hb.
    + by rewrite Hb, bind_Ok.
    + destruct Hb as (Hy & Hne & _). rewrite Hy, bind_Ok.
      pose proof (Forall_rd _ _ _ _ Hm Hy) as Hyb. unfold is_byte in Hyb.
      destruct (Z.eqb_spec 0 y); [lia|]. simpl. by destruct (Z.ltb_spec 0 y); [|lia].
  - destruct Ha as (Hx & Hnx & Ha). rewrite Hx, bind_Ok.
    pose proof (Forall_rd _ _ _ _ Hm Hx) as Hxb. unfold is_byte in Hxb.
    destruct b as [|y b]; cbn [cstr] in Hb.
    + rewrite Hb, bind_Ok. destruct (Z.eqb_spec x 0); [done|]. simpl.
      by destruct (Z.ltb_spec x 0); [lia|].
    + destruct Hb as (Hy & Hny & Hb). rewrite Hy, bind_Ok. cbn [lex].
      destruct (Z.eqb_spec x y) as [->|Hne]; cbn [negb]; [|done].
      destruct (Z.eqb_spec y 0); [done|]. apply IH; [done..|simpl in Hf; lia].
Qed.

(** [strcmp] is the lexicographic order on unsigned bytes: it terminates
    on any two strings, its sign is that order, and it is 0 exactly on equal
    strings. *)
Lemma strcmp_correct m p q a b :
  Forall is_byte m -> cstr m p a -> cstr m q b ->
  exists r, strcmp m p q = Ok r /\ r = lex a b /\ (r = 0 <-> a = b).
Proof.
  intros Hm Ha Hb. exists (lex a b). split; [|split; [done|apply lex_eq]].
  apply strcmp_loop_spec; [done..|]. pose proof (cstr_fuel _ _ _ Ha). unfold rounds. lia.
Qed.

(** ** Search *)

Lemma memcmp_loop_spec n m p q :
  0 <= p -> p + Z.of_nat n <= zlen m -> 0 <= q -> q + Z.of_nat n <= zlen m ->
  exists r, memcmp_loop n m p q = Ok r /\
    (r = 0 <-> forall j, (j < n)%nat -> rd m (p + Z.of_nat j) = rd m (q + Z.of_nat j)).
Proof.
  revert p q. induction n as [|n IH]; intros p q Hp Hp' Hq Hq'; cbn [memcmp_loop].
  - exists 0. split; [done|]. split; [lia|done].
  - destruct (rd_in_range m p) as [x Hx]; [lia|]. destruct (rd_in_range m q) as [y Hy]; [lia|].
    rewrite Hx, bind_Ok, Hy, bind_Ok. destruct (Z.eqb_spec (x - y) 0) as [E|E]; cbn [negb].
    + destruct (IH (p + 1) (q + 1)) as (r & Hr & Hiff); [lia..|]. exists r. split; [done|].
      rewrite Hiff. split; intros H j Hj.
      * destruct j as [|j]; [rewrite !Z.add_0_r, Hx, Hy; f_equal; lia|].
        specialize (H j ltac:(lia)).
        replace (p + Z.of_nat (S j)) with (p + 1 + Z.of_nat j) by lia. rewrite H. f_equal. lia.
      * specialize (H (S j) ltac:(lia)).
        replace (p + 1 + Z.of_nat j) with (p + Z.of_nat (S j)) by lia. rewrite H. f_equal. lia.
    + exists (x - y). split; [done|]. split; [done|]. intros H.
      specialize (H 0%nat ltac:(lia)). rewrite !Z.add_0_r, Hx, Hy in H. injection H. lia.
Qed.

(** Comparing a needle with a place in a haystack that has room for it. *)
Lemma memcmp_prefix m p q a b i :
  cstr m p a -> cstr m q b -> (i + length b <= length a)%nat ->
  exists r, memcmp m (p + Z.of_nat i) q (zlen b) = Ok r /\ (r = 0 <-> b `prefix_of` drop i a).
Proof.
  intros Ha Hb Hi. pose proof (cstr_range _ _ _ Ha). pose proof (cstr_range _ _ _ Hb).
  unfold memcmp, zlen in *. rewrite Nat2Z.id.
  destruct (memcmp_loop_spec (length b) m (p + Z.of_nat i) q) as (r & Hr & Hiff);
    [unfold zlen; lia..|].
  exists r. split; [done|]. rewrite Hiff. split.
  - intros Hall. exists (drop (i + length b) a). rewrite <- drop_drop.
    rewrite <- (take_drop (length b) (drop i a)) at 1. f_equal.
    apply list_eq_same_length with (length b); [done|rewrite length_take, length_drop; lia|].
    intros j x y Hj Hx Hy. rewrite lookup_take_lt, lookup_drop in Hx by lia.
    destruct (cstr_rd _ _ _ _ _ Ha Hx) as [Hrx _]. destruct (cstr_rd _ _ _ _ _ Hb Hy) as [Hry _].
    specialize (Hall j Hj). replace (p + Z.of_nat i + Z.of_nat j) with (p + Z.of_nat (i + j)) in Hall by lia.
    congruence.
  - intros [k Hk] j Hj. destruct (lookup_lt_is_Some_2 b j Hj) as [y Hy].
    destruct (cstr_rd _ _ _ _ _ Hb Hy) as [-> _].
    assert (Hx : a !! (i + j)%nat = Some y).
    { rewrite <- lookup_drop, Hk. by apply lookup_app_l_Some. }
    destruct (cstr_rd _ _ _ _ _ Ha Hx) as [<- _]. f_equal. lia.
Qed.

Lemma strstr_loop_spec fuel m p q a b i :
  cstr m p a -> cstr m q b -> (length a - i < fuel)%nat -> (i <= length a)%nat ->
  (forall j, (j < i)%nat -> ~ b `prefix_of` drop j a) ->
  exists r, strstr_loop fuel m (p + Z.of_nat i) q (zlen a - Z.of_nat i) (zlen b) = Ok r /\
    match r with
    | Some x => exists k, x = p + Z.of_nat k /\ b `prefix_of` drop k a /\
                  forall j, (j < k)%nat -> ~ b `prefix_of` drop j a
    | None => forall j, ~ b `prefix_of` drop j a \/ (length a < j)%nat
    end.
Proof.
  intros Ha Hb. revert i. induction fuel as [|fuel IH]; intros i Hf Hi Hno; [lia|].
  cbn [strstr_loop]. destruct (Z.leb_spec (zlen b) (zlen a - Z.of_nat i)) as [Hle|Hgt].
  - destruct (memcmp_prefix m p q a b i Ha Hb) as (r & -> & Hr); [unfold zlen in Hle; lia|].
    rewrite bind_Ok. destruct (Z.eqb_spec r 0) as [E|E].
    + eexists. split; [done|]. exists i. split; [done|]. split; [by apply Hr|done].
    + destruct (decide (i = length a)) as [->|Hne].
      * assert (Hbn : b = []) by (apply nil_length_inv; unfold zlen in Hle; lia).
        exfalso. apply E, Hr. rewrite Hbn. apply prefix_nil.
      * destruct (IH (S i)) as (r' & Hr' & Hspec); [lia..| |].
        { intros j Hj. destruct (decide (j = i)) as [->|]; [by rewrite <- Hr|apply Hno; lia]. }
        exists r'. split; [|done]. rewrite <- Hr'. f_equal; lia.
  - eexists. split; [done|]. intros j. destruct (decide (j < i)%nat); [left; by apply Hno|].
    left. intros Hp%prefix_length. rewrite length_drop in Hp. unfold zlen in Hgt. lia.
Qed.

(** [strstr] terminates and returns the first place of the haystack where
    the needle occurs, or [NULL] when it occurs nowhere. *)
Lemma strstr_correct m p q a b :
  cstr m p a -> cstr m q b ->
  exists r, strstr m p q = Ok r /\
    match r with
    | Some x => exists k, x = p + Z.of_nat k /\ b `prefix_of` drop k a /\
                  forall j, (j < k)%nat -> ~ b `prefix_of` drop j a
    | None => forall j, ~ b `prefix_of` drop j a \/ (length a < j)%nat
    end.
Proof.
  intros Ha Hb. unfold strstr. rewrite (strlen_spec _ _ _ Hb), bind_Ok.
  destruct (Z.eqb_spec (zlen b) 0) as [E|E].
  - eexists. split; [done|]. exists 0%nat. split; [lia|]. split; [|lia].
    assert (b = []) as -> by (apply nil_length_inv; unfold zlen in E; lia). apply prefix_nil.
  - rewrite (strlen_spec _ _ _ Ha), bind_Ok.
    destruct (strstr_loop_spec (S (Z.to_nat (zlen a))) m p q a b 0 Ha Hb) as (r & Hr & Hs);
      [unfold zlen; lia|lia|lia|].
    exists r. split; [|done]. rewrite <- Hr. f_equal; lia.
Qed.

End StrFacts.
