(* ===== verification/StringAsm.v ===== *)
(** The string routines the loader is built with: [src/src/lib/string_32.c],
    [lib/memcpy_32.c] and the inline assembly of asm/string_32.h.

    The kernel configuration of the build defines [__HAVE_ARCH_STRCPY] and its
    like, so these replace the C versions of lib/string.c. An assembly text is
    data, a list of instructions with the operands the constraints of the
    [asm] statement pick; a small i386 executes it on the flat memory of
    CString.v. The registers a text does not set are arbitrary. *)
From S2P Require Import Prelude CString.

Module X86.

(** ** The processor *)

Inductive reg := EAX | ECX | EDX | ESI | EDI.

(** Registers hold 32 bits, unsigned; the flags the texts test, and the
    direction of the string instructions. *)
Record cpu := Cpu {
  eax : Z; ecx : Z; edx : Z; esi : Z; edi : Z;
  zf : bool; sf : bool; cf : bool; df : bool
}.

Definition get (c : cpu) (r : reg) : Z :=
  match r with
  | EAX => eax c | ECX => ecx c | EDX => edx c | ESI => esi c | EDI => edi c
  end.

Definition set (c : cpu) (r : reg) (v : Z) : cpu :=
  let '(Cpu a cx dx si di z s cy d) := c in
  match r with
  | EAX => Cpu v cx dx si di z s cy d
  | ECX => Cpu a v dx si di z s cy d
  | EDX => Cpu a cx v si di z s cy d
  | ESI => Cpu a cx dx v di z s cy d
  | EDI => Cpu a cx dx si v z s cy d
  end.

Definition set_flags (c : cpu) (z s cy : bool) : cpu :=
  Cpu (eax c) (ecx c) (edx c) (esi c) (edi c) z s cy (df c).

Definition set_df (c : cpu) (d : bool) : cpu :=
  Cpu (eax c) (ecx c) (edx c) (esi c) (edi c) (zf c) (sf c) (cf c) d.

(** [%al] and [%ah]. *)
Definition al (c : cpu) : Z := u8 (eax c).
Definition ah (c : cpu) : Z := u8 (eax c / 256).
Definition set_al (c : cpu) (b : Z) : cpu := set c EAX (eax c - u8 (eax c) + b).
Definition set_ah (c : cpu) (b : Z) : cpu := set c EAX (eax c - ah c * 256 + b * 256).

(** The flags of a result of 8 or 32 bits, and those of [a - b]. *)
Definition flags8 (c : cpu) (v : Z) (cy : bool) : cpu := set_flags c (v =? 0) (128 <=? v) cy.
Definition flags32 (c : cpu) (v : Z) (cy : bool) : cpu := set_flags c (v =? 0) (2 ^ 31 <=? v) cy.
Definition cmp8 (c : cpu) (a b : Z) : cpu := flags8 c (u8 (a - b)) (a <? b).
Definition cmp32 (c : cpu) (a b : Z) : cpu := flags32 c (u32 (a - b)) (a <? b).

(** ** Instructions *)

Inductive strop := LODSB | STOSB | SCASB | MOVSB | MOVSL.

(** Operands in the order of the text (source first). [L n] is the local label
    [n:]; no text defines one twice, so [nb] and [nf] are the same place. *)
Inductive instr :=
| L (n : nat)
| Op (o : strop)
| REP (o : strop)
| REPNE (o : strop)
| TESTB_AL_AL
| MOVB_AL_AH
| CMPB_AH_AL
| ORB_AL (n : Z)
| MOVL (a b : reg)
| MOVLi (n : Z) (b : reg)
| XORL (a b : reg)
| SUBL (a b : reg)
| SBBL (a b : reg)
| ANDLi (n : Z) (b : reg)
| NOTL (b : reg)
| DECL (b : reg)
| INCL (b : reg)
| CMPBi_mem (n : Z) (b : reg)
| CMPLi (n : Z) (b : reg)
| JE (n : nat)
| JNE (n : nat)
| JS (n : nat)
| JZ (n : nat)
| JMP (n : nat)
| STD
| CLD.

(** What a string instruction adds to its pointers. *)
Definition adv (c : cpu) (r : reg) (n : Z) : cpu :=
  set c r (u32 (if df c then get c r - n else get c r + n)).

Definition exec_op (o : strop) (c : cpu) (m : list Z) : result (cpu * list Z) :=
  match o with
  | LODSB => b ← rd m (esi c); Ok (adv (set_al c b) ESI 1, m)
  | STOSB => m ← Str.wr m (edi c) (al c); Ok (adv c EDI 1, m)
  | SCASB => b ← rd m (edi c); Ok (adv (cmp8 c (al c) b) EDI 1, m)
  | MOVSB => b ← rd m (esi c); m ← Str.wr m (edi c) b; Ok (adv (adv c ESI 1) EDI 1, m)
  | MOVSL => bs ← mem_read m (esi c) 4; m ← mem_write m (edi c) bs; Ok (adv (adv c ESI 4) EDI 4, m)
  end.

(** The place of a label. *)
Fixpoint label_pos (code : list instr) (n : nat) : nat :=
  match code with
  | [] => O
  | L n' :: code => if (n' =? n)%nat then O else S (label_pos code n)
  | _ :: code => S (label_pos code n)
  end.

(** [pc] is a place in the text. *)
Record mach := Mach { pc : nat; regs : cpu; mem : list Z }.

(** One round of a repeated instruction leaves [pc] where it is, like an
    interrupted one. *)
Definition exec (code : list instr) (i : instr) (s : mach) : result mach :=
  let '(Mach pc c m) := s in
  let next c := Ok (Mach (S pc) c m) in
  let jump (b : bool) n := Ok (Mach (if b then label_pos code n else S pc) c m) in
  match i with
  | L _ => next c
  | Op o => '(c, m) ← exec_op o c m; Ok (Mach (S pc) c m)
  | REP o =>
      if ecx c =? 0 then next c
      else
        '(c, m) ← exec_op o c m;
        Ok (Mach pc (set c ECX (u32 (ecx c - 1))) m)
  | REPNE o =>
      if ecx c =? 0 then next c
      else
        '(c, m) ← exec_op o c m;
        Ok (Mach (if zf c then S pc else pc) (set c ECX (u32 (ecx c - 1))) m)
  | TESTB_AL_AL => next (flags8 c (al c) false)
  | MOVB_AL_AH => next (set_ah c (al c))
  | CMPB_AH_AL => next (cmp8 c (al c) (ah c))
  | ORB_AL n => let v := Z.lor (al c) n in next (flags8 (set_al c v) v false)
  | MOVL a b => next (set c b (get c a))
  | MOVLi n b => next (set c b n)
  | XORL a b => let v := Z.lxor (get c b) (get c a) in next (flags32 (set c b v) v false)
  | SUBL a b => next (cmp32 (set c b (u32 (get c b - get c a))) (get c b) (get c a))
  | SBBL a b =>
      let v := get c b - (get c a + Z.b2z (cf c)) in
      next (flags32 (set c b (u32 v)) (u32 v) (v <? 0))
  | ANDLi n b => let v := Z.land (get c b) n in next (flags32 (set c b v) v false)
  | NOTL b => next (set c b (2 ^ 32 - 1 - get c b))
  | DECL b => let v := u32 (get c b - 1) in next (flags32 (set c b v) v (cf c))
  | INCL b => let v := u32 (get c b + 1) in next (flags32 (set c b v) v (cf c))
  | CMPBi_mem n b => x ← rd m (get c b); next (cmp8 c x n)
  | CMPLi n b => next (cmp32 c (get c b) (u32 n))
  | JE n | JZ n => jump (zf c) n
  | JNE n => jump (negb (zf c)) n
  | JS n => jump (sf c) n
  | JMP n => jump true n
  | STD => next (set_df c true)
  | CLD => next (set_df c false)
  end.

(** A text ends when it runs off its end. *)
Fixpoint run (fuel : nat) (code : list instr) (s : mach) : result mach :=
  match code !! pc s with
  | None => Ok s
  | Some i =>
      match fuel with
      | O => NoFuel
      | S fuel => s ← exec code i s; run fuel code s
      end
  end.

(** The texts have less than eight instructions to a round of their loops, and a
    round moves to the next byte; [strcat] runs two loops. The direction flag
    is clear between functions. *)
Definition asm_fuel (m : list Z) : nat := 8 * (2 * Str.rounds m + 2).

Definition asm (code : list instr) (c : cpu) (m : list Z) : result (cpu * list Z) :=
  s ← run (asm_fuel m) code (Mach 0 (set_df c false) m);
  Ok (regs s, mem s).

End X86.

(** ** The routines *)

Module Str32.
Import X86.
Abbreviation NULL := (@None Z).

(** A pointer that is returned in a register. *)
Definition ptr (v : Z) : option Z := if v =? 0 then NULL else Some v.

Section routines.
(** What the compiler left in the registers. *)
Variable c : cpu.

Definition strcpy_asm : list instr := [L 1; Op LODSB; Op STOSB; TESTB_AL_AL; JNE 1].
Definition strcpy_32 (m : list Z) (dest src : Z) : result (list Z) :=
  '(_, m) ← asm strcpy_asm (set (set c ESI src) EDI dest) m; Ok m.

Definition strncpy_asm : list instr :=
  [L 1; DECL ECX; JS 2; Op LODSB; Op STOSB; TESTB_AL_AL; JNE 1; REP STOSB; L 2].
Definition strncpy_32 (m : list Z) (dest src count : Z) : result (list Z) :=
  '(_, m) ← asm strncpy_asm (set (set (set c ESI src) EDI dest) ECX count) m; Ok m.

Definition strcat_asm : list instr :=
  [REPNE SCASB; DECL EDI; L 1; Op LODSB; Op STOSB; TESTB_AL_AL; JNE 1].
Definition strcat_32 (m : list Z) (dest src : Z) : result (list Z) :=
  '(_, m) ← asm strcat_asm (set (set (set (set c ESI src) EDI dest) EAX 0) ECX 4294967295) m; Ok m.

Definition strncat_asm : list instr :=
  [REPNE SCASB; DECL EDI; MOVL EDX ECX; L 1; DECL ECX; JS 2; Op LODSB; Op STOSB; TESTB_AL_AL;
   JNE 1; L 2; XORL EAX EAX; Op STOSB].
(** [count], a general operand, is in [%edx]. *)
Definition strncat_32 (m : list Z) (dest src count : Z) : result (list Z) :=
  '(_, m) ← asm strncat_asm
    (set (set (set (set (set c ESI src) EDI dest) EAX 0) ECX 4294967295) EDX count) m; Ok m.

Definition strcmp_asm : list instr :=
  [L 1; Op LODSB; Op SCASB; JNE 2; TESTB_AL_AL; JNE 1; XORL EAX EAX; JMP 3;
   L 2; SBBL EAX EAX; ORB_AL 1; L 3].
Definition strcmp_32 (m : list Z) (cs ct : Z) : result Z :=
  '(c, _) ← asm strcmp_asm (set (set c ESI cs) EDI ct) m; Ok (s32 (eax c)).

Definition strncmp_asm : list instr :=
  [L 1; DECL ECX; JS 2; Op LODSB; Op SCASB; JNE 3; TESTB_AL_AL; JNE 1; L 2; XORL EAX EAX; JMP 4;
   L 3; SBBL EAX EAX; ORB_AL 1; L 4].
Definition strncmp_32 (m : list Z) (cs ct count : Z) : result Z :=
  '(c, _) ← asm strncmp_asm (set (set (set c ESI cs) EDI ct) ECX count) m; Ok (s32 (eax c)).

Definition strchr_asm : list instr :=
  [MOVB_AL_AH; L 1; Op LODSB; CMPB_AH_AL; JE 2; TESTB_AL_AL; JNE 1; MOVLi 1 ESI;
   L 2; MOVL ESI EAX; DECL EAX].
Definition strchr_32 (m : list Z) (s ch : Z) : result (option Z) :=
  '(c, _) ← asm strchr_asm (set (set c ESI s) EAX (u32 ch)) m; Ok (ptr (eax c)).

Definition strlen_asm : list instr := [REPNE SCASB; NOTL ECX; DECL ECX].
Definition strlen_32 (m : list Z) (s : Z) : result Z :=
  '(c, _) ← asm strlen_asm (set (set (set c EDI s) EAX 0) ECX 4294967295) m; Ok (ecx c).

Definition memchr_asm : list instr := [REPNE SCASB; JE 1; MOVLi 1 EDI; L 1; DECL EDI].
Definition memchr_32 (m : list Z) (cs ch count : Z) : result (option Z) :=
  if count =? 0 then Ok NULL
  else
    '(c, _) ← asm memchr_asm (set (set (set c EAX (u32 ch)) EDI cs) ECX count) m; Ok (ptr (edi c)).

Definition memscan_asm : list instr := [REPNE SCASB; JNE 1; DECL EDI; L 1].
Definition memscan_32 (m : list Z) (addr ch size : Z) : result Z :=
  if size =? 0 then Ok addr
  else '(c, _) ← asm memscan_asm (set (set (set c EDI addr) ECX size) EAX (u32 ch)) m; Ok (edi c).

Definition strnlen_asm : list instr :=
  [MOVL ECX EAX; JMP 2; L 1; CMPBi_mem 0 EAX; JE 3; INCL EAX; L 2; DECL EDX; CMPLi (-1) EDX; JNE 1;
   L 3; SUBL ECX EAX].
Definition strnlen_32 (m : list Z) (s count : Z) : result Z :=
  '(c, _) ← asm strnlen_asm (set (set c ECX s) EDX count) m; Ok (eax c).

(** [__memcpy]; [n], a general operand, is in [%edx]. *)
Definition memcpy_asm : list instr := [REP MOVSL; MOVL EDX ECX; ANDLi 3 ECX; JZ 1; REP MOVSB; L 1].
Definition memcpy_32 (m : list Z) (to from n : Z) : result (list Z) :=
  '(_, m) ← asm memcpy_asm (set (set (set (set c ECX (n / 4)) EDX n) EDI to) ESI from) m; Ok m.

(** [__memset_generic], which [__memset] is for a count that is no constant. *)
Definition memset_asm : list instr := [REP STOSB].
Definition memset_32 (m : list Z) (s ch count : Z) : result (list Z) :=
  '(_, m) ← asm memset_asm (set (set (set c EAX (u32 ch)) EDI s) ECX count) m; Ok m.

Definition memmove_asm : list instr := [STD; REP MOVSB; CLD].
Definition memmove_32 (m : list Z) (dest src n : Z) : result (list Z) :=
  if dest <? src then memcpy_32 m dest src n
  else
    '(_, m) ← asm memmove_asm
      (set (set (set c ECX n) ESI (u32 (n - 1 + src))) EDI (u32 (n - 1 + dest))) m; Ok m.

End routines.

End Str32.
