(* ===== verification/StringAsmFacts.v ===== *)
(** The assembly of string_32.c and memcpy_32.c does what the C of string.c
    does, byte for byte and stray access for stray access, with the exceptions
    stated here: [strncat] stores one byte too many, and the counts of the
    bounded routines are signed. *)
From S2P Require Import Prelude Ctype CString CStringFacts StringAsm.
Import Str StrFacts X86 Str32.

Module AsmFacts.

(** ** Execution *)

Lemma run_step G code s i : code !! pc s = Some i -> run (S G) code s = exec code i s ≫= run G code.
Proof. intros H. cbn [run]. by rewrite H. Qed.

Lemma run_end G code s : code !! pc s = None -> run G code s = Ok s.
Proof. intros H. destruct G; cbn [run]; by rewrite H. Qed.

(** Computes the place of a label. *)
Ltac labels :=
  repeat match goal with
  | |- context [label_pos ?c ?n] =>
      is_const c; let v := eval vm_compute in (label_pos c n) in change (label_pos c n) with v
  end.

Ltac cpu_cbn :=
  cbv beta iota zeta delta [exec exec_op get set set_flags set_df al ah set_al set_ah flags8 flags32
    cmp8 cmp32 adv eax ecx edx esi edi zf sf cf df pc regs mem negb fst snd];
  cbn [mbind result_bind].

(** One instruction; the fuel is known to suffice. *)
Ltac xs :=
  match goal with
  | |- context [run ?G ?code (Mach ?p ?c ?m)] =>
      (is_var G; destruct G as [|G]; [exfalso; lia|]);
      erewrite (run_step G code (Mach p c m)) by first [eassumption | reflexivity];
      cpu_cbn; labels
  end.

Ltac xend :=
  match goal with
  | |- context [run ?G ?code (Mach ?p ?c ?m)] =>
      rewrite (run_end G code (Mach p c m)) by first [eassumption | reflexivity]; cpu_cbn
  end.

(** Equal registers, up to arithmetic. *)
Ltac cong := first [done | lia | progress f_equal; cong].

Lemma al_set a b : is_byte b -> u8 (a - u8 a + b) = b.
Proof.
  unfold is_byte, u8. change (2 ^ 8) with 256. intros Hb. Z.div_mod_to_equations. lia.
Qed.

Lemma eqb_u8 a b : is_byte a -> is_byte b -> (u8 (a - b) =? 0) = (a =? b).
Proof.
  unfold is_byte, u8. change (2 ^ 8) with 256. intros Ha Hb.
  destruct (Z.eqb_spec a b) as [->|Hne]; [by rewrite Z.sub_diag|].
  apply Z.eqb_neq. Z.div_mod_to_equations. lia.
Qed.

Lemma u32_succ {A} (m : list A) p b : zlen m < 2 ^ 32 - 1 -> rd m p = Ok b -> u32 (p + 1) = p + 1.
Proof. intros Hm Hb%rd_range. apply u32_small. lia. Qed.

Lemma wr_range m p b m' : wr m p b = Ok m' -> 0 <= p < zlen m /\ zlen m' = zlen m.
Proof.
  unfold wr. destruct (Z.leb_spec 0 p), (Z.ltb_spec p (zlen m)); try done. intros [= <-].
  unfold zlen. rewrite length_insert. unfold zlen in *. lia.
Qed.

Lemma wr_succ m p b m' : zlen m < 2 ^ 32 - 1 -> wr m p b = Ok m' -> u32 (p + 1) = p + 1.
Proof. intros Hm [Hp _]%wr_range. apply u32_small. lia. Qed.

Lemma rd_cases {A} (l : list A) i : (exists b, rd l i = Ok b) \/ exists a, rd l i = Stray a.
Proof. unfold rd. destruct (_ <? _); [right; by eexists|]. destruct (_ !! _); [left|right]; by eexists. Qed.

(** The bytes of the memory and its size are those of a process. *)
Definition sane (m : list Z) : Prop := Forall is_byte m /\ zlen m < 2 ^ 32 - 1.

Lemma sane_wr m p b m' : sane m -> wr m p b = Ok m' -> sane m' /\ zlen m' = zlen m.
Proof.
  intros [Hm Hl] H. destruct (wr_range _ _ _ _ H) as [_ E]. split; [|done].
  split; [by eapply wr_bytes|lia].
Qed.

Lemma sane_rd m p b : sane m -> rd m p = Ok b -> is_byte b /\ 0 <= p < zlen m /\ u32 (p + 1) = p + 1.
Proof.
  intros [Hm Hl] H. split; [by eapply Forall_rd|]. split; [by eapply rd_range|]. by eapply u32_succ.
Qed.

(** ** Copying a string *)

Definition memory (r : result mach) : result (list Z) := s ← r; Ok (mem s).

Section copy_loop.
Context (code : list instr) (p : nat).
Hypothesis c0 : code !! p = Some (L 1).
Hypothesis c1 : code !! S p = Some (Op LODSB).
Hypothesis c2 : code !! S (S p) = Some (Op STOSB).
Hypothesis c3 : code !! S (S (S p)) = Some TESTB_AL_AL.
Hypothesis c4 : code !! S (S (S (S p))) = Some (JNE 1).
Hypothesis c5 : code !! S (S (S (S (S p)))) = None.
Hypothesis lbl : label_pos code 1 = p.

Lemma copy_loop F : forall G a cx dx si di z s cy m,
  sane m -> 0 <= di -> (1 <= F)%nat -> zlen m - di < Z.of_nat F -> (8 * F <= G)%nat ->
  memory (run G code (Mach p (Cpu a cx dx si di z s cy false) m)) = strcpy_loop F m di si.
Proof using c0 c1 c2 c3 c4 c5 lbl.
  induction F as [|F IH]; [lia|]. intros G a cx dx si di z s cy m Hm Hdi _ HF HG.
  cbn [strcpy_loop]. do 2 xs. destruct (rd m si) as [b| |k|] eqn:Eb; [|done..]. cpu_cbn.
  destruct (sane_rd _ _ _ Hm Eb) as (Hb & Hsi & Es). rewrite Es.
  xs. rewrite !al_set by done. destruct (wr m di b) as [m'| |k|] eqn:Ew; [|done..]. cpu_cbn.
  destruct (sane_wr _ _ _ _ Hm Ew) as [Hm' El]. rewrite (wr_succ _ _ _ _ (proj2 Hm) Ew).
  destruct (wr_range _ _ _ _ Ew) as [Hdi' _].
  xs. rewrite !al_set by done. xs. destruct (b =? 0); cpu_cbn.
  - xend. done.
  - rewrite lbl. apply IH; lia || done.
Qed.

End copy_loop.

(** ** The scan for a byte *)

Lemma memchr_range n m p ch q : memchr_loop n m p ch = Ok (Some q) -> p <= q < zlen m.
Proof.
  revert p. induction n as [|n IH]; intros p; cbn [memchr_loop]; [done|].
  destruct (rd m p) as [b| |k|] eqn:Eb; cbn [mbind result_bind]; try done.
  apply rd_range in Eb. destruct (_ =? _); [intros [= <-]; lia|]. intros H%IH. lia.
Qed.

(** [strlen] is a search for NUL that cannot use up its count. *)
Lemma strlen_memchr F : forall n m p,
  0 <= p -> (1 <= F)%nat -> zlen m - p < Z.of_nat F -> (1 <= n)%nat -> zlen m - p < Z.of_nat n ->
  strlen_loop F m p = (r ← memchr_loop n m p 0; match r with Some q => Ok q | None => NoFuel end).
Proof.
  induction F as [|F IH]; [lia|]. intros [|n] m p Hp _ HF Hn Hn'; [lia|].
  cbn [strlen_loop memchr_loop]. destruct (rd m p) as [b| |k|] eqn:Eb; cbn [mbind result_bind]; try done.
  apply rd_range in Eb. change (u8 0) with 0. rewrite (Z.eqb_sym 0 b).
  destruct (b =? 0); [done|]. apply IH; lia.
Qed.

Section scan.
Context (code : list instr) (p : nat).
Hypothesis c0 : code !! p = Some (REPNE SCASB).

(** [repne scasb] is [memchr]; it leaves [%edi] behind the last byte it read. *)
Lemma scan F : forall G a cx dx si di z s cy m,
  sane m -> 0 <= cx < 2 ^ 32 -> 0 <= di -> (1 <= F)%nat -> zlen m - di < Z.of_nat F -> (8 * F <= G)%nat ->
  match memchr_loop (Z.to_nat cx) m di a with
  | Ok r =>
      let di' := match r with Some q => q + 1 | None => di + cx end in
      let z' := match r with Some _ => true | None => if cx =? 0 then z else false end in
      exists s' cy' G', (G <= G' + 8 * F)%nat /\
        run G code (Mach p (Cpu a cx dx si di z s cy false) m) =
        run G' code (Mach (S p) (Cpu a (cx - (di' - di)) dx si di' z' s' cy' false) m)
  | Stray k => run G code (Mach p (Cpu a cx dx si di z s cy false) m) = Stray k
  | _ => False
  end.
Proof using c0.
  induction F as [|F IH]; [lia|]. intros G a cx dx si di z s cy m Hm Hcx Hdi _ HF HG.
  destruct (Z.eqb_spec cx 0) as [->|Hnz].
  { change (Z.to_nat 0) with O. cbn [memchr_loop]. xs. cbn [Z.eqb mbind result_bind]. exists s, cy, G. split; [lia|].
    cong. }
  xs. destruct (Z.eqb_spec cx 0); [lia|]. replace (Z.to_nat cx) with (S (Z.to_nat (cx - 1))) by lia.
  cbn [memchr_loop]. destruct (rd_cases m di) as [[b Eb]|[? Eb]]; rewrite Eb; cpu_cbn; [|done].
  destruct (sane_rd _ _ _ Hm Eb) as (Hb & Hsi & ->). rewrite eqb_u8 by (apply u8_range || done).
  rewrite (u32_small (cx - 1)) by lia. destruct (u8 a =? b).
  - do 3 eexists. split; [|cong]. lia.
  - specialize (IH G a (cx - 1) dx si (di + 1) false (128 <=? u8 (u8 a - b)) (u8 a <? b) m Hm).
    destruct (memchr_loop _ m (di + 1) a) as [r| |k|]; try (apply IH; lia).
    destruct IH as (s' & cy' & G' & HG' & E); [lia..|].
    exists s', cy', G'. split; [lia|]. rewrite E.
    destruct (Z.eqb_spec cx 0); [lia|]. destruct r, (cx - 1 =? 0); cong.
Qed.

End scan.

(** ** Filling and moving *)

Lemma wr_u8 m p b : wr m p (u8 b) = wr m p b.
Proof. unfold wr, u8. by rewrite Z.mod_mod. Qed.

Lemma wr_cases m p b : (exists m', wr m p b = Ok m') \/ wr m p b = Stray Wr.
Proof. unfold wr. destruct (_ && _); [left; by eexists|by right]. Qed.

Section fill.
Context (code : list instr) (p : nat).
Hypothesis c0 : code !! p = Some (REP STOSB).

Lemma fill F : forall G a cx dx si di z s cy m,
  sane m -> 0 <= cx < 2 ^ 32 -> 0 <= di -> (1 <= F)%nat -> zlen m - di < Z.of_nat F -> (8 * F <= G)%nat ->
  match memset_loop (Z.to_nat cx) m di a with
  | Ok m' =>
      exists G', (G <= G' + 8 * F)%nat /\
        run G code (Mach p (Cpu a cx dx si di z s cy false) m) =
        run G' code (Mach (S p) (Cpu a 0 dx si (di + cx) z s cy false) m')
  | Stray k => run G code (Mach p (Cpu a cx dx si di z s cy false) m) = Stray k
  | _ => False
  end.
Proof using c0.
  induction F as [|F IH]; [lia|]. intros G a cx dx si di z s cy m Hm Hcx Hdi _ HF HG. xs.
  destruct (Z.eqb_spec cx 0) as [->|Hnz].
  { change (Z.to_nat 0) with O. cbn [memset_loop mbind result_bind]. exists G. split; [lia|]. cong. }
  replace (Z.to_nat cx) with (S (Z.to_nat (cx - 1))) by lia. cbn [memset_loop]. rewrite wr_u8.
  destruct (wr_cases m di a) as [[m' Ew]|Ew]; rewrite Ew; cpu_cbn; [|done].
  destruct (sane_wr _ _ _ _ Hm Ew) as [Hm' El]. rewrite (wr_succ _ _ _ _ (proj2 Hm) Ew).
  destruct (wr_range _ _ _ _ Ew) as [Hdi' _]. rewrite (u32_small (cx - 1)) by lia.
  specialize (IH G a (cx - 1) dx si (di + 1) z s cy m' Hm').
  destruct (memset_loop _ m' (di + 1) a) as [m2| |k|]; try (apply IH; lia).
  destruct IH as (G' & HG' & E); [lia..|]. exists G'. split; [lia|]. rewrite E. cong.
Qed.

End fill.

(** Storing the byte that was read last changes no reading of it. *)
Lemma wr_same m p b m' q : is_byte b -> wr m p b = Ok m' -> rd m q = Ok b -> rd m' q = Ok b.
Proof.
  intros Hb Ew Eb. destruct (wr_range _ _ _ _ Ew) as [Hp _].
  destruct (wr_ok m p b Hp Hb) as (m1 & E1 & _ & H1). rewrite Ew in E1. injection E1 as <-.
  rewrite H1. by destruct (q =? p).
Qed.

(** [strncpy] after the NUL of its source: the NUL is still there. *)
Lemma strncpy_pad n m p src : rd m src = Ok 0 -> strncpy_loop n m p src = memset_loop n m p 0.
Proof.
  revert m p. induction n as [|n IH]; intros m p H; [done|]. cbn [strncpy_loop memset_loop].
  rewrite H. cbn [mbind result_bind]. destruct (wr_cases m p 0) as [[m' Ew]|Ew]; rewrite Ew; [|done].
  cbn [mbind result_bind]. apply IH. by apply (wr_same m p 0).
Qed.

Lemma memset_u8 n m p a b : u8 a = u8 b -> memset_loop n m p a = memset_loop n m p b.
Proof.
  intros H. revert m p. induction n as [|n IH]; intros m p; [done|]. cbn [memset_loop].
  rewrite <- (wr_u8 m p a), H, wr_u8. destruct (wr m p b); cbn [mbind result_bind]; auto.
Qed.

(** One decrement of a count that is at most 2^31, and the sign test after it. *)
Lemma count_down n : 0 < n <= 2 ^ 31 -> u32 (n - 1) = n - 1 /\ (2 ^ 31 <=? n - 1) = false.
Proof. intros. split; [apply u32_small|]; lia. Qed.

Lemma strncpy_run F : forall G a cx dx si di z s cy m,
  sane m -> 0 <= cx <= 2 ^ 31 -> 0 <= di -> (1 <= F)%nat -> zlen m - di < Z.of_nat F ->
  (8 * F + 8 <= G)%nat ->
  memory (run G strncpy_asm (Mach 0 (Cpu a cx dx si di z s cy false) m)) =
  strncpy_loop (Z.to_nat cx) m di si.
Proof.
  induction F as [|F IH]; [lia|]. intros G a cx dx si di z s cy m Hm Hcx Hdi _ HF HG. do 3 xs.
  destruct (Z.eq_dec cx 0) as [->|Hnz].
  { change (2 ^ 31 <=? u32 (0 - 1)) with true. cbv iota. xs. xend. done. }
  destruct (count_down cx ltac:(lia)) as [-> ->]. cbv iota.
  replace (Z.to_nat cx) with (S (Z.to_nat (cx - 1))) by lia. cbn [strncpy_loop]. xs.
  destruct (rd_cases m si) as [[b Eb]|[? Eb]]; rewrite Eb; cpu_cbn; [|done].
  destruct (sane_rd _ _ _ Hm Eb) as (Hb & Hsi & ->). xs. rewrite al_set by done.
  destruct (wr_cases m di b) as [[m' Ew]|Ew]; rewrite Ew; cpu_cbn; [|done].
  destruct (sane_wr _ _ _ _ Hm Ew) as [Hm' El]. rewrite (wr_succ _ _ _ _ (proj2 Hm) Ew).
  destruct (wr_range _ _ _ _ Ew) as [Hdi' _]. xs. rewrite al_set by done. xs.
  destruct (Z.eqb_spec b 0) as [->|Hb0]; cbn [negb]; cbv iota; [|apply IH; lia || done].
  rewrite strncpy_pad by (by apply (wr_same m di 0)).
  rewrite (memset_u8 _ _ _ 0 (a - u8 a + 0)) by (by rewrite al_set).
  pose proof (fill strncpy_asm 7 eq_refl F G (a - u8 a + 0) (cx - 1) dx (si + 1) (di + 1) true
    (128 <=? 0) false m' Hm') as Hf.
  destruct (memset_loop _ m' (di + 1) _) as [m2| |k|]; try (rewrite Hf by lia; done).
  - destruct Hf as (G' & HG' & ->); [lia..|]. xs. xend. done.
  - destruct Hf; lia.
  - destruct Hf; lia.
Qed.

(** ** Comparing *)

Definition value (r : result mach) : result Z := s ← r; Ok (s32 (eax (regs s))).

(** [sbbl %eax,%eax] and [orb $1,%al] turn the carry into a sign. *)
Lemma sbb_sign a lt :
  let v := u32 (a - (a + Z.b2z lt)) in
  s32 (v - u8 v + Z.lor (u8 v) 1) = if lt : bool then -1 else 1.
Proof. replace (a - (a + Z.b2z lt)) with (- Z.b2z lt) by lia. by destruct lt. Qed.

Lemma strcmp_run F : forall G a cx dx si di z s cy m,
  sane m -> 0 <= di -> (1 <= F)%nat -> zlen m - si < Z.of_nat F -> (8 * F + 8 <= G)%nat ->
  value (run G strcmp_asm (Mach 0 (Cpu a cx dx si di z s cy false) m)) = strcmp_loop F m si di.
Proof.
  induction F as [|F IH]; [lia|]. intros G a cx dx si di z s cy m Hm Hdi _ HF HG.
  cbn [strcmp_loop]. do 2 xs. destruct (rd_cases m si) as [[b Eb]|[? Eb]]; rewrite Eb; cpu_cbn; [|done].
  destruct (sane_rd _ _ _ Hm Eb) as (Hb & Hsi & ->). xs.
  destruct (rd_cases m di) as [[b' Eb']|[? Eb']]; rewrite Eb'; cpu_cbn; [|done].
  destruct (sane_rd _ _ _ Hm Eb') as (Hb' & Hdi' & ->). rewrite al_set, eqb_u8 by done. xs.
  destruct (b =? b'); cbv iota.
  - xs. rewrite al_set by done. xs. destruct (b =? 0); cbv iota.
    + do 3 xs. xend. unfold value. cpu_cbn. by rewrite Z.lxor_nilpotent.
    + apply IH; lia || done.
  - do 4 xs. xend. unfold value. cpu_cbn. by rewrite sbb_sign.
Qed.

Lemma strncmp_run F : forall G a cx dx si di z s cy m,
  sane m -> 0 <= cx <= 2 ^ 31 -> 0 <= di -> (1 <= F)%nat -> zlen m - si < Z.of_nat F ->
  (8 * F + 8 <= G)%nat ->
  value (run G strncmp_asm (Mach 0 (Cpu a cx dx si di z s cy false) m)) =
  strncmp_loop (Z.to_nat cx) m si di.
Proof.
  induction F as [|F IH]; [lia|]. intros G a cx dx si di z s cy m Hm Hcx Hdi _ HF HG. do 3 xs.
  destruct (Z.eq_dec cx 0) as [->|Hnz].
  { change (2 ^ 31 <=? u32 (0 - 1)) with true. cbv iota. do 4 xs. xend. unfold value. cpu_cbn.
    by rewrite Z.lxor_nilpotent. }
  destruct (count_down cx ltac:(lia)) as [-> ->]. cbv iota.
  replace (Z.to_nat cx) with (S (Z.to_nat (cx - 1))) by lia. cbn [strncmp_loop]. xs.
  destruct (rd_cases m si) as [[b Eb]|[? Eb]]; rewrite Eb; cpu_cbn; [|done].
  destruct (sane_rd _ _ _ Hm Eb) as (Hb & Hsi & ->). xs.
  destruct (rd_cases m di) as [[b' Eb']|[? Eb']]; rewrite Eb'; cpu_cbn; [|done].
  destruct (sane_rd _ _ _ Hm Eb') as (Hb' & Hdi' & ->). rewrite al_set, eqb_u8 by done. xs.
  destruct (b =? b'); cbv iota.
  - xs. rewrite al_set by done. xs. destruct (b =? 0); cbv iota.
    + do 4 xs. xend. unfold value. cpu_cbn. by rewrite Z.lxor_nilpotent.
    + apply IH; lia || done.
  - do 4 xs. xend. unfold value. cpu_cbn. by rewrite sbb_sign.
Qed.

(** ** Searching *)

Definition pointer (r : result mach) : result (option Z) := s ← r; Ok (ptr (eax (regs s))).

Lemma ah_set_al a b : is_byte b -> u8 ((a - u8 a + b) / 256) = u8 (a / 256).
Proof.
  unfold is_byte, u8. change (2 ^ 8) with 256. intros Hb. f_equal.
  Z.div_mod_to_equations. lia.
Qed.

Lemma ah_set a b : is_byte b -> u8 ((a - u8 (a / 256) * 256 + b * 256) / 256) = b.
Proof.
  unfold is_byte, u8. change (2 ^ 8) with 256. intros Hb. Z.div_mod_to_equations. lia.
Qed.

Lemma strchr_run F : forall G a cx dx si di z s cy m,
  sane m -> 1 <= si -> (1 <= F)%nat -> zlen m - si < Z.of_nat F -> (8 * F + 8 <= G)%nat ->
  pointer (run G strchr_asm (Mach 1 (Cpu a cx dx si di z s cy false) m)) =
  strchr_loop F m si (u8 (a / 256)).
Proof.
  induction F as [|F IH]; [lia|]. intros G a cx dx si di z s cy m Hm Hsi _ HF HG.
  cbn [strchr_loop]. do 2 xs. destruct (rd_cases m si) as [[b Eb]|[? Eb]]; rewrite Eb; cpu_cbn; [|done].
  destruct (sane_rd _ _ _ Hm Eb) as (Hb & Hsi' & ->). xs.
  rewrite al_set, ah_set_al, eqb_u8 by (apply u8_range || done).
  rewrite (u8_small (u8 (a / 256))) by apply u8_range. xs. destruct (b =? u8 (a / 256)); cbv iota.
  - do 3 xs. xend. unfold pointer. cpu_cbn. rewrite Z.add_simpl_r. destruct Hm.
    rewrite u32_small by lia. unfold ptr. by destruct (Z.eqb_spec si 0); [lia|].
  - xs. rewrite al_set by done. xs. destruct (b =? 0); cbv iota.
    + do 4 xs. xend. done.
    + cbn [negb]. cbv iota. rewrite <- (ah_set_al a b) by done. apply IH; lia || done.
Qed.

Lemma strnlen_more n k m p : (k <= n)%nat -> zlen m - p < Z.of_nat k -> 0 <= p -> (1 <= k)%nat ->
  strnlen_loop n m p = strnlen_loop k m p.
Proof.
  revert n p. induction k as [|k IH]; intros [|n] p Hn Hk Hp Hk'; try lia. cbn [strnlen_loop].
  destruct (rd_cases m p) as [[b Eb]|[? Eb]]; rewrite Eb; cbn [mbind result_bind]; [|done].
  destruct (b =? 0); [done|]. apply rd_range in Eb. apply IH; lia.
Qed.

(** At the decrement; the result is the distance to the start, in [%ecx]. *)
Lemma strnlen_run F : forall G a cx dx si di z s cy m,
  sane m -> 0 <= dx < 2 ^ 32 -> 0 <= cx <= a -> (1 <= F)%nat -> zlen m - a < Z.of_nat F -> a < 2 ^ 32 ->
  (8 * F + 8 <= G)%nat ->
  (s ← run G strnlen_asm (Mach 6 (Cpu a cx dx si di z s cy false) m); Ok (eax (regs s))) =
  (e ← strnlen_loop (Z.to_nat dx) m a; Ok (e - cx)).
Proof.
  induction F as [|F IH]; [lia|]. intros G a cx dx si di z s cy m Hm Hdx Ha _ HF Ha' HG. do 4 xs.
  change (u32 (-1)) with 4294967295. destruct (Z.eq_dec dx 0) as [->|Hnz].
  { change (u32 (u32 (0 - 1) - 4294967295) =? 0) with true. cbv iota. do 2 xs. xend.
    rewrite u32_small by lia. done. }
  rewrite (u32_small (dx - 1)) by lia.
  assert (E : u32 (dx - 1 - 4294967295) = dx).
  { replace (dx - 1 - 4294967295) with (dx + -1 * 2 ^ 32) by lia. unfold u32.
    rewrite Z.mod_add by lia. apply Z.mod_small. lia. }
  rewrite E. destruct (Z.eqb_spec dx 0); [lia|]. cbv iota.
  replace (Z.to_nat dx) with (S (Z.to_nat (dx - 1))) by lia. cbn [strnlen_loop]. do 2 xs.
  destruct (rd_cases m a) as [[b Eb]|[? Eb]]; rewrite Eb; cpu_cbn; [|done].
  destruct (sane_rd _ _ _ Hm Eb) as (Hb & Ham & Es). rewrite eqb_u8 by (done || by split). xs.
  destruct (b =? 0); cbv iota.
  - do 2 xs. xend. rewrite u32_small by lia. done.
  - xs. rewrite Es. destruct Hm. apply IH; lia || done.
Qed.

(** ** Moving words and bytes *)

Lemma rd_ext (m m' : list Z) : zlen m = zlen m' -> (forall i, rd m i = rd m' i) -> m = m'.
Proof.
  intros Hl H. apply list_eq. intros i. specialize (H (Z.of_nat i)). unfold rd in H.
  destruct (Z.ltb_spec (Z.of_nat i) 0); [lia|]. rewrite Nat2Z.id in H.
  by destruct (m !! i), (m' !! i); simplify_eq.
Qed.

Lemma moved_unique m m1 m2 dest src n : moved m m1 dest src n -> moved m m2 dest src n -> m1 = m2.
Proof. intros [L1 H1] [L2 H2]. apply rd_ext; [lia|]. intros i. by rewrite H1, H2. Qed.

Lemma moved_poke m dest src n :
  0 <= src -> 0 <= n -> src + n <= zlen m -> 0 <= dest -> dest + n <= zlen m ->
  moved m (poke m dest (zslice m src n)) dest src n.
Proof.
  intros Hs Hn Hs' Hd Hd'. assert (Hz : zlen (zslice m src n) = n) by (by apply zlen_zslice).
  split; [apply zlen_poke; lia|]. intros i. unfold rd.
  ranges; try done; try (rewrite lookup_poke by lia; done). unfold poke.
  unfold zlen in Hz, Hd'. rewrite lookup_app_r by (rewrite length_take; lia). rewrite length_take.
  rewrite lookup_app_l by lia. unfold zslice. rewrite lookup_take_lt, lookup_drop by lia.
  match goal with |- context [m !! (?x + ?y)%nat] =>
    replace (x + y)%nat with (Z.to_nat (i - dest + src)) by lia end. done.
Qed.

Lemma movsl_bytes m dest src :
  Forall is_byte m -> 0 <= src -> src + 4 <= zlen m -> 0 <= dest -> dest + 4 <= zlen m ->
  dest <= src \/ src + 4 <= dest ->
  mem_write m dest (zslice m src 4) = memcpy_loop 4 m dest src.
Proof.
  intros Hm Hs Hs' Hd Hd' Hap.
  destruct (memcpy_loop_spec 4 m dest src) as (m' & -> & Hm'); [done|lia..|].
  rewrite mem_write_poke by (rewrite ?zlen_zslice; lia). f_equal.
  by apply (moved_unique m _ _ dest src 4); [apply moved_poke; lia|].
Qed.

Lemma memcpy_loop_app a b m dest src :
  memcpy_loop (a + b) m dest src =
  (m ← memcpy_loop a m dest src; memcpy_loop b m (dest + Z.of_nat a) (src + Z.of_nat a)).
Proof.
  revert m dest src. induction a as [|a IH]; intros m dest src.
  - cbn [memcpy_loop Nat.add mbind result_bind]. f_equal; lia.
  - cbn [memcpy_loop Nat.add]. destruct (rd m src) as [x| |k|]; cbn [mbind result_bind]; [|done..].
    destruct (wr m dest x) as [m1| |k|]; cbn [mbind result_bind]; [|done..]. rewrite IH.
    destruct (memcpy_loop a m1 _ _); cbn [mbind result_bind]; [|done..]. f_equal; lia.
Qed.

Lemma Forall_zslice {A} (P : A -> Prop) (l : list A) i n : Forall P l -> Forall P (zslice l i n).
Proof. intros H. unfold zslice. by apply Forall_take, Forall_drop. Qed.

Section moves.
Context (code : list instr) (p : nat).

Lemma move_words n : code !! p = Some (REP MOVSL) -> forall G a dx si di z s cy m,
  sane m -> 0 <= si -> 0 <= di -> si + 4 * Z.of_nat n <= zlen m -> di + 4 * Z.of_nat n <= zlen m ->
  di <= si \/ si + 4 * Z.of_nat n <= di -> (n < G)%nat ->
  exists m' G', (G = G' + n + 1)%nat /\ memcpy_loop (4 * n) m di si = Ok m' /\ sane m' /\ zlen m' = zlen m /\
    run G code (Mach p (Cpu a (Z.of_nat n) dx si di z s cy false) m) =
    run G' code (Mach (S p) (Cpu a 0 dx (si + 4 * Z.of_nat n) (di + 4 * Z.of_nat n) z s cy false) m').
Proof using.
  intros c0. induction n as [|n IH]; intros G a dx si di z s cy m Hm Hsi Hdi Hs Hd Hap HG.
  { xs. change (Z.of_nat 0 =? 0) with true. cbn [mbind result_bind]. exists m, G.
    split; [lia|]. split; [done|]. split; [done|]. split; [done|]. cong. }
  xs. destruct (Z.eqb_spec (Z.of_nat (S n)) 0); [lia|]. destruct Hm as [Hm Hl].
  rewrite mem_read_ok by lia. cbn [mbind result_bind]. rewrite movsl_bytes by (done || lia).
  replace (4 * S n)%nat with (4 + 4 * n)%nat by lia. rewrite memcpy_loop_app.
  destruct (memcpy_loop_spec 4 m di si) as (m1 & E1 & Hl1 & H1); [done|lia..|]. rewrite E1.
  cbn [mbind result_bind].
  assert (Hm1 : sane m1).
  { split; [|lia]. rewrite <- movsl_bytes in E1 by (done || lia).
    eapply Forall_mem_write; [done| |done]. by apply Forall_zslice. }
  rewrite !u32_small by lia. replace (Z.of_nat (S n) - 1) with (Z.of_nat n) by lia.
  destruct (IH G a dx (si + 4) (di + 4) z s cy m1) as (m' & G' & HG' & E & Hm' & Hl' & Er);
    [done|lia..|].
  exists m', G'. split; [lia|]. split; [exact E|]. split; [done|]. split; [lia|]. rewrite Er. cong.
Qed.

Lemma move_bytes n : code !! p = Some (REP MOVSB) -> forall G a dx si di z s cy m,
  sane m -> 0 <= si -> 0 <= di -> si + Z.of_nat n <= zlen m -> di + Z.of_nat n <= zlen m -> (n < G)%nat ->
  exists m' G', (G = G' + n + 1)%nat /\ memcpy_loop n m di si = Ok m' /\
    run G code (Mach p (Cpu a (Z.of_nat n) dx si di z s cy false) m) =
    run G' code (Mach (S p) (Cpu a 0 dx (si + Z.of_nat n) (di + Z.of_nat n) z s cy false) m').
Proof using.
  intros c0. induction n as [|n IH]; intros G a dx si di z s cy m Hm Hsi Hdi Hs Hd HG.
  { xs. change (Z.of_nat 0 =? 0) with true. cbn [mbind result_bind]. exists m, G. split; [lia|]. split; [done|]. cong. }
  xs. destruct (Z.eqb_spec (Z.of_nat (S n)) 0); [lia|]. cbn [memcpy_loop].
  destruct (rd_in_range m si) as [b Eb]; [lia|]. rewrite Eb. cbn [mbind result_bind].
  destruct (sane_rd _ _ _ Hm Eb) as (Hb & _ & ->).
  destruct (wr_ok m di b) as (m1 & Ew & Hl1 & _); [lia|done|]. rewrite Ew. cbn [mbind result_bind].
  destruct (sane_wr _ _ _ _ Hm Ew) as [Hm1 _]. destruct Hm. rewrite !u32_small by lia.
  replace (Z.of_nat (S n) - 1) with (Z.of_nat n) by lia.
  destruct (IH G a dx (si + 1) (di + 1) z s cy m1) as (m' & G' & HG' & E & Er); [done|lia..|].
  exists m', G'. split; [lia|]. split; [exact E|]. rewrite Er. cong.
Qed.

(** Downwards, with the direction flag set. *)
Lemma move_down n : code !! p = Some (REP MOVSB) -> forall G a dx src dest z s cy m,
  sane m -> 0 <= src -> 0 <= dest -> src + Z.of_nat n <= zlen m -> dest + Z.of_nat n <= zlen m ->
  (n < G)%nat ->
  exists m' G', (G = G' + n + 1)%nat /\ memmove_down n m dest src = Ok m' /\
    run G code (Mach p (Cpu a (Z.of_nat n) dx (u32 (Z.of_nat n - 1 + src)) (u32 (Z.of_nat n - 1 + dest))
      z s cy true) m) =
    run G' code (Mach (S p) (Cpu a 0 dx (u32 (src - 1)) (u32 (dest - 1)) z s cy true) m').
Proof using.
  intros c0. induction n as [|n IH]; intros G a dx src dest z s cy m Hm Hs Hd Hs' Hd' HG.
  { xs. change (Z.of_nat 0 =? 0) with true. cbn [mbind result_bind]. exists m, G. split; [lia|]. split; [done|]. cong. }
  xs. destruct (Z.eqb_spec (Z.of_nat (S n)) 0); [lia|]. cbn [memmove_down]. pose proof (proj2 Hm).
  replace (Z.of_nat (S n) - 1 + src) with (src + Z.of_nat n) by lia.
  replace (Z.of_nat (S n) - 1 + dest) with (dest + Z.of_nat n) by lia.
  rewrite (u32_small (src + Z.of_nat n)), (u32_small (dest + Z.of_nat n)) by lia.
  destruct (rd_in_range m (src + Z.of_nat n)) as [b Eb]; [lia|]. rewrite Eb. cbn [mbind result_bind].
  destruct (sane_rd _ _ _ Hm Eb) as (Hb & _ & _).
  destruct (wr_ok m (dest + Z.of_nat n) b) as (m1 & Ew & Hl1 & _); [lia|done|].
  rewrite Ew. cbn [mbind result_bind]. destruct (sane_wr _ _ _ _ Hm Ew) as [Hm1 _].
  rewrite (u32_small (Z.of_nat (S n) - 1)) by lia. replace (Z.of_nat (S n) - 1) with (Z.of_nat n) by lia.
  destruct (IH G a dx src dest z s cy m1) as (m' & G' & HG' & E & Er); [done|lia..|].
  exists m', G'. split; [lia|]. split; [exact E|]. rewrite <- Er. cong.
Qed.

End moves.

(** ** The routines *)

Lemma asm_memory code c m : ('(_, m) ← asm code c m; Ok m) = memory (run (asm_fuel m) code (Mach 0 (set_df c false) m)).
Proof. unfold asm, memory. by destruct (run _ _ _). Qed.

Lemma asm_value code c m :
  ('(c, _) ← asm code c m; Ok (s32 (eax c))) = value (run (asm_fuel m) code (Mach 0 (set_df c false) m)).
Proof. unfold asm, value. by destruct (run _ _ _). Qed.

Lemma asm_pointer code c m :
  ('(c, _) ← asm code c m; Ok (ptr (eax c))) = pointer (run (asm_fuel m) code (Mach 0 (set_df c false) m)).
Proof. unfold asm, pointer. by destruct (run _ _ _). Qed.

Ltac fuel := unfold asm_fuel, rounds, zlen in *; lia.
Ltac start c := destruct c; cpu_cbn.

Lemma strcpy_equiv c m dest src : sane m -> 0 <= dest -> strcpy_32 c m dest src = strcpy m dest src.
Proof.
  intros Hm Hd. unfold strcpy_32. rewrite asm_memory. start c. unfold strcpy.
  apply (copy_loop strcpy_asm 0); try done; fuel.
Qed.

Lemma strncpy_equiv c m dest src count :
  sane m -> 0 <= dest -> 0 <= count <= 2 ^ 31 -> strncpy_32 c m dest src count = strncpy m dest src count.
Proof.
  intros Hm Hd Hc. unfold strncpy_32. rewrite asm_memory. start c.
  apply (strncpy_run (rounds m)); try done; fuel.
Qed.

Lemma strcmp_equiv c m cs ct : sane m -> 0 <= cs -> 0 <= ct -> strcmp_32 c m cs ct = strcmp m cs ct.
Proof.
  intros Hm Hs Hd. unfold strcmp_32. rewrite asm_value. start c. unfold strcmp.
  apply strcmp_run; try done; fuel.
Qed.

Lemma strncmp_equiv c m cs ct count :
  sane m -> 0 <= cs -> 0 <= ct -> 0 <= count <= 2 ^ 31 -> strncmp_32 c m cs ct count = strncmp m cs ct count.
Proof.
  intros Hm Hs Hd Hc. unfold strncmp_32. rewrite asm_value. start c.
  apply (strncmp_run (rounds m)); try done; fuel.
Qed.

Lemma strchr_loop_u8 F m s ch : strchr_loop F m s (u8 ch) = strchr_loop F m s ch.
Proof.
  revert s. induction F as [|F IH]; intros s; [done|]. cbn [strchr_loop].
  rewrite (u8_small (u8 ch)) by apply u8_range. destruct (rd m s); cbn [mbind result_bind]; [|done..].
  by rewrite IH.
Qed.

Lemma u8_u32 z : u8 (u32 z) = u8 z.
Proof.
  unfold u8, u32. change (2 ^ 32) with (2 ^ 8 * 2 ^ 24). rewrite Z.rem_mul_r by lia.
  rewrite Z.mul_comm, Z.mod_add by lia. by apply Z.mod_mod.
Qed.

Lemma strchr_equiv c m s ch : sane m -> 1 <= s -> strchr_32 c m s ch = strchr m s ch.
Proof.
  intros Hm Hs. unfold strchr_32. rewrite asm_pointer. start c.
  assert (HG : (8 * rounds m + 16 <= asm_fuel m)%nat) by fuel. destruct (asm_fuel m) as [|G]; [lia|].
  erewrite run_step by reflexivity. cpu_cbn. unfold strchr.
  rewrite (strchr_run (rounds m)) by (done || fuel). rewrite ah_set by apply u8_range.
  by rewrite u8_u32, strchr_loop_u8.
Qed.

Lemma memchr_u8 n m p a b : u8 a = u8 b -> memchr_loop n m p a = memchr_loop n m p b.
Proof.
  intros H. revert p. induction n as [|n IH]; intros p; [done|]. cbn [memchr_loop]. rewrite H.
  destruct (rd m p); cbn [mbind result_bind]; [|done..]. by rewrite IH.
Qed.

(** [n] stands for 2^32 - 1, the count the unbounded scans start with. *)
Lemma strlen_scan m p n : sane m -> 0 <= p -> n = 2 ^ 32 - 1 ->
  strlen_loop (rounds m) m p =
  (r ← memchr_loop (Z.to_nat n) m p 0; match r with Some q => Ok q | None => NoFuel end).
Proof.
  intros [_ Hm] Hp Hn. unfold rounds. apply strlen_memchr; unfold zlen in *; lia.
Qed.

Lemma memchr_none n m p a : memchr_loop n m p a = Ok None -> (n = 0)%nat \/ p + Z.of_nat n <= zlen m.
Proof.
  revert p. induction n as [|n IH]; intros p; [by left|]. cbn [memchr_loop]. right.
  destruct (rd m p) as [b| |k|] eqn:Eb; cbn [mbind result_bind] in *; try done.
  apply rd_range in Eb. destruct (_ =? _); [done|]. destruct (IH _ H); lia.
Qed.

(** The texts that begin with a scan for NUL. *)
Lemma scan_string code dx si di z s cy m : code !! 0%nat = Some (REPNE SCASB) -> sane m -> 0 <= di ->
  match strlen_loop (rounds m) m di with
  | Ok e =>
      di <= e < zlen m /\
      exists s' cy' G', (asm_fuel m <= G' + 8 * rounds m)%nat /\
        run (asm_fuel m) code (Mach 0 (Cpu 0 4294967295 dx si di z s cy false) m) =
        run G' code (Mach 1 (Cpu 0 (4294967295 - (e + 1 - di)) dx si (e + 1) true s' cy' false) m)
  | Stray k => run (asm_fuel m) code (Mach 0 (Cpu 0 4294967295 dx si di z s cy false) m) = Stray k
  | _ => False
  end.
Proof.
  intros c0 Hm Hd. set (n := 4294967295). assert (Hn : n = 2 ^ 32 - 1) by done. clearbody n.
  rewrite (strlen_scan m di n Hm Hd Hn). pose proof (proj2 Hm) as Hl.
  pose proof (scan code 0 c0 (rounds m) (asm_fuel m) 0 n dx si di z s cy m Hm) as Hsc.
  destruct (memchr_loop _ m di 0) as [[q|]| |k|] eqn:E; cbn [mbind result_bind];
    try (apply Hsc; fuel).
  - apply memchr_range in E. split; [done|]. apply Hsc; fuel.
  - destruct (memchr_none _ _ _ _ E); lia.
Qed.

Lemma strlen_equiv c m s : sane m -> 0 <= s -> strlen_32 c m s = strlen m s.
Proof.
  intros Hm Hs. unfold strlen_32, asm, strlen. start c. pose proof (proj2 Hm) as Hl.
  pose proof (scan_string strlen_asm edx0 esi0 s zf0 sf0 cf0 m eq_refl Hm Hs) as H.
  destruct (strlen_loop _ m s) as [e| |k|]; try done; cbn [mbind result_bind]; [|by rewrite H].
  destruct H as (He & s' & cy' & G' & HG & ->).
  assert (HG' : (2 < G')%nat) by fuel. do 2 xs. xend. rewrite u32_small by lia. f_equal. lia.
Qed.

Lemma strcat_equiv c m dest src : sane m -> 0 <= dest -> strcat_32 c m dest src = strcat m dest src.
Proof.
  intros Hm Hd. unfold strcat_32, strcat. rewrite asm_memory. start c. pose proof (proj2 Hm) as Hl.
  pose proof (scan_string strcat_asm edx0 src dest zf0 sf0 cf0 m eq_refl Hm Hd) as H.
  destruct (strlen_loop _ m dest) as [e| |k|]; try done; cbn [mbind result_bind];
    [|unfold memory; by rewrite H].
  destruct H as (He & s' & cy' & G' & HG & ->).
  assert (HG' : (8 * rounds m + 8 <= G')%nat) by fuel. xs. rewrite Z.add_simpl_r, u32_small by lia.
  apply (copy_loop strcat_asm 2); try done; fuel.
Qed.

(** The bounded searches. *)
Lemma scan_bounded code a dx si di z s cy m n : code !! 0%nat = Some (REPNE SCASB) -> sane m -> 0 <= di ->
  0 < n < 2 ^ 32 ->
  match memchr_loop (Z.to_nat n) m di a with
  | Ok r =>
      let di' := match r with Some q => q + 1 | None => di + n end in
      let z' := match r with Some _ => true | None => false end in
      exists s' cy' G', (8 <= G')%nat /\ di < di' <= zlen m /\
        run (asm_fuel m) code (Mach 0 (Cpu a n dx si di z s cy false) m) =
        run G' code (Mach 1 (Cpu a (n - (di' - di)) dx si di' z' s' cy' false) m)
  | Stray k => run (asm_fuel m) code (Mach 0 (Cpu a n dx si di z s cy false) m) = Stray k
  | _ => False
  end.
Proof.
  intros c0 Hm Hd Hn.
  pose proof (scan code 0 c0 (rounds m) (asm_fuel m) a n dx si di z s cy m Hm) as Hsc.
  destruct (memchr_loop _ m di a) as [r| |k|] eqn:E; cbv zeta in *; try (apply Hsc; fuel).
  destruct Hsc as (s' & cy' & G' & HG & Er); [fuel..|]. exists s', cy', G'. split; [fuel|].
  destruct (Z.eqb_spec n 0); [lia|]. split; [|exact Er]. destruct r as [q|].
  - apply memchr_range in E. lia.
  - destruct (memchr_none _ _ _ _ E); lia.
Qed.

Lemma memchr_equiv c m cs ch count : sane m -> 1 <= cs -> 0 <= count < 2 ^ 32 ->
  memchr_32 c m cs ch count = memchr m cs ch count.
Proof.
  intros Hm Hs Hc. unfold memchr_32, memchr, asm. destruct (Z.eqb_spec count 0) as [->|Hnz]; [done|].
  start c. pose proof (proj2 Hm) as Hl.
  pose proof (scan_bounded memchr_asm (u32 ch) edx0 esi0 cs zf0 sf0 cf0 m count eq_refl Hm) as H.
  rewrite (memchr_u8 _ _ _ (u32 ch) ch (u8_u32 ch)) in H.
  destruct (memchr_loop _ m cs ch) as [r| |k|] eqn:E; try (exfalso; apply H; lia);
    [|rewrite H by lia; done].
  destruct H as (s' & cy' & G' & HG & Hr & ->); [lia..|]. xs. destruct r as [q|]; cbv iota.
  - apply memchr_range in E. do 2 xs. xend. rewrite Z.add_simpl_r, u32_small by lia. unfold ptr.
    by destruct (Z.eqb_spec q 0); [lia|].
  - do 3 xs. xend. done.
Qed.

(** [memscan] compares with the byte, not with the [int]. *)
Lemma memscan_memchr n m p ch : is_byte ch ->
  memscan_loop n m p ch =
  (r ← memchr_loop n m p ch; Ok (match r with Some q => q | None => p + Z.of_nat n end)).
Proof.
  intros Hc. revert p. induction n as [|n IH]; intros p; cbn [memscan_loop memchr_loop mbind result_bind].
  - f_equal. lia.
  - destruct (rd m p) as [b| |k|]; cbn [mbind result_bind]; [|done..].
    rewrite (u8_small ch Hc), (Z.eqb_sym ch b). destruct (b =? ch); [done|]. rewrite IH.
    destruct (memchr_loop _ _ _ _) as [[q|]| |k|]; cbn [mbind result_bind]; try done. f_equal. lia.
Qed.

Lemma memscan_equiv c m addr ch size : sane m -> 0 <= addr -> is_byte ch -> 0 <= size < 2 ^ 32 ->
  memscan_32 c m addr ch size = memscan m addr ch size.
Proof.
  intros Hm Hs Hch Hc. unfold memscan_32, memscan, asm. destruct (Z.eqb_spec size 0) as [->|Hnz]; [done|].
  start c. pose proof (proj2 Hm) as Hl. rewrite memscan_memchr by done.
  pose proof (scan_bounded memscan_asm (u32 ch) edx0 esi0 addr zf0 sf0 cf0 m size eq_refl Hm) as H.
  rewrite (memchr_u8 _ _ _ (u32 ch) ch (u8_u32 ch)) in H.
  destruct (memchr_loop _ m addr ch) as [r| |k|] eqn:E; try (exfalso; apply H; lia);
    [|rewrite H by lia; done].
  destruct H as (s' & cy' & G' & HG & Hr & ->); [lia..|]. xs. destruct r as [q|]; cbv iota.
  - do 2 xs. xend. cbn [mbind result_bind]. rewrite Z.add_simpl_r, u32_small by lia. done.
  - xs. xend. cbn [mbind result_bind]. f_equal. lia.
Qed.

Lemma strnlen_equiv c m s count : sane m -> 0 <= s < 2 ^ 32 -> 0 <= count < 2 ^ 32 ->
  strnlen_32 c m s count = strnlen m s count.
Proof.
  intros Hm Hs Hc. unfold strnlen_32, strnlen, asm. start c. pose proof (proj2 Hm) as Hl.
  assert (E : strnlen_loop (Z.to_nat (Z.min count (zlen m + 1))) m s = strnlen_loop (Z.to_nat count) m s).
  { destruct (Z.min_spec count (zlen m + 1)) as [[_ ->]|[Hle ->]]; [done|]. symmetry.
    apply strnlen_more; pose proof (zlen_nonneg m); lia. }
  rewrite E. assert (HG : (8 * rounds m + 16 <= asm_fuel m)%nat) by fuel.
  revert HG. generalize (asm_fuel m). intros G HG. do 2 xs.
  rewrite <- (strnlen_run (rounds m) G s s count esi0 edi0 zf0 sf0 cf0 m) by (done || fuel).
  by destruct (run _ _ _).
Qed.

Lemma memset_equiv c m s ch count : sane m -> 0 <= s -> 0 <= count < 2 ^ 32 ->
  memset_32 c m s ch count = memset m s ch count.
Proof.
  intros Hm Hs Hc. unfold memset_32, memset. rewrite asm_memory. start c.
  rewrite (memset_u8 _ _ _ ch (u32 ch)) by (symmetry; apply u8_u32).
  pose proof (fill memset_asm 0 eq_refl (rounds m) (asm_fuel m) (u32 ch) count edx0 esi0 s zf0 sf0 cf0 m Hm) as H.
  destruct (memset_loop _ m s _) as [m'| |k|]; try (exfalso; apply H; fuel);
    [|unfold memory; rewrite H by fuel; done].
  destruct H as (G' & HG & ->); [fuel..|]. xend. done.
Qed.

Lemma land_low2 n : 0 <= n -> Z.land n 3 = n mod 4.
Proof. intros. apply (land_mask n 2). lia. Qed.

(** Words first, then the rest: the same as byte after byte, unless the
    destination starts inside the source. *)
Lemma memcpy_equiv c m dest src n :
  sane m -> 0 <= n -> 0 <= src -> src + n <= zlen m -> 0 <= dest -> dest + n <= zlen m ->
  dest <= src \/ src + n <= dest ->
  memcpy_32 c m dest src n = memcpy m dest src n.
Proof.
  intros Hm Hn Hs Hs' Hd Hd' Hap. unfold memcpy_32, memcpy. rewrite asm_memory. start c.
  pose proof (proj2 Hm) as Hl. set (w := Z.to_nat (n / 4)).
  assert (Hw : Z.of_nat w = n / 4) by (subst w; Z.div_mod_to_equations; lia).
  assert (Hb : 4 * (n / 4) + n mod 4 = n /\ 0 <= n mod 4 < 4 /\ 0 <= n / 4)
    by (Z.div_mod_to_equations; lia).
  destruct (move_words memcpy_asm 0 w eq_refl (asm_fuel m) eax0 n src dest zf0 sf0 cf0 m Hm)
    as (m1 & G1 & HG1 & E1 & Hm1 & Hl1 & Er); try lia; [fuel|].
  assert (HG : (8 <= G1)%nat) by fuel.
  rewrite <- Hw, Er. replace (Z.to_nat n) with (4 * w + Z.to_nat (n mod 4))%nat by lia.
  rewrite memcpy_loop_app, E1. cbn [mbind result_bind]. do 3 xs. rewrite land_low2 by lia.
  destruct (Z.eqb_spec (n mod 4) 0) as [E0|E0]; cbv iota.
  { rewrite E0. xs. xend. done. }
  destruct (move_bytes memcpy_asm 4 (Z.to_nat (n mod 4)) eq_refl G1 eax0 n (src + 4 * Z.of_nat w)
    (dest + 4 * Z.of_nat w) false (2 ^ 31 <=? n mod 4) false m1 Hm1) as (m2 & G2 & HG2 & E2 & Er2); try lia.
  rewrite Z2Nat.id in Er2 by lia. rewrite Er2.
  assert (Hg2 : (1 <= G2)%nat) by lia. xs. xend.
  replace (Z.of_nat (4 * w)) with (4 * Z.of_nat w) by lia. by rewrite E2.
Qed.

Lemma memmove_down_equiv c m dest src n :
  sane m -> 0 <= n -> 0 <= src -> src + n <= zlen m -> 0 <= dest -> dest + n <= zlen m -> src <= dest ->
  memmove_32 c m dest src n = memmove_down (Z.to_nat n) m dest src.
Proof.
  intros Hm Hn Hs Hs' Hd Hd' Hle. unfold memmove_32. destruct (Z.ltb_spec dest src); [lia|].
  rewrite asm_memory. start c.
  assert (HG : (8 * rounds m + 16 <= asm_fuel m)%nat) by fuel.
  revert HG. generalize (asm_fuel m). intros G HG. xs.
  destruct (move_down memmove_asm 1 (Z.to_nat n) eq_refl G eax0 edx0 src dest zf0 sf0 cf0 m Hm)
    as (m' & G' & HG' & E & Er); try lia; [fuel|].
  rewrite Z2Nat.id in Er by lia. rewrite Er, E. assert (Hg : (8 <= G')%nat) by fuel. xs. xend. done.
Qed.

(** C10: The functions of memcpy_32.c: [memmove] copies the area as it was,
    whatever the overlap of source and destination and whatever the registers
    held, and changes no other byte, as the C version does; [memcpy], which
    moves words first, equals the byte loop of string.c on areas that are
    apart, and [memset] equals it everywhere. Both areas are inside the memory;
    for memcpy they are apart. *)
Theorem memmove_32_correct c m dest src n ch :
  sane m -> 0 <= n -> 0 <= src -> src + n <= zlen m -> 0 <= dest -> dest + n <= zlen m ->
  memset_32 c m dest ch n = memset m dest ch n /\
  (src + n <= dest \/ dest + n <= src -> memcpy_32 c m dest src n = memcpy m dest src n) /\
  exists m', memmove_32 c m dest src n = Ok m' /\ memmove m dest src n = Ok m' /\ moved m m' dest src n.
Proof.
  intros Hm Hn Hs Hs' Hd Hd'. destruct (id Hm) as [Hb Hl]. split; [apply memset_equiv; lia || done|].
  split; [intros; apply memcpy_equiv; lia || done|].
  destruct (memmove_correct m dest src n) as (m' & E & Hmv); try lia; [done|].
  exists m'. split; [|by split]. destruct (Z.ltb_spec dest src).
  - unfold memmove_32. destruct (Z.ltb_spec dest src); [|lia]. rewrite memcpy_equiv by (lia || done).
    revert E. unfold memmove. by destruct (Z.leb_spec dest src); [|lia].
  - rewrite memmove_down_equiv by (lia || done).
    destruct (memmove_down_spec (Z.to_nat n) m dest src) as (m1 & E1 & H1); try lia; [done|].
    rewrite Z2Nat.id in H1 by lia. rewrite E1. f_equal. by apply (moved_unique m _ _ dest src n).
Qed.

Lemma memmove_32_correct_witness :
  let c := Cpu 7 8 9 10 11 true true true true in
  let m := [1; 2; 3; 4; 5; 6; 7; 8; 9] in
  memmove_32 c m 2 0 6 = Ok [1; 2; 1; 2; 3; 4; 5; 6; 9] /\
  exists m', memmove_32 c m 2 0 6 = Ok m' /\ memmove m 2 0 6 = Ok m' /\ moved m m' 2 0 6.
Proof.
  split; [by vm_compute|].
  apply (memmove_32_correct (Cpu 7 8 9 10 11 true true true true) [1; 2; 3; 4; 5; 6; 7; 8; 9] 2 0 6 0);
    [split; [apply (bool_decide_unpack _); by vm_compute|done]|by vm_compute..].
Defined.

(** C9: The assembly routines equal the C versions they replace, on every
    memory, whatever the registers held: the same memory or result, and a stray
    access in one exactly when in the other. Two things are needed for that. A
    count is at most 2^31, since its sign is tested; [strchr] and [memchr] are
    not called at address 0, which they could not tell from "not found". *)
Theorem string_32_equiv c m p q n ch :
  sane m -> 1 <= p < 2 ^ 32 -> 1 <= q < 2 ^ 32 -> 0 <= n <= 2 ^ 31 ->
  strcpy_32 c m p q = strcpy m p q /\
  strncpy_32 c m p q n = strncpy m p q n /\
  strcat_32 c m p q = strcat m p q /\
  strcmp_32 c m p q = strcmp m p q /\
  strncmp_32 c m p q n = strncmp m p q n /\
  strchr_32 c m p ch = strchr m p ch /\
  strlen_32 c m p = strlen m p /\
  strnlen_32 c m p n = strnlen m p n /\
  memchr_32 c m p ch n = memchr m p ch n /\
  (is_byte ch -> memscan_32 c m p ch n = memscan m p ch n).
Proof.
  intros Hm Hp Hq Hn. repeat split.
  - apply strcpy_equiv; lia || done.
  - apply strncpy_equiv; lia || done.
  - apply strcat_equiv; lia || done.
  - apply strcmp_equiv; lia || done.
  - apply strncmp_equiv; lia || done.
  - apply strchr_equiv; lia || done.
  - apply strlen_equiv; lia || done.
  - apply strnlen_equiv; lia || done.
  - apply memchr_equiv; lia || done.
  - intros Hch. apply memscan_equiv; lia || done.
Qed.

Lemma string_32_equiv_witness :
  let c := Cpu 7 8 9 10 11 true true true true in
  let m := [0; 97; 98; 99; 0; 97; 98; 0; 9; 9; 9] in
  strncmp_32 c m 1 5 3 = Ok 1 /\ strncmp_32 c m 1 5 3 = strncmp m 1 5 3.
Proof.
  split; [by vm_compute|].
  apply (string_32_equiv (Cpu 7 8 9 10 11 true true true true)
    [0; 97; 98; 99; 0; 97; 98; 0; 9; 9; 9] 1 5 3 0);
    [split; [apply (bool_decide_unpack _); by vm_compute|done]|lia..].
Defined.

(** With a count beyond 2^31 the sign is negative at once: nothing is copied,
    and any two strings are equal. *)
Lemma counts_signed c m p q n : 2 ^ 31 < n < 2 ^ 32 ->
  strncpy_32 c m p q n = Ok m /\ strncmp_32 c m p q n = Ok 0.
Proof.
  intros Hn. unfold strncpy_32, strncmp_32. rewrite asm_memory, asm_value. start c.
  assert (HG : (16 <= asm_fuel m)%nat) by fuel. revert HG. generalize (asm_fuel m). intros G HG.
  assert (E : (2 ^ 31 <=? u32 (n - 1)) = true) by (rewrite u32_small by lia; apply Z.leb_le; lia).
  split.
  - do 3 xs. rewrite E. cbv iota. xs. xend. done.
  - do 3 xs. rewrite E. cbv iota. do 4 xs. xend. unfold value. cpu_cbn. by rewrite Z.lxor_nilpotent.
Qed.

(** ** Appending *)

(** The loop of [strncat], and where it stored the NUL of its source. *)
Fixpoint strncat_end (fuel : nat) (m : list Z) (dest src count : Z) : result (list Z * option Z) :=
  match fuel with
  | O => NoFuel
  | S fuel =>
      b ← rd m src;
      m ← wr m dest b;
      if b =? 0 then Ok (m, Some dest)
      else
        let count := u32 (count - 1) in
        if count =? 0 then m ← wr m (dest + 1) 0; Ok (m, None)
        else strncat_end fuel m (dest + 1) (src + 1) count
  end.

Lemma strncat_end_loop F m dest src count :
  strncat_loop F m dest src count = ('(m, _) ← strncat_end F m dest src count; Ok m).
Proof.
  revert m dest src count. induction F as [|F IH]; intros m dest src count; [done|].
  cbn [strncat_loop strncat_end]. destruct (rd m src) as [b| |k|]; cbn [mbind result_bind]; [|done..].
  destruct (wr m dest b) as [m1| |k|]; cbn [mbind result_bind]; [|done..].
  destruct (b =? 0); [done|]. cbv zeta. destruct (u32 (count - 1) =? 0); [by destruct (wr _ _ _)|].
  apply IH.
Qed.

(** The assembly stores a NUL at the end in any case: one more when it has copied
    that of the source. *)
Lemma strncat_run F : forall G a cx dx si di z s cy m,
  sane m -> 1 <= cx <= 2 ^ 31 -> 0 <= di -> (1 <= F)%nat -> zlen m - di < Z.of_nat F ->
  (8 * F + 8 <= G)%nat ->
  memory (run G strncat_asm (Mach 3 (Cpu a cx dx si di z s cy false) m)) =
  ('(m, e) ← strncat_end F m di si cx;
   match e with Some d => wr m (d + 1) 0 | None => Ok m end).
Proof.
  induction F as [|F IH]; [lia|]. intros G a cx dx si di z s cy m Hm Hcx Hdi _ HF HG. do 3 xs.
  destruct (count_down cx ltac:(lia)) as [E1 E2]. rewrite E1, E2. cbv iota. cbn [strncat_end].
  xs. destruct (rd_cases m si) as [[b Eb]|[? Eb]]; rewrite Eb; cpu_cbn; [|done].
  destruct (sane_rd _ _ _ Hm Eb) as (Hb & Hsi & ->). xs. rewrite al_set by done.
  destruct (wr_cases m di b) as [[m' Ew]|Ew]; rewrite Ew; cpu_cbn; [|done].
  destruct (sane_wr _ _ _ _ Hm Ew) as [Hm' El]. rewrite (wr_succ _ _ _ _ (proj2 Hm) Ew).
  destruct (wr_range _ _ _ _ Ew) as [Hdi' _]. xs. rewrite al_set by done. xs.
  rewrite E1. destruct (b =? 0); cbv iota; cbn [mbind result_bind].
  - do 3 xs. rewrite Z.lxor_nilpotent. change (u8 0) with 0.
    destruct (wr_cases m' (di + 1) 0) as [[m2 E2']|E2']; rewrite E2'; cpu_cbn; [xend|]; done.
  - destruct (Z.eqb_spec (cx - 1) 0) as [->|Hne]; [|apply IH; lia || done].
    do 3 xs. change (2 ^ 31 <=? u32 (0 - 1)) with true. cbv iota. do 3 xs.
    rewrite Z.lxor_nilpotent. change (u8 0) with 0.
    destruct (wr_cases m' (di + 1) 0) as [[m2 E2']|E2']; rewrite E2'; cpu_cbn; [xend|]; done.
Qed.

Lemma strncat_asm_spec c m dest src n e : sane m -> 0 <= dest -> 1 <= n <= 2 ^ 31 ->
  strlen_loop (rounds m) m dest = Ok e ->
  strncat_32 c m dest src n =
  ('(m, d) ← strncat_end (rounds m) m e src n;
   match d with Some d => wr m (d + 1) 0 | None => Ok m end).
Proof.
  intros Hm Hd Hn He. unfold strncat_32. rewrite asm_memory. start c. pose proof (proj2 Hm) as Hl.
  pose proof (scan_string strncat_asm n src dest zf0 sf0 cf0 m eq_refl Hm Hd) as H. rewrite He in H.
  destruct H as (Hr & s' & cy' & G' & HG & ->).
  assert (HG' : (8 * rounds m + 16 <= G')%nat) by fuel. do 2 xs. rewrite Z.add_simpl_r, u32_small by lia.
  apply strncat_run; try done; fuel.
Qed.

(** Copying a string that fits into the count. *)
Lemma strncat_end_spec F : forall m dest src s count,
  Forall is_byte m -> cstr m src s -> zlen s < count < 2 ^ 32 -> (length s < F)%nat ->
  0 <= dest -> dest + zlen s < zlen m -> src + zlen s < dest \/ dest + zlen s < src ->
  exists m', strncat_end F m dest src count = Ok (m', Some (dest + zlen s)) /\
    moved m m' dest src (zlen s + 1).
Proof.
  induction F as [|F IH]; [lia|]. intros m dest src s count Hm Hs Hc HF Hd Hl Hap.
  pose proof (cstr_range _ _ _ Hs) as Hr. cbn [strncat_end].
  destruct s as [|b s]; cbn [cstr] in Hs; rewrite ?zlen_cons, ?zlen_nil in *; cbn [length] in HF.
  - rewrite Hs. cbn [mbind result_bind]. destruct (wr_ok m dest 0) as (m' & -> & El & H'); [lia|done|].
    cbn [mbind result_bind Z.eqb]. exists m'. split; [by rewrite Z.add_0_r|]. split; [done|]. intros i.
    rewrite H'. change (zlen (@nil Z)) with 0. ranges; try done. rewrite <- Hs. f_equal. lia.
  - destruct Hs as (Hb & Hnz & Hs). pose proof (zlen_nonneg s). rewrite Hb. cbn [mbind result_bind].
    pose proof (Forall_rd _ _ _ _ Hm Hb) as Hbb.
    destruct (wr_ok m dest b) as (m1 & Ew & El & H1); [lia|done|]. rewrite Ew. cbn [mbind result_bind].
    destruct (Z.eqb_spec b 0); [done|]. cbv zeta. rewrite u32_small by lia.
    destruct (Z.eqb_spec (count - 1) 0); [lia|].
    destruct (IH m1 (dest + 1) (src + 1) s (count - 1)) as (m' & E & El' & H'); try lia.
    { by eapply wr_bytes. }
    { pose proof (cstr_range _ _ _ Hs). apply cstr_intro.
      - intros i x Hx. destruct (cstr_rd _ _ _ _ _ Hs Hx) as [Hrd Hx0]. split; [|done].
        apply lookup_lt_Some in Hx. rewrite H1. unfold zlen in *. ranges. done.
      - rewrite H1. ranges. by apply cstr_end. }
    rewrite E. exists m'. split; [do 3 f_equal; lia|]. split; [lia|]. intros i. rewrite H', !H1.
    ranges; try (subst i; rewrite <- Hb; f_equal; lia); f_equal; lia.
Qed.

(** A string survives a store that does not touch it. *)
Lemma cstr_wr m p b m' q s : wr m p b = Ok m' -> is_byte b -> p < q \/ q + zlen s < p -> cstr m q s -> cstr m' q s.
Proof.
  intros Ew Hb Hap Hs. destruct (wr_range _ _ _ _ Ew) as [Hp _].
  destruct (wr_ok m p b Hp Hb) as (m1 & E1 & _ & H1). rewrite Ew in E1. injection E1 as <-.
  apply cstr_intro.
  - intros i x Hx. destruct (cstr_rd _ _ _ _ _ Hs Hx) as [Hrd Hx0]. split; [|done].
    apply lookup_lt_Some in Hx. rewrite H1. unfold zlen in *. ranges. done.
  - rewrite H1. pose proof (zlen_nonneg s). ranges. by apply cstr_end.
Qed.

(** Copying a string that does not fit never comes to its NUL. *)
Lemma strncat_end_full F : forall m dest src s count,
  Forall is_byte m -> cstr m src s -> 1 <= count <= zlen s -> count < 2 ^ 32 ->
  src + zlen s < dest \/ dest + zlen s < src ->
  match strncat_end F m dest src count with Ok (_, Some _) => False | _ => True end.
Proof.
  induction F as [|F IH]; [done|]. intros m dest src s count Hm Hs Hc Hc' Hap. cbn [strncat_end].
  destruct s as [|b s]; cbn [cstr] in Hs; rewrite ?zlen_cons in *; [change (zlen (@nil Z)) with 0 in *; lia|].
  destruct Hs as (Hb & Hnz & Hs). pose proof (zlen_nonneg s). rewrite Hb. cbn [mbind result_bind].
  pose proof (Forall_rd _ _ _ _ Hm Hb) as Hbb.
  destruct (wr_cases m dest b) as [[m1 Ew]|Ew]; rewrite Ew; cbn [mbind result_bind]; [|done].
  destruct (Z.eqb_spec b 0); [done|]. cbv zeta. rewrite u32_small by lia.
  destruct (Z.eqb_spec (count - 1) 0); [by destruct (wr m1 (dest + 1) 0)|].
  apply (IH m1 (dest + 1) (src + 1) s); try lia; [by eapply wr_bytes|].
  apply (cstr_wr m dest b m1); (done || lia).
Qed.

(** C11: Appending with [strncat]. When the source does not fit into the count
    the assembly does what the C version does. When it fits, the C version
    leaves the two strings one after the other with their NUL, and the assembly
    does the same and then stores a second NUL behind the first, outside of the
    area the function may touch; when the destination ends with the memory that
    is a stray write. The two strings with their NULs are in the memory, the
    text that is appended does not run into its source, and the count is from 1
    to 2^31. *)
Theorem strncat_32_overruns c m dest src d s n :
  sane m -> cstr m dest d -> cstr m src s -> 1 <= n <= 2 ^ 31 ->
  dest + zlen d + zlen s < zlen m -> src + zlen s < dest \/ dest + zlen d + zlen s < src ->
  if n <=? zlen s then strncat_32 c m dest src n = strncat m dest src n
  else
    exists m', strncat m dest src n = Ok m' /\ cstr m' dest (d ++ s) /\
      strncat_32 c m dest src n = wr m' (dest + zlen d + zlen s + 1) 0.
Proof.
  intros Hm Hd Hs Hn Hl Hap. destruct (id Hm) as [Hb _].
  pose proof (cstr_range _ _ _ Hd) as Hr. pose proof (zlen_nonneg d). pose proof (zlen_nonneg s).
  assert (He : strlen_loop (rounds m) m dest = Ok (dest + zlen d)).
  { apply strlen_loop_spec; [done|]. apply cstr_fuel in Hd. unfold rounds. lia. }
  rewrite (strncat_asm_spec c m dest src n _ Hm (proj1 Hr) Hn He). unfold strncat.
  destruct (Z.eqb_spec n 0); [lia|]. rewrite He. cbn [mbind result_bind]. rewrite strncat_end_loop.
  destruct (Z.leb_spec n (zlen s)) as [Hle|Hgt].
  - pose proof (strncat_end_full (rounds m) m (dest + zlen d) src s n Hb Hs) as Hf.
    destruct (strncat_end _ _ _ _ _) as [[m' [d'|]]| |k|]; try done. destruct Hf; lia.
  - destruct (strncat_end_spec (rounds m) m (dest + zlen d) src s n) as (m' & E & Hl' & H');
      try lia; try done; [apply cstr_fuel in Hs; unfold rounds; lia|].
    rewrite E. cbn [mbind result_bind]. exists m'. split; [done|]. split; [|done]. apply cstr_intro.
    + intros i b Hib. apply lookup_app_Some in Hib as [Hib|[Hge Hib]].
      * destruct (cstr_rd _ _ _ _ _ Hd Hib) as [Hrd Hb0]. split; [|done].
        apply lookup_lt_Some in Hib. rewrite H'. unfold zlen in *. ranges. done.
      * destruct (cstr_rd _ _ _ _ _ Hs Hib) as [Hrd Hb0]. split; [|done].
        apply lookup_lt_Some in Hib. rewrite H', <- Hrd. unfold zlen in *. ranges. f_equal. lia.
    + rewrite zlen_app, H', <- (cstr_end _ _ _ Hs). ranges. f_equal. lia.
Qed.

(** The destination holds the string it needs, and no byte more. *)
Lemma strncat_32_overruns_witness :
  let c := Cpu 7 8 9 10 11 true true true true in
  let m := [98; 99; 0; 97; 0; 9; 9] in
  strncat m 3 0 9 = Ok [98; 99; 0; 97; 98; 99; 0] /\ strncat_32 c m 3 0 9 = Stray Wr /\
  exists m', strncat m 3 0 9 = Ok m' /\ cstr m' 3 [97; 98; 99] /\ strncat_32 c m 3 0 9 = wr m' 7 0.
Proof.
  split; [by vm_compute|]. split; [by vm_compute|].
  apply (strncat_32_overruns (Cpu 7 8 9 10 11 true true true true) [98; 99; 0; 97; 0; 9; 9] 3 0 [97] [98; 99] 9);
    [split; [apply (bool_decide_unpack _); by vm_compute|done]|done..|lia|by vm_compute|left; by vm_compute].
Defined.

End AsmFacts.
