(* ===== verification/Numbers.v ===== *)
(** Numbers and their text: the [strto*] family and the decimal conversion of
    [src/src/lib/vsprintf.c].

    Strings are read as in [CString]: [m] is the memory, a pointer an index. *)
From S2P Require Import Prelude Ctype CString CStringFacts.

Module Num.
Import Ctype Str StrFacts.

Definition EINVAL : Z := 22.

(** [TOLOWER(x)] *)
Definition TOLOWER (x : Z) : Z := Z.lor x 0x20.

Definition simple_guess_base (m : list Z) (cp : Z) : result Z :=
  c0 ← rd m cp;
  if c0 =? 48 then
    c1 ← rd m (cp + 1);
    x ← (if TOLOWER c1 =? 120 then c2 ← rd m (cp + 2); Ok (isxdigit c2) else Ok false);
    Ok (if (x : bool) then 16 else 8)
  else Ok 10.

(** [value] of a hexadecimal digit, an [unsigned int] *)
Definition digit_value (c : Z) : Z :=
  u32 (if isdigit c then c - 48 else TOLOWER c - 97 + 10).

(** The [while (isxdigit( *cp ))] loop: the result and the end pointer. *)
Fixpoint strtoull_loop (fuel : nat) (m : list Z) (cp base result : Z) : Prelude.result (Z * Z) :=
  match fuel with
  | O => NoFuel
  | S fuel =>
      c ← rd m cp;
      if isxdigit c then
        let value := digit_value c in
        if base <=? value then Ok (result, cp)
        else strtoull_loop fuel m (cp + 1) base (u64 (result * base + value))
      else Ok (result, cp)
  end.

Definition simple_strtoull (m : list Z) (cp base : Z) : result (Z * Z) :=
  base ← (if base =? 0 then simple_guess_base m cp else Ok base);
  cp ← (if base =? 16 then
          c0 ← rd m cp;
          if c0 =? 48 then c1 ← rd m (cp + 1); Ok (if TOLOWER c1 =? 120 then cp + 2 else cp)
          else Ok cp
        else Ok cp);
  strtoull_loop (rounds m) m cp base 0.

Definition simple_strtoul (m : list Z) (cp base : Z) : result (Z * Z) :=
  '(v, endp) ← simple_strtoull m cp base; Ok (u32 v, endp).

Definition simple_strtol (m : list Z) (cp base : Z) : result (Z * Z) :=
  c ← rd m cp;
  if c =? 45 then '(v, endp) ← simple_strtoul m (cp + 1) base; Ok (s32 (- v), endp)
  else '(v, endp) ← simple_strtoul m cp base; Ok (s32 v, endp).

Definition simple_strtoll (m : list Z) (cp base : Z) : result (Z * Z) :=
  c ← rd m cp;
  if c =? 45 then '(v, endp) ← simple_strtoull m (cp + 1) base; Ok (s64 (- v), endp)
  else '(v, endp) ← simple_strtoull m cp base; Ok (s64 v, endp).

(** The two strict conversions share their shape: [conv] is the simple one. The
    return value and [*res]. *)
Definition strict_with (conv : list Z -> Z -> Z -> result (Z * Z)) (m : list Z) (cp base : Z) :
    result (Z * Z) :=
  len ← strlen m cp;
  if len =? 0 then Ok (- EINVAL, 0)
  else
    '(val, tail) ← conv m cp base;
    if tail =? cp then Ok (- EINVAL, 0)
    else
      c ← rd m tail;
      if (c =? 0) || ((len =? tail - cp + 1) && (c =? 10)) then Ok (0, val)
      else Ok (- EINVAL, 0).

Definition strict_strtoul (m : list Z) (cp base : Z) : result (Z * Z) :=
  strict_with simple_strtoul m cp base.

Definition strict_strtoull (m : list Z) (cp base : Z) : result (Z * Z) :=
  strict_with simple_strtoull m cp base.

Definition strict_strtol (m : list Z) (cp base : Z) : result (Z * Z) :=
  c ← rd m cp;
  if c =? 45 then
    '(ret, res) ← strict_strtoul m (cp + 1) base;
    Ok (ret, if ret =? 0 then s32 (- s32 res) else s32 res)
  else
    '(ret, res) ← strict_strtoul m cp base; Ok (ret, s32 res).

Definition strict_strtoll (m : list Z) (cp base : Z) : result (Z * Z) :=
  c ← rd m cp;
  if c =? 45 then
    '(ret, res) ← strict_strtoull m (cp + 1) base;
    Ok (ret, if ret =? 0 then s64 (- s64 res) else s64 res)
  else
    '(ret, res) ← strict_strtoull m cp base; Ok (ret, s64 res).

(** [skip_atoi]: the value (an [int]) and the new pointer. *)
Fixpoint skip_atoi_loop (fuel : nat) (m : list Z) (s i : Z) : result (Z * Z) :=
  match fuel with
  | O => NoFuel
  | S fuel =>
      c ← rd m s;
      if isdigit c then skip_atoi_loop fuel m (s + 1) (s32 (i * 10 + c - 48)) else Ok (i, s)
  end.
Definition skip_atoi (m : list Z) (s : Z) : result (Z * Z) := skip_atoi_loop (rounds m) m s 0.

(** ** Decimal digits, least significant first *)

Definition put_dec_trunc (q : Z) : list Z :=
  let d1 := Z.land (Z.shiftr q 4) 0xf in
  let d2 := Z.land (Z.shiftr q 8) 0xf in
  let d3 := Z.shiftr q 12 in
  let d0 := u32 (6 * (d3 + d2 + d1) + Z.land q 0xf) in
  let q := Z.shiftr (u32 (d0 * 0xcd)) 11 in
  let d0 := u32 (d0 - 10 * q) in
  u8 (d0 + 48) ::
  let d1 := u32 (q + 9 * d3 + 5 * d2 + d1) in
  if negb (d1 =? 0) then
    let q := Z.shiftr (u32 (d1 * 0xcd)) 11 in
    let d1 := u32 (d1 - 10 * q) in
    u8 (d1 + 48) ::
    let d2 := u32 (q + 2 * d2) in
    if negb (d2 =? 0) || negb (d3 =? 0) then
      let q := Z.shiftr (u32 (d2 * 0xd)) 7 in
      let d2 := u32 (d2 - 10 * q) in
      u8 (d2 + 48) ::
      let d3 := u32 (q + 4 * d3) in
      if negb (d3 =? 0) then
        let q := Z.shiftr (u32 (d3 * 0xcd)) 11 in
        let d3 := u32 (d3 - 10 * q) in
        u8 (d3 + 48) :: if negb (q =? 0) then [u8 (q + 48)] else []
      else []
    else []
  else [].

Definition put_dec_full (q : Z) : list Z :=
  let d1 := Z.land (Z.shiftr q 4) 0xf in
  let d2 := Z.land (Z.shiftr q 8) 0xf in
  let d3 := Z.shiftr q 12 in
  let d0 := u32 (6 * (d3 + d2 + d1) + Z.land q 0xf) in
  let q := Z.shiftr (u32 (d0 * 0xcd)) 11 in
  let d0 := u32 (d0 - 10 * q) in
  let d1 := u32 (q + 9 * d3 + 5 * d2 + d1) in
  let q := Z.shiftr (u32 (d1 * 0xcd)) 11 in
  let d1 := u32 (d1 - 10 * q) in
  let d2 := u32 (q + 2 * d2) in
  let q := Z.shiftr (u32 (d2 * 0xd)) 7 in
  let d2 := u32 (d2 - 10 * q) in
  let d3 := u32 (q + 4 * d3) in
  let q := Z.shiftr (u32 (d3 * 0xcd)) 11 in
  let d3 := u32 (d3 - 10 * q) in
  [u8 (d0 + 48); u8 (d1 + 48); u8 (d2 + 48); u8 (d3 + 48); u8 (q + 48)].

(** A 64-bit number takes at most four rounds of five digits. *)
Fixpoint put_dec_loop (fuel : nat) (num : Z) : result (list Z) :=
  if num <? 100000 then Ok (put_dec_trunc num)
  else
    match fuel with
    | O => NoFuel
    | S fuel =>
        ds ← put_dec_loop fuel (num / 100000);
        Ok (put_dec_full (num mod 100000) ++ ds)
    end.
Definition put_dec (num : Z) : result (list Z) := put_dec_loop 4 num.

(** ** The digits of a number *)

Fixpoint digits_rev (fuel : nat) (b n : Z) : list Z :=
  match fuel with
  | O => []
  | S fuel => n mod b :: if n / b =? 0 then [] else digits_rev fuel b (n / b)
  end.

(** 64 digits are enough for 64 bits in any base. *)
Definition digits (b n : Z) : list Z := digits_rev 64 b n.

Definition dec_text (n : Z) : list Z := map (fun d => d + 48) (digits 10 n).

Fixpoint all_below (n : nat) (p : Z -> bool) : bool :=
  match n with
  | O => true
  | S n => p (Z.of_nat n) && all_below n p
  end.

Lemma all_below_spec n p : all_below n p = true -> forall z, 0 <= z < Z.of_nat n -> p z = true.
Proof.
  induction n as [|n IH]; simpl; intros H z Hz; [lia|]. apply andb_true_iff in H as [H1 H2].
  destruct (decide (z = Z.of_nat n)) as [->|]; [done|]. apply IH; [done|lia].
Qed.

(** The multiplications that stand for a division by ten. *)
Lemma div10_cd x : 0 <= x < 1024 -> Z.shiftr (u32 (x * 0xcd)) 11 = x / 10.
Proof.
  intros Hx. apply Z.eqb_eq. revert x Hx.
  exact (all_below_spec 1024 (fun x => Z.shiftr (u32 (x * 0xcd)) 11 =? x / 10)
    ltac:(vm_compute; reflexivity)).
Qed.

Lemma div10_0d x : 0 <= x < 69 -> Z.shiftr (u32 (x * 0xd)) 7 = x / 10.
Proof.
  intros Hx. apply Z.eqb_eq. revert x Hx.
  exact (all_below_spec 69 (fun x => Z.shiftr (u32 (x * 0xd)) 7 =? x / 10)
    ltac:(vm_compute; reflexivity)).
Qed.

(** The four intermediate values of the conversion of [q], before their
    division by ten. *)
Section steps.
Context (q : Z) (Hq : 0 <= q < 100000).

Definition n1 : Z := (q / 16) mod 16.
Definition n2 : Z := (q / 256) mod 16.
Definition n3 : Z := q / 4096.
Definition v0 : Z := 6 * (n3 + n2 + n1) + q mod 16.
Definition v1 : Z := v0 / 10 + 9 * n3 + 5 * n2 + n1.
Definition v2 : Z := v1 / 10 + 2 * n2.
Definition v3 : Z := v2 / 10 + 4 * n3.

Lemma nibbles : 0 <= n1 < 16 /\ 0 <= n2 < 16 /\ 0 <= n3 <= 24 /\
  q = 4096 * n3 + 256 * n2 + 16 * n1 + q mod 16.
Proof. unfold n1, n2, n3. Z.div_mod_to_equations. lia. Qed.

(** What is left of [q] after each digit. *)
Lemma v0_eq : q = v0 + 4090 * n3 + 250 * n2 + 10 * n1.
Proof. pose proof nibbles. unfold v0. lia. Qed.
Lemma v1_eq : q / 10 = v1 + 400 * n3 + 20 * n2.
Proof. pose proof v0_eq. unfold v1. Z.div_mod_to_equations. lia. Qed.
Lemma v2_eq : q / 10 / 10 = v2 + 40 * n3.
Proof. pose proof v1_eq. unfold v2. Z.div_mod_to_equations. lia. Qed.
Lemma v3_eq : q / 10 / 10 / 10 = v3.
Proof. pose proof v2_eq. unfold v3. Z.div_mod_to_equations. lia. Qed.

Lemma v_ranges : 0 <= v0 < 400 /\ 0 <= v1 < 400 /\ 0 <= v2 < 69 /\ 0 <= v3 < 200.
Proof.
  pose proof nibbles. unfold v3, v2, v1, v0. pose proof (Z.mod_pos_bound q 16).
  Z.div_mod_to_equations. lia.
Qed.

(** The digits of [q]. *)
Lemma digit_0 : u32 (v0 - 10 * (v0 / 10)) = q mod 10.
Proof.
  pose proof v0_eq. pose proof v_ranges. rewrite u32_small; Z.div_mod_to_equations; lia.
Qed.
Lemma digit_1 : u32 (v1 - 10 * (v1 / 10)) = (q / 10) mod 10.
Proof.
  pose proof v1_eq. pose proof v_ranges. rewrite u32_small; Z.div_mod_to_equations; lia.
Qed.
Lemma digit_2 : u32 (v2 - 10 * (v2 / 10)) = (q / 10 / 10) mod 10.
Proof.
  pose proof v2_eq. pose proof v_ranges. rewrite u32_small; Z.div_mod_to_equations; lia.
Qed.
Lemma digit_3 : u32 (v3 - 10 * (v3 / 10)) = (q / 10 / 10 / 10) mod 10.
Proof.
  rewrite v3_eq. pose proof v_ranges. rewrite u32_small; Z.div_mod_to_equations; lia.
Qed.
Lemma digit_4 : v3 / 10 = (q / 10 / 10 / 10 / 10) mod 10.
Proof.
  assert (0 <= v3 < 100) by (rewrite <- v3_eq; Z.div_mod_to_equations; lia).
  rewrite v3_eq. symmetry. apply Z.mod_small. Z.div_mod_to_equations. lia.
Qed.

Lemma u8_digit n : u8 (n mod 10 + 48) = n mod 10 + 48.
Proof. pose proof (Z.mod_pos_bound n 10). apply u8_small. lia. Qed.

(** The code's expressions are these values. *)
Lemma code_n : Z.land (Z.shiftr q 4) 0xf = n1 /\ Z.land (Z.shiftr q 8) 0xf = n2 /\
  Z.shiftr q 12 = n3 /\ Z.land q 0xf = q mod 16.
Proof.
  rewrite !(land_mask _ 4 ltac:(lia) : Z.land _ 15 = _ mod 2 ^ 4). bits_to_arith. done.
Qed.
Lemma code_v0 : u32 (6 * (n3 + n2 + n1) + q mod 16) = v0.
Proof. pose proof v_ranges. unfold v0 in *. apply u32_small. lia. Qed.
Lemma code_v1 : u32 (v0 / 10 + 9 * n3 + 5 * n2 + n1) = v1.
Proof. pose proof v_ranges. unfold v1 in *. apply u32_small. lia. Qed.
Lemma code_v2 : u32 (v1 / 10 + 2 * n2) = v2.
Proof. pose proof v_ranges. unfold v2 in *. apply u32_small. lia. Qed.
Lemma code_v3 : u32 (v2 / 10 + 4 * n3) = v3.
Proof. pose proof v_ranges. unfold v3 in *. apply u32_small. lia. Qed.

Lemma put_dec_full_digits :
  put_dec_full q = map (fun d => d + 48)
    [q mod 10; (q / 10) mod 10; (q / 10 / 10) mod 10; (q / 10 / 10 / 10) mod 10;
     (q / 10 / 10 / 10 / 10) mod 10].
Proof.
  pose proof v_ranges. unfold put_dec_full. destruct code_n as (-> & -> & -> & ->). cbv zeta.
  rewrite code_v0, div10_cd by lia. rewrite code_v1, (div10_cd v1) by lia.
  rewrite code_v2, div10_0d by lia. rewrite code_v3, (div10_cd v3) by lia.
  rewrite digit_0, digit_1, digit_2, digit_3, digit_4, !u8_digit. done.
Qed.

(** The tests that stop the conversion. *)
Lemma more_1 : (v1 =? 0) = (q / 10 =? 0).
Proof.
  pose proof v1_eq. pose proof nibbles. pose proof v_ranges.
  destruct (Z.eqb_spec v1 0), (Z.eqb_spec (q / 10) 0); try done; exfalso; [|lia].
  unfold v1 in *. pose proof (Z.div_pos v0 10). lia.
Qed.
Lemma more_2 : negb (v2 =? 0) || negb (n3 =? 0) = negb (q / 10 / 10 =? 0).
Proof.
  pose proof v2_eq. pose proof nibbles. pose proof v_ranges.
  by destruct (Z.eqb_spec v2 0), (Z.eqb_spec n3 0), (Z.eqb_spec (q / 10 / 10) 0); try lia.
Qed.

Lemma digits_rev_S fuel b n :
  digits_rev (S fuel) b n = n mod b :: if n / b =? 0 then [] else digits_rev fuel b (n / b).
Proof. done. Qed.

Lemma put_dec_trunc_ok : put_dec_trunc q = dec_text q.
Proof.
  pose proof v_ranges as Hr. pose proof nibbles as Hn. unfold put_dec_trunc, dec_text, digits.
  destruct code_n as (-> & -> & -> & ->). cbv zeta.
  rewrite code_v0, div10_cd by lia. rewrite code_v1, (div10_cd v1) by lia.
  rewrite code_v2, div10_0d by lia. rewrite code_v3, (div10_cd v3) by lia.
  rewrite digit_0, digit_1, digit_2, digit_3, !u8_digit.
  rewrite more_1, more_2, <- v3_eq. set (d := q / 10 / 10 / 10 / 10).
  assert (0 <= d < 10) by (unfold d; Z.div_mod_to_equations; lia).
  assert (Hd : d = d mod 10) by (by rewrite Z.mod_small).
  rewrite !digits_rev_S. cbn [map]. f_equal.
  destruct (q / 10 =? 0); cbn [negb map]; [done|]. f_equal.
  destruct (q / 10 / 10 =? 0); cbn [negb map]; [done|]. f_equal.
  destruct (q / 10 / 10 / 10 =? 0); cbn [negb map]; [done|]. f_equal. fold d.
  destruct (d =? 0); cbn [negb map]; [done|].
  rewrite Hd, u8_digit, Z.mod_mod, (Z.div_small (d mod 10)) by lia. done.
Qed.

End steps.

(** ** All digits of a 64-bit number *)

Lemma digits_rev_enough f g b n :
  1 < b -> 0 <= n < b ^ Z.of_nat f -> (0 < f)%nat -> digits_rev (f + g) b n = digits_rev f b n.
Proof.
  intros Hb. revert n. induction f as [|f IH]; intros n Hn Hf; [lia|].
  cbn [plus]. rewrite !digits_rev_S. destruct (Z.eqb_spec (n / b) 0) as [|Hne]; [done|].
  rewrite Nat2Z.inj_succ, Z.pow_succ_r in Hn by lia.
  assert (Hd : 0 <= n / b < b ^ Z.of_nat f).
  { split; [apply Z.div_pos; lia|apply Z.div_lt_upper_bound; lia]. }
  destruct f as [|f]; [simpl in Hd; lia|]. rewrite IH; [done|done|lia].
Qed.

Lemma digits_rev_five f n :
  100000 <= n -> digits_rev (5 + f) 10 n =
    (let q := n mod 100000 in
     [q mod 10; (q / 10) mod 10; (q / 10 / 10) mod 10; (q / 10 / 10 / 10) mod 10;
      (q / 10 / 10 / 10 / 10) mod 10]) ++ digits_rev f 10 (n / 100000).
Proof.
  intros Hn. cbn [plus]. rewrite !digits_rev_S. cbn zeta.
  do 4 (match goal with |- context [if ?x / 10 =? 0 then _ else _] =>
    destruct (Z.eqb_spec (x / 10) 0); [exfalso; Z.div_mod_to_equations; lia|] end).
  destruct (Z.eqb_spec (n / 10 / 10 / 10 / 10 / 10) 0); [exfalso; Z.div_mod_to_equations; lia|].
  cbn [app]. rewrite !Z.div_div by lia. change (10 * 10) with 100. change (100 * 10) with 1000.
  change (1000 * 10) with 10000. change (10000 * 10) with 100000.
  f_equal; [Z.div_mod_to_equations; lia|]. f_equal; [Z.div_mod_to_equations; lia|].
  f_equal; [Z.div_mod_to_equations; lia|]. f_equal; [Z.div_mod_to_equations; lia|].
  f_equal. Z.div_mod_to_equations; lia.
Qed.

Lemma put_dec_loop_ok fuel n :
  0 <= n < 10 ^ (5 * Z.of_nat fuel + 5) -> (5 * fuel + 5 <= 59)%nat ->
  put_dec_loop fuel n = Ok (dec_text n).
Proof.
  revert n. induction fuel as [|fuel IH]; intros n Hn Hf; cbn [put_dec_loop].
  - change (10 ^ (5 * Z.of_nat 0 + 5)) with 100000 in Hn.
    destruct (Z.ltb_spec n 100000); [|lia]. by rewrite put_dec_trunc_ok.
  - destruct (Z.ltb_spec n 100000) as [Hs|Hb]; [by rewrite put_dec_trunc_ok by lia|].
    assert (Hq : 0 <= n / 100000 < 10 ^ (5 * Z.of_nat fuel + 5)).
    { split; [apply Z.div_pos; lia|]. apply Z.div_lt_upper_bound; [lia|].
      replace (5 * Z.of_nat (S fuel) + 5) with (5 + (5 * Z.of_nat fuel + 5)) in Hn by lia.
      rewrite Z.pow_add_r in Hn by lia. apply Hn. }
    assert (E : digits_rev (59 + 5) 10 (n / 100000) = digits_rev 59 10 (n / 100000)).
    { apply digits_rev_enough; [lia| |lia]. split; [apply Hq|].
      eapply Z.lt_le_trans; [apply Hq|]. apply Z.pow_le_mono_r; lia. }
    rewrite (IH _ Hq) by lia. rewrite bind_Ok. unfold dec_text, digits.
    change 64%nat with (5 + 59)%nat at 2. rewrite digits_rev_five, map_app by done.
    rewrite <- put_dec_full_digits by (apply Z.mod_pos_bound; lia). by rewrite <- E.
Qed.

(** C23: the division-free decimal conversion is exact: for every 64-bit number
    [put_dec] terminates within its four rounds and produces the decimal digits
    of the number, least significant first, with no leading zero. *)
Theorem put_dec_correct n : 0 <= n < 2 ^ 64 -> put_dec n = Ok (dec_text n).
Proof.
  intros Hn. apply (put_dec_loop_ok 4); [|lia]. split; [apply Hn|].
  eapply Z.lt_trans; [apply Hn|]. vm_compute. reflexivity.
Qed.

Lemma put_dec_correct_witness : put_dec 18446744073709551615 = Ok (dec_text 18446744073709551615).
Proof. apply (put_dec_correct 18446744073709551615). lia. Defined.

(** ** Reading a number back *)

Definition horner (b : Z) (ds : list Z) (acc : Z) : Z := fold_left (fun a d => a * b + d) ds acc.

Lemma horner_digits fuel b n :
  1 < b -> 0 <= n < b ^ Z.of_nat fuel -> (0 < fuel)%nat ->
  horner b (rev (digits_rev fuel b n)) 0 = n.
Proof.
  intros Hb. revert n. induction fuel as [|f IH]; intros n Hn Hf; [lia|].
  rewrite digits_rev_S. rewrite Nat2Z.inj_succ, Z.pow_succ_r in Hn by lia.
  assert (Hd : 0 <= n / b < b ^ Z.of_nat f).
  { split; [apply Z.div_pos; lia|apply Z.div_lt_upper_bound; lia]. }
  destruct (Z.eqb_spec (n / b) 0) as [E|E].
  - simpl. pose proof (Z.div_mod n b). lia.
  - destruct f as [|f]; [simpl in Hd; lia|]. cbn [rev]. unfold horner. rewrite fold_left_app.
    fold (horner b (rev (digits_rev (S f) b (n / b))) 0). rewrite IH by (done || lia).
    simpl. pose proof (Z.div_mod n b). lia.
Qed.

Lemma digits_rev_range fuel b n : 1 < b -> Forall (fun d => 0 <= d < b) (digits_rev fuel b n).
Proof.
  intros Hb. revert n. induction fuel as [|f IH]; intros n; [done|]. rewrite digits_rev_S.
  constructor; [apply Z.mod_pos_bound; lia|]. by destruct (_ =? 0).
Qed.

(** The character of a digit, as [number] writes it. *)
Definition digit_char (locase d : Z) : Z :=
  Z.lor (nth (Z.to_nat d) [48; 49; 50; 51; 52; 53; 54; 55; 56; 57; 65; 66; 67; 68; 69; 70] 0) locase.

Lemma digit_char_ok locase d :
  locase = 0 \/ locase = 0x20 -> 0 <= d < 16 ->
  isxdigit (digit_char locase d) = true /\ digit_value (digit_char locase d) = d /\
  digit_char locase d <> 0 /\ TOLOWER (digit_char locase d) <> 120.
Proof.
  intros [-> | ->] Hd;
    (assert (Hc : d = 0 \/ d = 1 \/ d = 2 \/ d = 3 \/ d = 4 \/ d = 5 \/ d = 6 \/ d = 7 \/ d = 8 \/
      d = 9 \/ d = 10 \/ d = 11 \/ d = 12 \/ d = 13 \/ d = 14 \/ d = 15) by lia);
    repeat destruct Hc as [-> | Hc]; subst; repeat split; by vm_compute.
Qed.

(** Text that ends a number: nothing, or a character that is neither a digit of
    some base nor the ['x'] of a prefix. *)
Definition stops (r : list Z) : Prop :=
  match r with
  | [] => True
  | c :: _ => isxdigit c = false /\ TOLOWER c <> 120
  end.

Lemma u64_horner b ds acc : u64 (horner b ds (u64 acc)) = u64 (horner b ds acc).
Proof.
  unfold u64, horner. revert acc. induction ds as [|d ds IH]; intros acc; cbn [fold_left].
  - apply Z.mod_mod. lia.
  - rewrite <- (IH (acc mod 2 ^ 64 * b + d)), <- (IH (acc * b + d)).
    assert ((acc mod 2 ^ 64 * b + d) mod 2 ^ 64 = (acc * b + d) mod 2 ^ 64) as ->; [|done].
    by rewrite <- Zplus_mod_idemp_l, Zmult_mod_idemp_l, Zplus_mod_idemp_l.
Qed.

Lemma strtoull_loop_spec fuel m p b locase ds r acc :
  locase = 0 \/ locase = 0x20 -> 1 < b <= 16 -> Forall (fun d => 0 <= d < b) ds ->
  cstr m p (map (digit_char locase) ds ++ r) -> stops r -> (length ds < fuel)%nat ->
  strtoull_loop fuel m p b acc = Ok (match ds with [] => acc | _ => u64 (horner b ds acc) end, p + zlen ds).
Proof.
  intros Hlc Hb. revert fuel p acc. induction ds as [|d ds IH]; intros fuel p acc Hds Hs Hr Hf;
    (destruct fuel as [|fuel]; [simpl in Hf; lia|]); cbn [strtoull_loop map app] in *.
  - assert (E : exists c, rd m p = Ok c /\ isxdigit c = false).
    { destruct r as [|c r]; cbn [cstr] in Hs; [by exists 0|]. exists c. split; [apply Hs|apply Hr]. }
    destruct E as (c & -> & E). rewrite bind_Ok, E. do 2 f_equal. zlen_simp. lia.
  - destruct Hs as (-> & _ & Hs). rewrite bind_Ok. apply Forall_cons in Hds as [Hd Hds].
    destruct (digit_char_ok locase d Hlc ltac:(lia)) as (-> & -> & _).
    destruct (Z.leb_spec b d); [lia|]. rewrite IH by (done || simpl in Hf; lia).
    do 2 f_equal; [|zlen_simp; lia]. cbn [horner fold_left]. destruct ds as [|d' ds]; [done|].
    apply u64_horner.
Qed.

(** Digits, leading zeros included, followed by text that ends the number. *)
Lemma strtoull_digits m p b locase ds r :
  locase = 0 \/ locase = 0x20 -> b = 8 \/ b = 10 \/ b = 16 -> ds <> [] ->
  Forall (fun d => 0 <= d < b) ds ->
  cstr m p (map (digit_char locase) ds ++ r) -> stops r ->
  simple_strtoull m p b = Ok (u64 (horner b ds 0), p + zlen ds).
Proof.
  intros Hlc Hb Hne Hds Hs Hr. unfold simple_strtoull.
  pose proof (cstr_fuel _ _ _ Hs) as Hf. rewrite length_app, length_map in Hf.
  pose proof (strtoull_loop_spec (rounds m) m p b locase ds r 0 Hlc ltac:(lia) Hds Hs Hr
    ltac:(unfold rounds; lia)) as Hl.
  destruct ds as [|d ds]; [done|].
  destruct (Z.eqb_spec b 0); [lia|]. rewrite bind_Ok.
  destruct (Z.eqb_spec b 16) as [->|]; [|by rewrite bind_Ok].
  cbn [map app cstr] in Hs. destruct Hs as (Hd & _ & Hs). rewrite Hd, bind_Ok.
  destruct (digit_char locase d =? 48); [|by rewrite bind_Ok].
  assert (Hc1 : exists c1, rd m (p + 1) = Ok c1 /\ TOLOWER c1 <> 120).
  { apply Forall_cons in Hds as [_ Hds]. destruct ds as [|d1 ds]; cbn [map app] in Hs.
    - destruct r as [|c r]; [by exists 0|]. exists c. split; [apply Hs|apply Hr].
    - destruct Hs as (Hd1 & _). eexists. split; [done|]. apply digit_char_ok; [done|].
      apply Forall_cons in Hds as [Hds _]. lia. }
  destruct Hc1 as (c1 & -> & Hc1). rewrite bind_Ok. by destruct (Z.eqb_spec (TOLOWER c1) 120).
Qed.

(** The text of [n] in base [b], most significant digit first. *)
Definition text (locase b n : Z) : list Z := map (digit_char locase) (rev (digits b n)).

Lemma digits_not_nil b n : rev (digits b n) <> [].
Proof. unfold digits. rewrite digits_rev_S. cbn [rev]. by destruct (rev _). Qed.

Lemma text_bound b n : 2 <= b -> 0 <= n < 2 ^ 64 -> 0 <= n < b ^ Z.of_nat 64.
Proof. intros Hb Hn. split; [lia|]. eapply Z.lt_le_trans; [apply Hn|]. apply Z.pow_le_mono_l. lia. Qed.

Lemma strtoull_text m p b n locase :
  locase = 0 \/ locase = 0x20 -> b = 8 \/ b = 10 \/ b = 16 -> 0 <= n < 2 ^ 64 ->
  cstr m p (text locase b n) ->
  simple_strtoull m p b = Ok (n, p + zlen (text locase b n)).
Proof.
  intros Hlc Hb Hn Hs. unfold text in Hs. rewrite <- (app_nil_r (map _ _)) in Hs.
  assert (Hds : Forall (fun d => 0 <= d < b) (rev (digits b n))).
  { apply Forall_rev, digits_rev_range. lia. }
  rewrite (strtoull_digits m p b locase _ [] Hlc Hb (digits_not_nil b n) Hds Hs I).
  unfold digits. rewrite horner_digits by (lia || apply text_bound; lia).
  rewrite u64_small by lia. unfold text, zlen, digits. by rewrite length_map.
Qed.

(** A strict conversion accepts the text of a number and reports what the
    simple conversion made of it. *)
Lemma strict_text conv m p b n v locase :
  cstr m p (text locase b n) ->
  conv m p b = Ok (v, p + zlen (text locase b n)) -> strict_with conv m p b = Ok (0, v).
Proof.
  intros Hs Hl. unfold strict_with. rewrite (strlen_spec _ _ _ Hs), bind_Ok.
  assert (Hpos : 0 < zlen (text locase b n)).
  { unfold text, zlen. rewrite length_map. pose proof (digits_not_nil b n) as Hne.
    destruct (rev (digits b n)); [done|simpl; lia]. }
  destruct (Z.eqb_spec (zlen (text locase b n)) 0); [lia|]. rewrite Hl, bind_Ok.
  destruct (Z.eqb_spec (p + zlen (text locase b n)) p); [lia|].
  by rewrite (cstr_end _ _ _ Hs), bind_Ok.
Qed.

(** Reading the text of a 64-bit number in its base gives the number back,
    whatever the case of its letters: the simple conversion stops at the end of
    the text, and the strict one reports success. *)
Lemma strtoull_roundtrip m p b n locase :
  locase = 0 \/ locase = 0x20 -> b = 8 \/ b = 10 \/ b = 16 -> 0 <= n < 2 ^ 64 ->
  cstr m p (text locase b n) ->
  simple_strtoull m p b = Ok (n, p + zlen (text locase b n)) /\
  strict_strtoull m p b = Ok (0, n).
Proof.
  intros Hlc Hb Hn Hs. pose proof (strtoull_text m p b n locase Hlc Hb Hn Hs) as Hl.
  split; [done|]. by eapply strict_text.
Qed.

(** [strict_strtoul] is not strict about the width of its result: the text
    of any 64-bit number is a success, and the result is the number modulo the
    32 bits of a long. *)
Lemma strict_strtoul_truncates m p b n locase :
  locase = 0 \/ locase = 0x20 -> b = 8 \/ b = 10 \/ b = 16 -> 0 <= n < 2 ^ 64 ->
  cstr m p (text locase b n) -> strict_strtoul m p b = Ok (0, u32 n).
Proof.
  intros Hlc Hb Hn Hs. eapply strict_text; [done|]. unfold simple_strtoul.
  by rewrite (strtoull_text m p b n locase Hlc Hb Hn Hs), bind_Ok.
Qed.

End Num.
