(* ===== verification/Vsprintf.v ===== *)
(** Formatted output, the printing half of [src/src/lib/vsprintf.c].

    The output buffer starts at offset 0 and [oend] is the offset of [end]; a
    character is stored only below [end] but the position moves on, so that the
    final position is the length of the whole text. Format strings and argument
    memory are byte arrays; the variable arguments are the 32-bit words of the
    i386 calling convention. *)
From S2P Require Import Prelude Ctype CString Numbers.

Module Vs.
Import Ctype Str Num.

Definition ZEROPAD : Z := 1.
Definition SIGN : Z := 2.
Definition PLUS : Z := 4.
Definition SPACE : Z := 8.
Definition LEFT : Z := 16.
Definition SMALL : Z := 32.
Definition SPECIAL : Z := 64.

Inductive format_type :=
| FORMAT_TYPE_NONE
| FORMAT_TYPE_WIDTH
| FORMAT_TYPE_PRECISION
| FORMAT_TYPE_CHAR
| FORMAT_TYPE_STR
| FORMAT_TYPE_PTR
| FORMAT_TYPE_PERCENT_CHAR
| FORMAT_TYPE_INVALID
| FORMAT_TYPE_LONG_LONG
| FORMAT_TYPE_ULONG
| FORMAT_TYPE_LONG
| FORMAT_TYPE_UBYTE
| FORMAT_TYPE_BYTE
| FORMAT_TYPE_USHORT
| FORMAT_TYPE_SHORT
| FORMAT_TYPE_UINT
| FORMAT_TYPE_INT
| FORMAT_TYPE_NRCHARS
| FORMAT_TYPE_SIZE_T
| FORMAT_TYPE_PTRDIFF.

Record printf_spec := Spec {
  s_type : format_type;
  s_flags : Z;
  s_base : Z;
  s_qualifier : Z;
  s_width : Z;
  s_prec : Z
}.

Definition spec0 : printf_spec := Spec FORMAT_TYPE_NONE 0 0 0 0 0.

Definition set_type (s : printf_spec) (t : format_type) : printf_spec :=
  Spec t (s_flags s) (s_base s) (s_qualifier s) (s_width s) (s_prec s).
Definition set_flags (s : printf_spec) (f : Z) : printf_spec :=
  Spec (s_type s) (u8 f) (s_base s) (s_qualifier s) (s_width s) (s_prec s).
Definition set_base (s : printf_spec) (b : Z) : printf_spec :=
  Spec (s_type s) (s_flags s) b (s_qualifier s) (s_width s) (s_prec s).
Definition set_qualifier (s : printf_spec) (q : Z) : printf_spec :=
  Spec (s_type s) (s_flags s) (s_base s) (u8 q) (s_width s) (s_prec s).
Definition set_width (s : printf_spec) (w : Z) : printf_spec :=
  Spec (s_type s) (s_flags s) (s_base s) (s_qualifier s) (s16 w) (s_prec s).
Definition set_prec (s : printf_spec) (p : Z) : printf_spec :=
  Spec (s_type s) (s_flags s) (s_base s) (s_qualifier s) (s_width s) (s16 p).
Definition add_flag (s : printf_spec) (f : Z) : printf_spec := set_flags s (Z.lor (s_flags s) f).
Definition has (flags f : Z) : bool := negb (Z.land flags f =? 0).

(** ** Output *)

Record ost := Ost { o_pos : Z; o_mem : list Z }.

Section output.
Context (oend : Z).

(** [if (buf < end) *buf = c; ++buf;] *)
Definition emit (c : Z) (st : ost) : result ost :=
  m ← (if o_pos st <? oend then wr (o_mem st) (o_pos st) c else Ok (o_mem st));
  Ok (Ost (o_pos st + 1) m).

Fixpoint emits (l : list Z) (st : ost) : result ost :=
  match l with
  | [] => Ok st
  | c :: l => st ← emit c st; emits l st
  end.

(** [while (--w >= 0) { emit c }] on a 16-bit [w]; the final [w] too. *)
Fixpoint pad_loop (fuel : nat) (c w : Z) (st : ost) : result (Z * ost) :=
  match fuel with
  | O => NoFuel
  | S fuel =>
      let w := s16 (w - 1) in
      if 0 <=? w then st ← emit c st; pad_loop fuel c w st else Ok (w, st)
  end.
Definition pad (c w : Z) (st : ost) : result (Z * ost) :=
  pad_loop (Z.to_nat (u16 w) + 2) c w st.

(** [while (i <= --precision) { emit '0' }] *)
Fixpoint zeros_loop (fuel : nat) (i precision : Z) (st : ost) : result ost :=
  match fuel with
  | O => NoFuel
  | S fuel =>
      let precision := s16 (precision - 1) in
      if i <=? precision then st ← emit 48 st; zeros_loop fuel i precision st else Ok st
  end.

(** The digits in base 8 or 16, least significant first. *)
Fixpoint hex_loop (fuel : nat) (num mask shift locase : Z) : result (list Z) :=
  match fuel with
  | O => NoFuel
  | S fuel =>
      let c := digit_char locase (Z.land (u8 num) mask) in
      let num := Z.shiftr num shift in
      if negb (num =? 0) then ds ← hex_loop fuel num mask shift locase; Ok (c :: ds)
      else Ok [c]
  end.

(** The sign character, the magnitude and the width left for the rest. *)
Definition number_sign (flags num w : Z) : Z * Z * Z :=
  if has flags SIGN then
    if s64 num <? 0 then (45, u64 (- s64 num), s16 (w - 1))
    else if has flags PLUS then (43, num, s16 (w - 1))
    else if has flags SPACE then (32, num, s16 (w - 1))
    else (0, num, w)
  else (0, num, w).

Definition number_digits (base num locase : Z) : result (list Z) :=
  if num =? 0 then Ok [48]
  else if negb (base =? 10) then
    hex_loop 64 num (base - 1) (if base =? 16 then 4 else 3) locase
  else put_dec num.

(** [tmp] has 66 bytes, more than the longest text. *)
Definition number (num : Z) (spec : printf_spec) (st : ost) : result ost :=
  let need_pfx := has (s_flags spec) SPECIAL && negb (s_base spec =? 10) in
  let locase := Z.land (s_flags spec) SMALL in
  let flags := if has (s_flags spec) LEFT then Z.land (s_flags spec) (255 - ZEROPAD)
               else s_flags spec in
  let '(sign, num, w) := number_sign flags num (s_width spec) in
  let w := if need_pfx then s16 (w - 1) else w in
  let w := if need_pfx && (s_base spec =? 16) then s16 (w - 1) else w in
  tmp ← number_digits (s_base spec) num locase;
  let i := zlen tmp in
  let precision := if s_prec spec <? i then i else s_prec spec in
  let w := s16 (w - precision) in
  '(w, st) ← (if negb (has flags (ZEROPAD + LEFT)) then pad 32 w st else Ok (w, st));
  st ← (if negb (sign =? 0) then emit sign st else Ok st);
  st ← (if need_pfx then
          st ← emit 48 st;
          if s_base spec =? 16 then emit (Z.lor 88 locase) st else Ok st
        else Ok st);
  '(w, st) ← (if negb (has flags LEFT) then pad (if has flags ZEROPAD then 48 else 32) w st
              else Ok (w, st));
  st ← zeros_loop (S (Z.to_nat precision)) i precision st;
  st ← emits (rev tmp) st;
  '(w, st) ← pad 32 w st;
  Ok st.

(** [while (len < w--) { emit ' ' }] *)
Fixpoint space_loop (fuel : nat) (len w : Z) (st : ost) : result (Z * ost) :=
  match fuel with
  | O => NoFuel
  | S fuel =>
      let w' := s16 (w - 1) in
      if len <? w then st ← emit 32 st; space_loop fuel len w' st else Ok (w', st)
  end.
Definition spaces (len w : Z) (st : ost) : result (Z * ost) :=
  space_loop (S (Z.to_nat w)) len w st.

(** [for (i = 0; i < len; ++i) { emit *s; ++s }] *)
Fixpoint copy_str (n : nat) (arr : list Z) (s : Z) (st : ost) : result ost :=
  match n with
  | O => Ok st
  | S n => c ← rd arr s; st ← emit c st; copy_str n arr (s + 1) st
  end.

(** [string] on the NUL-terminated bytes at offset [s] of [arr]. *)
Definition string_at (arr : list Z) (s : Z) (spec : printf_spec) (st : ost) : result ost :=
  len ← strnlen arr s (u32 (s_prec spec));
  let len := s32 len in
  '(w, st) ← (if negb (has (s_flags spec) LEFT) then spaces len (s_width spec) st
              else Ok (s_width spec, st));
  st ← copy_str (Z.to_nat len) arr s st;
  '(_, st) ← spaces len w st;
  Ok st.

Definition PAGE_SIZE : Z := 4096.
Definition null_text : list Z := [40; 110; 117; 108; 108; 41; 0].

End output.

(** ** Text built in a local array *)

(** The bytes stored so far in an array of [cap] bytes; [*p++ = c]. *)
Definition lput (cap c : Z) (l : list Z) : result (list Z) :=
  if zlen l <? cap then Ok (l ++ [u8 c]) else Stray Wr.

Definition hex_asc : list Z := [48; 49; 50; 51; 52; 53; 54; 55; 56; 57; 97; 98; 99; 100; 101; 102].
Definition hex_asc_lo (x : Z) : Z := nth (Z.to_nat (Z.land x 0x0f)) hex_asc 0.
Definition hex_asc_hi (x : Z) : Z := nth (Z.to_nat (Z.shiftr (Z.land x 0xf0) 4)) hex_asc 0.

Definition pack_hex_byte (cap byte : Z) (l : list Z) : result (list Z) :=
  l ← lput cap (hex_asc_hi byte) l; lput cap (hex_asc_lo byte) l.

Section local_text.
(** [addr[i]], and the characters of the format after ["%p"]. *)
Context (addr : Z -> result Z) (fmt : Z -> result Z).

Fixpoint mac_loop (n : nat) (i separator : Z) (l : list Z) : result (list Z) :=
  match n with
  | O => Ok l
  | S n =>
      b ← addr i;
      l ← pack_hex_byte 18 b l;
      f0 ← fmt 0;
      l ← (if (f0 =? 77) && negb (i =? 5) then lput 18 separator l else Ok l);
      mac_loop n (i + 1) separator l
  end.

Definition mac_address_text : result (list Z) :=
  f1 ← fmt 1;
  l ← mac_loop 6 0 (if f1 =? 70 then 45 else 58) [];
  lput 18 0 l.

(** [ip4_string], appending to what the array of [cap] bytes holds; [quad] are
    the four bytes. *)
Fixpoint ip4_loop (n : nat) (cap i index step : Z) (leading_zeros : bool) (quad : Z -> result Z)
    (p : list Z) : result (list Z) :=
  match n with
  | O => Ok p
  | S n =>
      b ← quad index;
      let temp := put_dec_trunc b in
      let digits := zlen temp in
      if 3 <? digits then Stray Wr
      else
        p ← (if leading_zeros && (digits <? 3) then lput cap 48 p else Ok p);
        p ← (if leading_zeros && (digits <? 2) then lput cap 48 p else Ok p);
        p ← foldl (fun r c => l ← r; lput cap c l) (Ok p) (rev temp);
        p ← (if i <? 3 then lput cap 46 p else Ok p);
        ip4_loop n cap (i + 1) (index + step) step leading_zeros quad p
  end.

Definition ip4_string (cap f0 f2 : Z) (quad : Z -> result Z) (p : list Z) : result (list Z) :=
  let '(index, step) := if (f2 =? 104) || (f2 =? 108) then (3, -1) else (0, 1) in
  p ← ip4_loop 4 cap 0 index step (f0 =? 105) quad p;
  lput cap 0 p.

Definition ip4_addr_text : result (list Z) :=
  f0 ← fmt 0; f2 ← fmt 2; ip4_string 16 f0 f2 addr [].

(** The 16-bit words of an IPv6 address in host order, [ntohs(s6_addr16[i])]. *)
Definition in6_word (in6 : list Z) (i : nat) : Z :=
  nth (2 * i) in6 0 * 256 + nth (2 * i + 1) in6 0.

Definition in6_word32 (in6 : list Z) (i : nat) : Z :=
  in6_word in6 (2 * i) * 65536 + in6_word in6 (2 * i + 1).

(** net/ipv6.h, net/addrconf.h *)
Definition ipv6_addr_v4mapped (in6 : list Z) : bool :=
  Z.lor (Z.lor (in6_word32 in6 0) (in6_word32 in6 1)) (Z.lxor (in6_word32 in6 2) 0xffff) =? 0.
Definition ipv6_addr_is_isatap (in6 : list Z) : bool :=
  Z.lor (in6_word32 in6 2) 0x02000000 =? 0x02005EFE.

(** [zerolength[i]]: the zero words from [i] on, below [range]. *)
Fixpoint zero_run (n : nat) (in6 : list Z) (j : nat) : Z :=
  match n with
  | O => 0
  | S n => if negb (in6_word in6 j =? 0) then 0 else 1 + zero_run n in6 (S j)
  end.

Fixpoint longest_run (n : nat) (in6 : list Z) (i : nat) (longest colonpos : Z) : Z * Z :=
  match n with
  | O => (longest, colonpos)
  | S n =>
      let z := zero_run (S n) in6 i in
      if longest <? z then longest_run n in6 (S i) z (Z.of_nat i)
      else longest_run n in6 (S i) longest colonpos
  end.

(** One round of the emitting loop per word; a run of zeroes is skipped. *)
Fixpoint ip6_loop (fuel : nat) (cap : Z) (in6 : list Z) (i range longest colonpos : Z)
    (needcolon : bool) (p : list Z) : result (bool * list Z) :=
  match fuel with
  | O => NoFuel
  | S fuel =>
      if i <? range then
        if i =? colonpos then
          p ← (if needcolon || (i =? 0) then lput cap 58 p else Ok p);
          p ← lput cap 58 p;
          ip6_loop fuel cap in6 (i + (longest - 1) + 1) range longest colonpos false p
        else
          p ← (if needcolon then lput cap 58 p else Ok p);
          let word := in6_word in6 (Z.to_nat i) in
          let hi := Z.shiftr word 8 in
          let lo := Z.land word 0xff in
          p ← (if negb (hi =? 0) then
                 p ← (if 0x0f <? hi then pack_hex_byte cap hi p else lput cap (hex_asc_lo hi) p);
                 pack_hex_byte cap lo p
               else if 0x0f <? lo then pack_hex_byte cap lo p
               else lput cap (hex_asc_lo lo) p);
          ip6_loop fuel cap in6 (i + 1) range longest colonpos true p
      else Ok (needcolon, p)
  end.

Definition ip6_compressed_string (cap : Z) (in6 : list Z) : result (list Z) :=
  let useIPv4 := ipv6_addr_v4mapped in6 || ipv6_addr_is_isatap in6 in
  let range : nat := if useIPv4 then 6%nat else 8%nat in
  let '(longest, colonpos) := longest_run range in6 0 1 (-1) in
  '(needcolon, p) ← ip6_loop 9 cap in6 0 (Z.of_nat range) longest colonpos false [];
  if useIPv4 then
    p ← (if (needcolon : bool) then lput cap 58 p else Ok p);
    p ← ip4_loop 4 cap 0 0 1 false (fun i => rd in6 (12 + i)) p;
    p ← lput cap 0 p;
    Ok p
  else lput cap 0 p.

Fixpoint ip6_plain_loop (n : nat) (cap i f0 : Z) (p : list Z) : result (list Z) :=
  match n with
  | O => lput cap 0 p
  | S n =>
      b0 ← addr (2 * i); p ← pack_hex_byte cap b0 p;
      b1 ← addr (2 * i + 1); p ← pack_hex_byte cap b1 p;
      p ← (if (f0 =? 73) && negb (i =? 7) then lput cap 58 p else Ok p);
      ip6_plain_loop n cap (i + 1) f0 p
  end.

Fixpoint addr_bytes (n : nat) (i : Z) : result (list Z) :=
  match n with
  | O => Ok []
  | S n => b ← addr i; l ← addr_bytes n (i + 1); Ok (b :: l)
  end.

Definition ip6_addr_text : result (list Z) :=
  f0 ← fmt 0;
  c ← (if f0 =? 73 then f2 ← fmt 2; Ok (f2 =? 99) else Ok false);
  if (c : bool) then in6 ← addr_bytes 16 0; ip6_compressed_string 46 in6
  else ip6_plain_loop 8 46 0 f0 [].

Definition uuid_le : list Z := [3; 2; 1; 0; 5; 4; 7; 6; 8; 9; 10; 11; 12; 13; 14; 15].
Definition uuid_be : list Z := [0; 1; 2; 3; 4; 5; 6; 7; 8; 9; 10; 11; 12; 13; 14; 15].

Fixpoint uuid_loop (idx : list Z) (i : Z) (p : list Z) : result (list Z) :=
  match idx with
  | [] => Ok p
  | j :: idx =>
      b ← addr j;
      p ← pack_hex_byte 37 b p;
      p ← (if (i =? 3) || (i =? 5) || (i =? 7) || (i =? 9) then lput 37 45 p else Ok p);
      uuid_loop idx (i + 1) p
  end.

Definition uuid_text : result (list Z) :=
  f ← fmt 1;
  let uc := (f =? 76) || (f =? 66) in
  let index := if (f =? 76) || (f =? 108) then uuid_le else uuid_be in
  p ← uuid_loop index 0 [];
  lput 37 0 (if uc then map toupper p else p).

End local_text.

(** ** The fields of [vsnprintf] *)

Definition IORESOURCE_IO : Z := 0x100.
Definition IORESOURCE_MEM : Z := 0x200.
Definition IORESOURCE_IRQ : Z := 0x400.
Definition IORESOURCE_DMA : Z := 0x800.
Definition IORESOURCE_BUS : Z := 0x1000.
Definition IORESOURCE_PREFETCH : Z := 0x2000.
Definition IORESOURCE_MEM_64 : Z := 0x100000.
Definition IORESOURCE_WINDOW : Z := 0x200000.
Definition IORESOURCE_DISABLED : Z := 0x10000000.

Definition io_spec : printf_spec :=
  Spec FORMAT_TYPE_NONE (Z.lor (Z.lor SPECIAL SMALL) ZEROPAD) 16 0 6 (-1).
Definition mem_spec : printf_spec :=
  Spec FORMAT_TYPE_NONE (Z.lor (Z.lor SPECIAL SMALL) ZEROPAD) 16 0 10 (-1).
Definition bus_spec : printf_spec := Spec FORMAT_TYPE_NONE (Z.lor SMALL ZEROPAD) 16 0 2 (-1).
Definition dec_spec : printf_spec := Spec FORMAT_TYPE_NONE 0 10 0 0 (-1).
Definition str_spec : printf_spec := Spec FORMAT_TYPE_NONE LEFT 0 0 (-1) 10.
Definition flag_spec : printf_spec := Spec FORMAT_TYPE_NONE (Z.lor SPECIAL SMALL) 16 0 0 (-1).

(** The size of [sym] in [resource_string], with 32-bit resources. *)
Definition sym_size : Z := Z.max (2 * 12 + 35) (2 * 12 + 8 + 17).

Section resource.
Context (start end_ flags : Z) (decode : bool).

Definition lit (l : list Z) (st : ost) : result ost := string_at sym_size (l ++ [0]) 0 str_spec st.

(** [*p++ = c], which is not guarded by [pend] *)
Definition sput (c : Z) (st : ost) : result ost :=
  m ← wr (o_mem st) (o_pos st) c; Ok (Ost (o_pos st + 1) m).

Definition resource_text (sym : list Z) : result (list Z) :=
  st ← sput 91 (Ost 0 sym);
  let '(name, specp, decode) :=
    if has flags IORESOURCE_IO then ([105; 111; 32; 32], io_spec, decode)
    else if has flags IORESOURCE_MEM then ([109; 101; 109; 32], mem_spec, decode)
    else if has flags IORESOURCE_IRQ then ([105; 114; 113; 32], dec_spec, decode)
    else if has flags IORESOURCE_DMA then ([100; 109; 97; 32], dec_spec, decode)
    else if has flags IORESOURCE_BUS then ([98; 117; 115; 32], bus_spec, decode)
    else ([63; 63; 63; 32], mem_spec, false) in
  st ← lit name st;
  st ← number sym_size start specp st;
  st ← (if negb (start =? end_) then st ← sput 45 st; number sym_size end_ specp st else Ok st);
  st ← (if (decode : bool) then
          st ← (if has flags IORESOURCE_MEM_64 then lit [32; 54; 52; 98; 105; 116] st else Ok st);
          st ← (if has flags IORESOURCE_PREFETCH then lit [32; 112; 114; 101; 102] st else Ok st);
          st ← (if has flags IORESOURCE_WINDOW then lit [32; 119; 105; 110; 100; 111; 119] st else Ok st);
          (if has flags IORESOURCE_DISABLED
           then lit [32; 100; 105; 115; 97; 98; 108; 101; 100] st else Ok st)
        else
          st ← lit [32; 102; 108; 97; 103; 115; 32] st;
          number sym_size flags flag_spec st);
  st ← sput 93 st;
  m ← wr (o_mem st) (o_pos st) 0;
  Ok m.

End resource.

(** ** Decoding a format *)

Section decode.
Context (fmt : list Z).

(** [for (; *fmt; ++fmt) if ( *fmt == '%' ) break;] *)
Fixpoint text_end (fuel : nat) (p : Z) : result Z :=
  match fuel with
  | O => NoFuel
  | S fuel => c ← rd fmt p; if (c =? 0) || (c =? 37) then Ok p else text_end fuel (p + 1)
  end.

(** The flag characters; [p] is at the first one. *)
Fixpoint flags_loop (fuel : nat) (p : Z) (spec : printf_spec) : result (Z * printf_spec) :=
  match fuel with
  | O => NoFuel
  | S fuel =>
      c ← rd fmt p;
      if c =? 45 then flags_loop fuel (p + 1) (add_flag spec LEFT)
      else if c =? 43 then flags_loop fuel (p + 1) (add_flag spec PLUS)
      else if c =? 32 then flags_loop fuel (p + 1) (add_flag spec SPACE)
      else if c =? 35 then flags_loop fuel (p + 1) (add_flag spec SPECIAL)
      else if c =? 48 then flags_loop fuel (p + 1) (add_flag spec ZEROPAD)
      else Ok (p, spec)
  end.

(** The type of an integer field, from its qualifier and its sign. *)
Definition int_type (spec : printf_spec) : format_type :=
  let q := s_qualifier spec in
  let sign := has (s_flags spec) SIGN in
  if q =? 76 then FORMAT_TYPE_LONG_LONG
  else if q =? 108 then (if sign then FORMAT_TYPE_LONG else FORMAT_TYPE_ULONG)
  else if TOLOWER q =? 122 then FORMAT_TYPE_SIZE_T
  else if q =? 116 then FORMAT_TYPE_PTRDIFF
  else if q =? 72 then (if sign then FORMAT_TYPE_BYTE else FORMAT_TYPE_UBYTE)
  else if q =? 104 then (if sign then FORMAT_TYPE_SHORT else FORMAT_TYPE_USHORT)
  else (if sign then FORMAT_TYPE_INT else FORMAT_TYPE_UINT).

(** [qualifier:] to the end; the pointer returned is the new [fmt]. *)
Definition decode_qualifier (p : Z) (spec : printf_spec) : result (Z * printf_spec) :=
  let spec := set_qualifier spec (-1) in
  c ← rd fmt p;
  '(p, spec) ← (if (c =? 104) || (TOLOWER c =? 108) || (TOLOWER c =? 122) || (c =? 116) then
                  let spec := set_qualifier spec c in
                  c' ← rd fmt (p + 1);
                  if c =? c' then
                    if c =? 108 then Ok (p + 2, set_qualifier spec 76)
                    else if c =? 104 then Ok (p + 2, set_qualifier spec 72)
                    else Ok (p + 1, spec)
                  else Ok (p + 1, spec)
                else Ok (p, spec));
  let spec := set_base spec 10 in
  c ← rd fmt p;
  let int spec := Ok (p + 1, set_type spec (int_type spec)) in
  if c =? 99 then Ok (p + 1, set_type spec FORMAT_TYPE_CHAR)
  else if c =? 115 then Ok (p + 1, set_type spec FORMAT_TYPE_STR)
  else if c =? 112 then Ok (p, set_type spec FORMAT_TYPE_PTR)
  else if c =? 110 then Ok (p + 1, set_type spec FORMAT_TYPE_NRCHARS)
  else if c =? 37 then Ok (p + 1, set_type spec FORMAT_TYPE_PERCENT_CHAR)
  else if c =? 111 then int (set_base spec 8)
  else if c =? 120 then int (set_base (add_flag spec SMALL) 16)
  else if c =? 88 then int (set_base spec 16)
  else if (c =? 100) || (c =? 105) then int (add_flag spec SIGN)
  else if c =? 117 then int spec
  else Ok (p, set_type spec FORMAT_TYPE_INVALID).

(** [precision:] *)
Definition decode_precision (p : Z) (spec : printf_spec) : result (Z * printf_spec) :=
  let spec := set_prec spec (-1) in
  c ← rd fmt p;
  if c =? 46 then
    let p := p + 1 in
    c ← rd fmt p;
    if isdigit c then
      '(v, p) ← skip_atoi fmt p;
      let spec := set_prec spec v in
      let spec := if s_prec spec <? 0 then set_prec spec 0 else spec in
      decode_qualifier p spec
    else if c =? 42 then Ok (p + 1, set_type spec FORMAT_TYPE_PRECISION)
    else decode_qualifier p spec
  else decode_qualifier p spec.

(** [format_decode]: the new [fmt] (the code returns the distance) and spec. *)
Definition format_decode (start : Z) (spec : printf_spec) : result (Z * printf_spec) :=
  match s_type spec with
  | FORMAT_TYPE_WIDTH =>
      let spec := if s_width spec <? 0
                  then add_flag (set_width spec (- s_width spec)) LEFT else spec in
      decode_precision start (set_type spec FORMAT_TYPE_NONE)
  | FORMAT_TYPE_PRECISION =>
      let spec := if s_prec spec <? 0 then set_prec spec 0 else spec in
      decode_qualifier start (set_type spec FORMAT_TYPE_NONE)
  | _ =>
      let spec := set_type spec FORMAT_TYPE_NONE in
      p ← text_end (rounds fmt) start;
      c ← rd fmt p;
      if negb (p =? start) || (c =? 0) then Ok (p, spec)
      else
        '(p, spec) ← flags_loop (rounds fmt) (p + 1) (set_flags spec 0);
        let spec := set_width spec (-1) in
        c ← rd fmt p;
        if isdigit c then
          '(v, p) ← skip_atoi fmt p; decode_precision p (set_width spec v)
        else if c =? 42 then Ok (p + 1, set_type spec FORMAT_TYPE_WIDTH)
        else decode_precision p spec
  end.

End decode.

(** ** vsnprintf *)

Section vsnprintf.
(** The bytes of memory from address [mbase] on; the kernel's symbol table. *)
Context (mbase : Z) (mbytes : list Z).
Context (sprint_symbol kallsyms_lookup : Z -> list Z) (dereference_function_descriptor : Z -> Z).

Definition load (p : Z) : result Z := rd mbytes (p - mbase).

Definition load32 (p : Z) : result Z :=
  b0 ← load p; b1 ← load (p + 1); b2 ← load (p + 2); b3 ← load (p + 3); Ok (of_le [b0; b1; b2; b3]).

Definition string (oend s : Z) (spec : printf_spec) (st : ost) : result ost :=
  if s <? PAGE_SIZE then string_at oend null_text 0 spec st
  else string_at oend mbytes (s - mbase) spec st.

Definition symbol_string (oend ptr : Z) (spec : printf_spec) (ext : Z) (st : ost) : result ost :=
  let sym := if negb (ext =? 102) && negb (ext =? 115) then sprint_symbol ptr
             else kallsyms_lookup ptr in
  string_at oend (sym ++ [0]) 0 spec st.

Definition resource_string (oend res : Z) (spec : printf_spec) (f0 : Z) (st : ost) : result ost :=
  start ← load32 res; end_ ← load32 (res + 4); flags ← load32 (res + 12);
  sym ← resource_text start end_ flags (f0 =? 82) (replicate (Z.to_nat sym_size) 0);
  string_at oend sym 0 spec st.

(** [fmt] are the characters after ["%p"]. *)
Definition pointer (oend : Z) (fmt : Z -> result Z) (ptr : Z) (spec : printf_spec) (st : ost) :
    result ost :=
  if ptr =? 0 then string_at oend null_text 0 spec st
  else
    let addr i := load (ptr + i) in
    let text l := (p ← l; string_at oend p 0 spec st) in
    let plain :=
      let spec := add_flag spec SMALL in
      let spec := if s_width spec =? -1 then add_flag (set_width spec 8) ZEROPAD else spec in
      number oend ptr (set_base spec 16) st in
    f0 ← fmt 0;
    if (f0 =? 70) || (f0 =? 102) then
      symbol_string oend (dereference_function_descriptor ptr) spec f0 st
    else if (f0 =? 83) || (f0 =? 115) then symbol_string oend ptr spec f0 st
    else if (f0 =? 82) || (f0 =? 114) then resource_string oend ptr spec f0 st
    else if (f0 =? 77) || (f0 =? 109) then text (mac_address_text addr fmt)
    else if (f0 =? 73) || (f0 =? 105) then
      f1 ← fmt 1;
      if f1 =? 54 then text (ip6_addr_text addr fmt)
      else if f1 =? 52 then text (ip4_addr_text addr fmt)
      else plain
    else if f0 =? 85 then text (uuid_text addr fmt)
    else plain.

Context (fmt : list Z).

(** [va_arg] for a word and for a long long *)
Definition va_word (args : list Z) : result (Z * list Z) :=
  match args with
  | w :: args => Ok (u32 w, args)
  | [] => Stray Rd
  end.
Definition va_long_long (args : list Z) : result (Z * list Z) :=
  '(lo, args) ← va_word args; '(hi, args) ← va_word args; Ok (lo + hi * 2 ^ 32, args).

(** The argument of an integer field, converted to [unsigned long long]. *)
Definition va_num (t : format_type) (args : list Z) : result (Z * list Z) :=
  match t with
  | FORMAT_TYPE_LONG_LONG => va_long_long args
  | _ =>
      '(w, args) ← va_word args;
      Ok (match t with
          | FORMAT_TYPE_LONG | FORMAT_TYPE_PTRDIFF | FORMAT_TYPE_INT => u64 (s32 w)
          | FORMAT_TYPE_UBYTE => u8 w
          | FORMAT_TYPE_BYTE => u64 (s8 w)
          | FORMAT_TYPE_USHORT => u16 w
          | FORMAT_TYPE_SHORT => u64 (s16 w)
          | _ => w
          end, args)
  end.

(** [while (--w > 0) { emit ' ' }] *)
Fixpoint char_pad_loop (oend : Z) (fuel : nat) (w : Z) (st : ost) : result (Z * ost) :=
  match fuel with
  | O => NoFuel
  | S fuel =>
      let w := s16 (w - 1) in
      if 0 <? w then st ← emit oend 32 st; char_pad_loop oend fuel w st else Ok (w, st)
  end.
Definition char_pad (oend w : Z) (st : ost) : result (Z * ost) :=
  char_pad_loop oend (Z.to_nat (u16 w) + 2) w st.

(** [while (isalnum( *fmt )) fmt++;] *)
Fixpoint skip_alnum (fuel : nat) (p : Z) : result Z :=
  match fuel with
  | O => NoFuel
  | S fuel => c ← rd fmt p; if isalnum c then skip_alnum fuel (p + 1) else Ok p
  end.

Definition char_field (oend : Z) (spec : printf_spec) (w : Z) (st : ost) : result ost :=
  '(width, st) ← (if negb (has (s_flags spec) LEFT) then char_pad oend (s_width spec) st
                  else Ok (s_width spec, st));
  st ← emit oend (u8 w) st;
  '(_, st) ← char_pad oend width st;
  Ok st.

(** The state of the loop: [fmt], the spec, the arguments left, the output and
    the stores made by [%n] (address and value). *)
Record vst := Vst {
  v_fmt : Z;
  v_spec : printf_spec;
  v_args : list Z;
  v_out : ost;
  v_stores : list (Z * Z)
}.

(** One round of [while ( *fmt )]. *)
Definition vsn_step (oend : Z) (v : vst) : result vst :=
  let old_fmt := v_fmt v in
  '(p, spec) ← format_decode fmt old_fmt (v_spec v);
  let st := v_out v in
  let out p args st := Ok (Vst p spec args st (v_stores v)) in
  match s_type spec with
  | FORMAT_TYPE_NONE =>
      let read := p - old_fmt in
      m ← (if o_pos st <? oend then
             let copy := if oend - o_pos st <? read then oend - o_pos st else read in
             src ← mem_read fmt old_fmt copy;
             mem_write (o_mem st) (o_pos st) src
           else Ok (o_mem st));
      out p (v_args v) (Ost (o_pos st + read) m)
  | FORMAT_TYPE_WIDTH =>
      '(w, args) ← va_word (v_args v);
      Ok (Vst p (set_width spec (s32 w)) args st (v_stores v))
  | FORMAT_TYPE_PRECISION =>
      '(w, args) ← va_word (v_args v);
      Ok (Vst p (set_prec spec (s32 w)) args st (v_stores v))
  | FORMAT_TYPE_CHAR =>
      '(w, args) ← va_word (v_args v);
      st ← char_field oend spec w st;
      out p args st
  | FORMAT_TYPE_STR =>
      '(w, args) ← va_word (v_args v);
      st ← string oend w spec st;
      out p args st
  | FORMAT_TYPE_PTR =>
      '(w, args) ← va_word (v_args v);
      st ← pointer oend (fun i => rd fmt (p + 1 + i)) w spec st;
      p ← skip_alnum (rounds fmt) p;
      out p args st
  | FORMAT_TYPE_PERCENT_CHAR | FORMAT_TYPE_INVALID =>
      st ← emit oend 37 st;
      out p (v_args v) st
  | FORMAT_TYPE_NRCHARS =>
      '(w, args) ← va_word (v_args v);
      Ok (Vst p spec args st (v_stores v ++ [(w, u32 (o_pos st))]))
  | t =>
      '(num, args) ← va_num t (v_args v);
      st ← number oend num spec st;
      out p args st
  end.

Fixpoint vsn_loop (fuel : nat) (oend : Z) (v : vst) : result vst :=
  match fuel with
  | O => NoFuel
  | S fuel =>
      c ← rd fmt (v_fmt v);
      if c =? 0 then Ok v else v ← vsn_step oend v; vsn_loop fuel oend v
  end.

(** A round reads at least one character of the format, or follows one that
    did. *)
Definition vsn_fuel : nat := 2 * rounds fmt.

(** The return value, the buffer and the stores of [%n]; [buf] is the address
    of the buffer and [mem] its bytes. *)
Definition vsnprintf (buf : Z) (mem : list Z) (size : Z) (args : list Z) :
    result (Z * list Z * list (Z * Z)) :=
  if s32 size <? 0 then Ok (0, mem, [])
  else
    let size := if 2 ^ 32 <=? buf + size then 2 ^ 32 - 1 - buf else size in
    v ← vsn_loop vsn_fuel size (Vst 0 spec0 args (Ost 0 mem) []);
    let st := v_out v in
    m ← (if 0 <? size then
           if o_pos st <? size then wr (o_mem st) (o_pos st) 0 else wr (o_mem st) (size - 1) 0
         else Ok (o_mem st));
    Ok (s32 (o_pos st), m, v_stores v).

(** The comparison [i >= size] is unsigned. *)
Definition vscnprintf (buf : Z) (mem : list Z) (size : Z) (args : list Z) :
    result (Z * list Z * list (Z * Z)) :=
  '(i, m, w) ← vsnprintf buf mem size args;
  Ok (if size <=? u32 i then s32 (size - 1) else i, m, w).

Definition snprintf := vsnprintf.

Definition scnprintf (buf : Z) (mem : list Z) (size : Z) (args : list Z) :
    result (Z * list Z * list (Z * Z)) :=
  '(i, m, w) ← vsnprintf buf mem size args;
  Ok (if size <=? u32 i then s32 (size - 1) else i, m, w).

Definition INT_MAX : Z := 2147483647.
Definition vsprintf (buf : Z) (mem : list Z) (args : list Z) :
    result (Z * list Z * list (Z * Z)) :=
  vsnprintf buf mem INT_MAX args.
Definition sprintf := vsprintf.

End vsnprintf.
End Vs.
