(* ===== verification/VsprintfFacts.v ===== *)
(** [vsnprintf] prints a text that depends on the format and the arguments
    only, stores the part of it that fits in the buffer, ends it with a NUL and
    returns the length of the whole; and it terminates on every format. *)
From S2P Require Import Prelude Ctype CString CStringFacts Numbers Vsprintf.

Module VsFacts.
Import Ctype Str StrFacts Num Vs.

(** ** Output as a text *)

(** The buffer is the [oend] bytes of [o_mem]. *)
Definition out_ok (oend : Z) (st : ost) : Prop := 0 <= o_pos st /\ zlen (o_mem st) = oend.

Definition put1 (oend : Z) (st : ost) (c : Z) : ost :=
  Ost (o_pos st + 1)
    (if o_pos st <? oend then <[Z.to_nat (o_pos st) := u8 c]> (o_mem st) else o_mem st).

Definition put_text (oend : Z) (t : list Z) (st : ost) : ost := foldl (put1 oend) st t.

Lemma put_text_app oend t1 t2 st :
  put_text oend (t1 ++ t2) st = put_text oend t2 (put_text oend t1 st).
Proof. apply foldl_app. Qed.

Lemma put1_ok oend c st : out_ok oend st -> out_ok oend (put1 oend st c).
Proof.
  intros [Hp Hm]. split; simpl; [lia|]. destruct (_ <? _); [|done].
  unfold zlen in *. by rewrite length_insert.
Qed.

Lemma put_text_ok oend t st : out_ok oend st -> out_ok oend (put_text oend t st).
Proof. revert st. induction t as [|c t IH]; intros st Hst; [done|]. by apply IH, put1_ok. Qed.

Lemma put_text_pos oend t st : o_pos (put_text oend t st) = o_pos st + zlen t.
Proof.
  revert st. induction t as [|c t IH]; intros st; [simpl; zlen_simp; lia|].
  cbn [put_text foldl]. fold (put_text oend t (put1 oend st c)). rewrite IH. simpl.
  zlen_simp. lia.
Qed.

(** What the buffer holds: the text over what was there, cut at [oend]. *)
Lemma put_text_mem oend t st :
  out_ok oend st ->
  o_mem (put_text oend t st) =
  take (Z.to_nat oend) (take (Z.to_nat (o_pos st)) (o_mem st) ++ map u8 t ++
                        drop (Z.to_nat (o_pos st + zlen t)) (o_mem st)).
Proof.
  revert st. induction t as [|c t IH]; intros st Hst; pose proof Hst as [Hp Hm];
    assert (Hlen : length (o_mem st) = Z.to_nat oend) by (unfold zlen in Hm; lia).
  - simpl. change (zlen (@nil Z)) with 0. rewrite Z.add_0_r, take_drop, take_ge by lia. done.
  - cbn [put_text foldl map]. fold (put_text oend t (put1 oend st c)).
    rewrite IH by (by apply put1_ok). simpl. pose proof (zlen_nonneg t). zlen_simp.
    destruct (Z.ltb_spec (o_pos st) oend) as [Hlt|Hge].
    + replace (Z.to_nat (o_pos st + 1)) with (S (Z.to_nat (o_pos st))) by lia.
      rewrite (take_S_r _ _ (u8 c)) by (apply list_lookup_insert_eq; lia).
      rewrite take_insert_ge, drop_insert_lt, <- app_assoc by lia.
      by replace (o_pos st + (1 + zlen t)) with (o_pos st + 1 + zlen t) by lia.
    + rewrite !(take_ge (o_mem st)) by lia.
      rewrite !take_app_le by lia. done.
Qed.

Lemma emit_put oend c st : out_ok oend st -> emit oend c st = Ok (put1 oend st c).
Proof.
  intros [Hp Hm]. unfold emit, put1, wr. destruct (Z.ltb_spec (o_pos st) oend); [|done].
  destruct (Z.leb_spec 0 (o_pos st)); [|lia]. rewrite Hm.
  by destruct (Z.ltb_spec (o_pos st) oend); [|lia].
Qed.

(** A copy of the part of a text that fits. *)
Lemma copy_put oend t st :
  out_ok oend st -> Forall is_byte t ->
  Ok (put_text oend t st) =
  (m ← (if o_pos st <? oend
        then mem_write (o_mem st) (o_pos st)
               (take (Z.to_nat (if oend - o_pos st <? zlen t then oend - o_pos st else zlen t)) t)
        else Ok (o_mem st));
   Ok (Ost (o_pos st + zlen t) m)).
Proof.
  intros Hst Hb. pose proof (put_text_mem oend t st Hst) as Hmem.
  pose proof (put_text_pos oend t st) as Hpos. destruct Hst as [Hp Hm].
  destruct (put_text oend t st) as [pos mem]; simpl in Hmem, Hpos. subst pos mem.
  assert (Hu : map u8 t = t).
  { clear -Hb. induction Hb as [|x l Hx _ IH]; [done|]. simpl. by rewrite IH, u8_small. }
  assert (Hlen : length (o_mem st) = Z.to_nat oend) by (unfold zlen in Hm; lia).
  pose proof (zlen_nonneg t) as Hz. rewrite Hu. destruct (Z.ltb_spec (o_pos st) oend) as [Hlt|Hge].
  - set (c := if oend - o_pos st <? zlen t then _ else _).
    assert (Hc : 0 <= c <= zlen t /\ o_pos st + c <= oend /\ (c = zlen t \/ o_pos st + c = oend)).
    { unfold c. destruct (Z.ltb_spec (oend - o_pos st) (zlen t)); lia. }
    unfold mem_write. rewrite (zlen_take t c) by lia.
    destruct (Z.leb_spec 0 (o_pos st)); [|lia].
    destruct (Z.leb_spec (o_pos st + c) (zlen (o_mem st))); [|lia]. cbn [andb]. rewrite bind_Ok.
    do 2 f_equal. destruct Hc as (Hc1 & Hc2 & [->|Hc3]).
    + rewrite (take_ge t) by (unfold zlen; lia). apply take_ge.
      rewrite !length_app, length_take, length_drop. unfold zlen in *. lia.
    + rewrite (drop_ge (o_mem st) (Z.to_nat (o_pos st + c))), app_nil_r by lia.
      rewrite take_app, take_take, length_take. f_equal; [f_equal; lia|].
      rewrite take_app_le by (unfold zlen in *; lia). f_equal. lia.
  - rewrite bind_Ok. do 2 f_equal. rewrite (take_ge (o_mem st)) by lia.
    by rewrite take_app_le, take_ge by lia.
Qed.

(** ** Printers *)

(** [f] prints: from every output position it returns a value and a text which
    the buffer has no part in, and appends the text. *)
Definition Printer {A} (f : Z -> ost -> result (A * ost)) : Type :=
  { r : Z -> result (A * list Z) |
    (forall p, r p <> NoFuel) /\
    forall oend st, out_ok oend st ->
      f oend st = ('(a, t) ← r (o_pos st); Ok (a, put_text oend t st)) }.

(** The same for a printer that returns only the new output state. *)
Definition Printer1 (f : Z -> ost -> result ost) : Type :=
  { r : Z -> result (list Z) |
    (forall p, r p <> NoFuel) /\
    forall oend st, out_ok oend st -> f oend st = (t ← r (o_pos st); Ok (put_text oend t st)) }.

Lemma bind_not_nofuel {A B} (m : result A) (f : A -> result B) :
  m <> NoFuel -> (forall a, f a <> NoFuel) -> (m ≫= f) <> NoFuel.
Proof. intros Hm Hf. destruct m; simpl; done. Qed.

Definition printer_ret {A} (a : A) : Printer (fun _ st => Ok (a, st)).
Proof. exists (fun _ => Ok (a, [])). split; [done|]. intros oend st _. done. Defined.

Definition printer_bind {A B} (f : Z -> ost -> result (A * ost))
    (g : A -> Z -> ost -> result (B * ost)) :
  Printer f -> (forall a, Printer (g a)) ->
  Printer (fun oend st => '(a, st) ← f oend st; g a oend st).
Proof.
  intros [rf [Hnf Hf]] Hg.
  exists (fun p => '(a, t) ← rf p; '(b, t') ← proj1_sig (Hg a) (p + zlen t); Ok (b, t ++ t')).
  split.
  - intros p. apply bind_not_nofuel; [done|]. intros [a t].
    apply bind_not_nofuel; [apply (proj2_sig (Hg a))|]. by intros [b t'].
  - intros oend st Hst. rewrite (Hf oend st Hst), !bind_assoc.
    destruct (rf (o_pos st)) as [[a t]| | |]; try done. rewrite !bind_Ok.
    destruct (proj2_sig (Hg a)) as [_ Hga].
    rewrite (Hga oend (put_text oend t st)) by (by apply put_text_ok).
    rewrite put_text_pos. destruct (proj1_sig (Hg a) _) as [[b t']| | |]; try done.
    rewrite !bind_Ok. by rewrite put_text_app.
Defined.

(** Returning no value is returning the value [()]. *)
Definition unit1 (f : Z -> ost -> result ost) : Z -> ost -> result (unit * ost) :=
  fun oend st => st ← f oend st; Ok ((), st).

Definition printer1_of (f : Z -> ost -> result ost) : Printer (unit1 f) -> Printer1 f.
Proof.
  intros [r [Hn Hr]]. exists (fun p => '(_, t) ← r p; Ok t). split.
  - intros p. apply bind_not_nofuel; [done|]. by intros [? ?].
  - intros oend st Hst. specialize (Hr oend st Hst). unfold unit1 in Hr.
    destruct (f oend st); destruct (r (o_pos st)) as [[[] t]| | |]; simpl in *; congruence.
Defined.

Definition printer_of1 (f : Z -> ost -> result ost) : Printer1 f -> Printer (unit1 f).
Proof.
  intros [r [Hn Hr]]. exists (fun p => t ← r p; Ok ((), t)). split.
  - intros p. by apply bind_not_nofuel.
  - intros oend st Hst. unfold unit1. rewrite (Hr oend st Hst).
    by destruct (r (o_pos st)).
Defined.

Definition printer1_bind {A} (f : Z -> ost -> result (A * ost)) (g : A -> Z -> ost -> result ost) :
  Printer f -> (forall a, Printer1 (g a)) ->
  Printer1 (fun oend st => '(a, st) ← f oend st; g a oend st).
Proof.
  intros Hf Hg. apply printer1_of.
  destruct (printer_bind f (fun a => unit1 (g a)) Hf (fun a => printer_of1 _ (Hg a))) as [r [Hn Hr]].
  exists r. split; [done|]. intros oend st Hst. rewrite <- (Hr oend st Hst). unfold unit1.
  rewrite bind_assoc. by destruct (f oend st) as [[a st']| | |].
Defined.

Definition printer1_seq (f g : Z -> ost -> result ost) :
  Printer1 f -> Printer1 g -> Printer1 (fun oend st => st ← f oend st; g oend st).
Proof.
  intros Hf Hg.
  destruct (printer1_bind (unit1 f) (fun _ => g) (printer_of1 _ Hf) (fun _ => Hg)) as [r [Hn Hr]].
  exists r. split; [done|]. intros oend st Hst. rewrite <- (Hr oend st Hst). unfold unit1.
  rewrite bind_assoc. by destruct (f oend st).
Defined.

Definition printer1_skip : Printer1 (fun _ st => Ok st).
Proof. exists (fun _ => Ok []). split; [done|]. done. Defined.

Definition printer1_emit c : Printer1 (fun oend => emit oend c).
Proof.
  exists (fun _ => Ok [c]). split; [done|]. intros oend st Hst. by rewrite emit_put.
Defined.

(** A computation that does not look at the output, before a printer. *)
Definition printer1_pure {A} (m : result A) (g : A -> Z -> ost -> result ost) :
  m <> NoFuel -> (forall a, Printer1 (g a)) -> Printer1 (fun oend st => a ← m; g a oend st).
Proof.
  intros Hm Hg. exists (fun p => a ← m; proj1_sig (Hg a) p). split.
  - intros p. apply bind_not_nofuel; [done|]. intros a. apply (proj2_sig (Hg a)).
  - intros oend st Hst. destruct m as [a| | |]; try done. rewrite !bind_Ok.
    apply (proj2_sig (Hg a)), Hst.
Defined.

Definition printer1_ext (f g : Z -> ost -> result ost) :
  (forall oend st, f oend st = g oend st) -> Printer1 g -> Printer1 f.
Proof. intros E [r [Hn Hr]]. exists r. split; [done|]. intros. rewrite E. auto. Defined.

Definition printer_ext {A} (f g : Z -> ost -> result (A * ost)) :
  (forall oend st, f oend st = g oend st) -> Printer g -> Printer f.
Proof. intros E [r [Hn Hr]]. exists r. split; [done|]. intros. rewrite E. auto. Defined.

Definition printer_seq {A} (f : Z -> ost -> result ost) (g : Z -> ost -> result (A * ost)) :
  Printer1 f -> Printer g -> Printer (fun oend st => st ← f oend st; g oend st).
Proof.
  intros Hf Hg.
  destruct (printer_bind (unit1 f) (fun _ => g) (printer_of1 _ Hf) (fun _ => Hg)) as [r [Hn Hr]].
  exists r. split; [done|]. intros oend st Hst. rewrite <- (Hr oend st Hst). unfold unit1.
  rewrite bind_assoc. by destruct (f oend st).
Defined.

(** ** The loops of [number], [string] and the character field *)

Definition pad_loop_printer c : forall fuel w, 0 <= w <= 32768 -> (Z.to_nat w < fuel)%nat ->
  Printer (fun oend => pad_loop oend fuel c w).
Proof.
  induction fuel as [|fuel IH]; intros w Hw Hf; [exfalso; lia|].
  cbn [pad_loop]. rewrite (s16_small (w - 1)) by lia. destruct (0 <=? w - 1) eqn:E.
  - apply Z.leb_le in E. apply printer_seq; [apply printer1_emit|]. apply IH; lia.
  - apply printer_ret.
Defined.

Definition pad_printer c w : Printer (fun oend => pad oend c w).
Proof.
  unfold pad. replace (Z.to_nat (u16 w) + 2)%nat with (S (S (Z.to_nat (u16 w)))) by lia.
  remember (S (Z.to_nat (u16 w))) as fuel eqn:Hf. cbn [pad_loop].
  destruct (0 <=? s16 (w - 1)) eqn:E; [|apply printer_ret].
  apply Z.leb_le in E. pose proof (s16_range (w - 1)). pose proof (s16_u16 (w - 1) E) as Hu.
  replace (w - 1 + 1) with w in Hu by lia.
  apply printer_seq; [apply printer1_emit|]. apply pad_loop_printer; lia.
Defined.

Definition char_pad_loop_printer : forall fuel w, 0 <= w <= 32768 -> (Z.to_nat w < fuel)%nat ->
  Printer (fun oend => char_pad_loop oend fuel w).
Proof.
  induction fuel as [|fuel IH]; intros w Hw Hf; [exfalso; lia|].
  cbn [char_pad_loop]. rewrite (s16_small (w - 1)) by lia. destruct (0 <? w - 1) eqn:E.
  - apply Z.ltb_lt in E. apply printer_seq; [apply printer1_emit|]. apply IH; lia.
  - apply printer_ret.
Defined.

Definition char_pad_printer w : Printer (fun oend => char_pad oend w).
Proof.
  unfold char_pad. replace (Z.to_nat (u16 w) + 2)%nat with (S (S (Z.to_nat (u16 w)))) by lia.
  remember (S (Z.to_nat (u16 w))) as fuel eqn:Hf. cbn [char_pad_loop].
  destruct (0 <? s16 (w - 1)) eqn:E; [|apply printer_ret].
  apply Z.ltb_lt in E. pose proof (s16_range (w - 1)).
  pose proof (s16_u16 (w - 1) ltac:(lia)) as Hu. replace (w - 1 + 1) with w in Hu by lia.
  apply printer_seq; [apply printer1_emit|]. apply char_pad_loop_printer; lia.
Defined.

Definition zeros_printer : forall fuel i precision, 0 <= i -> 0 <= precision <= 32767 ->
  (Z.to_nat precision < fuel)%nat -> Printer1 (fun oend => zeros_loop oend fuel i precision).
Proof.
  induction fuel as [|fuel IH]; intros i precision Hi Hp Hf; [exfalso; lia|]. cbn [zeros_loop].
  rewrite (s16_small (precision - 1)) by lia.
  destruct (i <=? precision - 1) eqn:E; [|apply printer1_skip].
  apply Z.leb_le in E. apply printer1_seq; [apply printer1_emit|]. apply IH; lia.
Defined.

Definition emits_printer (l : list Z) : Printer1 (fun oend => emits oend l).
Proof.
  induction l as [|c l IH]; cbn [emits]; [apply printer1_skip|].
  apply printer1_seq; [apply printer1_emit|exact IH].
Defined.

Definition space_printer len : 0 <= len -> forall fuel w, (Z.to_nat w < fuel)%nat ->
  Printer (fun oend => space_loop oend fuel len w).
Proof.
  intros Hl. induction fuel as [|fuel IH]; intros w Hf; [exfalso; lia|]. cbn [space_loop].
  destruct (len <? w) eqn:E; [|apply printer_ret].
  apply Z.ltb_lt in E. apply printer_seq; [apply printer1_emit|]. apply IH.
  pose proof (s16_range (w - 1)). destruct (decide (w <= 32768)).
  - rewrite s16_small by lia. lia.
  - lia.
Defined.

Definition copy_str_printer arr : forall n s, Printer1 (fun oend => copy_str oend n arr s).
Proof.
  induction n as [|n IH]; intros s; cbn [copy_str]; [apply printer1_skip|].
  apply printer1_pure; [unfold rd; destruct (_ <? _); [done|by destruct (_ !! _)]|].
  intros c. apply printer1_seq; [apply printer1_emit|apply IH].
Defined.

(** ** The fields *)

(** Splits a printer along the structure of the code. *)
Ltac printer :=
  repeat first
    [ apply printer1_skip | apply printer1_emit | apply emits_printer | apply pad_printer
    | apply printer_ret
    | match goal with
      | |- Printer1 (fun oend st => if ?b then _ else _) => destruct b
      | |- Printer (fun oend st => if ?b then _ else _) => destruct b
      end
    | apply printer1_bind; [|intros ?]
    | apply printer1_seq
    | apply printer_seq ].

Lemma hex_loop_fuel fuel num mask shift locase :
  0 <= num < 2 ^ Z.of_nat fuel -> 1 <= shift -> 0 < num ->
  exists ds, hex_loop fuel num mask shift locase = Ok ds /\ 1 <= zlen ds <= Z.of_nat fuel.
Proof.
  revert num. induction fuel as [|fuel IH]; intros num Hn Hs Hpos; [simpl in Hn; lia|].
  cbn [hex_loop]. rewrite Z.shiftr_div_pow2 by lia.
  assert (Hd : num / 2 ^ shift <= num / 2).
  { apply Z.div_le_compat_l; [lia|]. split; [lia|].
    rewrite <- (Z.pow_1_r 2) at 1. apply Z.pow_le_mono_r; lia. }
  rewrite Nat2Z.inj_succ, Z.pow_succ_r in Hn by lia.
  assert (Hq : 0 <= num / 2 ^ shift < 2 ^ Z.of_nat fuel).
  { split; [apply Z.div_pos; lia|]. eapply Z.le_lt_trans; [exact Hd|].
    apply Z.div_lt_upper_bound; lia. }
  destruct (Z.eqb_spec (num / 2 ^ shift) 0) as [E|E]; cbn [negb].
  - eexists. split; [done|]. zlen_simp. lia.
  - destruct (IH _ Hq Hs ltac:(lia)) as (ds & -> & Hz). rewrite bind_Ok.
    eexists. split; [done|]. zlen_simp. lia.
Qed.

Lemma digits_rev_length fuel b n : (length (digits_rev (S fuel) b n) <= S fuel)%nat /\
  (1 <= length (digits_rev (S fuel) b n))%nat.
Proof.
  revert n. induction fuel as [|f IH]; intros n; rewrite digits_rev_S.
  - by destruct (_ =? 0); simpl; lia.
  - specialize (IH (n / b)). remember (digits_rev (S f) b (n / b)) as l.
    destruct (_ =? 0); simpl; lia.
Qed.

(** The digits of a number fit in [tmp]. *)
Lemma number_digits_ok base num locase :
  0 <= num < 2 ^ 64 ->
  exists tmp, number_digits base num locase = Ok tmp /\ 1 <= zlen tmp <= 64.
Proof.
  intros Hn. unfold number_digits. destruct (Z.eqb_spec num 0); [by eexists|].
  destruct (negb (base =? 10)).
  - apply hex_loop_fuel; [exact Hn|by destruct (_ =? _)|lia].
  - unfold put_dec. rewrite put_dec_loop_ok; [|split; [lia|]|lia].
    + eexists. split; [done|]. unfold dec_text, zlen. rewrite length_map. unfold digits.
      pose proof (digits_rev_length 63 10 num). lia.
    + eapply Z.lt_trans; [apply Hn|]. vm_compute. reflexivity.
Qed.

Lemma number_sign_num flags num w s n' w' :
  0 <= num < 2 ^ 64 -> number_sign flags num w = (s, n', w') -> 0 <= n' < 2 ^ 64.
Proof.
  intros Hn. unfold number_sign. destruct (has flags SIGN); [|by intros [= _ <- _]].
  destruct (s64 num <? 0).
  - intros [= _ <- _]. pose proof (u64_range (- s64 num)). lia.
  - destruct (has flags PLUS); [by intros [= _ <- _]|]. destruct (has flags SPACE); by intros [= _ <- _].
Qed.

Definition number_printer num spec :
  0 <= num < 2 ^ 64 -> - 32768 <= s_prec spec <= 32767 -> Printer1 (fun oend => number oend num spec).
Proof.
  intros Hn Hp. unfold number.
  destruct (number_sign _ num (s_width spec)) as [[sign num'] w] eqn:E.
  apply number_sign_num in E; [|done].
  set (pfx := has (s_flags spec) SPECIAL && _). set (locase := Z.land (s_flags spec) SMALL).
  assert (Hd : number_digits (s_base spec) num' locase <> NoFuel /\
    forall tmp, number_digits (s_base spec) num' locase = Ok tmp -> 1 <= zlen tmp <= 64).
  { destruct (number_digits_ok (s_base spec) num' locase E) as (tmp & -> & Hz).
    split; [done|]. by intros tmp' [= <-]. }
  destruct (number_digits (s_base spec) num' locase) as [tmp| | |]; try (by destruct Hd);
    try (exists (fun _ => Fatal); by split); try (exists (fun _ => Stray k); by split).
  destruct Hd as [_ Hz]. specialize (Hz tmp eq_refl).
  eapply printer1_ext; [intros oend st; by rewrite bind_Ok|]. cbv zeta.
  printer; (apply zeros_printer; [lia|destruct (s_prec spec <? zlen tmp) eqn:E2; lia|lia]).
Defined.

Lemma strnlen_range m s n len :
  strnlen m s n = Ok len -> 0 <= len <= zlen m + 1.
Proof.
  unfold strnlen. pose proof (zlen_nonneg m).
  assert (Hl : forall k p r, strnlen_loop k m p = Ok r -> p <= r <= p + Z.of_nat k).
  { induction k as [|k IH]; intros p r; cbn [strnlen_loop]; [intros [= ->]; lia|].
    intros H'. inv_bind H'. destruct (_ =? 0); [injection H' as ->; lia|].
    apply IH in H'. lia. }
  intros H'. inv_bind H'. injection H' as <-. apply Hl in E. lia.
Qed.

Lemma strnlen_not_nofuel m s n : strnlen m s n <> NoFuel.
Proof.
  unfold strnlen. apply bind_not_nofuel; [|done]. generalize (Z.to_nat (Z.min n (zlen m + 1))) as k.
  intros k. revert s. induction k as [|k IH]; intros s; cbn [strnlen_loop]; [done|].
  apply bind_not_nofuel; [unfold rd; destruct (_ <? _); [done|by destruct (_ !! _)]|].
  intros b. by destruct (_ =? 0).
Qed.

(** Text longer than this cannot be in the address space of a process. *)
Definition MAX_TEXT : Z := 2 ^ 31 - 2.

Definition string_at_printer arr s spec :
  zlen arr <= MAX_TEXT -> Printer1 (fun oend => string_at oend arr s spec).
Proof.
  intros Ha. unfold string_at. pose proof (strnlen_not_nofuel arr s (u32 (s_prec spec))) as Hn.
  destruct (strnlen arr s _) as [len| |k|] eqn:E; try (by exfalso);
    try (exists (fun _ => Fatal); by split); try (exists (fun _ => Stray k); by split).
  apply strnlen_range in E. unfold MAX_TEXT in Ha.
  eapply printer1_ext; [intros oend st; by rewrite bind_Ok|]. rewrite s32_small by lia.
  apply printer1_bind.
  - destruct (negb _); [|apply printer_ret]. apply space_printer; lia.
  - intros w. apply printer1_seq; [apply copy_str_printer|].
    apply (printer1_bind (fun oend => spaces oend len w) (fun _ _ st => Ok st)).
    + apply space_printer; lia.
    + intros _. apply printer1_skip.
Defined.

Definition char_field_printer spec w : Printer1 (fun oend => char_field oend spec w).
Proof.
  unfold char_field. apply printer1_bind.
  - destruct (negb _); [apply char_pad_printer|apply printer_ret].
  - intros width. apply printer1_seq; [apply printer1_emit|].
    apply (printer1_bind (fun oend => char_pad oend width) (fun _ _ st => Ok st)).
    + apply char_pad_printer.
    + intros _. apply printer1_skip.
Defined.

(** ** Termination of the rest *)

(** [m] does not run out of fuel, and a value it returns satisfies [P]. *)
Definition fine {A} (m : result A) (P : A -> Prop) : Prop :=
  match m with
  | Ok a => P a
  | NoFuel => False
  | _ => True
  end.

Lemma fine_bind {A B} (m : result A) (f : A -> result B) P Q :
  fine m P -> (forall a, P a -> fine (f a) Q) -> fine (m ≫= f) Q.
Proof. destruct m; simpl; auto; contradiction. Qed.

Lemma fine_mono {A} (m : result A) (P Q : A -> Prop) :
  fine m P -> (forall a, P a -> Q a) -> fine m Q.
Proof. destruct m; simpl; auto. Qed.

Lemma fine_not_nofuel {A} (m : result A) (P : A -> Prop) : fine m P -> m <> NoFuel.
Proof. destruct m; simpl; done. Qed.

Lemma fine_rd {A} (l : list A) i (P : A -> Prop) :
  (forall b, rd l i = Ok b -> P b) -> fine (rd l i) P.
Proof. intros H. unfold rd in *. destruct (_ <? _); [done|]. destruct (_ !! _); simpl; auto. Qed.

Lemma rd_not_nofuel {A} (l : list A) i : rd l i <> NoFuel.
Proof. apply (fine_not_nofuel _ (fun _ => True)), fine_rd. done. Qed.

Lemma printer1_fine (f : Z -> ost -> result ost) oend st :
  Printer1 f -> out_ok oend st -> fine (f oend st) (out_ok oend).
Proof.
  intros [r [Hn Hr]] Hst. rewrite (Hr oend st Hst). specialize (Hn (o_pos st)).
  destruct (r (o_pos st)); simpl; try done. by apply put_text_ok.
Qed.

(** Code without loops on fuel: the cases are split until nothing is left. *)
Ltac no_fuel :=
  repeat first
    [ done
    | apply rd_not_nofuel
    | match goal with
      | H : forall _, ?f _ <> NoFuel |- ?f _ <> NoFuel => apply H
      | |- lput _ _ _ <> NoFuel => unfold lput
      | |- pack_hex_byte _ _ _ <> NoFuel => unfold pack_hex_byte
      | |- (if ?b then _ else _) <> NoFuel => destruct b
      | |- (match ?o with Some _ => _ | None => _ end) <> NoFuel => destruct o
      end
    | apply bind_not_nofuel; [|intros ?] ].

Section texts.
Context (addr fmt : Z -> result Z) (Ha : forall i, addr i <> NoFuel) (Hf : forall i, fmt i <> NoFuel).

Lemma mac_address_text_nf : mac_address_text addr fmt <> NoFuel.
Proof.
  unfold mac_address_text.
  assert (Hl : forall n i sep l, mac_loop addr fmt n i sep l <> NoFuel).
  { induction n as [|n IH]; intros i sep l; cbn [mac_loop]; no_fuel; auto. }
  no_fuel; auto.
Qed.

Lemma ip4_loop_nf quad (Hq : forall i, quad i <> NoFuel) n cap i index step lz p :
  ip4_loop n cap i index step lz quad p <> NoFuel.
Proof.
  revert i index p. induction n as [|n IH]; intros i index p; cbn [ip4_loop]; no_fuel; auto.
  generalize (rev (put_dec_trunc a)) as t. intros t. revert a1. clear.
  assert (Hg : forall u r, r <> NoFuel -> foldl (fun r c => l ← r; lput cap c l) r u <> NoFuel).
  { induction u as [|c u IH]; intros r Hr; [exact Hr|].
      simpl. apply IH. no_fuel. }
  intros a1. by apply Hg.
Qed.

Lemma ip4_addr_text_nf : ip4_addr_text addr fmt <> NoFuel.
Proof.
  unfold ip4_addr_text, ip4_string. no_fuel. destruct (if _ || _ then _ else _) as [index step].
  apply bind_not_nofuel; [by apply ip4_loop_nf|intros ?; no_fuel].
Qed.

Lemma ip6_loop_nf fuel cap in6 i range longest colonpos nc p :
  1 <= longest -> 0 <= i -> (Z.to_nat (range - i) < fuel)%nat ->
  ip6_loop fuel cap in6 i range longest colonpos nc p <> NoFuel.
Proof.
  intros Hl. revert i nc p. induction fuel as [|fuel IH]; intros i nc p Hi Hfu; [lia|].
  cbn [ip6_loop]. destruct (Z.ltb_spec i range); [|done].
  destruct (i =? colonpos); no_fuel; apply IH; lia.
Qed.

Lemma longest_run_pos n in6 i longest colonpos :
  1 <= longest -> 1 <= (longest_run n in6 i longest colonpos).1.
Proof.
  revert i longest colonpos. induction n as [|n IH]; intros i longest colonpos Hl; [done|].
  cbn [longest_run]. destruct (Z.ltb_spec longest (zero_run (S n) in6 i)); apply IH; lia.
Qed.

Lemma ip6_addr_text_nf : ip6_addr_text addr fmt <> NoFuel.
Proof.
  unfold ip6_addr_text, ip6_compressed_string.
  assert (Hp : forall n i f0 p, ip6_plain_loop addr n 46 i f0 p <> NoFuel).
  { induction n as [|n IH]; intros i f0 p; cbn [ip6_plain_loop]; no_fuel; auto. }
  assert (Hb : forall n i, addr_bytes addr n i <> NoFuel).
  { induction n as [|n IH]; intros i; cbn [addr_bytes]; no_fuel; auto. }
  apply bind_not_nofuel; [done|]. intros f0. apply bind_not_nofuel; [no_fuel|].
  intros [|]; [|apply Hp]. apply bind_not_nofuel; [apply Hb|]. intros in6.
  set (v4 := _ || _). set (range := if v4 then _ else _).
  pose proof (longest_run_pos range in6 0 1 (-1) ltac:(lia)) as Hl.
  destruct (longest_run range in6 0 1 (-1)) as [longest colonpos]. simpl in Hl.
  apply bind_not_nofuel.
  - apply ip6_loop_nf; [done|done|]. unfold range. destruct v4; simpl; lia.
  - intros [nc p]. destruct v4; [|no_fuel]. apply bind_not_nofuel; [no_fuel|]. intros q.
    apply bind_not_nofuel; [|intros ?; no_fuel].
    apply ip4_loop_nf. intros. apply rd_not_nofuel.
Qed.

Lemma uuid_text_nf : uuid_text addr fmt <> NoFuel.
Proof.
  unfold uuid_text.
  assert (Hl : forall idx i p, uuid_loop addr idx i p <> NoFuel).
  { induction idx as [|j idx IH]; intros i p; cbn [uuid_loop]; no_fuel; auto. }
  no_fuel; auto.
Qed.

End texts.

(** The local arrays hold what was put in them. *)
Lemma lput_len cap c l l' : lput cap c l = Ok l' -> zlen l' <= cap.
Proof.
  unfold lput. destruct (Z.ltb_spec (zlen l) cap); [|done]. intros [= <-]. zlen_simp. lia.
Qed.

Section text_lengths.
Context (addr fmt : Z -> result Z).

Lemma mac_address_text_len l : mac_address_text addr fmt = Ok l -> zlen l <= 18.
Proof. intros H. unfold mac_address_text in H. inv_bind H. by eapply lput_len. Qed.

Lemma ip4_addr_text_len l : ip4_addr_text addr fmt = Ok l -> zlen l <= 16.
Proof.
  intros H. unfold ip4_addr_text in H. inv_bind H. unfold ip4_string in H.
  destruct (if _ || _ then _ else _) as [index step]. inv_bind H. by eapply lput_len.
Qed.

Lemma ip6_addr_text_len l : ip6_addr_text addr fmt = Ok l -> zlen l <= 46.
Proof.
  intros H. unfold ip6_addr_text in H. inv_bind H. destruct a0.
  - inv_bind H. unfold ip6_compressed_string in H.
    destruct (longest_run _ _ _ _ _) as [longest colonpos]. inv_bind H.
    destruct a1 as [nc p]. destruct (_ || _); [|by eapply lput_len].
    inv_bind H. injection H as <-. by eapply lput_len.
  - assert (Hl : forall n i p, ip6_plain_loop addr n 46 i a p = Ok l -> zlen l <= 46).
    { induction n as [|n IH]; intros i p Hp; cbn [ip6_plain_loop] in Hp; [by eapply lput_len|].
      inv_bind Hp. eauto. }
    by eapply Hl.
Qed.

Lemma uuid_text_len l : uuid_text addr fmt = Ok l -> zlen l <= 37.
Proof. intros H. unfold uuid_text in H. inv_bind H. by eapply lput_len. Qed.

End text_lengths.

(** ** Resources *)

Lemma lit_printer l : zlen l <= 64 -> Printer1 (fun oend => string_at oend (l ++ [0]) 0 str_spec).
Proof. intros Hl. apply string_at_printer. unfold MAX_TEXT. zlen_simp. lia. Qed.

Lemma wr_fine m p c (P : list Z -> Prop) :
  (forall m', wr m p c = Ok m' -> P m') -> fine (wr m p c) P.
Proof. intros H. destruct (wr m p c) eqn:E; simpl; auto. unfold wr in E. by destruct (_ && _). Qed.

Lemma wr_len m p c m' : wr m p c = Ok m' -> zlen m' = zlen m.
Proof.
  unfold wr. destruct (_ && _); [|done]. intros [= <-]. unfold zlen. by rewrite length_insert.
Qed.

Lemma sput_fine c st : out_ok sym_size st -> fine (sput c st) (out_ok sym_size).
Proof.
  intros [Hp Hm]. unfold sput. apply (fine_bind _ _ (fun m => zlen m = sym_size)).
  - apply wr_fine. intros m' Hw. by rewrite (wr_len _ _ _ _ Hw).
  - intros m Hz. split; simpl; [lia|done].
Qed.

Lemma resource_text_fine start end_ flags decode sym :
  0 <= start < 2 ^ 64 -> 0 <= end_ < 2 ^ 64 -> 0 <= flags < 2 ^ 64 -> zlen sym = sym_size ->
  fine (resource_text start end_ flags decode sym) (fun m => zlen m = sym_size).
Proof.
  intros Hs He Hf Hsym. unfold resource_text.
  apply (fine_bind _ _ (out_ok sym_size)); [by apply sput_fine|]. intros st Hst.
  assert (Hlit : forall l st, zlen l <= 64 -> out_ok sym_size st -> fine (lit l st) (out_ok sym_size)).
  { intros l st' Hl Hst'. by apply (printer1_fine _ sym_size st' (lit_printer l Hl)). }
  assert (Hnum : forall n sp st, 0 <= n < 2 ^ 64 -> s_prec sp = -1 -> out_ok sym_size st ->
    fine (number sym_size n sp st) (out_ok sym_size)).
  { intros n sp st' Hn Hp Hst'. apply (printer1_fine (fun oend => number oend n sp)); [|done].
    apply number_printer; lia. }
  set (choice := if has flags IORESOURCE_IO then _ else _).
  assert (Hch : zlen choice.1.1 <= 64 /\ s_prec choice.1.2 = -1).
  { unfold choice. repeat (destruct (has flags _); [by split|]). by split. }
  destruct choice as [[name specp] dec]. simpl in Hch. destruct Hch as [Hname Hprec].
  apply (fine_bind _ _ (out_ok sym_size)); [by apply Hlit|]. intros st1 Hst1.
  apply (fine_bind _ _ (out_ok sym_size)); [by apply Hnum|]. intros st2 Hst2.
  apply (fine_bind _ _ (out_ok sym_size)).
  { destruct (negb _); [|done]. apply (fine_bind _ _ (out_ok sym_size)); [by apply sput_fine|].
    intros st3 Hst3. by apply Hnum. }
  intros st3 Hst3. apply (fine_bind _ _ (out_ok sym_size)).
  { destruct dec.
    - do 3 (apply (fine_bind _ _ (out_ok sym_size)); [destruct (has flags _); [by apply Hlit|done]|intros ? ?]).
      destruct (has flags _); [by apply Hlit|done].
    - apply (fine_bind _ _ (out_ok sym_size)); [by apply Hlit|]. intros ? ?. by apply Hnum. }
  intros st4 Hst4. apply (fine_bind _ _ (out_ok sym_size)); [by apply sput_fine|].
  intros st5 [_ Hm]. eapply fine_bind; [apply wr_fine; intros m' Hw; exact (wr_len _ _ _ _ Hw)|].
  intros m' Hz. change (zlen m' = sym_size). by rewrite Hz.
Qed.

(** ** Decoding makes progress *)

Definition spec_ok (sp : printf_spec) : Prop := - 32768 <= s_prec sp <= 32767.

Section decode.
Context (fmt : list Z).

Lemma text_end_fine fuel p :
  (Z.to_nat (zlen fmt - p) < fuel)%nat ->
  fine (text_end fmt fuel p) (fun q => p <= q /\
    exists c, rd fmt q = Ok c /\ (c = 0 \/ c = 37)).
Proof.
  revert p. induction fuel as [|fuel IH]; intros p Hf; [lia|]. cbn [text_end].
  apply (fine_bind _ _ (fun c => rd fmt p = Ok c)); [by apply fine_rd|]. intros c Hc.
  pose proof (rd_range _ _ _ Hc).
  destruct (Z.eqb_spec c 0) as [->|]; [simpl; split; [lia|eauto]|].
  destruct (Z.eqb_spec c 37) as [->|]; [simpl; split; [lia|eauto]|]. simpl.
  eapply fine_mono; [apply IH; lia|]. intros q [Hq Hex]. split; [lia|done].
Qed.

Lemma flags_loop_fine fuel p sp :
  (Z.to_nat (zlen fmt - p) < fuel)%nat -> spec_ok sp ->
  fine (flags_loop fmt fuel p sp) (fun r => p <= r.1 /\ spec_ok r.2).
Proof.
  revert p sp. induction fuel as [|fuel IH]; intros p sp Hf Hsp; [lia|]. cbn [flags_loop].
  apply (fine_bind _ _ (fun c => rd fmt p = Ok c)); [by apply fine_rd|]. intros c Hc.
  pose proof (rd_range _ _ _ Hc).
  repeat (destruct (c =? _);
    [eapply fine_mono; [apply IH; [lia|done]|intros r [? ?]; split; [lia|done]]|]).
  split; simpl; [lia|done].
Qed.

Lemma skip_atoi_fine p :
  0 <= p -> fine (skip_atoi fmt p) (fun r => p <= r.2 /\
    forall c, rd fmt p = Ok c -> isdigit c = true -> p < r.2).
Proof.
  intros Hp. unfold skip_atoi.
  assert (Hl : forall fuel q i, (Z.to_nat (zlen fmt - q) < fuel)%nat -> p <= q ->
    fine (skip_atoi_loop fuel fmt q i) (fun r => q <= r.2)).
  { induction fuel as [|fuel IH]; intros q i Hf Hq; [lia|]. cbn [skip_atoi_loop].
    apply (fine_bind _ _ (fun c => rd fmt q = Ok c)); [by apply fine_rd|]. intros c Hc.
    pose proof (rd_range _ _ _ Hc). destruct (isdigit c); [|simpl; lia].
    eapply fine_mono; [apply IH; lia|]. intros r Hr. cbv beta in *. lia. }
  unfold rounds. cbn [skip_atoi_loop].
  apply (fine_bind _ _ (fun c => rd fmt p = Ok c)); [by apply fine_rd|]. intros c Hc.
  pose proof (rd_range _ _ _ Hc) as Hr. destruct (isdigit c) eqn:E.
  - eapply fine_mono; [apply Hl; unfold zlen in *; lia|]. intros r Hlt. cbv beta in *. split; lia.
  - simpl. split; [lia|]. intros c' Hc' Hd. congruence.
Qed.

(** The end of [format_decode]: it may stop where it started only on an
    invalid conversion, or on the [p] of a pointer. *)
Definition decoded (start : Z) (r : Z * printf_spec) : Prop :=
  start <= r.1 /\ spec_ok r.2 /\
  match s_type r.2 with
  | FORMAT_TYPE_NONE => False
  | FORMAT_TYPE_WIDTH | FORMAT_TYPE_PRECISION => start < r.1
  | FORMAT_TYPE_PTR => rd fmt r.1 = Ok 112
  | FORMAT_TYPE_INVALID => True
  | _ => start < r.1
  end.

Lemma int_type_kind sp : match int_type sp with
  | FORMAT_TYPE_NONE | FORMAT_TYPE_WIDTH | FORMAT_TYPE_PRECISION | FORMAT_TYPE_PTR
  | FORMAT_TYPE_INVALID => False
  | _ => True
  end.
Proof.
  unfold int_type. repeat (match goal with |- context [if ?b then _ else _] => destruct b end); done.
Qed.

Lemma decode_qualifier_fine p sp :
  spec_ok sp -> fine (decode_qualifier fmt p sp) (decoded p).
Proof.
  intros Hsp. unfold decode_qualifier.
  apply (fine_bind _ _ (fun _ => True)); [by apply fine_rd|]. intros c _.
  apply (fine_bind _ _ (fun r => p <= r.1 /\ spec_ok r.2)).
  { destruct (_ || _); [|split; simpl; [lia|done]].
    apply (fine_bind _ _ (fun _ => True)); [by apply fine_rd|]. intros c' _.
    repeat (match goal with |- context [if ?b then _ else _] => destruct b end);
      split; simpl; lia || done. }
  intros [q sp'] [Hq Hok]. simpl in Hq, Hok.
  apply (fine_bind _ _ (fun c => rd fmt q = Ok c)); [by apply fine_rd|]. intros c' Hc'.
  assert (Hint : forall s, spec_ok s -> decoded p (q + 1, set_type s (int_type s))).
  { intros s Hs. split; [simpl; lia|]. split; [done|]. cbn [s_type set_type snd fst].
    pose proof (int_type_kind s) as Hk. destruct (int_type s); done || lia. }
  do 2 (destruct (_ =? _); [split; [simpl; lia|]; split; [done|]; simpl; lia|]).
  destruct (Z.eqb_spec c' 112) as [->|]; [by split; [simpl; lia|]|].
  do 2 (destruct (_ =? _); [split; [simpl; lia|]; split; [done|]; simpl; lia|]).
  repeat (match goal with |- fine (if ?b then _ else _) _ => destruct b end);
    try (by apply Hint).
  split; [simpl; lia|]. by split.
Qed.

Lemma decoded_le p q r : p <= q -> decoded q r -> decoded p r.
Proof.
  intros Hpq (H1 & H2 & H3). split; [lia|]. split; [done|]. destruct (s_type r.2); done || lia.
Qed.

Lemma set_prec_ok sp v : spec_ok (set_prec sp v).
Proof. unfold spec_ok, set_prec. simpl. pose proof (s16_range v). lia. Qed.

Lemma decode_precision_fine p sp :
  0 <= p -> fine (decode_precision fmt p sp) (decoded p).
Proof.
  intros Hp. unfold decode_precision.
  apply (fine_bind _ _ (fun _ => True)); [by apply fine_rd|]. intros c _.
  destruct (c =? 46); [|apply decode_qualifier_fine, set_prec_ok].
  apply (fine_bind _ _ (fun _ => True)); [by apply fine_rd|]. intros c' _.
  destruct (isdigit c').
  - eapply fine_bind; [apply skip_atoi_fine; lia|]. intros [v q] [Hq _]. simpl in Hq.
    eapply fine_mono; [apply decode_qualifier_fine|].
    + destruct (_ <? 0); apply set_prec_ok.
    + intros r. apply decoded_le. lia.
  - destruct (c' =? 42).
    + split; [simpl; lia|]. split; [apply set_prec_ok|]. simpl. lia.
    + eapply fine_mono; [apply decode_qualifier_fine, set_prec_ok|]. intros r. apply decoded_le. lia.
Qed.

(** A field that was cut by a [*] *)
Definition pending_spec (sp : printf_spec) : bool :=
  match s_type sp with FORMAT_TYPE_WIDTH | FORMAT_TYPE_PRECISION => true | _ => false end.

(** What a round may rely on: text, which is not empty; or a field, which made
    progress unless it was pending. *)
Lemma format_decode_fine start sp c :
  rd fmt start = Ok c -> c <> 0 -> spec_ok sp ->
  fine (format_decode fmt start sp) (fun r =>
    (s_type r.2 = FORMAT_TYPE_NONE /\ start < r.1 <= zlen fmt /\ spec_ok r.2) \/
    (decoded start r /\ (start < r.1 \/ pending_spec sp = true))).
Proof.
  intros Hc Hc0 Hsp. pose proof (rd_range _ _ _ Hc) as Hr.
  assert (Hmain : fine (p ← text_end fmt (rounds fmt) start;
      c ← rd fmt p;
      (if negb (p =? start) || (c =? 0) then Ok (p, set_type sp FORMAT_TYPE_NONE)
      else
        '(p, spec) ← flags_loop fmt (rounds fmt) (p + 1) (set_flags (set_type sp FORMAT_TYPE_NONE) 0);
        let spec := set_width spec (-1) in
        c ← rd fmt p;
        if isdigit c then
          '(v, p) ← skip_atoi fmt p; decode_precision fmt p (set_width spec v)
        else if c =? 42 then Ok (p + 1, set_type spec FORMAT_TYPE_WIDTH)
        else decode_precision fmt p spec)) (fun r =>
    (s_type r.2 = FORMAT_TYPE_NONE /\ start < r.1 <= zlen fmt /\ spec_ok r.2) \/
    (decoded start r /\ (start < r.1 \/ pending_spec sp = true)))).
  { eapply fine_bind; [apply text_end_fine; unfold rounds, zlen; lia|].
    intros p (Hp & c1 & Hc1 & Hcc). pose proof (rd_range _ _ _ Hc1). rewrite Hc1, bind_Ok.
    destruct (Z.eqb_spec p start) as [->|Hne]; cbn [negb orb].
    2: { left. simpl. split; [done|]. split; [lia|done]. }
    assert (c1 = c) as -> by congruence. destruct (Z.eqb_spec c 0); [done|].
    eapply fine_bind; [apply flags_loop_fine; [unfold rounds, zlen in *; lia|exact Hsp]|].
    intros [q sp'] [Hq Hsp']. simpl in Hq, Hsp'.
    apply (fine_bind _ _ (fun _ => True)); [by apply fine_rd|]. intros c2 _.
    destruct (isdigit c2).
    - eapply fine_bind; [apply skip_atoi_fine; lia|]. intros [v q'] [Hq' _]. simpl in Hq'.
      eapply fine_mono; [apply decode_precision_fine; lia|]. intros r Hd. right.
      destruct Hd as (H1 & H2 & H3). split; [|left; lia].
      apply (decoded_le start q'); [lia|]. by split.
    - destruct (c2 =? 42).
      + right. simpl. split; [|left; lia]. split; [simpl; lia|]. split; [exact Hsp'|]. simpl. lia.
      + eapply fine_mono; [apply decode_precision_fine; lia|]. intros r Hd. right.
        destruct Hd as (H1 & H2 & H3). split; [|left; lia].
        apply (decoded_le start q); [lia|]. by split. }
  unfold format_decode. destruct (s_type sp) eqn:Et; try exact Hmain.
  - eapply fine_mono; [apply decode_precision_fine; lia|]. intros r Hd. right. split; [done|].
    right. unfold pending_spec. by rewrite Et.
  - eapply fine_mono; [apply decode_qualifier_fine|].
    + destruct (_ <? 0); [apply set_prec_ok|exact Hsp].
    + intros r Hd. right. split; [done|]. right. unfold pending_spec. by rewrite Et.
Qed.

End decode.

(** ** The whole function *)

Section whole.
Context (mbase : Z) (mbytes : list Z).
Context (sprint_symbol kallsyms_lookup : Z -> list Z) (deref : Z -> Z).
Hypothesis Hmem : zlen mbytes <= MAX_TEXT.
Hypothesis Hbytes : Forall is_byte mbytes.
(** A symbol fits in the [KSYM_SYMBOL_LEN] bytes the kernel is given for it. *)
Hypothesis Hsym : forall p, zlen (sprint_symbol p) < 256.
Hypothesis Hlook : forall p, zlen (kallsyms_lookup p) < 256.

Lemma load_not_nofuel p : load mbase mbytes p <> NoFuel.
Proof. apply rd_not_nofuel. Qed.

Lemma load32_range p v : load32 mbase mbytes p = Ok v -> 0 <= v < 2 ^ 64.
Proof.
  unfold load32, load. intros H. inv_bind H. injection H as <-.
  pose proof (Forall_rd _ _ _ _ Hbytes E). pose proof (Forall_rd _ _ _ _ Hbytes E0).
  pose proof (Forall_rd _ _ _ _ Hbytes E1). pose proof (Forall_rd _ _ _ _ Hbytes E2).
  unfold is_byte in *. cbn [of_le]. lia.
Qed.

Definition string_printer s spec : Printer1 (fun oend => string mbase mbytes oend s spec).
Proof. unfold string. destruct (_ <? _); by apply string_at_printer. Defined.

Definition symbol_printer ptr spec ext :
  Printer1 (fun oend => symbol_string sprint_symbol kallsyms_lookup oend ptr spec ext).
Proof.
  unfold symbol_string. apply string_at_printer. zlen_simp. unfold MAX_TEXT.
  specialize (Hsym ptr). specialize (Hlook ptr). destruct (_ && _); lia.
Defined.

(** A text that was built in a local array, then printed. *)
Definition text_printer (m : result (list Z)) spec :
  m <> NoFuel -> (forall l, m = Ok l -> zlen l <= 64) ->
  Printer1 (fun oend st => p ← m; string_at oend p 0 spec st).
Proof.
  intros Hn Hl. destruct m as [l| |k|]; [|exists (fun _ => Fatal); by split|
    exists (fun _ => Stray k); by split|by exfalso].
  apply (printer1_ext _ (fun oend => string_at oend l 0 spec)); [done|].
  apply string_at_printer. specialize (Hl l eq_refl). unfold MAX_TEXT. lia.
Defined.

Lemma load32_not_nofuel p : load32 mbase mbytes p <> NoFuel.
Proof. unfold load32. repeat (apply bind_not_nofuel; [apply load_not_nofuel|intros ?]). done. Qed.

Definition resource_printer res spec f0 :
  Printer1 (fun oend => resource_string mbase mbytes oend res spec f0).
Proof.
  unfold resource_string.
  set (m := (start ← load32 mbase mbytes res; end_ ← load32 mbase mbytes (res + 4);
    flags ← load32 mbase mbytes (res + 12);
    resource_text start end_ flags (f0 =? 82) (replicate (Z.to_nat sym_size) 0))).
  assert (Hm : fine m (fun l => zlen l = sym_size)).
  { assert (Hld : forall p, fine (load32 mbase mbytes p) (fun v => 0 <= v < 2 ^ 64)).
    { intros p. pose proof (load32_not_nofuel p). pose proof (load32_range p).
      destruct (load32 mbase mbytes p); simpl; auto. }
    unfold m. do 3 (eapply fine_bind; [apply Hld|]; intros ? ?).
    by apply resource_text_fine. }
  apply (printer1_ext _ (fun oend st => p ← m; string_at oend p 0 spec st)).
  { intros oend st. unfold m. by rewrite !bind_assoc; repeat (destruct (load32 _ _ _); simpl). }
  apply text_printer; [by eapply fine_not_nofuel|]. intros l E. rewrite E in Hm. simpl in Hm.
  rewrite Hm. unfold sym_size. lia.
Defined.

Definition pointer_printer (fmt : Z -> result Z) ptr spec :
  (forall i, fmt i <> NoFuel) -> 0 <= ptr < 2 ^ 32 -> spec_ok spec ->
  Printer1 (fun oend => pointer mbase mbytes sprint_symbol kallsyms_lookup deref oend fmt ptr spec).
Proof.
  intros Hf Hp Hsp. unfold pointer. destruct (ptr =? 0); [by apply string_at_printer|].
  assert (Hplain : Printer1 (fun oend => let spec := add_flag spec SMALL in
      let spec := if s_width spec =? -1 then add_flag (set_width spec 8) ZEROPAD else spec in
      number oend ptr (set_base spec 16))).
  { cbv zeta. apply number_printer; [lia|]. by destruct (_ =? _). }
  assert (Haddr : forall i, load mbase mbytes (ptr + i) <> NoFuel) by (intros; apply load_not_nofuel).
  apply printer1_pure; [done|]. intros f0.
  destruct (_ || _); [apply symbol_printer|]. destruct (_ || _); [apply symbol_printer|].
  destruct (_ || _); [apply resource_printer|].
  destruct (_ || _).
  { apply text_printer; [by apply mac_address_text_nf|].
    intros l Hl%mac_address_text_len. lia. }
  destruct (_ || _).
  { apply printer1_pure; [done|]. intros f1. destruct (_ =? _).
    - apply text_printer; [by apply ip6_addr_text_nf|]. intros l Hl%ip6_addr_text_len. lia.
    - destruct (_ =? _); [|exact Hplain].
      apply text_printer; [by apply ip4_addr_text_nf|]. intros l Hl%ip4_addr_text_len. lia. }
  destruct (_ =? _); [|exact Hplain].
  apply text_printer; [by apply uuid_text_nf|]. intros l Hl%uuid_text_len. lia.
Defined.

(** *** One round *)

Context (fmt : list Z) (Hfmt : Forall is_byte fmt).

(** The state of the loop without its output. *)
Definition vctl : Type := Z * printf_spec * list Z * list (Z * Z).

Definition ctl (v : vst) : vctl := (v_fmt v, v_spec v, v_args v, v_stores v).
Definition with_out (x : vctl) (st : ost) : vst :=
  let '(f, sp, args, stores) := x in Vst f sp args st stores.

(** [f], started at output position [p], prints: its outcome [o] (the control
    state and the text) does not depend on the buffer. *)
Definition prints_at (p : Z) (f : Z -> ost -> result vst) (o : result (vctl * list Z)) : Prop :=
  forall oend st, out_ok oend st -> o_pos st = p ->
    f oend st = ('(x, t) ← o; Ok (with_out x (put_text oend t st))).

Definition vinv (x : vctl) : Prop := 0 <= x.1.1.1 /\ spec_ok x.1.1.2.
Definition vmeasure (x : vctl) : nat :=
  2 * Z.to_nat (zlen fmt - x.1.1.1) + (if pending_spec x.1.1.2 then 1 else 0).

(** The outcome of a round that leads to smaller states only. *)
Definition good_step (x : vctl) (o : result (vctl * list Z)) : Prop :=
  fine o (fun r => vinv r.1 /\ (vmeasure r.1 < vmeasure x)%nat).

Lemma field_at p x (g : Z -> ost -> result ost) x' :
  Printer1 g -> vinv x' -> (vmeasure x' < vmeasure x)%nat ->
  exists o, good_step x o /\ prints_at p (fun oend st => st ← g oend st; Ok (with_out x' st)) o.
Proof.
  intros [r [Hn Hr]] Hv Hm. exists (t ← r p; Ok (x', t)). split.
  - specialize (Hn p). by destruct (r p).
  - intros oend st Hst <-. rewrite (Hr oend st Hst). by destruct (r (o_pos st)).
Qed.

(** A word taken from the arguments first. *)
Lemma word_at p x args (f : Z -> list Z -> Z -> ost -> result vst) :
  (forall w args, 0 <= w < 2 ^ 32 -> exists o, good_step x o /\ prints_at p (f w args) o) ->
  exists o, good_step x o /\
    prints_at p (fun oend st => '(w, args) ← va_word args; f w args oend st) o.
Proof.
  intros H. destruct args as [|w args].
  - exists (Stray Rd). by split.
  - destruct (H (u32 w) args) as (o & Hg & Ho); [apply u32_range|]. by exists o.
Qed.

Lemma skip_alnum_fine p : rd fmt p = Ok 112 -> fine (skip_alnum fmt (rounds fmt) p) (fun q => p < q).
Proof.
  intros Hp.
  assert (Hl : forall fuel q, (Z.to_nat (zlen fmt - q) < fuel)%nat ->
    fine (skip_alnum fmt fuel q) (fun r => q <= r)).
  { induction fuel as [|fuel IH]; intros q Hf; [lia|]. cbn [skip_alnum].
    apply (fine_bind _ _ (fun c => rd fmt q = Ok c)); [by apply fine_rd|]. intros c Hc.
    pose proof (rd_range _ _ _ Hc). destruct (isalnum c); [|simpl; lia].
    eapply fine_mono; [apply IH; lia|]. intros r Hr. cbv beta in *. lia. }
  pose proof (rd_range _ _ _ Hp). unfold rounds. cbn [skip_alnum]. rewrite Hp, bind_Ok.
  change (isalnum 112) with true. cbv iota.
  eapply fine_mono; [apply Hl; unfold zlen in *; lia|]. intros r Hr. cbv beta in *. lia.
Qed.

Lemma va_num_range t args num args' : va_num t args = Ok (num, args') -> 0 <= num < 2 ^ 64.
Proof.
  assert (Hw : forall a w a', va_word a = Ok (w, a') -> 0 <= w < 2 ^ 32).
  { intros [|w0 a] w a'; [done|]. intros [= <- _]. apply u32_range. }
  unfold va_num. destruct t; intros H; inv_bind H;
    try (destruct a as [w rest]; injection H as <- _; pose proof (Hw _ _ _ E);
         pose proof (u64_range (s32 w)); pose proof (u64_range (s8 w)); pose proof (u64_range (s16 w));
         pose proof (u8_range w); pose proof (u16_range w); lia).
  unfold va_long_long in H. inv_bind H. destruct a as [lo r1]. inv_bind H.
  destruct a as [hi r2]. injection H as <- _. pose proof (Hw _ _ _ E). pose proof (Hw _ _ _ E0). lia.
Qed.

Lemma va_num_not_nofuel t args : va_num t args <> NoFuel.
Proof.
  unfold va_num, va_long_long. destruct t; destruct args as [|w args]; try done.
  by destruct args.
Qed.

(** Text of the format, copied as it is. *)
Lemma text_at p x q sp :
  vinv x -> x.1.1.1 < q <= zlen fmt -> spec_ok sp -> pending_spec sp = false ->
  let read := q - x.1.1.1 in
  exists o, good_step x o /\ prints_at p (fun oend st =>
    m ← (if o_pos st <? oend then
           let copy := if oend - o_pos st <? read then oend - o_pos st else read in
           src ← mem_read fmt x.1.1.1 copy;
           mem_write (o_mem st) (o_pos st) src
         else Ok (o_mem st));
    Ok (with_out (q, sp, x.1.2, x.2) (Ost (o_pos st + read) m))) o.
Proof.
  intros [Hx _] Hq Hsp Hpend read. set (t := zslice fmt x.1.1.1 read).
  assert (Ht : zlen t = read) by (apply zlen_zslice; unfold read; lia).
  exists (Ok ((q, sp, x.1.2, x.2), t)). split.
  - split; [by split; simpl; [lia|]|]. unfold vmeasure. simpl. rewrite Hpend.
    destruct (pending_spec _); lia.
  - intros oend st Hst <-. rewrite bind_Ok. pose proof Hst as [Hp Hm].
    assert (Hb : Forall is_byte t) by (by apply Forall_take, Forall_drop).
    transitivity (st' ← Ok (put_text oend t st); Ok (with_out (q, sp, x.1.2, x.2) st')); [|done].
    rewrite (copy_put oend t st Hst Hb), bind_assoc, Ht. destruct (Z.ltb_spec (o_pos st) oend); [|done].
    set (copy := if oend - o_pos st <? read then _ else _).
    assert (Hc : 0 <= copy <= read).
    { unfold copy. destruct (Z.ltb_spec (oend - o_pos st) read); unfold read in *; lia. }
    cbv zeta. rewrite mem_read_ok by (unfold read in Hc; lia). rewrite bind_Ok.
    replace (zslice fmt x.1.1.1 copy) with (take (Z.to_nat copy) t); [done|].
    unfold t, zslice. rewrite take_take. f_equal. lia.
Qed.

Definition vstep := vsn_step mbase mbytes sprint_symbol kallsyms_lookup deref fmt.

(** An integer field *)
Lemma number_at p x t args sp (q : Z) stores :
  spec_ok sp -> (forall args', vinv (q, sp, args', stores) /\
    (vmeasure (q, sp, args', stores) < vmeasure x)%nat) ->
  exists o, good_step x o /\ prints_at p (fun oend st =>
    '(num, args) ← va_num t args;
    st ← number oend num sp st;
    Ok (with_out (q, sp, args, stores) st)) o.
Proof.
  intros Hsp Hx. pose proof (va_num_not_nofuel t args) as Hn.
  destruct (va_num t args) as [[num args']| |k|] eqn:E;
    [|by exists Fatal|by exists (Stray k)|done].
  destruct (Hx args') as [Hv Hm].
  destruct (field_at p x (fun oend => number oend num sp) (q, sp, args', stores)) as (o & Hg & Ho);
    [apply number_printer; [by eapply va_num_range|done]|done|done|].
  by exists o.
Qed.

(** The round has the outcome found for its field. *)
Ltac outcome_is o :=
  exists o; split; [assumption|];
  intros oend st Hst Hp; rewrite bind_Ok;
  match goal with E : s_type _ = _ |- _ => rewrite E end;
  match goal with Ho : prints_at _ _ o |- _ => exact (Ho oend st Hst Hp) end.

Lemma step_at p x c :
  vinv x -> rd fmt x.1.1.1 = Ok c -> c <> 0 ->
  exists o, good_step x o /\ prints_at p (fun oend st => vstep oend (with_out x st)) o.
Proof.
  intros Hv Hc Hc0. destruct x as [[[f sp] args] stores]. pose proof Hv as [Hf Hsp].
  cbn [fst snd] in Hc, Hf, Hsp. pose proof (rd_range _ _ _ Hc) as Hr.
  pose proof (format_decode_fine fmt f sp c Hc Hc0 Hsp) as Hdec.
  unfold vstep, vsn_step, with_out. cbn [v_fmt v_spec v_args v_out v_stores].
  destruct (format_decode fmt f sp) as [[q sp']| |k|] eqn:Ed; [|by exists Fatal|by exists (Stray k)|done].
  cbn [fst snd fine] in Hdec.
  (* the control state after a field that ends at [q'] *)
  assert (Hnext : forall q' sp'' args' stores', q <= q' -> spec_ok sp'' ->
    (pending_spec sp'' = true -> f < q') -> (f < q' \/ pending_spec sp = true) ->
    vinv (q', sp'', args', stores') /\
    (vmeasure (q', sp'', args', stores') < vmeasure (f, sp, args, stores))%nat).
  { intros q' sp'' args' stores' Hq' Hs1 Hp1 Hp2.
    assert (Hfq : f <= q) by (destruct Hdec as [(_ & ? & _)|[(? & _) _]]; simpl in *; lia).
    split; [split; simpl; [lia|done]|]. unfold vmeasure. cbn [fst snd].
    destruct (pending_spec sp'') eqn:E1; [specialize (Hp1 eq_refl)|];
      destruct (pending_spec sp); try lia; destruct Hp2; done || lia. }
  destruct Hdec as [(Et & Hq & Hs1)|[(Hfq & Hs1 & Hkind) Hprog]].
  { destruct (text_at p (f, sp, args, stores) q sp' Hv Hq Hs1) as (o & Hg & Ho).
    { unfold pending_spec. by rewrite Et. }
    outcome_is o. }
  cbn [fst snd] in Hfq, Hs1, Hkind, Hprog.
  assert (Hnp : forall t, s_type sp' = t -> t <> FORMAT_TYPE_WIDTH -> t <> FORMAT_TYPE_PRECISION ->
    forall args' stores', vinv (q, sp', args', stores') /\
      (vmeasure (q, sp', args', stores') < vmeasure (f, sp, args, stores))%nat).
  { intros t Et Hw Hpr args' stores'. apply Hnext; [lia|done| |done].
    unfold pending_spec. rewrite Et. by destruct t. }
  destruct (s_type sp') eqn:Et; try done;
    try (destruct (number_at p (f, sp, args, stores) (s_type sp') args sp' q stores) as (o & Hg & Ho);
         [done|intros args'; by apply (Hnp _ eq_refl)|];
         rewrite Et in Ho; outcome_is o).
  - (* FORMAT_TYPE_WIDTH *)
    edestruct (word_at p (f, sp, args, stores) args (fun w args _ st =>
      Ok (with_out (q, set_width sp' (s32 w), args, stores) st))) as (o & Hg & Ho).
    { intros w args' Hw. eexists (Ok ((q, set_width sp' (s32 w), args', stores), [])).
      split; [|by intros oend st Hst <-]. apply Hnext; [lia|done|done|by left]. }
    outcome_is o.
  - (* FORMAT_TYPE_PRECISION *)
    edestruct (word_at p (f, sp, args, stores) args (fun w args _ st =>
      Ok (with_out (q, set_prec sp' (s32 w), args, stores) st))) as (o & Hg & Ho).
    { intros w args' Hw. eexists (Ok ((q, set_prec sp' (s32 w), args', stores), [])).
      split; [|by intros oend st Hst <-]. apply Hnext; [lia|apply set_prec_ok|done|by left]. }
    outcome_is o.
  - (* FORMAT_TYPE_CHAR *)
    edestruct (word_at p (f, sp, args, stores) args (fun w args oend st =>
      st ← char_field oend sp' w st; Ok (with_out (q, sp', args, stores) st))) as (o & Hg & Ho).
    { intros w args' Hw. destruct (Hnp _ eq_refl ltac:(done) ltac:(done) args' stores).
      apply field_at; [apply char_field_printer|done|done]. }
    outcome_is o.
  - (* FORMAT_TYPE_STR *)
    edestruct (word_at p (f, sp, args, stores) args (fun w args oend st =>
      st ← string mbase mbytes oend w sp' st; Ok (with_out (q, sp', args, stores) st))) as (o & Hg & Ho).
    { intros w args' Hw. destruct (Hnp _ eq_refl ltac:(done) ltac:(done) args' stores).
      apply field_at; [apply string_printer|done|done]. }
    outcome_is o.
  - (* FORMAT_TYPE_PTR *)
    pose proof (skip_alnum_fine q Hkind) as Hsk.
    edestruct (word_at p (f, sp, args, stores) args (fun w args oend st =>
      st ← pointer mbase mbytes sprint_symbol kallsyms_lookup deref oend
             (fun i => rd fmt (q + 1 + i)) w sp' st;
      p ← skip_alnum fmt (rounds fmt) q;
      Ok (with_out (p, sp', args, stores) st))) as (o & Hg & Ho).
    { intros w args' Hw.
      destruct (pointer_printer (fun i => rd fmt (q + 1 + i)) w sp') as [r [Hn Hpr]];
        [intros; apply rd_not_nofuel|lia|done|].
      exists (t ← r p; q' ← skip_alnum fmt (rounds fmt) q; Ok ((q', sp', args', stores), t)).
      split.
      - specialize (Hn p). destruct (r p) as [t| |k|]; try done. rewrite bind_Ok.
        destruct (skip_alnum fmt (rounds fmt) q) as [q'| |k|]; try done. rewrite bind_Ok.
        cbn [fine] in Hsk. apply Hnext; [lia|done| |left; lia]. unfold pending_spec. by rewrite Et.
      - intros oend st Hst <-. rewrite (Hpr oend st Hst). destruct (r (o_pos st)); try done.
        rewrite !bind_Ok. by destruct (skip_alnum fmt (rounds fmt) q). }
    outcome_is o.
  - (* FORMAT_TYPE_PERCENT_CHAR *)
    destruct (Hnp _ eq_refl ltac:(done) ltac:(done) args stores).
    destruct (field_at p (f, sp, args, stores) (fun oend => emit oend 37) (q, sp', args, stores))
      as (o & Hg & Ho); [apply printer1_emit|done|done|].
    outcome_is o.
  - (* FORMAT_TYPE_INVALID *)
    destruct (Hnp _ eq_refl ltac:(done) ltac:(done) args stores).
    destruct (field_at p (f, sp, args, stores) (fun oend => emit oend 37) (q, sp', args, stores))
      as (o & Hg & Ho); [apply printer1_emit|done|done|].
    outcome_is o.
  - (* FORMAT_TYPE_NRCHARS *)
    edestruct (word_at p (f, sp, args, stores) args (fun w args _ st =>
      Ok (with_out (q, sp', args, stores ++ [(w, u32 (o_pos st))]) st))) as (o & Hg & Ho).
    { intros w args' Hw. eexists (Ok ((q, sp', args', stores ++ [(w, u32 p)]), [])).
      split; [|by intros oend st Hst <-]. by apply (Hnp _ eq_refl). }
    outcome_is o.
Qed.

Definition vloop := vsn_loop mbase mbytes sprint_symbol kallsyms_lookup deref fmt.

Lemma loop_at fuel x p :
  vinv x -> (vmeasure x < fuel)%nat ->
  exists o, o <> NoFuel /\ prints_at p (fun oend st => vloop fuel oend (with_out x st)) o.
Proof.
  revert x p. induction fuel as [|fuel IH]; intros x p Hv Hm; [lia|].
  unfold vloop; cbn [vsn_loop]; fold vloop. fold vstep.
  assert (Hf : forall st, v_fmt (with_out x st) = x.1.1.1) by (by destruct x as [[[? ?] ?] ?]).
  destruct (rd fmt x.1.1.1) as [c| |k|] eqn:Hc.
  - destruct (Z.eqb_spec c 0) as [->|Hc0].
    + exists (Ok (x, [])). split; [done|]. intros oend st Hst <-. by rewrite Hf, Hc.
    + destruct (step_at p x c Hv Hc Hc0) as (o & Hg & Ho). unfold good_step in Hg.
      destruct o as [[x' t]| |k|].
      * destruct Hg as [Hv' Hm']. destruct (IH x' (p + zlen t) Hv' ltac:(simpl in Hm'; lia))
          as (o' & Hn' & Ho').
        exists ('(y, t') ← o'; Ok (y, t ++ t')). split.
        { apply bind_not_nofuel; [done|]. by intros [? ?]. }
        intros oend st Hst Hp. rewrite Hf, Hc, bind_Ok. destruct (Z.eqb_spec c 0); [done|].
        rewrite (Ho oend st Hst Hp), !bind_Ok.
        rewrite (Ho' oend (put_text oend t st)); [|by apply put_text_ok|by rewrite put_text_pos, Hp].
        destruct o' as [[y t']| | |]; try done. rewrite !bind_Ok. by rewrite put_text_app.
      * exists Fatal. split; [done|]. intros oend st Hst Hp. rewrite Hf, Hc, bind_Ok.
        destruct (Z.eqb_spec c 0); [done|]. by rewrite (Ho oend st Hst Hp).
      * exists (Stray k). split; [done|]. intros oend st Hst Hp. rewrite Hf, Hc, bind_Ok.
        destruct (Z.eqb_spec c 0); [done|]. by rewrite (Ho oend st Hst Hp).
      * done.
  - exists Fatal. split; [done|]. intros oend st Hst Hp. by rewrite Hf, Hc.
  - exists (Stray k). split; [done|]. intros oend st Hst Hp. by rewrite Hf, Hc.
  - by apply rd_not_nofuel in Hc.
Qed.

End whole.

(** The bytes of a buffer of [size] bytes after a text was printed to it. *)
Definition printed (size : Z) (mem t : list Z) : list Z :=
  if size =? 0 then mem
  else let k := Z.to_nat (Z.min (zlen t) (size - 1)) in
       take k (map u8 t) ++ 0 :: drop (S k) mem.

Lemma finish_printed size mem t :
  0 <= size -> zlen mem = size ->
  let st := put_text size t (Ost 0 mem) in
  (if 0 <? size then
     if o_pos st <? size then wr (o_mem st) (o_pos st) 0 else wr (o_mem st) (size - 1) 0
   else Ok (o_mem st)) = Ok (printed size mem t).
Proof.
  intros Hs Hm st. assert (Hst : out_ok size (Ost 0 mem)) by (by split; simpl; [lia|]).
  pose proof (put_text_mem size t _ Hst) as Hmem. pose proof (put_text_pos size t (Ost 0 mem)) as Hpos.
  fold st in Hmem, Hpos. cbn [o_pos o_mem] in Hmem, Hpos. rewrite Z.add_0_l in Hmem, Hpos.
  rewrite Hpos, Hmem. change (Z.to_nat 0) with 0%nat. rewrite take_0, app_nil_l.
  pose proof (zlen_nonneg t) as Ht. unfold printed.
  assert (Hlm : length mem = Z.to_nat size) by (unfold zlen in Hm; lia).
  assert (Hlt : length (map u8 t) = Z.to_nat (zlen t)) by (rewrite length_map; unfold zlen; lia).
  destruct (Z.ltb_spec 0 size) as [Hp|Hp].
  - destruct (Z.eqb_spec size 0); [lia|].
    set (M := take (Z.to_nat size) _).
    assert (HM : length M = Z.to_nat size).
    { unfold M. rewrite length_take, length_app, length_drop. lia. }
    set (k := Z.min (zlen t) (size - 1)).
    assert (Hw : (if zlen t <? size then wr M (zlen t) 0 else wr M (size - 1) 0) = wr M k 0).
    { unfold k. destruct (Z.ltb_spec (zlen t) size); f_equal; lia. }
    rewrite Hw. unfold wr. destruct (Z.leb_spec 0 k); [|lia].
    destruct (Z.ltb_spec k (zlen M)); [|unfold zlen in *; lia]. cbn [andb]. f_equal.
    change (u8 0) with 0. rewrite insert_take_drop by lia. unfold M. f_equal.
    + rewrite take_take, take_app_le by lia. f_equal. lia.
    + f_equal. rewrite skipn_firstn_comm. destruct (decide (zlen t <= size - 1)).
      * replace (S (Z.to_nat k)) with (Z.to_nat (zlen t) + 1)%nat by lia.
        rewrite drop_app, drop_ge by lia. rewrite drop_drop, app_nil_l, Hlt.
        replace (Z.to_nat (zlen t) + (Z.to_nat (zlen t) + 1 - Z.to_nat (zlen t)))%nat
          with (Z.to_nat (zlen t) + 1)%nat by lia.
        apply take_ge. rewrite length_drop. lia.
      * rewrite (drop_ge mem (S (Z.to_nat k))) by lia.
        replace (Z.to_nat size - S (Z.to_nat k))%nat with 0%nat by lia. done.
  - assert (size = 0) as -> by lia. destruct mem; [done|simpl in Hlm; lia].
Qed.

(** C24: what [vsnprintf] prints is determined by the format, the arguments and
    the memory they point to, never by the buffer: there is one outcome, and
    when it is a text, with the list of the stores its [%n] fields make through
    their arguments, then on every buffer the function returns the length of the
    whole text, makes those stores, and leaves in the buffer the longest prefix
    that fits, a NUL after it, and the old bytes behind, so nothing but those
    stores is written outside it. The loop over the format always ends. The
    buffer is below 2^31 bytes and does not wrap around the end of the memory,
    what the arguments point to is at most [MAX_TEXT] bytes, and the names the
    kernel's symbol tables give have less than 256. *)
Theorem vsnprintf_correct mbase mbytes sprint_symbol kallsyms_lookup deref fmt args :
  zlen mbytes <= MAX_TEXT -> Forall is_byte mbytes ->
  (forall p, zlen (sprint_symbol p) < 256) -> (forall p, zlen (kallsyms_lookup p) < 256) ->
  Forall is_byte fmt ->
  exists o : result (list Z * list (Z * Z)), o <> NoFuel /\
    forall buf mem size, 0 <= size < 2 ^ 31 -> buf + size < 2 ^ 32 -> zlen mem = size ->
    vsnprintf mbase mbytes sprint_symbol kallsyms_lookup deref fmt buf mem size args =
    ('(t, stores) ← o; Ok (s32 (zlen t), printed size mem t, stores)).
Proof.
  intros Hmem Hbytes Hsym Hlook Hfmt.
  destruct (loop_at mbase mbytes sprint_symbol kallsyms_lookup deref Hmem Hbytes Hsym Hlook fmt Hfmt
    (vsn_fuel fmt) (0, spec0, args, []) 0) as (o & Hn & Ho).
  { split; simpl; [lia|]. unfold spec_ok. simpl. lia. }
  { unfold vmeasure, vsn_fuel, rounds, zlen. simpl. lia. }
  exists ('(x, t) ← o; Ok (t, x.2)). split; [apply bind_not_nofuel; [done|by intros [? ?]]|].
  intros buf mem size Hs Hb Hm. unfold vsnprintf. rewrite s32_small by lia.
  destruct (Z.ltb_spec size 0); [lia|]. destruct (Z.leb_spec (2 ^ 32) (buf + size)); [lia|].
  assert (Hst : out_ok size (Ost 0 mem)) by (by split; simpl; [lia|]).
  pose proof (Ho size (Ost 0 mem) Hst eq_refl) as Hrun. unfold vloop, with_out in Hrun.
  cbv zeta. rewrite Hrun. destruct o as [[[[[f sp] a] stores] t]| | |]; try done.
  rewrite !bind_Ok. cbn [v_out v_stores]. pose proof (finish_printed size mem t ltac:(lia) Hm) as Hfin.
  cbv zeta in Hfin. rewrite Hfin, bind_Ok. do 3 f_equal.
  rewrite put_text_pos. f_equal.
Qed.

Lemma vsnprintf_correct_witness :
  exists o : result (list Z * list (Z * Z)), o <> NoFuel /\
    forall buf mem size, 0 <= size < 2 ^ 31 -> buf + size < 2 ^ 32 -> zlen mem = size ->
    vsnprintf 8192 [104; 105; 0] (fun _ => []) (fun _ => []) id [37; 115; 37; 100; 0] buf mem size
      [8192; 7] =
    ('(t, stores) ← o; Ok (s32 (zlen t), printed size mem t, stores)).
Proof.
  apply (vsnprintf_correct 8192 [104; 105; 0] (fun _ => []) (fun _ => []) id [37; 115; 37; 100; 0] [8192; 7]).
  - by vm_compute.
  - apply (bool_decide_unpack _). by vm_compute.
  - intros p. by vm_compute.
  - intros p. by vm_compute.
  - apply (bool_decide_unpack _). by vm_compute.
Defined.

(** ** What an integer field prints *)

Lemma hex_loop_digits fuel num shift locase :
  3 <= shift <= 4 -> 0 <= num < (2 ^ shift) ^ Z.of_nat fuel -> (0 < fuel)%nat ->
  hex_loop fuel num (2 ^ shift - 1) shift locase =
  Ok (map (digit_char locase) (digits_rev fuel (2 ^ shift) num)).
Proof.
  intros Hs. assert (Hb : 8 <= 2 ^ shift <= 16).
  { assert (shift = 3 \/ shift = 4) as [-> | ->] by lia; lia. }
  revert num. induction fuel as [|fuel IH]; intros num Hn Hf; [lia|]. cbn [hex_loop].
  rewrite digits_rev_S, Z.shiftr_div_pow2, land_mask by lia. cbn [map].
  assert (Hd : u8 num mod 2 ^ shift = num mod 2 ^ shift).
  { unfold u8. apply Z.mod_mod_divide. exists (2 ^ (8 - shift)). rewrite <- Z.pow_add_r by lia. f_equal. lia. }
  rewrite Hd. rewrite Nat2Z.inj_succ, Z.pow_succ_r in Hn by lia.
  assert (Hq : 0 <= num / 2 ^ shift < (2 ^ shift) ^ Z.of_nat fuel).
  { split; [apply Z.div_pos; lia|apply Z.div_lt_upper_bound; lia]. }
  destruct (Z.eqb_spec (num / 2 ^ shift) 0) as [E|E]; cbn [negb]; [done|].
  destruct fuel as [|fuel]; [simpl in Hq; lia|]. rewrite (IH _ Hq) by lia. done.
Qed.

Lemma dec_text_digits locase n :
  locase = 0 \/ locase = 0x20 -> dec_text n = map (digit_char locase) (digits 10 n).
Proof.
  intros Hlc. unfold dec_text. apply map_ext_in. intros d Hd.
  pose proof (digits_rev_range 64 10 n ltac:(lia)) as Hall. rewrite List.Forall_forall in Hall.
  specialize (Hall d Hd).
  assert (Hc : d = 0 \/ d = 1 \/ d = 2 \/ d = 3 \/ d = 4 \/ d = 5 \/ d = 6 \/ d = 7 \/ d = 8 \/ d = 9) by lia.
  destruct Hlc as [-> | ->]; repeat destruct Hc as [-> | Hc]; subst; done.
Qed.

Lemma number_digits_text base num locase :
  base = 8 \/ base = 10 \/ base = 16 -> locase = 0 \/ locase = 0x20 -> 0 <= num < 2 ^ 64 ->
  number_digits base num locase = Ok (map (digit_char locase) (digits base num)).
Proof.
  intros Hb Hlc Hn. unfold number_digits. destruct (Z.eqb_spec num 0) as [->|Hne].
  { destruct Hlc as [-> | ->]; by destruct Hb as [-> | [-> | ->]]. }
  destruct Hb as [-> | [-> | ->]]; cbn [Z.eqb Pos.eqb negb].
  - apply (hex_loop_digits 64 num 3); [lia| |lia]. split; [lia|].
    eapply Z.lt_trans; [apply Hn|]. vm_compute. reflexivity.
  - unfold put_dec. rewrite put_dec_loop_ok; [|split; [lia|]|lia].
    + by rewrite (dec_text_digits locase).
    + eapply Z.lt_trans; [apply Hn|]. vm_compute. reflexivity.
  - apply (hex_loop_digits 64 num 4); [lia| |lia]. split; [lia|].
    eapply Z.lt_trans; [apply Hn|]. vm_compute. reflexivity.
Qed.

Lemma emits_put oend t st : out_ok oend st -> emits oend t st = Ok (put_text oend t st).
Proof.
  revert st. induction t as [|c t IH]; intros st Hst; [done|]. cbn [emits].
  rewrite emit_put, bind_Ok by done. by apply IH, put1_ok.
Qed.

(** The text of a field of no particular width or precision. *)
Definition int_text (flags base num : Z) : list Z :=
  let locase := Z.land flags SMALL in
  if has flags SIGN && (s64 num <? 0)
  then 45 :: text locase base (u64 (- s64 num))
  else text locase base num.

Lemma pad_none oend c w st : - 32768 < w <= 0 -> pad oend c w st = Ok (w - 1, st).
Proof.
  intros Hw. unfold pad. replace (Z.to_nat (u16 w) + 2)%nat with (S (S (Z.to_nat (u16 w)))) by lia.
  cbn [pad_loop]. rewrite s16_small by lia. by destruct (Z.leb_spec 0 (w - 1)); [lia|].
Qed.

Lemma zeros_none oend fuel i precision st :
  0 <= i <= 32767 -> precision = i -> (0 < fuel)%nat -> zeros_loop oend fuel i precision st = Ok st.
Proof.
  intros Hi -> Hf. destruct fuel; [lia|]. cbn [zeros_loop]. rewrite s16_small by lia.
  by destruct (Z.leb_spec i (i - 1)); [lia|].
Qed.

Lemma small_flag flags : Z.land flags SMALL = 0 \/ Z.land flags SMALL = 0x20.
Proof.
  unfold SMALL. rewrite (land_bit flags 5 ltac:(lia) : Z.land flags 32 = _).
  pose proof (Z.mod_pos_bound (flags / 2 ^ 5) 2). change (2 ^ 5) with 32 in *. lia.
Qed.

Lemma number_plain oend num spec st :
  s_base spec = 8 \/ s_base spec = 10 \/ s_base spec = 16 -> 0 <= num < 2 ^ 64 ->
  s_width spec = -1 -> s_prec spec = -1 ->
  has (s_flags spec) (ZEROPAD + LEFT) = false -> has (s_flags spec) LEFT = false ->
  has (s_flags spec) SPECIAL = false -> has (s_flags spec) PLUS = false ->
  has (s_flags spec) SPACE = false -> out_ok oend st ->
  number oend num spec st = Ok (put_text oend (int_text (s_flags spec) (s_base spec) num) st).
Proof.
  intros Hb Hn Hw Hp Hzl Hl Hsp Hpl Hsc Hst. unfold number. rewrite Hsp, Hl. cbn [andb].
  unfold number_sign. rewrite Hpl, Hsc, Hw, Hp, Hzl. cbn [negb].
  set (lc := Z.land (s_flags spec) SMALL). pose proof (small_flag (s_flags spec)) as Hlc. fold lc in Hlc.
  set (neg := has (s_flags spec) SIGN && (s64 num <? 0)).
  set (mag := if neg then u64 (- s64 num) else num).
  assert (Hmag : 0 <= mag < 2 ^ 64).
  { unfold mag. destruct neg; [|done]. pose proof (u64_range (- s64 num)). lia. }
  set (sgn := (if has (s_flags spec) SIGN then _ else _)).
  assert (Hsgn : sgn = (if neg then (45, mag, s16 (-1 - 1)) else (0, mag, -1))).
  { unfold sgn, neg, mag, neg. destruct (has (s_flags spec) SIGN); [|done].
    by destruct (s64 num <? 0). }
  rewrite Hsgn. set (ds := digits (s_base spec) mag).
  assert (Hds : 1 <= zlen (map (digit_char lc) ds) <= 64).
  { unfold zlen. rewrite length_map. unfold ds, digits.
    pose proof (digits_rev_length 63 (s_base spec) mag). lia. }
  assert (Htext : int_text (s_flags spec) (s_base spec) num =
    (if neg then [45] else []) ++ rev (map (digit_char lc) ds)).
  { unfold int_text. fold neg lc. unfold text. rewrite <- map_rev. unfold ds, mag. by destruct neg. }
  rewrite Htext, put_text_app. set (tmp := map (digit_char lc) ds) in *.
  assert (Hdig : number_digits (s_base spec) mag lc = Ok tmp) by (by apply number_digits_text).
  change (s16 (-1 - 1)) with (-2).
  destruct neg; cbv zeta beta iota; rewrite Hdig, bind_Ok;
    (destruct (Z.ltb_spec (-1) (zlen tmp)); [|lia]); rewrite (s16_small (_ - zlen tmp)) by lia;
    rewrite pad_none, bind_Ok by lia; cbn [Z.eqb negb];
    rewrite ?emit_put by done; rewrite !bind_Ok, Hl; cbn [negb];
    rewrite pad_none, bind_Ok by lia;
    rewrite zeros_none, bind_Ok by lia;
    rewrite emits_put, bind_Ok by (apply put1_ok || idtac; done);
    rewrite pad_none, bind_Ok by lia; done.
Qed.

(** [%d] (and [%u], [%x], [%o] without flags) prints the number, and
    reading it back with the [strto*] family gives the number: for every 32-bit
    signed integer, the text of its decimal field parses to it. *)
Lemma decimal_print_parse oend st n m p :
  - 2 ^ 31 <= n < 2 ^ 31 -> out_ok oend st ->
  let spec := Spec FORMAT_TYPE_INT SIGN 10 255 (-1) (-1) in
  let t := int_text SIGN 10 (u64 n) in
  cstr m p t ->
  number oend (u64 n) spec st = Ok (put_text oend t st) /\
  simple_strtol m p 10 = Ok (n, p + zlen t).
Proof.
  intros Hn Hst spec t Ht.
  assert (Hs64 : s64 (u64 n) = n).
  { unfold s64, swrap, u64. rewrite Zplus_mod_idemp_l, Z.mod_small; lia. }
  split.
  - apply number_plain; try done; [by right; left|]. pose proof (u64_range n). lia.
  - unfold simple_strtol. unfold t, int_text in *. change (has SIGN SIGN) with true in *.
    change (Z.land SIGN SMALL) with 0 in *. rewrite Hs64 in *. cbn [andb] in *.
    destruct (Z.ltb_spec n 0) as [Hneg|Hpos].
    + cbn [cstr] in Ht. destruct Ht as (-> & _ & Ht). rewrite bind_Ok. cbn [Z.eqb Pos.eqb].
      rewrite u64_small in * by lia. unfold simple_strtoul.
      rewrite (strtoull_text m (p + 1) 10 (- n) 0) by (done || lia || by left || by right; left).
      rewrite !bind_Ok, u32_small, s32_small by lia. do 2 f_equal; [lia|]. zlen_simp. lia.
    + rewrite u64_small in * by lia.
      assert (Hc : exists c, rd m p = Ok c /\ c <> 45).
      { unfold text in Ht. destruct (rev (digits 10 n)) as [|d ds] eqn:E;
          [by destruct (digits_not_nil 10 n)|]. cbn [map cstr] in Ht. eexists. split; [apply Ht|].
        assert (Hd : 0 <= d < 10).
        { assert (Hall : Forall (fun d => 0 <= d < 10) (rev (digits 10 n)))
            by (apply Forall_rev, digits_rev_range; lia).
          rewrite E in Hall. by apply Forall_cons in Hall as [? _]. }
        destruct (digit_char_ok 0 d (or_introl eq_refl) ltac:(lia)) as (Hx & _).
        intros E45. rewrite E45 in Hx. by vm_compute in Hx. }
      destruct Hc as (c & -> & Hc). rewrite bind_Ok. destruct (Z.eqb_spec c 45); [done|].
      unfold simple_strtoul.
      rewrite (strtoull_text m p 10 n 0) by (done || lia || by left || by right; left).
      rewrite !bind_Ok, u32_small, s32_small by lia. done.
Qed.

End VsFacts.
