(* ===== verification/Vsscanf.v ===== *)
(** Reading formatted text, [vsscanf] and [sscanf] of [src/src/lib/vsprintf.c].

    [m] is the memory the text is in and [fmt] the bytes of the format with its
    NUL; a pointer into either is an index. The variable arguments are the
    pointers the conversions store through. The objects behind them are not
    part of [m], so the stores are part of the result: in order, the pointer
    and the bytes stored through it. *)
From S2P Require Import Prelude Ctype CString CStringFacts Numbers.

Module Sc.
Import Ctype Str StrFacts Num.

Definition SHRT_MAX : Z := 32767.

(** The variables of the loop: the place in the format and in the text, [num],
    the arguments left and the stores made. *)
Record sst := Sst {
  c_fmt : Z;
  c_str : Z;
  c_num : Z;
  c_args : list Z;
  c_stores : list (Z * list Z)
}.

(** [continue], [break] (to the check for a final [%n]) and [return num]. *)
Inductive flow := Continue (st : sst) | Break (st : sst) | Return (st : sst).

Section vsscanf.
Context (m fmt : list Z) (buf : Z).

Definition va_arg (args : list Z) : result (Z * list Z) :=
  match args with
  | a :: args => Ok (a, args)
  | [] => Stray Rd
  end.

(** [while (!isspace( *fmt ) && *fmt != '%' && *fmt) fmt++;] *)
Fixpoint skip_conv (fuel : nat) (f : Z) : result Z :=
  match fuel with
  | O => NoFuel
  | S fuel =>
      c ← rd fmt f;
      if negb (isspace c) && negb (c =? 37) && negb (c =? 0) then skip_conv fuel (f + 1) else Ok f
  end.

(** [while (!isspace( *str ) && *str) str++;] *)
Fixpoint skip_word (fuel : nat) (s : Z) : result Z :=
  match fuel with
  | O => NoFuel
  | S fuel =>
      c ← rd m s;
      if negb (isspace c) && negb (c =? 0) then skip_word fuel (s + 1) else Ok s
  end.

(** The copy of [%c]: [do { *s++ = *str++; } while (--field_width > 0 && *str)]. *)
Fixpoint copy_chars (fuel : nat) (s field_width : Z) (out : list Z) : result (Z * list Z) :=
  match fuel with
  | O => NoFuel
  | S fuel =>
      b ← rd m s;
      let out := out ++ [b] in
      let s := s + 1 in
      let field_width := s16 (field_width - 1) in
      if 0 <? field_width then
        c ← rd m s;
        if c =? 0 then Ok (s, out) else copy_chars fuel s field_width out
      else Ok (s, out)
  end.

(** The copy of [%s]: [while ( *str && !isspace( *str ) && field_width--)]. *)
Fixpoint copy_word (fuel : nat) (s field_width : Z) (out : list Z) : result (Z * list Z) :=
  match fuel with
  | O => NoFuel
  | S fuel =>
      c ← rd m s;
      if negb (c =? 0) && negb (isspace c) && negb (field_width =? 0)
      then copy_word fuel (s + 1) (s16 (field_width - 1)) (out ++ [c])
      else Ok (s, out)
  end.

(** The conversion qualifier; 255 is [(u8) -1], no qualifier. *)
Definition scan_qualifier (f : Z) : result (Z * Z) :=
  c ← rd fmt f;
  if (c =? 104) || (TOLOWER c =? 108) || (TOLOWER c =? 122) then
    c1 ← rd fmt (f + 1);
    if c =? c1 then
      if c =? 104 then Ok (72, f + 2)
      else if c =? 108 then Ok (76, f + 2)
      else Ok (c, f + 1)
    else Ok (c, f + 1)
  else Ok (255, f).

(** The value an integer conversion stores, its width in bytes and the end of
    the digits. *)
Definition scan_value (qualifier base : Z) (is_sign : bool) (s : Z) : result (Z * nat * Z) :=
  let signed n := '(v, next) ← simple_strtol m s base; Ok (v, n, next) in
  let unsigned n := '(v, next) ← simple_strtoul m s base; Ok (v, n, next) in
  if qualifier =? 72 then if is_sign then signed 1%nat else unsigned 1%nat
  else if qualifier =? 104 then if is_sign then signed 2%nat else unsigned 2%nat
  else if qualifier =? 108 then if is_sign then signed 4%nat else unsigned 4%nat
  else if qualifier =? 76 then
    if is_sign then '(v, next) ← simple_strtoll m s base; Ok (v, 8%nat, next)
    else '(v, next) ← simple_strtoull m s base; Ok (v, 8%nat, next)
  else if (qualifier =? 90) || (qualifier =? 122) then unsigned 4%nat
  else if is_sign then signed 4%nat else unsigned 4%nat.

(** From [have some sort of integer conversion] to the end of the loop body;
    [f] is the place after the conversion character. *)
Definition scan_int (f qualifier base : Z) (is_sign : bool) (st : sst) : result flow :=
  s ← skip_spaces m (c_str st);
  digit ← rd m s;
  digit ← (if is_sign && (digit =? 45) then rd m (s + 1) else Ok digit);
  if (digit =? 0)
     || ((base =? 16) && negb (isxdigit digit))
     || ((base =? 10) && negb (isdigit digit))
     || ((base =? 8) && (negb (isdigit digit) || (55 <? digit)))
     || ((base =? 0) && negb (isdigit digit))
  then Ok (Break (Sst f s (c_num st) (c_args st) (c_stores st)))
  else
    '(p, args) ← va_arg (c_args st);
    '(v, n, next) ← scan_value qualifier base is_sign s;
    Ok (Continue (Sst f next (c_num st + 1) args (c_stores st ++ [(p, le n v)]))).

(** The [switch ( *fmt++ )]. *)
Definition scan_conv (f field_width qualifier : Z) (st : sst) : result flow :=
  c ← rd fmt f;
  let f := f + 1 in
  if c =? 99 then
    '(p, args) ← va_arg (c_args st);
    let field_width := if field_width =? -1 then 1 else field_width in
    '(s, out) ← copy_chars (rounds m) (c_str st) field_width [];
    Ok (Continue (Sst f s (c_num st + 1) args (c_stores st ++ [(p, out)])))
  else if c =? 115 then
    '(p, args) ← va_arg (c_args st);
    let field_width := if field_width =? -1 then SHRT_MAX else field_width in
    s ← skip_spaces m (c_str st);
    '(s, out) ← copy_word (rounds m) s field_width [];
    Ok (Continue (Sst f s (c_num st + 1) args (c_stores st ++ [(p, out ++ [0])])))
  else if c =? 110 then
    '(p, args) ← va_arg (c_args st);
    Ok (Continue (Sst f (c_str st) (c_num st) args (c_stores st ++ [(p, le 4 (c_str st - buf))])))
  else if c =? 111 then scan_int f qualifier 8 false st
  else if (c =? 120) || (c =? 88) then scan_int f qualifier 16 false st
  else if c =? 105 then scan_int f qualifier 0 true st
  else if c =? 100 then scan_int f qualifier 10 true st
  else if c =? 117 then scan_int f qualifier 10 false st
  else if c =? 37 then
    b ← rd m (c_str st);
    let st := Sst f (c_str st + 1) (c_num st) (c_args st) (c_stores st) in
    Ok (if negb (b =? 37) then Return st else Continue st)
  else Ok (Return (Sst f (c_str st) (c_num st) (c_args st) (c_stores st))).

(** The loop body after the white space of the format was skipped. *)
Definition scan_item (st : sst) : result flow :=
  c ← rd fmt (c_fmt st);
  let at_ f s := Sst f s (c_num st) (c_args st) (c_stores st) in
  if negb (c =? 37) && negb (c =? 0) then
    b ← rd m (c_str st);
    let st := at_ (c_fmt st + 1) (c_str st + 1) in
    Ok (if negb (c =? b) then Break st else Continue st)
  else if c =? 0 then Ok (Break st)
  else
    let f := c_fmt st + 1 in
    c ← rd fmt f;
    if c =? 42 then
      f ← skip_conv (rounds fmt) f;
      s ← skip_word (rounds m) (c_str st);
      Ok (Continue (at_ f s))
    else
      '(field_width, f) ← (if isdigit c then '(w, f) ← skip_atoi fmt f; Ok (s16 w, f)
                           else Ok (-1, f));
      '(qualifier, f) ← scan_qualifier f;
      c ← rd fmt f;
      b ← rd m (c_str st);
      if (c =? 0) || (b =? 0) then Ok (Break (at_ f (c_str st)))
      else scan_conv f field_width qualifier (at_ f (c_str st)).

Definition scan_step (st : sst) : result flow :=
  c ← rd fmt (c_fmt st);
  if isspace c then
    f ← skip_spaces fmt (c_fmt st + 1);
    s ← skip_spaces m (c_str st);
    scan_item (Sst f s (c_num st) (c_args st) (c_stores st))
  else scan_item st.

(** What follows the loop. *)
Definition scan_end (st : sst) : result (Z * list (Z * list Z)) :=
  c ← rd fmt (c_fmt st);
  n ← (if c =? 37 then c1 ← rd fmt (c_fmt st + 1); Ok (c1 =? 110) else Ok false);
  if (n : bool) then
    '(p, _) ← va_arg (c_args st);
    Ok (c_num st, c_stores st ++ [(p, le 4 (c_str st - buf))])
  else Ok (c_num st, c_stores st).

Fixpoint scan_loop (fuel : nat) (st : sst) : result (Z * list (Z * list Z)) :=
  match fuel with
  | O => NoFuel
  | S fuel =>
      c ← rd fmt (c_fmt st);
      go ← (if c =? 0 then Ok false else b ← rd m (c_str st); Ok (negb (b =? 0)));
      if (go : bool) then
        r ← scan_step st;
        match r with
        | Continue st => scan_loop fuel st
        | Break st => scan_end st
        | Return st => Ok (c_num st, c_stores st)
        end
      else scan_end st
  end.

(** Every round moves the format on, so a round per byte of it is enough. *)
Definition vsscanf (args : list Z) : result (Z * list (Z * list Z)) :=
  scan_loop (rounds fmt) (Sst 0 buf 0 args []).

End vsscanf.

Definition sscanf (m : list Z) (buf : Z) (fmt : list Z) (args : list Z) :=
  vsscanf m fmt buf args.

End Sc.
