(* ===== verification/VsscanfFacts.v ===== *)
(** [vsscanf] on arbitrary formats and texts: it terminates, stays inside both
    strings and takes its arguments in order. *)
From S2P Require Import Prelude Ctype CString CStringFacts Numbers Vsscanf.

Module ScFacts.
Import Ctype Str StrFacts Num Sc.

Create HintDb scan.

(** ** Moving forward in a string *)

(** [p'] is a place of the string [s] at [p], its NUL included. *)
Definition within (m : list Z) (s : list Z) (p' : Z) : Prop :=
  exists s', s' `suffix_of` s /\ cstr m p' s'.

Lemma within_refl m p s : cstr m p s -> within m s p.
Proof. by exists s. Qed.

Lemma within_trans m s s' p'' :
  s' `suffix_of` s -> within m s' p'' -> within m s p''.
Proof. intros Hs (s'' & Hs'' & Hc). exists s''. split; [by transitivity s'|done]. Qed.

(** The first character of a string, and the rest of it when it is not the NUL. *)
Lemma cstr_head m p s :
  cstr m p s -> exists c, rd m p = Ok c /\
    (c <> 0 -> exists s', s = c :: s' /\ cstr m (p + 1) s').
Proof.
  destruct s as [|c s]; cbn [cstr].
  - intros H. by exists 0.
  - intros (H & Hc & Hs). exists c. split; [done|]. intros _. by exists s.
Qed.

Lemma suffix_tail {A} (x : A) s : s `suffix_of` x :: s.
Proof. by exists [x]. Qed.
#[local] Hint Resolve suffix_tail within_refl : scan.

(** A loop [while (p( *s )) s++] over a string whose NUL does not satisfy [p]. *)
Fixpoint skip_while (p : Z -> bool) (fuel : nat) (m : list Z) (s : Z) : result Z :=
  match fuel with
  | O => NoFuel
  | S fuel => c ← rd m s; if p c then skip_while p fuel m (s + 1) else Ok s
  end.

Lemma skip_while_within p m : p 0 = false -> forall fuel q s,
  cstr m q s -> (length s < fuel)%nat ->
  exists q', skip_while p fuel m q = Ok q' /\ within m s q'.
Proof.
  intros Hp. induction fuel as [|fuel IH]; intros q s Hs Hf; [lia|].
  destruct (cstr_head _ _ _ Hs) as (c & Hc & Hne). cbn [skip_while]. rewrite Hc, bind_Ok.
  destruct (p c) eqn:Epc; [|eauto with scan].
  destruct (Hne ltac:(congruence)) as (s' & -> & Hs').
  destruct (IH (q + 1) s') as (q' & Hq & Hw); [done|simpl in Hf; lia|].
  exists q'. split; [done|]. eapply within_trans; [apply suffix_tail|done].
Qed.

Ltac skip_loop :=
  intros fuel; induction fuel as [|fuel IH]; intros s; [done|]; cbn;
  match goal with |- context [rd ?m s] => destruct (rd m s); try done end; cbn;
  match goal with |- context [if ?b then _ else _] => destruct b; done || apply IH end.

Lemma skip_spaces_loop_eq m : forall fuel s, skip_spaces_loop fuel m s = skip_while isspace fuel m s.
Proof. skip_loop. Qed.
Lemma skip_word_eq m : forall fuel s,
  skip_word m fuel s = skip_while (fun c => negb (isspace c) && negb (c =? 0)) fuel m s.
Proof. skip_loop. Qed.
Lemma skip_conv_eq f : forall fuel s,
  skip_conv f fuel s =
  skip_while (fun c => negb (isspace c) && negb (c =? 37) && negb (c =? 0)) fuel f s.
Proof. skip_loop. Qed.

Lemma rounds_enough m p s : cstr m p s -> (length s < rounds m)%nat.
Proof. intros H%cstr_fuel. unfold rounds. lia. Qed.
#[local] Hint Resolve rounds_enough : scan.

Lemma skip_spaces_within m p s :
  cstr m p s -> exists p', skip_spaces m p = Ok p' /\ within m s p'.
Proof.
  intros Hs. unfold skip_spaces. rewrite skip_spaces_loop_eq.
  apply skip_while_within; eauto with scan.
Qed.

(** ** Numbers *)

Lemma strtoull_loop_within m base : forall fuel p s r,
  cstr m p s -> (length s < fuel)%nat ->
  exists v p', strtoull_loop fuel m p base r = Ok (v, p') /\ within m s p'.
Proof.
  induction fuel as [|fuel IH]; intros p s r Hs Hf; [lia|].
  destruct (cstr_head _ _ _ Hs) as (c & Hc & Hne). cbn [strtoull_loop]. rewrite Hc, bind_Ok.
  destruct (isxdigit c) eqn:Ex; [|eauto with scan].
  destruct (_ <=? _); [eauto with scan|].
  destruct Hne as (s' & -> & Hs'); [by intros ->|].
  destruct (IH (p + 1) s' (u64 (r * base + digit_value c))) as (v & p' & Hq & Hw);
    [done|simpl in Hf; lia|].
  exists v, p'. split; [done|]. eapply within_trans; [apply suffix_tail|done].
Qed.

Lemma guess_base_ok m p s : cstr m p s -> exists b, simple_guess_base m p = Ok b.
Proof.
  intros Hs. destruct (cstr_head _ _ _ Hs) as (c & Hc & Hne). unfold simple_guess_base.
  rewrite Hc, bind_Ok. destruct (Z.eqb_spec c 48) as [->|]; [|eauto].
  destruct Hne as (s' & -> & Hs'); [done|].
  destruct (cstr_head _ _ _ Hs') as (c1 & Hc1 & Hne1). rewrite Hc1, bind_Ok.
  destruct (Z.eqb_spec (TOLOWER c1) 120) as [E|]; [|eauto].
  destruct Hne1 as (s'' & -> & Hs''); [by intros ->|].
  replace (p + 1 + 1) with (p + 2) in Hs'' by lia.
  destruct (cstr_head _ _ _ Hs'') as (c2 & Hc2 & _). rewrite Hc2. eauto.
Qed.

Lemma strtoull_within m p s base :
  cstr m p s -> exists v p', simple_strtoull m p base = Ok (v, p') /\ within m s p'.
Proof.
  intros Hs. unfold simple_strtoull.
  assert (Hb : exists b, (if base =? 0 then simple_guess_base m p else Ok base) = Ok b).
  { destruct (base =? 0); [|eauto]. by eapply guess_base_ok. }
  destruct Hb as (b & -> ). rewrite bind_Ok.
  assert (Hx : exists p0, (if b =? 16 then
       c0 ← rd m p;
       if c0 =? 48 then c1 ← rd m (p + 1); Ok (if TOLOWER c1 =? 120 then p + 2 else p) else Ok p
     else Ok p) = Ok p0 /\ within m s p0).
  { destruct (b =? 16); [|eauto with scan].
    destruct (cstr_head _ _ _ Hs) as (c & -> & Hne). rewrite bind_Ok.
    destruct (Z.eqb_spec c 48) as [->|]; [|eauto with scan].
    destruct Hne as (s' & -> & Hs'); [done|].
    destruct (cstr_head _ _ _ Hs') as (c1 & -> & Hne1). rewrite bind_Ok.
    destruct (Z.eqb_spec (TOLOWER c1) 120) as [E|]; [|eauto with scan].
    destruct Hne1 as (s'' & -> & Hs''); [by intros ->|].
    eexists. split; [done|]. exists s''. split; [by exists [48; c1]|].
    by replace (p + 2) with (p + 1 + 1) by lia. }
  destruct Hx as (p0 & -> & s0 & Hsuf & Hs0). rewrite bind_Ok.
  destruct (strtoull_loop_within m b (rounds m) p0 s0 0) as (v & p' & -> & Hw);
    [done|eauto with scan|].
  exists v, p'. split; [done|]. by eapply within_trans.
Qed.

Lemma strtoul_within m p s base :
  cstr m p s -> exists v p', simple_strtoul m p base = Ok (v, p') /\ within m s p'.
Proof.
  intros Hs. destruct (strtoull_within m p s base Hs) as (v & p' & E & Hw).
  unfold simple_strtoul. rewrite E. cbn. eauto.
Qed.

(** The two signed conversions: a minus sign, then the unsigned one. *)
Lemma signed_within (conv : list Z -> Z -> Z -> result (Z * Z)) (wrap : Z -> Z) m p s base :
  (forall p s, cstr m p s -> exists v p', conv m p base = Ok (v, p') /\ within m s p') ->
  cstr m p s -> exists v p',
    (c ← rd m p;
     if c =? 45 then '(v, endp) ← conv m (p + 1) base; Ok (wrap (- v), endp)
     else '(v, endp) ← conv m p base; Ok (wrap v, endp)) = Ok (v, p') /\ within m s p'.
Proof.
  intros Hconv Hs. destruct (cstr_head _ _ _ Hs) as (c & -> & Hne). rewrite bind_Ok.
  destruct (Z.eqb_spec c 45) as [->|].
  - destruct Hne as (s' & -> & Hs'); [done|].
    destruct (Hconv _ _ Hs') as (v & p' & -> & Hw). eexists _, p'. split; [done|].
    eapply within_trans; [apply suffix_tail|done].
  - destruct (Hconv _ _ Hs) as (v & p' & -> & Hw). by eexists _, p'.
Qed.

Lemma scan_value_within m q base sg p s :
  cstr m p s -> exists v n p', scan_value m q base sg p = Ok (v, n, p') /\ within m s p'.
Proof.
  intros Hs.
  destruct (strtoul_within m p s base Hs) as (v1 & p1 & E1 & H1).
  destruct (strtoull_within m p s base Hs) as (v2 & p2 & E2 & H2).
  destruct (signed_within simple_strtoul s32 m p s base) as (v3 & p3 & E3 & H3);
    [intros; by apply strtoul_within|done|].
  destruct (signed_within simple_strtoull s64 m p s base) as (v4 & p4 & E4 & H4);
    [intros; by apply strtoull_within|done|].
  change (simple_strtol m p base = Ok (v3, p3)) in E3.
  change (simple_strtoll m p base = Ok (v4, p4)) in E4.
  unfold scan_value. rewrite E1, E2, E3, E4. cbn.
  repeat (destruct (_ =? _)); destruct sg; cbn; eauto.
Qed.

(** ** The loop *)

(** The conversions a format can still ask an argument for. *)
Definition pct (f : list Z) : nat := length (filter (fun c => c = 37) f).

Lemma pct_suffix f' f : f' `suffix_of` f -> (pct f' <= pct f)%nat.
Proof. intros [k ->]. unfold pct. rewrite filter_app, length_app. lia. Qed.

Lemma pct_percent f : pct (37 :: f) = S (pct f).
Proof. unfold pct. by rewrite filter_cons_True. Qed.

Section total.
Context (m fmt : list Z) (buf : Z) (args0 : list Z).

Definition fmt_inv (n : nat) (st : sst) : Prop :=
  exists f, cstr fmt (c_fmt st) f /\ (length f <= n)%nat /\ (pct f <= length (c_args st))%nat.
Definition str_inv (st : sst) : Prop := exists s, cstr m (c_str st) s.
Definition arg_inv (st : sst) : Prop :=
  args0 = map fst (c_stores st) ++ c_args st /\ 0 <= c_num st <= zlen (c_stores st).

Definition flow_inv (n : nat) (r : flow) : Prop :=
  match r with
  | Continue st => fmt_inv n st /\ arg_inv st /\ str_inv st
  | Break st => fmt_inv n st /\ arg_inv st
  | Return st => arg_inv st
  end.

(** A conversion that stores takes the next argument. *)
Lemma arg_inv_store st p args f s bs d :
  arg_inv st -> c_args st = p :: args -> 0 <= d <= 1 ->
  arg_inv (Sst f s (c_num st + d) args (c_stores st ++ [(p, bs)])).
Proof.
  intros (Ha & Hn) E Hd. split; cbn.
  - rewrite map_app, <- app_assoc. cbn. by rewrite <- E.
  - rewrite zlen_app. change (zlen [(p, bs)]) with 1. lia.
Qed.

(** The state in the middle of a conversion: the argument for it is there. *)
Definition conv_inv (n : nat) (f : Z) (st : sst) : Prop :=
  (exists f', cstr fmt f f' /\ (length f' <= n)%nat /\ (pct f' < length (c_args st))%nat) /\
  arg_inv st /\ str_inv st.

(** What a conversion that stored [bs] and stopped at [s] leaves. *)
Lemma conv_done n f st s bs d p args :
  conv_inv n f st -> c_args st = p :: args -> 0 <= d <= 1 -> (exists s', cstr m s s') ->
  flow_inv n (Continue (Sst f s (c_num st + d) args (c_stores st ++ [(p, bs)]))).
Proof.
  intros ((f' & Hf & Hn & Hp) & Ha & _) E Hd Hs. split; [|split; [by apply arg_inv_store|done]].
  exists f'. rewrite E in Hp. cbn in *. repeat split; [done|lia|lia].
Qed.

Lemma scan_int_inv n f q base sg st :
  conv_inv n f st -> exists r, scan_int m f q base sg st = Ok r /\ flow_inv n r.
Proof.
  intros Hc. pose proof Hc as ((f' & Hf & Hn & Hp) & Ha & (s & Hs)). unfold scan_int.
  destruct (skip_spaces_within _ _ _ Hs) as (s1 & -> & s1' & _ & Hs1). rewrite bind_Ok.
  destruct (cstr_head _ _ _ Hs1) as (c & -> & Hne). rewrite bind_Ok.
  assert (Hd : exists d, (if sg && (c =? 45) then rd m (s1 + 1) else Ok c) = Ok d).
  { destruct sg; [|eauto]. destruct (Z.eqb_spec c 45) as [->|]; cbn; [|eauto].
    destruct (Hne ltac:(done)) as (s2 & -> & Hs2). destruct (cstr_head _ _ _ Hs2) as (c2 & -> & _). eauto. }
  destruct Hd as (d & ->). rewrite bind_Ok. destruct (_ || _).
  { eexists. split; [done|]. split; [|done]. exists f'. cbn. repeat split; [done|lia|lia]. }
  destruct (c_args st) as [|p args] eqn:E; [cbn in Hp; lia|]. cbn [va_arg]. rewrite bind_Ok.
  destruct (scan_value_within m q base sg _ _ Hs1) as (v & k & s2 & -> & s2' & _ & Hs2).
  rewrite bind_Ok. eexists. split; [done|]. apply conv_done; [done|done|lia|eauto].
Qed.

Lemma copy_chars_within : forall fuel s s' w out,
  cstr m s (s') -> s' <> [] -> (length s' <= fuel)%nat ->
  exists p out', copy_chars m fuel s w out = Ok (p, out') /\ exists r, cstr m p r.
Proof.
  induction fuel as [|fuel IH]; intros s s' w out Hs Hne Hf; [destruct s'; cbn in Hf; [done|lia]|].
  destruct s' as [|c s']; [done|]. destruct Hs as (Hc & _ & Hs). cbn [copy_chars].
  rewrite Hc, bind_Ok. destruct (0 <? _); [|eauto 6].
  destruct (cstr_head _ _ _ Hs) as (c1 & Hc1 & Hne1). rewrite Hc1, bind_Ok.
  destruct (Z.eqb_spec c1 0) as [|H0]; [eauto 6|].
  destruct (Hne1 H0) as (s2 & -> & _). eapply IH; [done|done|cbn in *; lia].
Qed.

Lemma copy_word_within : forall fuel s s' w out,
  cstr m s s' -> (length s' < fuel)%nat ->
  exists p out', copy_word m fuel s w out = Ok (p, out') /\ exists r, cstr m p r.
Proof.
  induction fuel as [|fuel IH]; intros s s' w out Hs Hf; [lia|]. cbn [copy_word].
  destruct (cstr_head _ _ _ Hs) as (c & Hc & Hne). rewrite Hc, bind_Ok.
  destruct (Z.eqb_spec c 0) as [|H0]; cbn [negb andb]; [eauto 6|].
  destruct (Hne H0) as (s2 & -> & Hs2). destruct (_ && _); [|eauto 6].
  eapply IH; [done|cbn in *; lia].
Qed.

(** The [switch] on the conversion character [c] at [f]. *)
Lemma scan_conv_inv n f w q st c b :
  rd fmt f = Ok c -> c <> 0 -> rd m (c_str st) = Ok b -> b <> 0 ->
  conv_inv (S n) f st -> exists r, scan_conv m fmt buf f w q st = Ok r /\ flow_inv n r.
Proof.
  intros Hc Hc0 Hb Hb0 ((f' & Hf & Hn & Hp) & Ha & (s & Hs)).
  destruct (cstr_head _ _ _ Hf) as (c' & Hc' & Hne). assert (c' = c) as -> by congruence.
  destruct (Hne Hc0) as (f1 & -> & Hf1).
  assert (Hci : conv_inv n (f + 1) st).
  { split; [|split; [done|by exists s]]. exists f1. cbn in Hn.
    pose proof (pct_suffix f1 (c :: f1) (suffix_tail _ _)). repeat split; [done|lia|lia]. }
  unfold scan_conv. rewrite Hc, bind_Ok.
  destruct (c_args st) as [|p args] eqn:E; [cbn in Hp; lia|]. cbn [va_arg].
  repeat match goal with
  | |- context [if ?x then scan_int _ _ _ _ _ _ else _] => destruct x; [by apply scan_int_inv|]
  | |- context [if c =? 99 then _ else _] => destruct (c =? 99)
  | |- context [if c =? 115 then _ else _] => destruct (c =? 115)
  | |- context [if c =? 110 then _ else _] => destruct (c =? 110)
  end.
  - rewrite bind_Ok. destruct (cstr_head _ _ _ Hs) as (b' & Hb' & Hneb).
    assert (b' = b) as -> by congruence. destruct (Hneb Hb0) as (s1 & -> & _).
    destruct (copy_chars_within (rounds m) (c_str st) (b :: s1)
      (if w =? -1 then 1 else w) []) as (e & out & -> & He);
      [done|done|apply cstr_fuel in Hs; unfold rounds; lia|].
    eexists. split; [done|]. apply conv_done; [done|done|lia|done].
  - rewrite bind_Ok. destruct (skip_spaces_within _ _ _ Hs) as (s1 & -> & s1' & _ & Hs1).
    rewrite bind_Ok. destruct (copy_word_within (rounds m) s1 s1'
      (if w =? -1 then SHRT_MAX else w) []) as (e & out & -> & He); [done|by eapply rounds_enough|].
    eexists. split; [done|]. apply conv_done; [done|done|lia|done].
  - rewrite bind_Ok. eexists. split; [done|].
    replace (c_num st) with (c_num st + 0) by lia. apply conv_done; [done|done|lia|by exists s].
  - destruct Hci as ((f2 & Hf2 & Hn2 & Hp2) & _). rewrite E in Hp2.
    destruct (c =? 37); [|eexists; split; [done|]; unfold flow_inv, arg_inv; cbn; by rewrite <- E].
    destruct (cstr_head _ _ _ Hs) as (b' & Hb' & Hneb). assert (b' = b) as -> by congruence.
    destruct (Hneb Hb0) as (s1 & -> & Hs1). rewrite Hb, bind_Ok. eexists. split; [done|].
    destruct (negb _); [unfold flow_inv, arg_inv; cbn; by rewrite <- E|].
    repeat split; cbn; [|by rewrite <- E; apply Ha|apply Ha|apply Ha|by exists s1].
    exists f2. split; [done|]. split; [done|]. by apply Nat.lt_le_incl.
Qed.

Lemma fmt_step n f f' c (args : list Z) :
  cstr fmt f (c :: f') -> (length (c :: f') <= S n)%nat -> (pct (c :: f') <= length args)%nat ->
  cstr fmt (f + 1) f' /\ (length f' <= n)%nat /\ (pct f' <= length args)%nat /\
  (c = 37 -> (pct f' < length args)%nat).
Proof.
  intros (_ & _ & Hf) Hn Hp. cbn in Hn. pose proof (pct_suffix f' (c :: f') (suffix_tail _ _)).
  repeat split; [done|lia|lia|]. intros ->. rewrite pct_percent in Hp. lia.
Qed.

Lemma scan_qualifier_within f f' :
  cstr fmt f f' -> exists q p, scan_qualifier fmt f = Ok (q, p) /\ within fmt f' p.
Proof.
  intros Hf. destruct (cstr_head _ _ _ Hf) as (c & Hc & Hne). unfold scan_qualifier.
  rewrite Hc, bind_Ok. destruct (_ || _) eqn:Eq; [|eauto with scan].
  destruct Hne as (f1 & -> & Hf1); [by intros ->|].
  destruct (cstr_head _ _ _ Hf1) as (c1 & -> & Hne1). rewrite bind_Ok.
  assert (H1 : within fmt (c :: f1) (f + 1)) by (by exists f1; split; [apply suffix_tail|]).
  destruct (Z.eqb_spec c c1) as [<-|]; [|eauto].
  assert (Hc0 : c <> 0) by (by intros ->). destruct (Hne1 Hc0) as (f2 & -> & Hf2).
  assert (H2 : within fmt (c :: c :: f2) (f + 2)).
  { exists f2. split; [by exists [c; c]|]. by replace (f + 2) with (f + 1 + 1) by lia. }
  repeat (destruct (_ =? _)); eauto.
Qed.

Lemma skip_atoi_within f : forall fuel p i,
  cstr fmt p f -> (length f < fuel)%nat ->
  exists v p', skip_atoi_loop fuel fmt p i = Ok (v, p') /\ within fmt f p'.
Proof.
  intros fuel. revert f. induction fuel as [|fuel IH]; intros f p i Hf Hl; [lia|].
  destruct (cstr_head _ _ _ Hf) as (c & Hc & Hne). cbn [skip_atoi_loop]. rewrite Hc, bind_Ok.
  destruct (isdigit c) eqn:Ed; [|eauto with scan].
  destruct Hne as (f1 & -> & Hf1); [by intros ->|].
  edestruct (IH f1 (p + 1)) as (v & p' & -> & Hw); [done|cbn in Hl; lia|].
  exists v, p'. split; [done|]. eapply within_trans; [apply suffix_tail|done].
Qed.

(** A conversion, from the character after its ['%']. *)
Lemma scan_item_inv n st :
  fmt_inv (S n) st -> arg_inv st -> str_inv st ->
  exists r, scan_item m fmt buf st = Ok r /\ flow_inv n r.
Proof.
  intros (f & Hf & Hn & Hp) Ha (s & Hs). unfold scan_item.
  destruct (cstr_head _ _ _ Hf) as (c & Hc & Hne). rewrite Hc, bind_Ok.
  destruct (cstr_head _ _ _ Hs) as (b & Hb & Hneb).
  destruct (Z.eqb_spec c 0) as [->|Hc0].
  { cbn. eexists. split; [done|]. split; [|done].
    exists []. repeat split; [done|cbn; lia|cbn; lia]. }
  destruct (Hne Hc0) as (f1 & -> & _).
  destruct (fmt_step n _ _ _ _ Hf Hn Hp) as (Hf1 & Hn1 & Hp1 & Hpc).
  destruct (Z.eqb_spec c 37) as [->|Hc37]; cbn [negb andb].
  2:{ rewrite Hb, bind_Ok. eexists. split; [done|].
      assert (fmt_inv n (Sst (c_fmt st + 1) (c_str st + 1) (c_num st) (c_args st) (c_stores st)))
        by (by exists f1).
      destruct (Z.eqb_spec c b) as [->|]; cbn [negb]; [|by split].
      destruct (Hneb Hc0) as (s1 & -> & Hs1). split; [done|]. split; [done|]. by exists s1. }
  specialize (Hpc eq_refl).
  destruct (cstr_head _ _ _ Hf1) as (c1 & -> & Hne1). rewrite bind_Ok.
  destruct (Z.eqb_spec c1 42) as [->|].
  { rewrite skip_conv_eq.
    edestruct skip_while_within as (f2 & -> & f2' & Hsf & Hf2); [|done|by eapply rounds_enough|]; [done|].
    rewrite bind_Ok, skip_word_eq.
    edestruct skip_while_within as (s2 & -> & s2' & _ & Hs2);
      [|exact Hs|by eapply rounds_enough|]; [done|].
    rewrite bind_Ok. eexists. split; [done|]. split; [|split; [done|by exists s2']].
    exists f2'. cbn. pose proof (pct_suffix _ _ Hsf). apply suffix_length in Hsf.
    repeat split; [done|lia|lia]. }
  assert (Hw : exists w f2, (if isdigit c1 then '(w, f) ← skip_atoi fmt (c_fmt st + 1); Ok (s16 w, f)
                             else Ok (-1, c_fmt st + 1)) = Ok (w, f2) /\ within fmt f1 f2).
  { destruct (isdigit c1); [|eauto with scan]. unfold skip_atoi.
    edestruct (skip_atoi_within f1 (rounds fmt)) as (v & p' & -> & H'); [done|by eapply rounds_enough|].
    rewrite bind_Ok. eauto. }
  destruct Hw as (w & f2 & -> & f2' & Hsf2 & Hf2). rewrite bind_Ok.
  destruct (scan_qualifier_within _ _ Hf2) as (q & f3 & -> & f3' & Hsf3 & Hf3). rewrite bind_Ok.
  destruct (cstr_head _ _ _ Hf3) as (c3 & Hc3 & Hne3). rewrite Hc3, bind_Ok, Hb, bind_Ok.
  assert (Hsf : f3' `suffix_of` f1) by (by transitivity f2').
  pose proof (pct_suffix _ _ Hsf). apply suffix_length in Hsf.
  assert (Hci : conv_inv n f3 (Sst f3 (c_str st) (c_num st) (c_args st) (c_stores st))).
  { split; [|split; [done|by exists s]]. exists f3'. cbn. repeat split; [done|lia|lia]. }
  destruct (Z.eqb_spec c3 0), (Z.eqb_spec b 0); cbn [orb].
  4:{ eapply scan_conv_inv; [done|done|done|done|].
      destruct Hci as ((f4 & ? & ? & ?) & ?). split; [|done]. exists f4. repeat split; [done|lia|done]. }
  all: eexists; split; [done|]; split; [|done]; exists f3'; cbn; repeat split; [done|lia|lia].
Qed.

Lemma scan_step_inv n st :
  fmt_inv (S n) st -> arg_inv st -> str_inv st ->
  exists r, scan_step m fmt buf st = Ok r /\ flow_inv n r.
Proof.
  intros Hfi Ha Hsi. pose proof Hfi as (f & Hf & Hn & Hp). pose proof Hsi as (s & Hs).
  unfold scan_step. destruct (cstr_head _ _ _ Hf) as (c & -> & Hne). rewrite bind_Ok.
  destruct (isspace c) eqn:Es; [|by apply scan_item_inv].
  destruct Hne as (f1 & -> & _); [by intros ->|].
  destruct (fmt_step n _ _ _ _ Hf Hn Hp) as (Hf1 & Hn1 & Hp1 & _).
  destruct (skip_spaces_within _ _ _ Hf1) as (f2 & -> & f2' & Hsf & Hf2). rewrite bind_Ok.
  destruct (skip_spaces_within _ _ _ Hs) as (s2 & -> & s2' & _ & Hs2). rewrite bind_Ok.
  apply scan_item_inv; [|done|by exists s2'].
  exists f2'. cbn. pose proof (pct_suffix _ _ Hsf). apply suffix_length in Hsf.
  repeat split; [done|lia|lia].
Qed.

Definition scanned (r : Z * list (Z * list Z)) : Prop :=
  0 <= r.1 <= zlen r.2 /\ map fst r.2 `prefix_of` args0.

Lemma arg_inv_scanned st : arg_inv st -> scanned (c_num st, c_stores st).
Proof. intros (Ha & Hn). split; [done|]. by exists (c_args st). Qed.

Lemma scan_end_inv n st :
  fmt_inv n st -> arg_inv st -> exists r, scan_end fmt buf st = Ok r /\ scanned r.
Proof.
  intros (f & Hf & Hn & Hp) Ha. unfold scan_end. destruct (cstr_head _ _ _ Hf) as (c & -> & Hne).
  rewrite bind_Ok. destruct (Z.eqb_spec c 37) as [->|].
  2:{ rewrite bind_Ok. eexists. split; [done|]. by apply arg_inv_scanned. }
  destruct (Hne ltac:(done)) as (f1 & -> & Hf1). destruct (cstr_head _ _ _ Hf1) as (c1 & -> & _).
  rewrite !bind_Ok. destruct (c1 =? 110).
  2:{ eexists. split; [done|]. by apply arg_inv_scanned. }
  rewrite pct_percent in Hp. destruct (c_args st) as [|p args] eqn:E; [cbn in Hp; lia|].
  cbn [va_arg]. rewrite bind_Ok. eexists. split; [done|].
  pose proof (arg_inv_store st p args 0 0 (le 4 (c_str st - buf)) 0 Ha E ltac:(lia)) as H'.
  rewrite Z.add_0_r in H'. exact (arg_inv_scanned _ H').
Qed.

Lemma scan_loop_inv : forall fuel st,
  fmt_inv fuel st -> arg_inv st -> str_inv st ->
  exists r, scan_loop m fmt buf (S fuel) st = Ok r /\ scanned r.
Proof.
  induction fuel as [|fuel IH]; intros st Hfi Ha Hsi;
    pose proof Hfi as (f & Hf & Hn & Hp); pose proof Hsi as (s & Hs).
  - destruct f as [|? ?]; [|cbn in Hn; lia]. cbn in Hf. cbn [scan_loop]. rewrite Hf, !bind_Ok.
    cbn [Z.eqb]. rewrite bind_Ok. by eapply scan_end_inv.
  - cbn [scan_loop]. destruct (cstr_head _ _ _ Hf) as (c & -> & Hne).
    destruct (cstr_head _ _ _ Hs) as (b & -> & _). rewrite !bind_Ok.
    destruct (c =? 0); rewrite bind_Ok; [by eapply scan_end_inv|].
    destruct (b =? 0); cbn [negb]; [by eapply scan_end_inv|].
    destruct (scan_step_inv fuel st Hfi Ha Hsi) as (r & -> & Hr). rewrite bind_Ok.
    destruct r as [st'|st'|st']; cbn [flow_inv] in Hr.
    + destruct Hr as (H1 & H2 & H3). by apply IH.
    + destruct Hr as (H1 & H2). by eapply scan_end_inv.
    + eexists. split; [done|]. by apply arg_inv_scanned.
Qed.

End total.

(** C26: on any format and any text (both NUL-terminated), with an argument for
    every conversion of the format, [vsscanf] returns: its loop ends, neither
    string is read past its NUL, the stores go through the arguments in order,
    and at most as many conversions are reported as were stored. *)
Theorem vsscanf_total m buf s fmt f args :
  cstr m buf s -> cstr fmt 0 f -> (pct f <= length args)%nat ->
  exists num stores, vsscanf m fmt buf args = Ok (num, stores) /\
    0 <= num <= zlen stores /\ map fst stores `prefix_of` args.
Proof.
  intros Hs Hf Hp. unfold vsscanf, rounds.
  destruct (scan_loop_inv m fmt buf args (length fmt) (Sst 0 buf 0 args [])) as ((num & stores) & -> & Hr).
  - exists f. apply cstr_fuel in Hf as Hl. cbn. repeat split; [done|lia|done].
  - split; [done|]. by cbn.
  - by exists s.
  - by exists num, stores.
Qed.

Lemma vsscanf_total_witness :
  exists num stores, vsscanf [49; 50; 45; 102; 32; 0] [37; 100; 45; 37; 120; 32; 37; 110; 0] 0 [1; 2; 3]
    = Ok (num, stores) /\ 0 <= num <= zlen stores /\ map fst stores `prefix_of` [1; 2; 3].
Proof.
  apply (vsscanf_total _ _ [49; 50; 45; 102; 32] _ [37; 100; 45; 37; 120; 32; 37; 110]);
    [by vm_compute|by vm_compute|by vm_compute; lia].
Defined.

(** ** The conversions on known text *)

Lemma cstr_drop m p a b : cstr m p (a ++ b) -> cstr m (p + zlen a) b.
Proof.
  revert p. induction a as [|x a IH]; intros p; cbn [app cstr].
  - change (zlen (@nil Z)) with 0. by rewrite Z.add_0_r.
  - intros (_ & _ & H%IH). rewrite zlen_cons. by rewrite Z.add_assoc.
Qed.

Lemma cstr_peek m p c s : cstr m p (c :: s) -> rd m p = Ok c /\ c <> 0.
Proof. cbn [cstr]. by intros (-> & Hc & _). Qed.

(** Text of one kind, then text that does not start with that kind. *)
Lemma skip_while_spec p m : p 0 = false -> forall w fuel q r,
  cstr m q (w ++ r) -> Forall (fun c => p c = true) w ->
  match r with [] => True | c :: _ => p c = false end -> (length w < fuel)%nat ->
  skip_while p fuel m q = Ok (q + zlen w).
Proof.
  intros H0. induction w as [|c w IH]; intros fuel q r Hs Hw Hr Hf;
    (destruct fuel as [|fuel]; [simpl in Hf; lia|]); cbn [skip_while app] in *.
  - assert (Hc : exists c, rd m q = Ok c /\ p c = false).
    { destruct r as [|c r]; cbn [cstr] in Hs; [by exists 0|]. exists c. split; [apply Hs|done]. }
    destruct Hc as (c & -> & Hc). rewrite bind_Ok, Hc. f_equal. zlen_simp. lia.
  - apply Forall_cons in Hw as [Hc Hw]. destruct Hs as (-> & _ & Hs). rewrite bind_Ok, Hc.
    rewrite (IH fuel (q + 1) r) by (done || simpl in Hf; lia). f_equal. zlen_simp. lia.
Qed.

Lemma rounds_app m p a b : cstr m p (a ++ b) -> (length a < rounds m)%nat.
Proof. intros H%rounds_enough. rewrite length_app in H. lia. Qed.

Definition spaces_only (w : list Z) : Prop := Forall (fun c => isspace c = true) w.
Definition word (w : list Z) : Prop := Forall (fun c => isspace c = false) w.
(** Text that does not go on with a space, and text that does not with a word. *)
Definition no_space (r : list Z) : Prop := match r with [] => True | c :: _ => isspace c = false end.
Definition no_word (r : list Z) : Prop := match r with [] => True | c :: _ => isspace c = true end.

Lemma skip_spaces_spec m p w r :
  cstr m p (w ++ r) -> spaces_only w -> no_space r -> skip_spaces m p = Ok (p + zlen w).
Proof.
  intros Hs Hw Hr. unfold skip_spaces. rewrite skip_spaces_loop_eq.
  by eapply skip_while_spec; [|done|done|done|eapply rounds_app].
Qed.

Lemma skip_word_spec m p w r :
  cstr m p (w ++ r) -> word w -> no_word r -> skip_word m (rounds m) p = Ok (p + zlen w).
Proof.
  intros Hs Hw Hr. rewrite skip_word_eq.
  assert (Hz : Forall (fun c => c <> 0) w).
  { clear -Hs. revert p Hs. induction w as [|c w IH]; intros p Hs; [done|]. cbn [app cstr] in Hs.
    constructor; [apply Hs|eapply IH, Hs]. }
  eapply (skip_while_spec (fun c => negb (isspace c) && negb (c =? 0)) _ ltac:(done) w _ _ r); [done| | |by eapply rounds_app].
  - unfold word in Hw. rewrite List.Forall_forall in Hw, Hz |- *. intros c Hc. rewrite (Hw c Hc).
    by specialize (Hz c Hc) as ->%Z.eqb_neq.
  - destruct r as [|c r]; [done|]. cbn in *. by rewrite Hr.
Qed.

Lemma digit_no_space d : 0 <= d < 16 -> isspace (digit_char 0x20 d) = false.
Proof.
  intros Hd. destruct (digit_char_ok 0x20 d (or_intror eq_refl) Hd) as (Hx & _).
  assert (Hb : is_byte (digit_char 0x20 d)).
  { unfold is_byte, isxdigit, has_mask, __ismask in *. clear Hx. unfold digit_char.
    split; [apply Z.lor_nonneg; split; [|lia]|].
    - destruct (nth_in_or_default (Z.to_nat d)
        [48; 49; 50; 51; 52; 53; 54; 55; 56; 57; 65; 66; 67; 68; 69; 70] 0) as [H| ->]; [|lia].
      repeat (destruct H as [<-|H]; [lia|]). destruct H.
    - destruct (nth_in_or_default (Z.to_nat d)
        [48; 49; 50; 51; 52; 53; 54; 55; 56; 57; 65; 66; 67; 68; 69; 70] 0) as [H| ->]; [|by vm_compute].
      repeat (destruct H as [<-|H]; [by vm_compute|]). destruct H. }
  revert Hx. revert Hb. generalize (digit_char 0x20 d).
  refine (char_ind (fun c => isxdigit c = true -> isspace c = false) _ _). by vm_compute.
Qed.

Section steps.
Context (m fmt : list Z) (buf : Z).

Lemma step_item st c :
  rd fmt (c_fmt st) = Ok c -> isspace c = false -> scan_step m fmt buf st = scan_item m fmt buf st.
Proof. intros Hc Hs. unfold scan_step. by rewrite Hc, bind_Ok, Hs. Qed.

Lemma step_space st c f' w r :
  rd fmt (c_fmt st) = Ok c -> isspace c = true -> skip_spaces fmt (c_fmt st + 1) = Ok f' ->
  cstr m (c_str st) (w ++ r) -> spaces_only w -> no_space r ->
  scan_step m fmt buf st =
  scan_item m fmt buf (Sst f' (c_str st + zlen w) (c_num st) (c_args st) (c_stores st)).
Proof.
  intros Hc Hs Hf Hw Hsp Hr. unfold scan_step. rewrite Hc, bind_Ok, Hs, Hf, bind_Ok.
  by erewrite skip_spaces_spec, bind_Ok.
Qed.

Lemma loop_step fuel st c s st' :
  rd fmt (c_fmt st) = Ok c -> c <> 0 -> cstr m (c_str st) s -> s <> [] ->
  scan_step m fmt buf st = Ok (Continue st') ->
  scan_loop m fmt buf (S fuel) st = scan_loop m fmt buf fuel st'.
Proof.
  intros Hc H0 Hs Hne Hst. cbn [scan_loop]. rewrite Hc, bind_Ok.
  destruct s as [|b s]; [done|]. apply cstr_peek in Hs as (Hb & Hb0).
  apply Z.eqb_neq in H0 as ->, Hb0 as Hb0. by rewrite Hb, !bind_Ok, Hb0, Hst.
Qed.

Lemma item_literal f s num args stores c t :
  rd fmt f = Ok c -> c <> 37 -> cstr m s (c :: t) ->
  scan_item m fmt buf (Sst f s num args stores) = Ok (Continue (Sst (f + 1) (s + 1) num args stores)).
Proof.
  intros Hc H37 Hs. apply cstr_peek in Hs as (Hb & H0). unfold scan_item. cbn.
  rewrite Hc, bind_Ok, Hb, bind_Ok, Z.eqb_refl.
  by apply Z.eqb_neq in H0 as ->, H37 as ->.
Qed.

(** An integer conversion of a field of hexadecimal digits. *)
Lemma item_hex f f1 q n s num p args stores ds r c :
  rd fmt f = Ok 37 -> rd fmt (f + 1) = Ok c -> (c =? 42) = false -> isdigit c = false ->
  scan_qualifier fmt (f + 1) = Ok (q, f1) -> rd fmt f1 = Ok 120 ->
  (q = 108 /\ n = 4%nat \/ q = 76 /\ n = 8%nat) ->
  ds <> [] -> Forall (fun d => 0 <= d < 16) ds ->
  cstr m s (map (digit_char 0x20) ds ++ r) -> stops r ->
  scan_item m fmt buf (Sst f s num (p :: args) stores) =
  Ok (Continue (Sst (f1 + 1) (s + zlen ds) (num + 1) args
                    (stores ++ [(p, le n (u64 (horner 16 ds 0)))]))).
Proof.
  intros Hf Hc Hstar Hdig Hq Hx Hn Hne Hds Hs Hr. unfold scan_item. cbn [c_fmt c_str c_num c_args c_stores].
  rewrite Hf, bind_Ok. cbn [Z.eqb negb andb Pos.eqb]. rewrite Hc, bind_Ok, Hstar, Hdig, bind_Ok, Hq, bind_Ok.
  rewrite Hx, bind_Ok. destruct ds as [|d ds]; [done|]. pose proof Hs as Hs'. cbn [map app] in Hs'.
  apply cstr_peek in Hs' as (Hb & Hb0). rewrite Hb, bind_Ok. apply Z.eqb_neq in Hb0 as Hb0'.
  rewrite Hb0'. cbn [orb Z.eqb]. unfold scan_conv. rewrite Hx, bind_Ok. cbn [Z.eqb Pos.eqb orb].
  unfold scan_int. cbn [c_str c_num c_args c_stores].
  pose proof Hds as [Hd _]%Forall_cons.
  rewrite (skip_spaces_spec m s [] (map (digit_char 0x20) (d :: ds) ++ r)); [|done|by constructor|by apply digit_no_space].
  rewrite bind_Ok. change (zlen (@nil Z)) with 0. rewrite Z.add_0_r, Hb, bind_Ok. cbn [andb].
  rewrite bind_Ok, Hb0'.
  destruct (digit_char_ok 0x20 d (or_intror eq_refl) Hd) as (-> & _). cbn [orb andb negb Z.eqb Pos.eqb va_arg].
  rewrite bind_Ok. unfold scan_value.
  assert (Hv : simple_strtoull m s 16 = Ok (u64 (horner 16 (d :: ds) 0), s + zlen (d :: ds))).
  { eapply strtoull_digits; eauto. }
  destruct Hn as [(-> & ->) | (-> & ->)]; cbn [Z.eqb Pos.eqb]; unfold simple_strtoul; rewrite Hv, !bind_Ok.
  - change (u32 ?z) with (z mod 2 ^ (8 * Z.of_nat 4)). by rewrite le_mod.
  - done.
Qed.

(** A conversion that only skips a word. *)
Lemma item_skip f f' s num args stores w r :
  rd fmt f = Ok 37 -> rd fmt (f + 1) = Ok 42 -> skip_conv fmt (rounds fmt) (f + 1) = Ok f' ->
  cstr m s (w ++ r) -> word w -> no_word r ->
  scan_item m fmt buf (Sst f s num args stores) = Ok (Continue (Sst f' (s + zlen w) num args stores)).
Proof.
  intros Hf Hc Hsk Hs Hw Hr. unfold scan_item. cbn [c_fmt c_str c_num c_args c_stores].
  rewrite Hf, bind_Ok. cbn [Z.eqb negb andb Pos.eqb]. rewrite Hc, bind_Ok. cbn [Z.eqb Pos.eqb].
  rewrite Hsk, bind_Ok. by erewrite skip_word_spec, bind_Ok.
Qed.

Lemma copy_word_spec : forall w fuel s r out,
  cstr m s (w ++ r) -> word w -> zlen w <= SHRT_MAX -> (length w < fuel)%nat ->
  copy_word m fuel s (zlen w) out = Ok (s + zlen w, out ++ w).
Proof.
  induction w as [|c w IH]; intros fuel s r out Hs Hw Hk Hf;
    (destruct fuel as [|fuel]; [simpl in Hf; lia|]); cbn [copy_word app] in *.
  - destruct (cstr_head _ _ _ Hs) as (c & -> & _). rewrite bind_Ok.
    change (zlen (@nil Z)) with 0. cbn [Z.eqb negb]. rewrite andb_false_r, app_nil_r, Z.add_0_r. done.
  - destruct Hs as (-> & Hc0 & Hs). apply Forall_cons in Hw as [Hc Hw]. rewrite bind_Ok, Hc.
    rewrite zlen_cons in *. pose proof (zlen_nonneg w). unfold SHRT_MAX in *.
    destruct (Z.eqb_spec c 0), (Z.eqb_spec (1 + zlen w) 0); try lia. cbn [negb andb].
    replace (1 + zlen w - 1) with (zlen w) by lia. rewrite s16_small by lia.
    rewrite (IH fuel (s + 1) r) by (done || simpl in Hf; lia). rewrite <- app_assoc.
    do 2 f_equal. lia.
Qed.

(** A word of the width its field allows. *)
Lemma item_word f s num p args stores w r k f1 c :
  rd fmt f = Ok 37 -> rd fmt (f + 1) = Ok c -> (c =? 42) = false -> isdigit c = true ->
  skip_atoi fmt (f + 1) = Ok (k, f1) -> scan_qualifier fmt f1 = Ok (255, f1) ->
  rd fmt f1 = Ok 115 -> 0 < k <= SHRT_MAX -> zlen w = k ->
  cstr m s (w ++ r) -> word w ->
  scan_item m fmt buf (Sst f s num (p :: args) stores) =
  Ok (Continue (Sst (f1 + 1) (s + zlen w) (num + 1) args (stores ++ [(p, w ++ [0])]))).
Proof.
  intros Hf Hc Hstar Hdig Hk Hq Hx Hr Hl Hs Hw. unfold scan_item. cbn [c_fmt c_str c_num c_args c_stores].
  rewrite Hf, bind_Ok. cbn [Z.eqb negb andb Pos.eqb].
  rewrite Hc, bind_Ok, Hstar, Hdig, Hk, !bind_Ok, Hq, bind_Ok, Hx, bind_Ok.
  destruct w as [|b w]; [change (zlen (@nil Z)) with 0 in Hl; lia|]. pose proof Hs as Hs'.
  apply cstr_peek in Hs' as (Hb & Hb0). rewrite Hb, bind_Ok. apply Z.eqb_neq in Hb0 as ->.
  cbn [orb Z.eqb]. unfold scan_conv. rewrite Hx, bind_Ok.
  cbn [Z.eqb Pos.eqb va_arg c_args c_str c_num c_stores]. rewrite bind_Ok.
  unfold SHRT_MAX in *. rewrite s16_small by lia. destruct (Z.eqb_spec k (-1)); [lia|].
  rewrite (skip_spaces_spec m s [] ((b :: w) ++ r)); [|done|by constructor|by apply Forall_cons in Hw as [Hw _]].
  change (zlen (@nil Z)) with 0. rewrite Z.add_0_r, bind_Ok, <- Hl.
  by rewrite (copy_word_spec (b :: w) (rounds m) s r) by (done || (unfold SHRT_MAX; lia) || by eapply rounds_app).
Qed.

(** [%n] before the end of the text. *)
Lemma item_count f s num p args stores b :
  rd fmt f = Ok 37 -> rd fmt (f + 1) = Ok 110 -> rd m s = Ok b -> b <> 0 ->
  scan_item m fmt buf (Sst f s num (p :: args) stores) =
  Ok (Continue (Sst (f + 1 + 1) s num args (stores ++ [(p, le 4 (s - buf))]))).
Proof.
  intros Hf Hn Hb Hb0. unfold scan_item. cbn [c_fmt c_str c_num c_args c_stores].
  rewrite Hf, bind_Ok. cbn [Z.eqb negb andb Pos.eqb]. rewrite Hn, bind_Ok. cbn [Z.eqb Pos.eqb].
  change (isdigit 110) with false. cbn iota. rewrite bind_Ok. unfold scan_qualifier.
  rewrite Hn, bind_Ok. change (TOLOWER 110) with 110. cbn [Z.eqb Pos.eqb orb].
  rewrite bind_Ok, Hn, bind_Ok, Hb, bind_Ok. apply Z.eqb_neq in Hb0 as ->.
  cbn [orb Z.eqb]. unfold scan_conv. by rewrite Hn, bind_Ok.
Qed.

(** The end of the format. *)
Lemma loop_end fuel st :
  rd fmt (c_fmt st) = Ok 0 -> scan_loop m fmt buf (S fuel) st = Ok (c_num st, c_stores st).
Proof. intros Hc. cbn [scan_loop]. unfold scan_end. by rewrite Hc, !bind_Ok. Qed.

End steps.

End ScFacts.
