(* ===== verification/Proc.v ===== *)
(** The maps of the process, [src/src/core/loader/proc.c]: reading
    [/proc/self/maps] and parsing it line by line.

    [m] is the memory the text was read into (the pages are cleared before, so
    a NUL follows the text); pointers are indices into it, and the strings the
    functions are given are in it too. *)
From S2P Require Import Prelude Kernel Ctype CString Vsprintf Vsscanf.

Module Proc.
Import Ctype Str Vs Sc.

Definition PROT_READ : Z := 1.
Definition PROT_WRITE : Z := 2.
Definition PROT_EXEC : Z := 4.
Definition MAX_PROC_MAPS_FILE_SIZE : Z := 1024 * 1024.

(** [struct proc_maps_entry_t]. The fields [major_dev], [minor_dev] and [inode]
    are never assigned and never read. *)
Record proc_maps_entry_t := Entry {
  valid : bool;
  start : Z;
  end_ : Z;
  prot : Z;
  offset : Z;
  fn : option Z;
  fn_len : Z
}.

Definition invalid_entry : proc_maps_entry_t := Entry false 0 0 0 0 None 0.

Record proc_mem_handler_t := Handler { map_data : Z; map_end : Z; curr_ptr : Z }.

Definition init_map_handler (data size : Z) : result proc_mem_handler_t :=
  _ ← assert (0 <? size);
  Ok (Handler data (data + size) data).

Definition reset_map_handler (h : proc_mem_handler_t) : proc_mem_handler_t :=
  Handler (map_data h) (map_end h) (map_data h).

Definition next_ptr (ptr end_ : Z) : result Z :=
  _ ← assert (ptr <? end_); Ok (ptr + 1).

(** The conversions of a line of the file. *)
Definition maps_format : list Z := literal "%lx-%lx %4s %llx %*2x:%*2x %*d %n".

(** What a call of [sscanf] left in the object the argument [p] points to; an
    object it did not store to was not initialised. *)
Definition loaded (stores : list (Z * list Z)) (p : Z) : result (list Z) :=
  match list_find (fun s => s.1 = p) (rev stores) with
  | Some (_, (_, bs)) => Ok bs
  | None => Stray Rd
  end.

Section proc.
Context (m : list Z).

Fixpoint skip_eol_loop (fuel : nat) (ptr end_ : Z) : result Z :=
  match fuel with
  | O => NoFuel
  | S fuel =>
      c ← rd m ptr;
      if (c =? 9) || (c =? 32) || (c =? 10) then
        ptr ← next_ptr ptr end_; skip_eol_loop fuel ptr end_
      else Ok ptr
  end.
Definition skip_spaces_and_eol (ptr end_ : Z) : result Z := skip_eol_loop (rounds m) ptr end_.

Fixpoint get_eol_loop (fuel : nat) (ptr end_ : Z) : result Z :=
  match fuel with
  | O => NoFuel
  | S fuel =>
      c ← rd m ptr;
      if negb (c =? 10) && negb (c =? 0) then
        ptr ← next_ptr ptr end_; get_eol_loop fuel ptr end_
      else Ok ptr
  end.
Definition get_eol (ptr end_ : Z) : result Z := get_eol_loop (rounds m) ptr end_.

(** The blanks before the file name. *)
Fixpoint skip_blanks (fuel : nat) (p : Z) : result Z :=
  match fuel with
  | O => NoFuel
  | S fuel => c ← rd m p; if (c =? 32) || (c =? 9) then skip_blanks fuel (p + 1) else Ok p
  end.

(** The check of the file name: a backslash is fatal. *)
Fixpoint check_name (n : nat) (p : Z) : result unit :=
  match n with
  | O => Ok ()
  | S n => c ← rd m p; if c =? 92 then Fatal else check_name n (p + 1)
  end.

(** The arguments of [sscanf] are the addresses of [entry.start], [entry.end],
    [str_prot], [entry.offset] and [l], here 1 to 5. *)
Definition parse_line (ptr len : Z) : result proc_maps_entry_t :=
  '(err, stores) ← sscanf m ptr maps_format [1; 2; 3; 4; 5];
  _ ← assert (err =? 4);
  start ← loaded stores 1;
  end_ ← loaded stores 2;
  str_prot ← loaded stores 3;
  offset ← loaded stores 4;
  p0 ← rd str_prot 0;
  p1 ← rd str_prot 1;
  p2 ← rd str_prot 2;
  let prot := if p0 =? 114 then PROT_READ else 0 in
  let prot := if p1 =? 119 then Z.lor prot PROT_WRITE else prot in
  let prot := if p2 =? 120 then Z.lor prot PROT_EXEC else prot in
  l ← loaded stores 5;
  fn_ptr ← skip_blanks (rounds m) (ptr + s32 (of_le l));
  c ← rd m fn_ptr;
  let fn_ptr := if negb (c =? 47) && negb (c =? 91) then fn_ptr - 1 else fn_ptr in
  c ← rd m fn_ptr;
  if c =? 10 then
    Ok (Entry true (of_le start) (of_le end_) prot (of_le offset) None 0)
  else
    _ ← assert (fn_ptr <? ptr + len);
    let fn_len := ptr + len - fn_ptr in
    _ ← check_name (Z.to_nat fn_len) fn_ptr;
    Ok (Entry true (of_le start) (of_le end_) prot (of_le offset) (Some fn_ptr) fn_len).

Definition read_maps_line (h : proc_mem_handler_t) :
    result (proc_maps_entry_t * proc_mem_handler_t) :=
  _ ← assert (map_data h <? map_end h);
  if map_end h <=? curr_ptr h then Ok (invalid_entry, h)
  else
    ptr ← skip_spaces_and_eol (curr_ptr h) (map_end h);
    eol ← get_eol ptr (map_end h);
    entry ← parse_line ptr (eol - ptr);
    Ok (entry, Handler (map_data h) (map_end h) (eol + 1)).

(** The [while (entry.valid)] loop shared by the two searches: [found] is its
    test. *)
Fixpoint find_loop (found : proc_maps_entry_t -> result bool) (fuel : nat)
    (entry : proc_maps_entry_t) (h : proc_mem_handler_t) :
    result (proc_maps_entry_t * proc_mem_handler_t) :=
  if valid entry then
    match fuel with
    | O => NoFuel
    | S fuel =>
        b ← found entry;
        if (b : bool) then Ok (entry, h)
        else '(entry, h) ← read_maps_line h; find_loop found fuel entry h
    end
  else Ok (invalid_entry, h).

(** Every line takes at least a byte of the text. *)
Definition find_fuel (h : proc_mem_handler_t) : nat := S (Z.to_nat (map_end h - map_data h)).

Definition find_in_map_by_fn (h : proc_mem_handler_t) (name : Z) (reset : bool) :
    result (proc_maps_entry_t * proc_mem_handler_t) :=
  name_len ← strlen m name;
  let h := if reset then reset_map_handler h else h in
  '(entry, h) ← read_maps_line h;
  find_loop (fun entry =>
    match fn entry with
    | Some p =>
        _ ← assert (negb (fn_len entry =? 0));
        if fn_len entry =? name_len then
          c ← memcmp m p name name_len; Ok (c =? 0)
        else Ok false
    | None => Ok false
    end) (find_fuel h) entry h.

Definition find_in_map_by_addr (h : proc_mem_handler_t) (addr : Z) :
    result (proc_maps_entry_t * proc_mem_handler_t) :=
  let h := reset_map_handler h in
  '(entry, h) ← read_maps_line h;
  find_loop (fun entry => Ok ((start entry <=? addr) && (addr <? end_ entry)))
    (find_fuel h) entry h.

End proc.

(** ** Reading the file *)

Section files.
Context {K : Type} `{Kernel K}.

(** The memory after the read, and the handler. *)
Definition read_self_procmap (k : K) (m : list Z) (ptr : Z) :
    result (K * list Z * proc_mem_handler_t) :=
  let '(fd, k) := sys_open k (codes "/proc/self/maps") O_RDONLY 0 in
  _ ← assert (0 <=? fd);
  let '(err, data, k) := sys_read k fd MAX_PROC_MAPS_FILE_SIZE in
  m ← mem_write m ptr data;
  _ ← assert (0 <? err);
  _ ← assert (err <? MAX_PROC_MAPS_FILE_SIZE);
  let '(_, k) := sys_close k fd in
  h ← init_map_handler ptr err;
  Ok (k, m, h).

End files.

End Proc.
