(* ===== verification/ProcFacts.v ===== *)
(** Parsing the maps of the process: the text the kernel documents for
    [/proc/self/maps] gives exactly its entries. *)
From S2P Require Import Prelude Kernel Ctype CString CStringFacts Numbers Vsscanf VsscanfFacts Proc.

Module ProcFacts.
Import Ctype Str StrFacts Num Sc ScFacts Proc.

(** ** The text of the file *)

(** A mapping as the kernel prints it, see proc(5): [address perms offset dev
    inode], then the name behind some padding; a mapping without a name has
    nothing behind the space that follows the inode. *)
Record vma := Vma {
  v_start : Z;
  v_end : Z;
  v_perms : list Z;
  v_offset : Z;
  v_dev : list Z;
  v_inode : list Z;
  v_pad : nat;
  v_name : option (list Z)
}.

(** [%08lx]: the digits of [n], with leading zeros up to eight. *)
Definition hex_digits (n : Z) : list Z :=
  let ds := rev (digits 16 n) in replicate (8 - length ds) 0 ++ ds.
Definition hex8 (n : Z) : list Z := map (digit_char 0x20) (hex_digits n).

Definition name_text (v : vma) : list Z :=
  match v_name v with
  | Some name => replicate (v_pad v) 32 ++ name
  | None => []
  end.

Definition maps_line (v : vma) : list Z :=
  hex8 (v_start v) ++ [45] ++ hex8 (v_end v) ++ [32] ++ v_perms v ++ [32] ++
  hex8 (v_offset v) ++ [32] ++ v_dev v ++ [32] ++ v_inode v ++ [32] ++ name_text v.

Definition maps_text (vs : list vma) : list Z := concat (map (fun v => maps_line v ++ [10]) vs).

(** A path or a pseudo-path, with no new line (the kernel escapes it) and no
    backslash (the parser gives up on one). *)
Definition name_ok (name : list Z) : Prop :=
  (exists s, name = 47 :: s \/ name = 91 :: s) /\ Forall (fun c => c <> 10 /\ c <> 92) name.

Record vma_ok (v : vma) : Prop := {
  ok_start : 0 <= v_start v < 2 ^ 32;
  ok_end : 0 <= v_end v < 2 ^ 32;
  ok_offset : 0 <= v_offset v < 2 ^ 64;
  ok_perms : word (v_perms v) /\ zlen (v_perms v) = 4;
  ok_dev : word (v_dev v) /\ 0 < zlen (v_dev v);
  ok_inode : word (v_inode v) /\ 0 < zlen (v_inode v);
  ok_name : match v_name v with Some name => name_ok name | None => True end
}.

(** The protection bits of the permission characters. *)
Definition prot_of (perms : list Z) : Z :=
  Z.lor (Z.lor (if nth 0 perms 0 =? 114 then PROT_READ else 0)
               (if nth 1 perms 0 =? 119 then PROT_WRITE else 0))
        (if nth 2 perms 0 =? 120 then PROT_EXEC else 0).

(** [e] is the entry of [v]; its name is a slice of the text, up to the end of
    the line. *)
Definition entry_of (m : list Z) (v : vma) (e : proc_maps_entry_t) : Prop :=
  valid e = true /\ start e = v_start v /\ end_ e = v_end v /\
  prot e = prot_of (v_perms v) /\ offset e = v_offset v /\
  match v_name v with
  | Some name => exists p, fn e = Some p /\ fn_len e = zlen name /\
                   forall i c, (name ++ [10]) !! i = Some c -> rd m (p + Z.of_nat i) = Ok c
  | None => fn e = None /\ fn_len e = 0
  end.

(** ** Fields *)

Lemma hex_digits_range n : Forall (fun d => 0 <= d < 16) (hex_digits n).
Proof.
  apply Forall_app. split; [apply Forall_replicate; lia|]. apply Forall_rev, digits_rev_range. lia.
Qed.

Lemma hex_digits_nil n : hex_digits n <> [].
Proof. unfold hex_digits. intros [_ H]%app_nil. by apply digits_not_nil in H. Qed.

Lemma horner_zeros b k ds : horner b (replicate k 0 ++ ds) 0 = horner b ds 0.
Proof. induction k as [|k IH]; [done|]. unfold horner in *. cbn. done. Qed.

Lemma hex_digits_value n : 0 <= n < 2 ^ 64 -> u64 (horner 16 (hex_digits n) 0) = n.
Proof.
  intros Hn. unfold hex_digits, digits. rewrite horner_zeros.
  rewrite horner_digits by (lia || apply text_bound; lia). by apply u64_small.
Qed.

Lemma hex8_head n : exists c s, hex8 n = c :: s /\ isxdigit c = true /\ isspace c = false.
Proof.
  unfold hex8. pose proof (hex_digits_nil n). pose proof (hex_digits_range n) as Hr.
  destruct (hex_digits n) as [|d ds]; [done|]. apply Forall_cons in Hr as [Hd _].
  eexists _, _. split; [done|]. split; [|by apply digit_no_space].
  by apply digit_char_ok; [right|].
Qed.

(** ** The conversions of a line *)

Section line.
Context (m : list Z) (ptr : Z).

(** The stores of [sscanf] on a line whose inode is followed by the white space
    [sp] and then by [t]. *)
Definition line_stores (v : vma) (n : Z) : list (Z * list Z) :=
  [(1, le 4 (v_start v)); (2, le 4 (v_end v)); (3, v_perms v ++ [0]); (4, le 8 (v_offset v));
   (5, le 4 n)].

Definition line_head (v : vma) : list Z :=
  hex8 (v_start v) ++ [45] ++ hex8 (v_end v) ++ [32] ++ v_perms v ++ [32] ++
  hex8 (v_offset v) ++ [32] ++ v_dev v ++ [32] ++ v_inode v.

Lemma stops_minus r : stops (45 :: r).
Proof. by vm_compute. Qed.
Lemma stops_space r : stops (32 :: r).
Proof. by vm_compute. Qed.
#[local] Hint Resolve stops_minus stops_space hex_digits_nil hex_digits_range : scan.

Lemma item_hex8 f f1 q n s num p args stores v r c :
  rd maps_format f = Ok 37 -> rd maps_format (f + 1) = Ok c -> (c =? 42) = false -> isdigit c = false ->
  scan_qualifier maps_format (f + 1) = Ok (q, f1) -> rd maps_format f1 = Ok 120 ->
  (q = 108 /\ n = 4%nat \/ q = 76 /\ n = 8%nat) -> 0 <= v < 2 ^ 64 ->
  cstr m s (hex8 v ++ r) -> stops r ->
  scan_item m maps_format ptr (Sst f s num (p :: args) stores) =
  Ok (Continue (Sst (f1 + 1) (s + zlen (hex8 v)) (num + 1) args (stores ++ [(p, le n v)]))).
Proof.
  intros Hf Hc Hst Hd Hq Hx Hn Hv Hs Hr. unfold hex8 in *.
  erewrite item_hex by eauto using hex_digits_nil, hex_digits_range.
  rewrite hex_digits_value by done. unfold zlen. by rewrite length_map.
Qed.

Lemma hex8_app_nil v r : hex8 v ++ r <> [].
Proof. by destruct (hex8_head v) as (c & s & -> & _). Qed.

Lemma hex8_no_space v r : no_space (hex8 v ++ r).
Proof. by destruct (hex8_head v) as (c & s & -> & _ & H). Qed.

Lemma word_no_space w r : word w -> 0 < zlen w -> no_space (w ++ r).
Proof.
  intros Hw Hl. destruct w; [change (zlen (@nil Z)) with 0 in Hl; lia|].
  by apply Forall_cons in Hw as [Hw _].
Qed.

Lemma one_space : spaces_only [32].
Proof. by repeat constructor. Qed.

(** One round of the loop: the item at the place in the format, or behind a
    space of the format and the spaces of the text. *)
Ltac item_round Hs := erewrite loop_step; [|reflexivity|done|exact Hs|by (done || apply hex8_app_nil)
  |erewrite step_item by reflexivity].
Ltac space_round Hs Hsp Hr := erewrite loop_step; [|reflexivity|done|exact Hs|done
  |erewrite step_space; [|reflexivity|reflexivity|reflexivity|exact Hs|exact Hsp|exact Hr];
   cbn [c_fmt c_str c_num c_args c_stores]].

(** The conversions up to the inode, whatever white space [r] follows it. *)
Definition field_stores (v : vma) : list (Z * list Z) :=
  [(1, le 4 (v_start v)); (2, le 4 (v_end v)); (3, v_perms v ++ [0]); (4, le 8 (v_offset v))].

Lemma scan_fields v r :
  vma_ok v -> cstr m ptr (line_head v ++ r) -> no_word r ->
  scan_loop m maps_format ptr 35 (Sst 0 ptr 0 [1; 2; 3; 4; 5] []) =
  scan_loop m maps_format ptr 27 (Sst 30 (ptr + zlen (line_head v)) 4 [5] (field_stores v)).
Proof.
  intros [Hst Hen Hof (Hpw & Hpl) (Hdev & Hd0) (Hino & Hi0) _] Hs Hr.
  unfold line_head in Hs. rewrite <- !app_assoc in Hs.
  pose proof (cstr_drop _ _ _ _ Hs) as Hs1. pose proof (cstr_drop _ _ _ _ Hs1) as Hs2.
  pose proof (cstr_drop _ _ _ _ Hs2) as Hs3. pose proof (cstr_drop _ _ _ _ Hs3) as Hs4.
  pose proof (cstr_drop _ _ _ _ Hs4) as Hs5. pose proof (cstr_drop _ _ _ _ Hs5) as Hs6.
  pose proof (cstr_drop _ _ _ _ Hs6) as Hs7. pose proof (cstr_drop _ _ _ _ Hs7) as Hs8.
  pose proof (cstr_drop _ _ _ _ Hs8) as Hs9. pose proof (cstr_drop _ _ _ _ Hs9) as Hs10.
  item_round Hs.
  2:{ eapply item_hex8; [..|exact Hs|apply stops_minus]; (reflexivity || (by left) || lia). }
  item_round Hs1; [|eapply item_literal; [reflexivity|done|exact Hs1]].
  item_round Hs2.
  2:{ eapply item_hex8; [..|exact Hs2|apply stops_space]; (reflexivity || (by left) || lia). }
  space_round Hs3 one_space (word_no_space (v_perms v)
    ([32] ++ hex8 (v_offset v) ++ [32] ++ v_dev v ++ [32] ++ v_inode v ++ r) Hpw ltac:(lia)).
  2:{ eapply item_word; [..|exact Hs4|exact Hpw]; (reflexivity || done || by (unfold SHRT_MAX; lia)). }
  space_round Hs5 one_space (hex8_no_space (v_offset v) ([32] ++ v_dev v ++ [32] ++ v_inode v ++ r)).
  2:{ eapply item_hex8; [..|exact Hs6|apply stops_space]; (reflexivity || (by right) || lia). }
  space_round Hs7 one_space (word_no_space (v_dev v) ([32] ++ v_inode v ++ r) Hdev Hd0).
  2:{ eapply item_skip; [reflexivity..|exact Hs8|exact Hdev|done]. }
  item_round Hs9; [|eapply (item_skip _ _ _ _ _ _ _ _ _ []); [reflexivity..|exact Hs9|by constructor|done]].
  change (zlen (@nil Z)) with 0. rewrite Z.add_0_r.
  space_round Hs9 one_space (word_no_space (v_inode v) r Hino Hi0).
  2:{ eapply item_skip; [reflexivity..|exact Hs10|exact Hino|done]. }
  cbn [app]. unfold field_stores. f_equal. f_equal.
  unfold line_head. rewrite !zlen_app. change (zlen [45]) with 1. lia.
Qed.

Lemma sscanf_line v sp t b :
  vma_ok v -> cstr m ptr (line_head v ++ sp ++ b :: t) -> sp <> [] -> spaces_only sp ->
  isspace b = false ->
  let q := ptr + zlen (line_head v) + zlen sp in
  sscanf m ptr maps_format [1; 2; 3; 4; 5] = Ok (4, line_stores v (q - ptr)).
Proof.
  intros Hok Hs Hsp0 Hsp Hb q. unfold sscanf, vsscanf. change (rounds maps_format) with 35%nat.
  rewrite (scan_fields v (sp ++ b :: t)); [|done|done|].
  2:{ destruct sp; [done|]. by apply Forall_cons in Hsp as [Hsp _]. }
  pose proof (cstr_drop _ _ _ _ Hs) as Hs1. pose proof (cstr_drop _ _ _ _ Hs1) as Hs2.
  assert (Hsn : sp ++ b :: t <> []) by (by destruct sp).
  erewrite loop_step; [|reflexivity|done|exact Hs1|exact Hsn|].
  2:{ erewrite step_space; [|reflexivity|reflexivity|reflexivity|exact Hs1|exact Hsp|exact Hb].
      apply cstr_peek in Hs2 as (Hb1 & Hb2). by eapply item_count. }
  by rewrite loop_end by reflexivity.
Qed.

(** When the text ends with the white space, the loop ends in the middle of the
    final [%n], which is then not recognised any more. *)
Lemma sscanf_cut v sp :
  vma_ok v -> cstr m ptr (line_head v ++ sp) -> sp <> [] -> spaces_only sp ->
  sscanf m ptr maps_format [1; 2; 3; 4; 5] = Ok (4, field_stores v).
Proof.
  intros Hok Hs Hsp0 Hsp. unfold sscanf, vsscanf. change (rounds maps_format) with 35%nat.
  rewrite (scan_fields v sp); [|done|done|].
  2:{ destruct sp; [done|]. by apply Forall_cons in Hsp as [Hsp _]. }
  pose proof (cstr_drop _ _ _ _ Hs) as Hs1.
  pose proof (cstr_end _ _ _ Hs1) as Hend.
  rewrite <- (app_nil_r sp) in Hs1.
  assert (Hst : scan_step m maps_format ptr (Sst 30 (ptr + zlen (line_head v)) 4 [5] (field_stores v)) =
    Ok (Break (Sst 32 (ptr + zlen (line_head v) + zlen sp) 4 [5] (field_stores v)))).
  { erewrite step_space; [|reflexivity|reflexivity|reflexivity|exact Hs1|exact Hsp|done].
    unfold scan_item. cbn [c_fmt c_str c_num c_args c_stores].
    change (rd maps_format (30 + 1)) with (Ok 37). rewrite bind_Ok. cbn [Z.eqb Pos.eqb negb andb].
    change (rd maps_format (30 + 1 + 1)) with (Ok 110). rewrite bind_Ok. cbn [Z.eqb Pos.eqb].
    change (isdigit 110) with false. cbn iota. rewrite bind_Ok.
    change (scan_qualifier maps_format (30 + 1 + 1)) with (Ok (255, 32)). rewrite bind_Ok.
    change (rd maps_format 32) with (Ok 110). by rewrite bind_Ok, Hend, bind_Ok. }
  destruct sp as [|c sp]; [done|]. apply cstr_peek in Hs1 as (Hc & Hc0).
  cbn [scan_loop c_fmt c_str]. change (rd maps_format 30) with (Ok 32). rewrite bind_Ok.
  cbn [Z.eqb Pos.eqb]. rewrite Hc, !bind_Ok. apply Z.eqb_neq in Hc0 as ->. cbn [negb].
  by rewrite Hst, bind_Ok.
Qed.

(** ** The entry of a line *)

Lemma skip_blanks_eq : forall fuel s,
  skip_blanks m fuel s = skip_while (fun c => (c =? 32) || (c =? 9)) fuel m s.
Proof. skip_loop. Qed.

Lemma check_name_ok : forall s p r,
  cstr m p (s ++ r) -> Forall (fun c => c <> 10 /\ c <> 92) s ->
  check_name m (length s) p = Ok ().
Proof.
  induction s as [|c s IH]; intros p r Hs Hc; [done|]. cbn [check_name length app cstr] in *.
  destruct Hs as (-> & _ & Hs). apply Forall_cons in Hc as [(_ & Hc) Hcs].
  rewrite bind_Ok. apply Z.eqb_neq in Hc as ->. eauto.
Qed.

Lemma maps_line_head v : maps_line v = line_head v ++ [32] ++ name_text v.
Proof. unfold maps_line, line_head. by rewrite <- !app_assoc. Qed.

(** The part of [parse_line] before the file name. *)
Definition parse_name (ptr len q : Z) (mk : option Z -> Z -> proc_maps_entry_t) : result proc_maps_entry_t :=
  fn_ptr ← skip_blanks m (rounds m) q;
  c ← rd m fn_ptr;
  let fn_ptr := if negb (c =? 47) && negb (c =? 91) then fn_ptr - 1 else fn_ptr in
  c ← rd m fn_ptr;
  if c =? 10 then Ok (mk None 0)
  else
    _ ← assert (fn_ptr <? ptr + len);
    let fn_len := ptr + len - fn_ptr in
    _ ← check_name m (Z.to_nat fn_len) fn_ptr;
    Ok (mk (Some fn_ptr) fn_len).

Lemma parse_line_name v sp t b len :
  vma_ok v -> cstr m ptr (line_head v ++ sp ++ b :: t) -> sp <> [] -> spaces_only sp ->
  isspace b = false -> zlen (line_head v) + zlen sp < 2 ^ 31 ->
  parse_line m ptr len =
  parse_name ptr len (ptr + zlen (line_head v) + zlen sp)
    (Entry true (v_start v) (v_end v) (prot_of (v_perms v)) (v_offset v)).
Proof.
  intros Hok Hs Hsp0 Hsp Hb Hlen. unfold parse_line.
  rewrite (sscanf_line v sp t b) by done. rewrite bind_Ok. cbn [assert Z.eqb Pos.eqb]. rewrite bind_Ok.
  unfold line_stores.
  change (loaded _ 1) with (Ok (le 4 (v_start v))). change (loaded _ 2) with (Ok (le 4 (v_end v))).
  change (loaded _ 3) with (Ok (v_perms v ++ [0])). change (loaded _ 4) with (Ok (le 8 (v_offset v))).
  change (loaded _ 5) with (Ok (le 4 (ptr + zlen (line_head v) + zlen sp - ptr))).
  destruct Hok as [Hst Hen Hof (Hpw & Hpl) _ _ _].
  assert (Hp : exists a b c d, v_perms v = [a; b; c; d]).
  { destruct (v_perms v) as [|? [|? [|? [|? [|? ?]]]]]; try discriminate Hpl; [eauto|].
    unfold zlen in Hpl. cbn in Hpl. lia. }
  destruct Hp as (pa & pb & pc & pd & Hp). rewrite Hp. cbn [app].
  rewrite !bind_Ok. change (rd [pa; pb; pc; pd; 0] 0) with (Ok pa).
  change (rd [pa; pb; pc; pd; 0] 1) with (Ok pb). change (rd [pa; pb; pc; pd; 0] 2) with (Ok pc).
  rewrite !bind_Ok. cbn zeta.
  pose proof (zlen_nonneg (line_head v)). pose proof (zlen_nonneg sp).
  rewrite !of_le_le, !Z.mod_small by lia. rewrite s32_small by lia.
  replace (ptr + (ptr + zlen (line_head v) + zlen sp - ptr)) with (ptr + zlen (line_head v) + zlen sp) by lia.
  unfold parse_name, prot_of. cbn [nth].
  by destruct (pa =? 114), (pb =? 119), (pc =? 120).
Qed.

(** What may follow a line without a name: the next line. *)
Definition next_line (r : list Z) : Prop :=
  exists c s, r = c :: s /\ isspace c = false /\ c <> 47 /\ c <> 91.

Lemma blank_space c : (c =? 32) || (c =? 9) = true -> isspace c = true.
Proof. by intros [->%Z.eqb_eq | ->%Z.eqb_eq]%orb_true_iff. Qed.

Lemma skip_blanks_none q b t :
  cstr m q (b :: t) -> isspace b = false -> skip_blanks m (rounds m) q = Ok q.
Proof.
  intros Hs Hb. rewrite skip_blanks_eq.
  rewrite (skip_while_spec (fun c => (c =? 32) || (c =? 9)) m ltac:(done) [] (rounds m) q (b :: t));
    [by rewrite Z.add_0_r|done|by constructor| |unfold rounds; cbn; lia].
  destruct ((b =? 32) || (b =? 9)) eqn:E; [|done]. apply blank_space in E. congruence.
Qed.

Lemma parse_line_spec v rest :
  vma_ok v -> cstr m ptr (maps_line v ++ 10 :: rest) -> zlen (maps_line v) < 2 ^ 31 - 1 ->
  (v_name v = None -> next_line rest) ->
  exists e, parse_line m ptr (zlen (maps_line v)) = Ok e /\ entry_of m v e.
Proof.
  intros Hok Hs Hlen Hnext. pose proof Hok as [_ _ _ _ _ _ Hname].
  rewrite maps_line_head in Hs, Hlen |- *. rewrite !zlen_app in Hlen |- *.
  change (zlen [32]) with 1 in *. unfold name_text, entry_of in *.
  rewrite <- !app_assoc in Hs. destruct (v_name v) as [name|].
  - destruct Hname as ((nt & Hn) & Hnc).
    assert (Hb : exists b, name = b :: nt /\ isspace b = false /\ (b = 47 \/ b = 91)).
    { destruct Hn as [-> | ->]; eexists; (split; [done|]); split; [done|by left|done|by right]. }
    destruct Hb as (b & -> & Hbs & Hb4791). set (sp := [32] ++ replicate (v_pad v) 32).
    assert (Hs' : cstr m ptr (line_head v ++ sp ++ b :: nt ++ 10 :: rest)).
    { unfold sp. by rewrite <- !app_assoc in Hs |- *. }
    assert (Hspl : zlen sp = 1 + zlen (replicate (v_pad v) 32)) by (unfold sp; by rewrite zlen_app).
    rewrite zlen_app in Hlen |- *. pose proof (zlen_nonneg (b :: nt)).
    rewrite (parse_line_name v sp _ b) by
      (done || lia || (by constructor; [|apply Forall_replicate])).
    pose proof (cstr_drop _ _ _ _ (cstr_drop _ _ _ _ Hs')) as Hq.
    set (q := ptr + zlen (line_head v) + zlen sp) in *. unfold parse_name.
    rewrite (skip_blanks_none q _ _ Hq Hbs), bind_Ok. destruct (cstr_peek _ _ _ _ Hq) as (Hqb & _).
    rewrite Hqb, bind_Ok.
    assert ((negb (b =? 47) && negb (b =? 91)) = false) as -> by (by destruct Hb4791 as [-> | ->]).
    rewrite Hqb, bind_Ok. destruct (Z.eqb_spec b 10); [lia|].
    replace (ptr + (zlen (line_head v) + (1 + (zlen (replicate (v_pad v) 32) + zlen (b :: nt)))) - q)
      with (zlen (b :: nt)) by (unfold q; lia).
    replace (q <? _) with true by (symmetry; apply Z.ltb_lt; unfold q; rewrite Hspl, zlen_cons;
      pose proof (zlen_nonneg nt); lia).
    cbn [assert]. rewrite bind_Ok. 
    replace (Z.to_nat (zlen (b :: nt))) with (length (b :: nt)) by (unfold zlen; lia).
    rewrite (check_name_ok (b :: nt) q (10 :: rest)) by done. rewrite bind_Ok.
    eexists. split; [done|]. cbn. repeat (split; [done|]). exists q. repeat (split; [done|]).
    intros i c Hi. eapply (cstr_rd m q (((b :: nt) ++ [10]) ++ rest)); [by rewrite <- app_assoc|].
    by apply lookup_app_l_Some.
  - destruct (Hnext eq_refl) as (b & s & -> & Hbs & Hb1 & Hb2).
    change (cstr m ptr (line_head v ++ [32; 10] ++ b :: s)) in Hs.
    rewrite (parse_line_name v [32; 10] s b) by
      (done || (change (zlen [32; 10]) with 2; change (zlen (@nil Z)) with 0 in Hlen; lia)
       || (by repeat constructor)).
    pose proof (cstr_drop _ _ _ _ Hs) as Hq1. pose proof (cstr_drop _ _ _ _ Hq1) as Hq.
    set (q := ptr + zlen (line_head v) + zlen [32; 10]) in *. unfold parse_name.
    change (cstr m q (b :: s)) in Hq.
    rewrite (skip_blanks_none q _ _ Hq Hbs), bind_Ok. destruct (cstr_peek _ _ _ _ Hq) as (Hqb & _).
    rewrite Hqb, bind_Ok. apply Z.eqb_neq in Hb1 as ->, Hb2 as ->. cbn [negb andb].
    assert (Hnl : rd m (q - 1) = Ok 10).
    { pose proof (cstr_drop m _ [32] _ Hq1) as (Hnl & _). unfold q.
      change (zlen [32; 10]) with 2. change (zlen [32]) with 1 in Hnl.
      by replace (ptr + zlen (line_head v) + 2 - 1) with (ptr + zlen (line_head v) + 1) by lia. }
    rewrite Hnl, bind_Ok. cbn [Z.eqb Pos.eqb]. eexists. split; [done|]. by cbn.
Qed.

End line.

(** ** The whole file *)

Lemma word_no_eol w : word w -> Forall (fun c => c <> 10) w.
Proof. intros Hw. eapply Forall_impl; [exact Hw|]. intros c Hc ->. discriminate Hc. Qed.

Lemma hex8_no_eol n : Forall (fun c => c <> 10) (hex8 n).
Proof.
  apply word_no_eol. unfold hex8, word. rewrite List.Forall_map.
  eapply Forall_impl; [apply hex_digits_range|]. intros d. apply digit_no_space.
Qed.

Lemma maps_line_no_eol v : vma_ok v -> Forall (fun c => c <> 10) (maps_line v).
Proof.
  intros [_ _ _ (Hp & _) (Hd & _) (Hi & _) Hn]. unfold maps_line, name_text.
  repeat (apply Forall_app; split); auto using word_no_eol, hex8_no_eol;
    try (by repeat constructor).
  destruct (v_name v) as [name|]; [|done]. destruct Hn as (_ & Hn). apply Forall_app. split.
  - by apply Forall_replicate.
  - eapply Forall_impl; [exact Hn|]. by intros c (Hc & _).
Qed.

Lemma get_eol_spec m end_ : forall line fuel p rest,
  cstr m p (line ++ 10 :: rest) -> Forall (fun c => c <> 10) line ->
  p + zlen line < end_ -> (length line < fuel)%nat ->
  get_eol_loop m fuel p end_ = Ok (p + zlen line).
Proof.
  induction line as [|c line IH]; intros fuel p rest Hs Hl He Hf;
    (destruct fuel as [|fuel]; [simpl in Hf; lia|]); cbn [get_eol_loop app cstr] in *.
  - destruct Hs as (-> & _). rewrite bind_Ok. cbn. f_equal. zlen_simp. lia.
  - destruct Hs as (-> & Hc0 & Hs). apply Forall_cons in Hl as [Hc Hl]. rewrite bind_Ok.
    apply Z.eqb_neq in Hc as ->, Hc0 as ->. cbn [negb andb]. rewrite zlen_cons in *.
    pose proof (zlen_nonneg line). unfold next_ptr. destruct (Z.ltb_spec p end_); [|lia].
    cbn [assert]. rewrite !bind_Ok. rewrite (IH fuel (p + 1) rest) by (done || simpl in Hf; lia).
    f_equal. lia.
Qed.

Lemma maps_line_cons v : exists c s, maps_line v = c :: s /\ isspace c = false /\ isxdigit c = true.
Proof.
  destruct (hex8_head (v_start v)) as (c & s & E & Hx & Hs). unfold maps_line. rewrite E. cbn. eauto.
Qed.

Lemma maps_text_cons v vs : maps_text (v :: vs) = maps_line v ++ 10 :: maps_text vs.
Proof. unfold maps_text. cbn [map concat]. by rewrite <- app_assoc. Qed.

Lemma maps_text_next vs : vs <> [] -> next_line (maps_text vs).
Proof.
  destruct vs as [|v vs]; [done|]. intros _. destruct (maps_line_cons v) as (c & s & E & Hs & Hx).
  rewrite maps_text_cons, E. eexists c, _. split; [done|]. split; [done|].
  split; by intros ->.
Qed.

(** The parser gets lost on a last line without a name (see [last_line_lost]). *)
Definition last_named (vs : list vma) : Prop :=
  forall v, last vs = Some v -> v_name v <> None.

(** A last line without a name loses the parser: [sscanf] leaves its loop
    at the NUL before it handles the final [%n], so [parse_line] goes on with
    an uninitialised offset. *)
Lemma last_line_lost m ptr v len :
  vma_ok v -> v_name v = None -> cstr m ptr (maps_line v ++ [10]) ->
  parse_line m ptr len = Stray Rd.
Proof.
  intros Hok Hn Hs. rewrite maps_line_head in Hs. unfold name_text in Hs.
  rewrite Hn, app_nil_r, <- app_assoc in Hs. unfold parse_line.
  rewrite (sscanf_cut m ptr v [32; 10]) by (done || by repeat constructor). rewrite bind_Ok.
  cbn [assert Z.eqb Pos.eqb]. rewrite bind_Ok. destruct Hok as [_ _ _ (_ & Hpl) _ _ _].
  destruct (v_perms v) as [|a [|b [|c l]]] eqn:E; try discriminate Hpl.
  unfold field_stores. rewrite E. reflexivity.
Qed.

(** The handler stands before the lines of [vs], the last ones of the text. *)
Definition before (m : list Z) (vs : list vma) (h : proc_mem_handler_t) : Prop :=
  cstr m (curr_ptr h) (maps_text vs) /\ map_end h = curr_ptr h + zlen (maps_text vs) /\
  map_data h < map_end h /\ zlen (maps_text vs) < 2 ^ 31 /\ Forall vma_ok vs.

(** They can all be read. *)
Definition reading (m : list Z) (vs : list vma) (h : proc_mem_handler_t) : Prop :=
  before m vs h /\ last_named vs.

Lemma last_named_tail v vs : last_named (v :: vs) -> last_named vs.
Proof. intros H v' Hv'. apply H. by destruct vs. Qed.

(** The line is found, and then parsed. *)
Lemma read_maps_line_found m v vs h : before m (v :: vs) h ->
  read_maps_line m h =
    (entry ← parse_line m (curr_ptr h) (zlen (maps_line v));
     Ok (entry, Handler (map_data h) (map_end h) (curr_ptr h + zlen (maps_line v) + 1))).
Proof.
  intros (Hs & He & Hd & Hl & Hok). apply Forall_cons in Hok as [Hv Hvs].
  rewrite maps_text_cons in *. rewrite zlen_app, zlen_cons in *.
  pose proof (zlen_nonneg (maps_text vs)). pose proof (zlen_nonneg (maps_line v)).
  unfold read_maps_line. destruct (Z.ltb_spec (map_data h) (map_end h)); [|lia]. cbn [assert].
  rewrite bind_Ok. destruct (Z.leb_spec (map_end h) (curr_ptr h)); [lia|].
  destruct (maps_line_cons v) as (c & s & E & Hcs & _).
  assert (Hsk : skip_spaces_and_eol m (curr_ptr h) (map_end h) = Ok (curr_ptr h)).
  { unfold skip_spaces_and_eol, rounds. cbn [skip_eol_loop]. pose proof Hs as Hs'. rewrite E in Hs'.
    destruct (cstr_peek _ _ _ _ Hs') as (-> & _). rewrite bind_Ok.
    destruct ((c =? 9) || (c =? 32) || (c =? 10)) eqn:Eb; [|done].
    apply orb_true_iff in Eb as [[->%Z.eqb_eq | ->%Z.eqb_eq]%orb_true_iff | ->%Z.eqb_eq];
      discriminate Hcs. }
  rewrite Hsk, bind_Ok. unfold get_eol.
  rewrite (get_eol_spec m (map_end h) (maps_line v) _ _ (maps_text vs));
    [|done|by apply maps_line_no_eol|lia|by eapply rounds_app].
  rewrite bind_Ok. by replace (curr_ptr h + zlen (maps_line v) - curr_ptr h) with (zlen (maps_line v)) by lia.
Qed.

Lemma before_next m v vs h : before m (v :: vs) h ->
  before m vs (Handler (map_data h) (map_end h) (curr_ptr h + zlen (maps_line v) + 1)).
Proof.
  intros (Hs & He & Hd & Hl & Hok). apply Forall_cons in Hok as [_ Hvs].
  rewrite maps_text_cons in *. rewrite zlen_app, zlen_cons in *. pose proof (zlen_nonneg (maps_line v)).
  apply cstr_drop in Hs as (_ & _ & Hs).
  split; [done|]. split; [cbn [map_end curr_ptr]; lia|]. split; [done|]. by split; [lia|].
Qed.

(** A line that is not the last, or has a name. *)
Lemma read_maps_line_before m v vs h : before m (v :: vs) h -> (v_name v = None -> vs <> []) ->
  exists e h', read_maps_line m h = Ok (e, h') /\ entry_of m v e /\ before m vs h' /\
    map_data h' = map_data h /\ map_end h' = map_end h.
Proof.
  intros Hb Hn. pose proof Hb as (Hs & _ & _ & Hl & Hok). apply Forall_cons in Hok as [Hv _].
  rewrite maps_text_cons in *. rewrite zlen_app, zlen_cons in *. pose proof (zlen_nonneg (maps_text vs)).
  destruct (parse_line_spec m (curr_ptr h) v (maps_text vs)) as (e & Ee & Hent);
    [done|done|lia|intros E; by apply maps_text_next, Hn|].
  rewrite (read_maps_line_found _ _ _ _ Hb), Ee, bind_Ok. eexists e, _. split; [done|]. split; [done|].
  by split; [apply before_next|].
Qed.

Lemma read_maps_line_spec m v vs h :
  reading m (v :: vs) h ->
  exists e h', read_maps_line m h = Ok (e, h') /\ entry_of m v e /\ reading m vs h' /\
    map_data h' = map_data h /\ map_end h' = map_end h.
Proof.
  intros [Hb Hlast]. destruct (read_maps_line_before m v vs h Hb) as (e & h' & E & He & Hb' & Hh).
  { intros Hn ->. by apply (Hlast v). }
  exists e, h'. split; [done|]. split; [done|]. split; [|done]. split; [done|]. by eapply last_named_tail.
Qed.

Lemma read_maps_line_end m h :
  reading m [] h -> read_maps_line m h = Ok (invalid_entry, h).
Proof.
  intros ((_ & He & Hd & _) & _). change (zlen (maps_text [])) with 0 in He. unfold read_maps_line.
  destruct (Z.ltb_spec (map_data h) (map_end h)); [|lia]. cbn [assert]. rewrite bind_Ok.
  destruct (Z.leb_spec (map_end h) (curr_ptr h)); [done|lia].
Qed.

(** The loop of every client: lines until an invalid entry. *)
Fixpoint read_entries (m : list Z) (fuel : nat) (h : proc_mem_handler_t) :
    result (list proc_maps_entry_t) :=
  match fuel with
  | O => NoFuel
  | S fuel =>
      '(e, h) ← read_maps_line m h;
      if valid e then es ← read_entries m fuel h; Ok (e :: es) else Ok []
  end.

Lemma read_entries_spec m : forall vs fuel h,
  reading m vs h -> (length vs < fuel)%nat ->
  exists es, read_entries m fuel h = Ok es /\ Forall2 (entry_of m) vs es.
Proof.
  induction vs as [|v vs IH]; intros fuel h Hr Hf;
    (destruct fuel as [|fuel]; [simpl in Hf; lia|]); cbn [read_entries].
  - rewrite (read_maps_line_end _ _ Hr). by exists [].
  - destruct (read_maps_line_spec m v vs h Hr) as (e & h' & -> & He & Hr' & _). rewrite bind_Ok.
    destruct (IH fuel h' Hr') as (es & -> & Hes); [simpl in Hf; lia|].
    destruct He as (Hval & He'). rewrite Hval, bind_Ok. exists (e :: es). split; [done|].
    by constructor.
Qed.

(** The lines are read as far as a last one without a name. *)
Lemma read_entries_lost m : forall vs fuel h,
  before m vs h -> ~ last_named vs -> (length vs <= fuel)%nat -> read_entries m fuel h = Stray Rd.
Proof.
  induction vs as [|v vs IH]; intros fuel h Hb Hl Hf; [by destruct Hl|].
  destruct fuel as [|fuel]; [simpl in Hf; lia|]. cbn [read_entries]. destruct (decide (vs = [])) as [->|Hne].
  - rewrite (read_maps_line_found _ _ _ _ Hb). destruct Hb as (Hs & _ & _ & _ & Hok).
    apply Forall_cons in Hok as [Hv _]. destruct (v_name v) eqn:En; [by destruct Hl; intros ? [= <-]; rewrite En|].
    rewrite maps_text_cons in Hs. by rewrite (last_line_lost m _ v _ Hv En Hs).
  - destruct (read_maps_line_before m v vs h Hb) as (e & h' & -> & [Hval _] & Hb' & _); [done|].
    rewrite bind_Ok, Hval, (IH fuel h'); [done|done| |simpl in Hf; lia].
    intros Hl'. apply Hl. intros v' Hv'. apply Hl'. by destruct vs.
Qed.

Lemma before_init m p vs :
  cstr m p (maps_text vs) -> zlen (maps_text vs) < 2 ^ 31 -> vs <> [] -> Forall vma_ok vs ->
  before m vs (Handler p (p + zlen (maps_text vs)) p).
Proof.
  intros Hs Hl Hne Hok. destruct (maps_text_next vs Hne) as (c & s & E & _).
  repeat split; cbn; try done. rewrite E, zlen_cons. pose proof (zlen_nonneg s). lia.
Qed.

Lemma reading_init m p vs :
  cstr m p (maps_text vs) -> zlen (maps_text vs) < 2 ^ 31 -> vs <> [] -> Forall vma_ok vs ->
  last_named vs -> reading m vs (Handler p (p + zlen (maps_text vs)) p).
Proof. intros Hs Hl Hne Hok Hlast. by split; [apply before_init|]. Qed.

(** C27: on the text the kernel prints for any non-empty list of mappings, below
    2^31 bytes, reading line by line yields every mapping, in order, with its
    bounds, protection, offset and name, and then the end, if the last mapping
    has a name; if it has none, the reader uses an object that was never stored
    to. A name starts with a slash or a bracket and holds no new line and no
    backslash. *)
Theorem procmap_parse m p vs :
  vs <> [] -> Forall vma_ok vs -> cstr m p (maps_text vs) -> zlen (maps_text vs) < 2 ^ 31 ->
  exists h, init_map_handler p (zlen (maps_text vs)) = Ok h /\
    (last_named vs -> exists es, read_entries m (S (length vs)) h = Ok es /\ Forall2 (entry_of m) vs es) /\
    (~ last_named vs -> read_entries m (S (length vs)) h = Stray Rd).
Proof.
  intros Hne Hok Hs Hl. pose proof (before_init m p vs Hs Hl Hne Hok) as Hb.
  exists (Handler p (p + zlen (maps_text vs)) p). split; [|split].
  - unfold init_map_handler. destruct (maps_text_next vs Hne) as (c & s & E & _). rewrite E, zlen_cons.
    pose proof (zlen_nonneg s). by destruct (Z.ltb_spec 0 (1 + zlen s)); [|lia].
  - intros Hlast. apply read_entries_spec; [by split|lia].
  - intros Hlast. apply (read_entries_lost m vs); [done|done|lia].
Qed.

(** ** Searches *)

Definition contains (addr : Z) (v : vma) : Prop := v_start v <= addr < v_end v.
#[global] Instance contains_dec addr v : Decision (contains addr v).
Proof. unfold contains. apply _. Defined.

(** What a search that looks for the mappings of [P] returns. *)
Definition first_entry (m : list Z) (P : vma -> Prop) `{!forall v, Decision (P v)} (vs : list vma)
    (e : proc_maps_entry_t) : Prop :=
  match list_find P vs with
  | Some (_, v) => entry_of m v e
  | None => e = invalid_entry
  end.

Lemma find_loop_spec m (P : vma -> Prop) `{!forall v, Decision (P v)} found :
  (forall v e, vma_ok v -> entry_of m v e -> found e = Ok (bool_decide (P v))) ->
  forall vs fuel h e0 v0,
  entry_of m v0 e0 -> vma_ok v0 -> reading m vs h -> (length vs < fuel)%nat ->
  exists e h', find_loop m found fuel e0 h = Ok (e, h') /\ first_entry m P (v0 :: vs) e.
Proof.
  intros Hfound. induction vs as [|v vs IH]; intros fuel h e0 v0 He0 Hv0 Hr Hf;
    (destruct fuel as [|fuel]; [simpl in Hf; lia|]); pose proof He0 as (Hval & _);
    cbn [find_loop]; rewrite Hval, (Hfound v0 e0 Hv0 He0), bind_Ok; unfold first_entry; cbn [list_find];
    destruct (decide (P v0)) as [HP|HP].
  - rewrite bool_decide_true by done. eauto.
  - rewrite bool_decide_false by done. rewrite (read_maps_line_end _ _ Hr), bind_Ok. cbn [list_find].
    eexists _, _. split; [|done]. by destruct fuel.
  - rewrite bool_decide_true by done. eauto.
  - rewrite bool_decide_false by done. pose proof Hr as ((_ & _ & _ & _ & Hok) & _).
    apply Forall_cons in Hok as [Hv _].
    destruct (read_maps_line_spec m v vs h Hr) as (e & h1 & -> & He & Hr1 & _). rewrite bind_Ok.
    destruct (IH fuel h1 e v He Hv Hr1) as (e' & h' & -> & He'); [simpl in Hf; lia|].
    eexists _, _. split; [done|]. unfold first_entry in He'. cbn [list_find] in He'.
    destruct (decide (P v)); [done|]. cbn. by destruct (list_find P vs) as [[]|].
Qed.

Lemma maps_text_length vs : (length vs <= length (maps_text vs))%nat.
Proof.
  induction vs as [|v vs IH]; [done|]. rewrite maps_text_cons, length_app. cbn [length]. lia.
Qed.

Lemma find_spec m (P : vma -> Prop) `{!forall v, Decision (P v)} found p vs :
  (forall v e, vma_ok v -> entry_of m v e -> found e = Ok (bool_decide (P v))) ->
  vs <> [] -> reading m vs (Handler p (p + zlen (maps_text vs)) p) ->
  exists e h', ('(entry, h) ← read_maps_line m (Handler p (p + zlen (maps_text vs)) p);
                find_loop m found (find_fuel h) entry h) = Ok (e, h') /\ first_entry m P vs e.
Proof.
  intros Hfound Hne Hr. destruct vs as [|v vs]; [done|]. pose proof Hr as ((_ & _ & _ & _ & Hok) & _).
  apply Forall_cons in Hok as [Hv _].
  destruct (read_maps_line_spec m v vs _ Hr) as (e & h1 & -> & He & Hr1 & Hd & Hend). rewrite bind_Ok.
  eapply find_loop_spec; [done|done|done|done|]. unfold find_fuel. rewrite Hd, Hend.
  cbn [map_data map_end]. pose proof (maps_text_length (v :: vs)) as H'. cbn [length] in H'.
  unfold zlen. lia.
Qed.

Lemma find_by_addr_spec m p vs addr q :
  vs <> [] -> Forall vma_ok vs -> last_named vs ->
  cstr m p (maps_text vs) -> zlen (maps_text vs) < 2 ^ 31 ->
  exists e h', find_in_map_by_addr m (Handler p (p + zlen (maps_text vs)) q) addr = Ok (e, h') /\
    first_entry m (contains addr) vs e.
Proof.
  intros Hne Hok Hlast Hs Hl. unfold find_in_map_by_addr.
  apply find_spec; [|done|by apply reading_init].
  intros v e Hv (_ & -> & -> & _). f_equal. unfold contains.
  destruct (Z.leb_spec (v_start v) addr), (Z.ltb_spec addr (v_end v)); cbn;
    case_bool_decide; lia || done.
Qed.

(** Looking an address up finds the first mapping that contains it, and
    reports an invalid entry exactly when none does. *)
Lemma find_by_addr_correct m p vs addr q :
  vs <> [] -> Forall vma_ok vs -> last_named vs ->
  cstr m p (maps_text vs) -> zlen (maps_text vs) < 2 ^ 31 ->
  exists e h', find_in_map_by_addr m (Handler p (p + zlen (maps_text vs)) q) addr = Ok (e, h') /\
    first_entry m (contains addr) vs e.
Proof. apply find_by_addr_spec. Qed.

(** A mapping whose name is the string at [nm]. *)
Lemma same_name m nm name p name' :
  cstr m nm name -> name' <> [] -> zlen name' = zlen name ->
  (forall i c, name' !! i = Some c -> rd m (p + Z.of_nat i) = Ok c) ->
  exists r, memcmp m p nm (zlen name) = Ok r /\ (r = 0 <-> name' = name).
Proof.
  intros Hnm Hne Hl Hrd. pose proof (cstr_range _ _ _ Hnm) as Hr.
  assert (Hlen : length name' = length name) by (unfold zlen in Hl; lia).
  destruct name' as [|c0 s0]; [done|]. pose proof (Hrd 0%nat c0 eq_refl) as H0%rd_range.
  destruct (lookup_lt_is_Some_2 (c0 :: s0) (length s0)) as (cl & Hcl); [cbn; lia|].
  pose proof (Hrd _ _ Hcl) as H1%rd_range. pose proof (zlen_nonneg name). unfold memcmp.
  destruct (memcmp_loop_spec (Z.to_nat (zlen name)) m p nm) as (r & -> & Hiff);
    [lia|rewrite <- Hl, zlen_cons; unfold zlen in H1 |- *; lia|lia|lia|].
  exists r. split; [done|]. rewrite Hiff. split.
  - intros Hall. apply list_eq_same_length with (length name); [done|done|].
    intros i x y Hi Hx Hy. pose proof (Hrd _ _ Hx) as H2. destruct (cstr_rd _ _ _ _ _ Hnm Hy) as (H3 & _).
    rewrite Hall in H2 by (unfold zlen; lia). congruence.
  - intros E j Hj. destruct (lookup_lt_is_Some_2 name j) as (c & Hc); [unfold zlen in Hj; lia|].
    rewrite (Hrd j c) by (by rewrite E). by destruct (cstr_rd _ _ _ _ _ Hnm Hc) as (-> & _).
Qed.

(** Looking a file up finds the first mapping with exactly that name. *)
Lemma find_by_fn_correct m p vs nm name q :
  vs <> [] -> Forall vma_ok vs -> last_named vs ->
  cstr m p (maps_text vs) -> zlen (maps_text vs) < 2 ^ 31 -> cstr m nm name ->
  exists e h', find_in_map_by_fn m (Handler p (p + zlen (maps_text vs)) q) nm true = Ok (e, h') /\
    first_entry m (fun v => v_name v = Some name) vs e.
Proof.
  intros Hne Hok Hlast Hs Hl Hnm. unfold find_in_map_by_fn.
  rewrite (strlen_spec _ _ _ Hnm), bind_Ok.
  apply find_spec; [|done|by apply reading_init].
  intros v e [_ _ _ _ _ _ Hname] (_ & _ & _ & _ & _ & Hfn). destruct (v_name v) as [name'|].
  - destruct Hfn as (p' & -> & -> & Hrd). destruct Hname as ((s & Hn) & _).
    assert (Hne' : name' <> []) by (by destruct Hn as [-> | ->]).
    assert (Hz : zlen name' <> 0) by (destruct name'; [done|rewrite zlen_cons; pose proof (zlen_nonneg name'); lia]).
    apply Z.eqb_neq in Hz as ->. cbn [negb assert]. rewrite bind_Ok.
    destruct (Z.eqb_spec (zlen name') (zlen name)) as [E|E].
    + destruct (same_name m nm name p' name' Hnm Hne' E) as (r & -> & Hr).
      { intros i c Hi. apply Hrd. by apply lookup_app_l_Some. }
      rewrite bind_Ok.
      f_equal. destruct (Z.eqb_spec r 0) as [H0|H0]; symmetry.
      * apply bool_decide_true. f_equal. by apply Hr.
      * apply bool_decide_false. intros [= ->]. by apply H0, Hr.
    + f_equal. symmetry. apply bool_decide_false. intros [= ->]. done.
  - destruct Hfn as (-> & _). f_equal.
Qed.

(** ** Runs *)

(** Two mappings of a process, the text of them and of its file name. *)
Definition sample : list vma :=
  [Vma 0xb78d5000 0xb78d7000 (codes "rw-p") 0 (codes "00:00") (codes "0") 0 None;
   Vma 0x8048000 0x804c000 (codes "r-xp") 0x1000 (codes "08:01") (codes "1234567") 4
     (Some (codes "/bin/cat"))].
Definition sample_memory : list Z := maps_text sample ++ [0] ++ literal "/bin/cat".

Lemma sample_text :
  maps_text sample = codes "b78d5000-b78d7000 rw-p 00000000 00:00 0 " ++ [10] ++
    codes "08048000-0804c000 r-xp 00001000 08:01 1234567     /bin/cat" ++ [10].
Proof. by vm_compute. Qed.

Lemma sample_ok : Forall vma_ok sample.
Proof.
  assert (Hw : forall w, forallb (fun c => negb (isspace c)) w = true -> word w).
  { intros w Hw. unfold word. rewrite List.Forall_forall. rewrite forallb_forall in Hw.
    intros c Hc. by apply negb_true_iff, Hw. }
  repeat constructor; cbn; try lia; try (apply Hw; by vm_compute); try (by vm_compute).
  by exists (codes "bin/cat"); left.
Qed.

Lemma sample_cstr : cstr sample_memory 0 (maps_text sample).
Proof. rewrite sample_text. vm_compute. repeat split; discriminate. Qed.

Lemma sample_last : last_named sample.
Proof. by intros v [= <-]. Qed.

Lemma procmap_parse_witness :
  exists h es, init_map_handler 0 (zlen (maps_text sample)) = Ok h /\
    read_entries sample_memory 3 h = Ok es /\ Forall2 (entry_of sample_memory) sample es.
Proof.
  destruct (procmap_parse sample_memory 0 sample) as (h & Eh & Hn & _);
    [done|exact sample_ok|exact sample_cstr|by vm_compute|].
  destruct (Hn sample_last) as (es & Ees & Hes). exists h, es. by split.
Defined.

End ProcFacts.
