(* ===== verification/LzoDecompress.v ===== *)
(** The LZO1X decompressor, [src/src/lib/lzo1x_decompress.c].

    Pointers into the input and output buffers are offsets from the start of
    their buffer; [t] is a 32-bit [size_t] and wraps; a byte read past the end
    of the input is [Stray Rd], one written past the end of the output
    [Stray Wr], and a look back, to the input before [ip] or to the output before
    [op], that does not find a byte there is [Stray Back]. The function
    is one body with [goto]s: a label that is the target of a jump is a
    constructor of [label], and [dstep] runs the code from a label to the next
    jump. *)
From S2P Require Import Prelude.

Module Lzo.

(** lzodefs.h, linux/lzo.h *)
Definition M2_MAX_OFFSET : Z := 0x0800.
Definition M3_MAX_OFFSET : Z := 0x4000.
Definition M4_MAX_OFFSET : Z := 0xbfff.
Definition M2_MAX_LEN : Z := 8.
Definition M4_MAX_LEN : Z := 9.
Definition M3_MARKER : Z := 32.
Definition M4_MARKER : Z := 16.

Definition LZO_E_OK : Z := 0.
Definition LZO_E_INPUT_OVERRUN : Z := -4.
Definition LZO_E_OUTPUT_OVERRUN : Z := -5.
Definition LZO_E_LOOKBEHIND_OVERRUN : Z := -6.
Definition LZO_E_EOF_NOT_FOUND : Z := -7.
Definition LZO_E_INPUT_NOT_CONSUMED : Z := -8.

(** [lzo1x_worst_compress(x)] *)
Definition lzo1x_worst_compress (x : Z) : Z := x + x / 16 + 64 + 3.

(** The labels of [lzo1x_decompress_safe]: the head of the outer [while], and
    [first_literal_run], [match] and [match_next] with the [t] they are entered
    with. *)
Inductive label :=
| L_outer
| L_first_literal_run
| L_match (t : Z)
| L_match_next (t : Z).

(** [ip], and the bytes written so far: [op] is [out + zlen d_out]. *)
Record dst := Dst { d_ip : Z; d_out : list Z }.

Definition d_op (st : dst) : Z := zlen (d_out st).

Inductive jump :=
| Goto (l : label) (st : dst)
| Return (code : Z) (st : dst).

Section decompress.
Context (inp : list Z) (cap : Z).

Definition in_len : Z := zlen inp.

Definition HAVE_IP (x ip : Z) : bool := u32 (in_len - ip) <? x.
Definition HAVE_OP (x op : Z) : bool := u32 (cap - op) <? x.
Definition HAVE_LB (m_pos op : Z) : bool := (m_pos <? 0) || (op <=? m_pos).

(** A byte the pointer has passed: [*m_pos] and [ip[-2]]. *)
Definition rd_back (l : list Z) (i : Z) : result Z :=
  if (0 <=? i) && (i <? zlen l) then rd l i else Stray Back.

(** [*op++ = b] *)
Definition put (b : Z) (out : list Z) : result (list Z) :=
  if zlen out <? cap then Ok (out ++ [b]) else Stray Wr.

(** [*op++ = *ip++] *)
Definition copy_in (st : dst) : result dst :=
  b ← rd inp (d_ip st);
  out ← put b (d_out st);
  Ok (Dst (d_ip st + 1) out).

(** [COPY4(op, ip); op += 4; ip += 4]: the four bytes are loaded before any is
    stored. *)
Definition put4 (b0 b1 b2 b3 : Z) (out : list Z) : result (list Z) :=
  out ← put b0 out; out ← put b1 out; out ← put b2 out; put b3 out.

Definition copy4_in (st : dst) : result dst :=
  b0 ← rd inp (d_ip st); b1 ← rd inp (d_ip st + 1);
  b2 ← rd inp (d_ip st + 2); b3 ← rd inp (d_ip st + 3);
  out ← put4 b0 b1 b2 b3 (d_out st);
  Ok (Dst (d_ip st + 4) out).

(** [*op++ = *m_pos++] and [COPY4(op, m_pos); op += 4; m_pos += 4] *)
Definition copy_out (m_pos : Z) (out : list Z) : result (Z * list Z) :=
  b ← rd_back out m_pos;
  out ← put b out;
  Ok (m_pos + 1, out).

Definition copy4_out (m_pos : Z) (out : list Z) : result (Z * list Z) :=
  b0 ← rd_back out m_pos; b1 ← rd_back out (m_pos + 1);
  b2 ← rd_back out (m_pos + 2); b3 ← rd_back out (m_pos + 3);
  out ← put4 b0 b1 b2 b3 out;
  Ok (m_pos + 4, out).

(** The number of times [do ... while (--t > 0)] runs its body: [t] is
    unsigned, so a loop entered with 0 wraps. *)
Definition times (t : Z) : nat := Z.to_nat (if t =? 0 then 2 ^ 32 else t).

Fixpoint copy_in_loop (n : nat) (st : dst) : result dst :=
  match n with
  | O => Ok st
  | S n => st ← copy_in st; copy_in_loop n st
  end.

Fixpoint copy_out_loop (n : nat) (m_pos : Z) (out : list Z) : result (list Z) :=
  match n with
  | O => Ok out
  | S n => '(m_pos, out) ← copy_out m_pos out; copy_out_loop n m_pos out
  end.

(** [do { COPY4; t -= 4; } while (t >= 4)], returning the [t] left. *)
Fixpoint copy4_in_loop (fuel : nat) (t : Z) (st : dst) : result (Z * dst) :=
  match fuel with
  | O => NoFuel
  | S fuel =>
      st ← copy4_in st;
      let t := u32 (t - 4) in
      if 4 <=? t then copy4_in_loop fuel t st else Ok (t, st)
  end.

Fixpoint copy4_out_loop (fuel : nat) (t m_pos : Z) (out : list Z) :
    result (Z * Z * list Z) :=
  match fuel with
  | O => NoFuel
  | S fuel =>
      '(m_pos, out) ← copy4_out m_pos out;
      let t := u32 (t - 4) in
      if 4 <=? t then copy4_out_loop fuel t m_pos out else Ok (t, m_pos, out)
  end.

(** The extension of a length field of zero: skip zero bytes, 255 each, then
    [t += base + *ip++]. [None] is [goto input_overrun] (with the [ip] it has
    then, which is not reported). *)
Fixpoint skip_zeros (fuel : nat) (t ip : Z) : result (option (Z * Z)) :=
  match fuel with
  | O => NoFuel
  | S fuel =>
      b ← rd inp ip;
      if b =? 0 then
        let t := u32 (t + 255) in
        let ip := ip + 1 in
        if HAVE_IP 1 ip then Ok None else skip_zeros fuel t ip
      else Ok (Some (t, ip))
  end.

Definition extend_len (base t ip : Z) : result (option (Z * Z)) :=
  if HAVE_IP 1 ip then Ok None
  else
    r ← skip_zeros (S (length inp)) t ip;
    match r with
    | None => Ok None
    | Some (t, ip) =>
        b ← rd inp ip;
        Ok (Some (u32 (t + base + b), ip + 1))
    end.

(** [get_unaligned_le16(ip)] *)
Definition get_le16 (ip : Z) : result Z :=
  b0 ← rd inp ip; b1 ← rd inp (ip + 1); Ok (Z.lor b0 (Z.shiftl b1 8)).

Definition input_overrun (st : dst) : result jump := Ok (Return LZO_E_INPUT_OVERRUN st).
Definition output_overrun (st : dst) : result jump := Ok (Return LZO_E_OUTPUT_OVERRUN st).
Definition lookbehind_overrun (st : dst) : result jump :=
  Ok (Return LZO_E_LOOKBEHIND_OVERRUN st).

(** [match_done:] *)
Definition match_done (st : dst) : result jump :=
  b ← rd_back inp (d_ip st - 2);
  let t := Z.land b 3 in
  Ok (if t =? 0 then Goto L_outer st else Goto (L_match_next t) st).

(** [copy_match:] *)
Definition copy_match (t m_pos : Z) (st : dst) : result jump :=
  '(m_pos, out) ← copy_out m_pos (d_out st);
  '(m_pos, out) ← copy_out m_pos out;
  out ← copy_out_loop (times t) m_pos out;
  match_done (Dst (d_ip st) out).

(** The copy after the offset of an M3 or M4 match was decoded. *)
Definition long_match (t m_pos : Z) (st : dst) : result jump :=
  if HAVE_LB m_pos (d_op st) then lookbehind_overrun st
  else if HAVE_OP (u32 (t + 3 - 1)) (d_op st) then output_overrun st
  else if (2 * 4 - (3 - 1) <=? t) && (4 <=? d_op st - m_pos) then
    '(m_pos, out) ← copy4_out m_pos (d_out st);
    let t := u32 (t - (4 - (3 - 1))) in
    '(t, m_pos, out) ← copy4_out_loop (Z.to_nat t) t m_pos out;
    out ← (if 0 <? t then copy_out_loop (times t) m_pos out else Ok out);
    match_done (Dst (d_ip st) out)
  else copy_match t m_pos st.

(** The literal run after its length was decoded. *)
Definition literal_run (t : Z) (st : dst) : result jump :=
  if HAVE_OP (u32 (t + 3)) (d_op st) then output_overrun st
  else if HAVE_IP (u32 (t + 4)) (d_ip st) then input_overrun st
  else
    st ← copy4_in st;
    let t := u32 (t - 1) in
    st ← (if 0 <? t then
            if 4 <=? t then
              '(t, st) ← copy4_in_loop (Z.to_nat t) t st;
              (if 0 <? t then copy_in_loop (times t) st else Ok st)
            else copy_in_loop (times t) st
          else Ok st);
    Ok (Goto L_first_literal_run st).

(** [match:] *)
Definition do_match (t : Z) (st : dst) : result jump :=
  if 64 <=? t then
    b ← rd inp (d_ip st);
    let m_pos := d_op st - 1 - Z.land (Z.shiftr t 2) 7 - Z.shiftl b 3 in
    let st := Dst (d_ip st + 1) (d_out st) in
    let t := Z.shiftr t 5 - 1 in
    if HAVE_LB m_pos (d_op st) then lookbehind_overrun st
    else if HAVE_OP (u32 (t + 3 - 1)) (d_op st) then output_overrun st
    else copy_match t m_pos st
  else if 32 <=? t then
    let t := Z.land t 31 in
    r ← (if t =? 0 then extend_len 31 t (d_ip st) else Ok (Some (t, d_ip st)));
    match r with
    | None => input_overrun st
    | Some (t, ip) =>
        w ← get_le16 ip;
        let m_pos := d_op st - 1 - Z.shiftr w 2 in
        long_match t m_pos (Dst (ip + 2) (d_out st))
    end
  else if 16 <=? t then
    let m_pos := d_op st - Z.shiftl (Z.land t 8) 11 in
    let t := Z.land t 7 in
    r ← (if t =? 0 then extend_len 7 t (d_ip st) else Ok (Some (t, d_ip st)));
    match r with
    | None => input_overrun st
    | Some (t, ip) =>
        w ← get_le16 ip;
        let m_pos := m_pos - Z.shiftr w 2 in
        let st := Dst (ip + 2) (d_out st) in
        if m_pos =? d_op st then
          (* eof_found *)
          Ok (Return (if d_ip st =? in_len then LZO_E_OK
                      else if d_ip st <? in_len then LZO_E_INPUT_NOT_CONSUMED
                      else LZO_E_INPUT_OVERRUN) st)
        else long_match t (m_pos - 0x4000) st
    end
  else
    b ← rd inp (d_ip st);
    let m_pos := d_op st - 1 - Z.shiftr t 2 - Z.shiftl b 2 in
    let st := Dst (d_ip st + 1) (d_out st) in
    if HAVE_LB m_pos (d_op st) then lookbehind_overrun st
    else if HAVE_OP 2 (d_op st) then output_overrun st
    else
      '(m_pos, out) ← copy_out m_pos (d_out st);
      '(m_pos, out) ← copy_out m_pos out;
      match_done (Dst (d_ip st) out).

(** [first_literal_run:] *)
Definition first_literal_run (st : dst) : result jump :=
  t ← rd inp (d_ip st);
  let st := Dst (d_ip st + 1) (d_out st) in
  if 16 <=? t then Ok (Goto (L_match t) st)
  else
    b ← rd inp (d_ip st);
    let m_pos := d_op st - (1 + M2_MAX_OFFSET) - Z.shiftr t 2 - Z.shiftl b 2 in
    let st := Dst (d_ip st + 1) (d_out st) in
    if HAVE_LB m_pos (d_op st) then lookbehind_overrun st
    else if HAVE_OP 3 (d_op st) then output_overrun st
    else
      '(m_pos, out) ← copy_out m_pos (d_out st);
      '(m_pos, out) ← copy_out m_pos out;
      '(m_pos, out) ← copy_out m_pos out;
      match_done (Dst (d_ip st) out).

(** [match_next:] and the [while (ip < ip_end)] of the inner loop. *)
Definition match_next (t : Z) (st : dst) : result jump :=
  if HAVE_OP t (d_op st) then output_overrun st
  else if HAVE_IP (u32 (t + 1)) (d_ip st) then input_overrun st
  else
    st ← copy_in st;
    st ← (if 1 <? t then
            st ← copy_in st;
            (if 2 <? t then copy_in st else Ok st)
          else Ok st);
    t ← rd inp (d_ip st);
    let st := Dst (d_ip st + 1) (d_out st) in
    Ok (Goto (if d_ip st <? in_len then L_match t else L_outer) st).

(** One round of the outer [while (ip < ip_end)]. *)
Definition outer (st : dst) : result jump :=
  if d_ip st <? in_len then
    t ← rd inp (d_ip st);
    let st := Dst (d_ip st + 1) (d_out st) in
    if 16 <=? t then Ok (Goto (L_match t) st)
    else
      r ← (if t =? 0 then extend_len 15 t (d_ip st) else Ok (Some (t, d_ip st)));
      match r with
      | None => input_overrun st
      | Some (t, ip) => literal_run t (Dst ip (d_out st))
      end
  else Ok (Return LZO_E_EOF_NOT_FOUND st).

Definition dstep (l : label) (st : dst) : result jump :=
  match l with
  | L_outer => outer st
  | L_first_literal_run => first_literal_run st
  | L_match t => do_match t st
  | L_match_next t => match_next t st
  end.

Fixpoint drun (fuel : nat) (l : label) (st : dst) : result (Z * list Z) :=
  match fuel with
  | O => NoFuel
  | S fuel =>
      j ← dstep l st;
      match j with
      | Goto l st => drun fuel l st
      | Return code st => Ok (code, d_out st)
      end
  end.

(** The function: the return code and the bytes of [out[0 .. *out_len)]. *)
Definition lzo1x_decompress_safe : result (Z * list Z) :=
  b ← rd inp 0;
  if 17 <? b then
    let t := b - 17 in
    let st := Dst 1 [] in
    if t <? 4 then drun (S (length inp)) (L_match_next t) st
    else if HAVE_OP t (d_op st) then Ok (LZO_E_OUTPUT_OVERRUN, [])
    else if HAVE_IP (u32 (t + 1)) (d_ip st) then Ok (LZO_E_INPUT_OVERRUN, [])
    else
      st ← copy_in_loop (times t) st;
      drun (S (length inp)) L_first_literal_run st
  else drun (S (length inp)) L_outer (Dst 0 []).

End decompress.
End Lzo.
