(* ===== verification/LzoCompress.v ===== *)
(** The LZO1X-1 compressor, [src/src/lib/lzo1x_compress.c].

    As in [LzoDecompress], pointers into the input are offsets from its start.
    The hash table [dict] lives in the caller's work memory, which nobody
    initialises: its entries are arbitrary pointers, so offsets from [in] that
    may be negative or beyond the input. *)
From S2P Require Import Prelude LzoDecompress.

Module Comp.
Import Lzo.

(** [ip], [ii], [dict] and the bytes written so far. *)
Record cst := Cst {
  c_ip : Z;
  c_ii : Z;
  c_dict : Z -> Z;
  c_out : list Z
}.

Definition D_BITS : Z := 14.
Definition D_MASK : Z := 2 ^ D_BITS - 1.
Definition D_HIGH : Z := Z.shiftr D_MASK 1 + 1.

(** [dict[i] = v] *)
Definition dict_set (d : Z -> Z) (i v : Z) : Z -> Z :=
  fun k => if k =? i then v else d k.

(** What the code does with a candidate [m_pos]: take it as no match, compare
    the first three bytes, or look in the second slot. *)
Inductive probe := P_literal | P_try_match | P_rehash.

(** [op[-2] |= t] *)
Definition or_op_m2 (t : Z) (out : list Z) : result (list Z) :=
  let i := (length out - 2)%nat in
  if zlen out <? 2 then Stray Wr
  else b ← rd out (Z.of_nat i); Ok (<[i := u8 (Z.lor b t)]> out).

(** [*op++ = b], a store to an [unsigned char] *)
Definition emit (b : Z) (out : list Z) : list Z := out ++ [u8 b].

(** [while (tt > 255) { tt -= 255; *op++ = 0; } *op++ = tt] *)
Fixpoint emit_zeros (fuel : nat) (tt : Z) (out : list Z) : result (list Z) :=
  match fuel with
  | O => NoFuel
  | S fuel =>
      if 255 <? tt then emit_zeros fuel (tt - 255) (emit 0 out)
      else Ok (emit tt out)
  end.

(** The length of a literal run of [t] bytes (both functions have this code). *)
Definition emit_run_len (t : Z) (out : list Z) : result (list Z) :=
  if t <=? 3 then or_op_m2 t out
  else if t <=? 18 then Ok (emit (t - 3) out)
  else emit_zeros (Z.to_nat t) (t - 18) (emit 0 out).

(** [m3_m4_offset:] *)
Definition emit_offset (m_off : Z) (out : list Z) : list Z :=
  emit (Z.shiftr m_off 6) (emit (Z.shiftl (Z.land m_off 63) 2) out).

(** The code of a match of at most [M2_MAX_LEN] bytes. *)
Definition emit_short_match (m_off m_len : Z) (out : list Z) : list Z :=
  if m_off <=? M2_MAX_OFFSET then
    let m_off := m_off - 1 in
    emit (Z.shiftr m_off 3)
      (emit (Z.lor (Z.shiftl (m_len - 1) 5) (Z.shiftl (Z.land m_off 7) 2)) out)
  else if m_off <=? M3_MAX_OFFSET then
    let m_off := m_off - 1 in
    emit_offset m_off (emit (Z.lor M3_MARKER (m_len - 2)) out)
  else
    let m_off := m_off - 0x4000 in
    emit_offset m_off
      (emit (Z.lor (Z.lor M4_MARKER (Z.shiftr (Z.land m_off 0x4000) 11)) (m_len - 2)) out).

(** The code of a longer match. *)
Definition emit_long_match (m_off m_len : Z) (out : list Z) : result (list Z) :=
  if m_off <=? M3_MAX_OFFSET then
    let m_off := m_off - 1 in
    if m_len <=? 33 then
      Ok (emit_offset m_off (emit (Z.lor M3_MARKER (m_len - 2)) out))
    else
      let m_len := m_len - 33 in
      out ← emit_zeros (Z.to_nat m_len) m_len (emit (Z.lor M3_MARKER 0) out);
      Ok (emit_offset m_off out)
  else
    let m_off := m_off - 0x4000 in
    let m4 := Z.lor M4_MARKER (Z.shiftr (Z.land m_off 0x4000) 11) in
    if m_len <=? M4_MAX_LEN then
      Ok (emit_offset m_off (emit (Z.lor m4 (m_len - 2)) out))
    else
      let m_len := m_len - M4_MAX_LEN in
      out ← emit_zeros (Z.to_nat m_len) m_len (emit m4 out);
      Ok (emit_offset m_off out).

Section compress.
Context (inp : list Z).

Definition in_len : Z := zlen inp.
Definition ip_end : Z := in_len - M2_MAX_LEN - 5.

(** [DX3(ip, 5, 5, 6)] and the first hash. *)
Definition DX3_5_5_6 (ip : Z) : result Z :=
  p0 ← rd inp ip; p1 ← rd inp (ip + 1); p2 ← rd inp (ip + 2); p3 ← rd inp (ip + 3);
  let dx2 := Z.lxor (Z.shiftl (Z.lxor (Z.shiftl p3 6) p2) 5) p1 in
  Ok (Z.lxor (Z.shiftl dx2 5) p0).

Definition hash1 (ip : Z) : result Z :=
  dx ← DX3_5_5_6 ip;
  Ok (Z.land (Z.shiftr (u32 (0x21 * dx)) 5) D_MASK).

Definition hash2 (dindex : Z) : Z :=
  Z.lxor (Z.land dindex (Z.land D_MASK 0x7ff)) (Z.lor D_HIGH 0x1f).

(** The checks on one slot of the table. *)
Definition check_slot (m_pos ip : Z) : result probe :=
  if m_pos <? 0 then Ok P_literal
  else if (ip =? m_pos) || (M4_MAX_OFFSET <? u32 (ip - m_pos)) then Ok P_literal
  else
    let m_off := ip - m_pos in
    if m_off <=? M2_MAX_OFFSET then Ok P_try_match
    else
      a ← rd inp (m_pos + 3); b ← rd inp (ip + 3);
      Ok (if a =? b then P_try_match else P_rehash).

(** [try_match:], the [unsigned short] comparison byte by byte. *)
Definition try_match (m_pos ip : Z) : result bool :=
  a0 ← rd inp m_pos; a1 ← rd inp (m_pos + 1);
  b0 ← rd inp ip; b1 ← rd inp (ip + 1);
  if (a0 =? b0) && (a1 =? b1) then
    a2 ← rd inp (m_pos + 2); b2 ← rd inp (ip + 2); Ok (a2 =? b2)
  else Ok false.

(** From the top of the loop to [literal:] ([None]) or [match:] ([Some m_pos]),
    with the slot the loop then stores [ip] in. *)
Definition lookup_match (dict : Z -> Z) (ip : Z) : result (Z * option Z) :=
  dindex ← hash1 ip;
  let m_pos := dict dindex in
  p ← check_slot m_pos ip;
  match p with
  | P_literal => Ok (dindex, @None Z)
  | P_try_match =>
      m ← try_match m_pos ip; Ok (dindex, if (m : bool) then Some m_pos else None)
  | P_rehash =>
      let dindex := hash2 dindex in
      let m_pos := dict dindex in
      p ← check_slot m_pos ip;
      match p with
      | P_try_match =>
          m ← try_match m_pos ip; Ok (dindex, if (m : bool) then Some m_pos else None)
      | _ => Ok (dindex, @None Z)
      end
  end.

(** [do { *op++ = *ii++; } while (--t > 0)] *)
Fixpoint copy_lits (n : nat) (ii : Z) (out : list Z) : result (Z * list Z) :=
  match n with
  | O => Ok (ii, out)
  | S n => b ← rd inp ii; copy_lits n (ii + 1) (emit b out)
  end.

(** [m_pos[3] != *ip++ || ... || m_pos[8] != *ip++]: with [ip] at the byte
    compared with [m_pos[j]], the first [ip] that differs, or [None] when none
    of the [n] comparisons does. *)
Fixpoint mismatch (n : nat) (m ip : Z) : result (option Z) :=
  match n with
  | O => Ok None
  | S n =>
      a ← rd inp m; b ← rd inp ip;
      if a =? b then mismatch n (m + 1) (ip + 1) else Ok (Some ip)
  end.

(** [while (ip < end && *m == *ip) { m++; ip++; }] *)
Fixpoint extend_match (fuel : nat) (m ip : Z) : result Z :=
  match fuel with
  | O => NoFuel
  | S fuel =>
      if ip <? in_len then
        a ← rd inp m; b ← rd inp ip;
        if a =? b then extend_match fuel (m + 1) (ip + 1) else Ok ip
      else Ok ip
  end.

(** [match:] *)
Definition do_match (m_pos dindex : Z) (st : cst) : result cst :=
  let ip := c_ip st in
  let m_off := ip - m_pos in
  let dict := dict_set (c_dict st) dindex ip in
  '(ii, out) ←
    (if ip =? c_ii st then Ok (c_ii st, c_out st)
     else
       let t := ip - c_ii st in
       out ← emit_run_len t (c_out st);
       copy_lits (Z.to_nat t) (c_ii st) out);
  r ← mismatch 6 (m_pos + 3) (ip + 3);
  match r with
  | Some ip =>
      let m_len := ip - ii in
      Ok (Cst ip ip dict (emit_short_match m_off m_len out))
  | None =>
      ip ← extend_match (S (length inp)) (m_pos + M2_MAX_LEN + 1) (ip + 9);
      let m_len := ip - ii in
      out ← emit_long_match m_off m_len out;
      Ok (Cst ip ip dict out)
  end.

(** One round of [for (;;)] and the state after it. *)
Definition cstep (st : cst) : result cst :=
  '(dindex, m) ← lookup_match (c_dict st) (c_ip st);
  match m with
  | None =>
      (* literal: *)
      Ok (Cst (c_ip st + 1) (c_ii st) (dict_set (c_dict st) dindex (c_ip st)) (c_out st))
  | Some m_pos => do_match m_pos dindex st
  end.

Fixpoint cloop (fuel : nat) (st : cst) : result cst :=
  match fuel with
  | O => NoFuel
  | S fuel =>
      st ← cstep st;
      if ip_end <=? c_ip st then Ok st else cloop fuel st
  end.

(** [_lzo1x_1_do_compress]: the bytes written and the number of input bytes
    left over. *)
Definition _lzo1x_1_do_compress (wrkmem : Z -> Z) : result (list Z * Z) :=
  st ← cloop (length inp) (Cst 4 0 wrkmem []);
  Ok (c_out st, in_len - c_ii st).

Definition lzo1x_1_compress (wrkmem : Z -> Z) : result (list Z) :=
  '(op, t) ←
    (if in_len <=? M2_MAX_LEN + 5 then Ok ([], in_len)
     else _lzo1x_1_do_compress wrkmem);
  op ←
    (if 0 <? t then
       let ii := in_len - t in
       op ← (if (zlen op =? 0) && (t <=? 238) then Ok (emit (17 + t) op)
             else emit_run_len t op);
       '(_, op) ← copy_lits (Z.to_nat t) ii op;
       Ok op
     else Ok op);
  Ok (emit 0 (emit 0 (emit (Z.lor M4_MARKER 1) op))).

End compress.
End Comp.
