(* ===== verification/LzoFormat.v ===== *)
(** The LZO1X-1 stream as a sequence of tokens: the abstract object between
    the compressor and the decompressor.

    A token is a run of literals followed by a match [(offset, length)]. Its
    meaning appends the literals to the output and then copies [length] bytes
    from [offset] bytes back. [encode] writes a token list as the compressor's
    byte format; the number of a short run (at most three literals) is kept in
    the two low bits of the last-but-one byte of the match before it. *)
From S2P Require Import Prelude LzoDecompress.

Module Fmt.
Import Lzo.

Record token := Tok { k_lits : list Z; k_off : Z; k_len : Z }.

(** ** Meaning *)

(** Append, [n] times, the byte [off] back from the end. *)
Fixpoint copy_back (n : nat) (off : Z) (out : list Z) : list Z :=
  match n with
  | O => out
  | S n =>
      match rd out (zlen out - off) with
      | Ok b => copy_back n off (out ++ [b])
      | _ => out
      end
  end.

Definition exec_token (out : list Z) (k : token) : list Z :=
  copy_back (Z.to_nat (k_len k)) (k_off k) (out ++ k_lits k).

Definition exec (out : list Z) (ks : list token) : list Z := foldl exec_token out ks.

(** What the format can express: an offset that reaches back into the output,
    at least three bytes, four when the offset needs the long form. *)
Definition token_ok (out : list Z) (k : token) : Prop :=
  1 <= k_off k <= M4_MAX_OFFSET /\
  k_off k <= zlen (out ++ k_lits k) /\
  3 <= k_len k /\
  (k_off k <= M2_MAX_OFFSET \/ 4 <= k_len k).

Fixpoint tokens_ok (out : list Z) (ks : list token) : Prop :=
  match ks with
  | [] => True
  | k :: ks => token_ok out k /\ tokens_ok (exec_token out k) ks
  end.

(** ** Encoding *)

(** A length beyond what the marker byte holds. *)
Definition ext_len (tt : Z) : list Z :=
  replicate (Z.to_nat ((tt - 1) / 255)) 0 ++ [tt - 255 * ((tt - 1) / 255)].

(** The bytes before a run of [n] literals. *)
Definition run_hdr (n : Z) : list Z :=
  if n <=? 3 then []
  else if n <=? 18 then [n - 3]
  else 0 :: ext_len (n - 18).

(** The bytes of a match before its last two, and these two: the last-but-one
    byte without its two low bits, and the last one. *)
Definition is_m2 (off len : Z) : bool := (len <=? M2_MAX_LEN) && (off <=? M2_MAX_OFFSET).
Definition o34 (off : Z) : Z := if off <=? M3_MAX_OFFSET then off - 1 else off - 0x4000.
Definition m4_marker (off : Z) : Z := if 0x8000 <=? off then 24 else 16.

Definition mb_head (off len : Z) : list Z :=
  if is_m2 off len then []
  else if off <=? M3_MAX_OFFSET then
    (if len <=? 33 then [32 + (len - 2)] else 32 :: ext_len (len - 33))
  else
    (if len <=? 9 then [m4_marker off + (len - 2)] else m4_marker off :: ext_len (len - 9)).

Definition mb_lo (off len : Z) : Z :=
  if is_m2 off len then (len - 1) * 32 + ((off - 1) mod 8) * 4
  else (o34 off mod 64) * 4.

Definition mb_hi (off len : Z) : Z :=
  if is_m2 off len then (off - 1) / 8 else (o34 off / 64) mod 256.

Definition match_bytes (off len low : Z) : list Z :=
  mb_head off len ++ [mb_lo off len + low; mb_hi off len].

Definition low_of (n : Z) : Z := if n <=? 3 then n else 0.

(** The length of the run that follows: of the first of [ks], or [fin]. *)
Definition next_run (ks : list token) (fin : Z) : Z :=
  match ks with
  | [] => fin
  | k :: _ => zlen (k_lits k)
  end.

Fixpoint enc_tokens (ks : list token) (fin : Z) : list Z :=
  match ks with
  | [] => []
  | k :: ks =>
      run_hdr (zlen (k_lits k)) ++ k_lits k ++
      match_bytes (k_off k) (k_len k) (low_of (next_run ks fin)) ++
      enc_tokens ks fin
  end.

Definition eof_marker : list Z := [17; 0; 0].

(** The whole stream: the tokens, the last run and the end marker. *)
Definition encode (ks : list token) (fin : list Z) : list Z :=
  (match ks with
   | [] => if (0 <? zlen fin) && (zlen fin <=? 238) then [17 + zlen fin]
           else run_hdr (zlen fin)
   | _ => enc_tokens ks (zlen fin) ++ run_hdr (zlen fin)
   end) ++ fin ++ eof_marker.

(** ** Lemmas *)

Lemma ext_len_range tt : 1 <= tt -> 1 <= tt - 255 * ((tt - 1) / 255) <= 255.
Proof. intros. Z.div_mod_to_equations. lia. Qed.

Lemma zlen_ext_len tt : 1 <= tt -> zlen (ext_len tt) = (tt - 1) / 255 + 1.
Proof.
  intros. unfold ext_len. rewrite zlen_app. unfold zlen at 1.
  rewrite length_replicate. unfold zlen; simpl.
  assert (0 <= (tt - 1) / 255) by (apply Z.div_pos; lia). lia.
Qed.

Lemma run_hdr_short n : n <= 3 -> run_hdr n = [].
Proof. intros. unfold run_hdr. destruct (Z.leb_spec n 3); [done|lia]. Qed.

Lemma low_of_range n : 0 <= n -> 0 <= low_of n <= 3.
Proof. intros. unfold low_of. destruct (Z.leb_spec n 3); lia. Qed.

Lemma low_of_long n : 3 < n -> low_of n = 0.
Proof. intros. unfold low_of. destruct (Z.leb_spec n 3); [lia|done]. Qed.

Lemma low_of_short n : n <= 3 -> low_of n = n.
Proof. intros. unfold low_of. destruct (Z.leb_spec n 3); [done|lia]. Qed.

Lemma enc_tokens_snoc ks k fin :
  enc_tokens (ks ++ [k]) fin =
  enc_tokens ks (zlen (k_lits k)) ++ run_hdr (zlen (k_lits k)) ++ k_lits k ++
  match_bytes (k_off k) (k_len k) (low_of fin).
Proof.
  induction ks as [|k' ks IH]; simpl.
  - by rewrite app_nil_r.
  - assert (next_run (ks ++ [k]) fin = next_run ks (zlen (k_lits k))) as ->
      by (by destruct ks).
    by rewrite IH, <- !app_assoc.
Qed.

Lemma exec_snoc out ks k : exec out (ks ++ [k]) = exec_token (exec out ks) k.
Proof. unfold exec. by rewrite foldl_app. Qed.

Lemma tokens_ok_snoc out ks k :
  tokens_ok out (ks ++ [k]) <-> tokens_ok out ks /\ token_ok (exec out ks) k.
Proof.
  revert out. induction ks as [|k' ks IH]; intros out; simpl; [tauto|].
  rewrite IH. tauto.
Qed.

Lemma copy_back_length n off out :
  1 <= off <= zlen out -> zlen (copy_back n off out) = zlen out + Z.of_nat n.
Proof.
  revert out. induction n as [|n IH]; intros out H; cbn [copy_back]; [lia|].
  destruct (rd_in_range out (zlen out - off)) as [b Hb]; [lia|].
  rewrite Hb, IH; rewrite zlen_app; unfold zlen in *; simpl; lia.
Qed.

Lemma copy_back_add n m off out :
  1 <= off <= zlen out ->
  copy_back (n + m) off out = copy_back m off (copy_back n off out).
Proof.
  revert out. induction n as [|n IH]; intros out H; cbn [copy_back plus]; [done|].
  destruct (rd_in_range out (zlen out - off)) as [b Hb]; [lia|].
  rewrite Hb. apply IH. rewrite zlen_app. unfold zlen in *; simpl; lia.
Qed.

Lemma exec_token_length out k :
  token_ok out k -> zlen (exec_token out k) = zlen out + zlen (k_lits k) + k_len k.
Proof.
  intros (Ho & Hl & Hn & _). unfold exec_token.
  rewrite copy_back_length by lia. rewrite zlen_app. lia.
Qed.

Lemma exec_length_ge out ks : tokens_ok out ks -> zlen out <= zlen (exec out ks).
Proof.
  revert out. induction ks as [|k ks IH]; intros out; [simpl; lia|]. intros [Hk Hks].
  pose proof (exec_token_length _ _ Hk) as Hl. apply IH in Hks. destruct Hk as (_ & _ & Hk & _).
  pose proof (zlen_nonneg (k_lits k)). simpl in *. lia.
Qed.

(** Copying back from a prefix of [l] whose next [n] bytes repeat those [off]
    bytes earlier extends the prefix. *)
Lemma copy_back_prefix (l : list Z) i n off :
  1 <= off <= i -> i + Z.of_nat n <= zlen l ->
  (forall j, i <= j < i + Z.of_nat n -> rd l j = rd l (j - off)) ->
  copy_back n off (take (Z.to_nat i) l) = take (Z.to_nat (i + Z.of_nat n)) l.
Proof.
  revert i. induction n as [|n IH]; intros i Hoff Hlen Heq; cbn [copy_back].
  - by rewrite Z.add_0_r.
  - assert (Hz : zlen (take (Z.to_nat i) l) = i).
    { unfold zlen in *. rewrite length_take. lia. }
    rewrite Hz.
    destruct (rd_in_range l i) as [b Hb]; [lia|].
    assert (Hr : rd (take (Z.to_nat i) l) (i - off) = Ok b).
    { rewrite <- (rd_app_l _ (drop (Z.to_nat i) l)) by lia.
      rewrite take_drop, <- Hb. symmetry. apply Heq. lia. }
    rewrite Hr. apply rd_Ok_iff in Hb as [_ Hb].
    rewrite <- take_S_r by done.
    replace (S (Z.to_nat i)) with (Z.to_nat (i + 1)) by lia.
    rewrite IH; [f_equal; lia|lia|lia|]. intros j Hj. apply Heq. lia.
Qed.

Lemma mb_lo_bits off len : exists q, mb_lo off len = q * 4.
Proof.
  unfold mb_lo. destruct (is_m2 off len); eexists.
  - replace 32 with (8 * 4) by lia. rewrite Z.mul_assoc, <- Z.mul_add_distr_r. done.
  - done.
Qed.

Lemma m4_marker_range off : m4_marker off = 16 \/ m4_marker off = 24.
Proof. unfold m4_marker. destruct (_ <=? _); auto. Qed.

(** The bytes of a match are bytes. *)
Lemma mb_lo_range off len :
  1 <= off -> 3 <= len -> 0 <= mb_lo off len <= 252.
Proof.
  intros. unfold mb_lo, is_m2.
  destruct (Z.leb_spec len M2_MAX_LEN); simpl; [|Z.div_mod_to_equations; lia].
  unfold M2_MAX_LEN in *.
  destruct (_ <=? _); Z.div_mod_to_equations; lia.
Qed.

Lemma mb_hi_range off len : 1 <= off -> 0 <= mb_hi off len < 256.
Proof.
  intros. unfold mb_hi, is_m2, M2_MAX_OFFSET.
  destruct (Z.leb_spec off 2048); rewrite ?andb_false_r;
    [destruct (_ <=? _)|]; simpl; Z.div_mod_to_equations; lia.
Qed.

End Fmt.
