(* ===== verification/LzoCompressFacts.v ===== *)
(** What the compressor writes: for every input and every content of the work
    memory, [lzo1x_1_compress] returns the encoding of a token list that stands
    for the input. *)
From S2P Require Import Prelude LzoDecompress LzoCompress LzoFormat.

Module CompFacts.
Import Lzo Fmt Comp.

(** ** The emitters *)

Lemma ext_len_step tt : 255 < tt -> ext_len tt = 0 :: ext_len (tt - 255).
Proof.
  intros. unfold ext_len.
  replace (tt - 255 - 1) with (tt - 1 + (-1) * 255) by lia.
  rewrite Z.div_add by lia.
  assert (1 <= (tt - 1) / 255) by (apply Z.div_le_lower_bound; lia).
  replace (Z.to_nat ((tt - 1) / 255)) with (S (Z.to_nat ((tt - 1) / 255 + -1))) by lia.
  simpl. do 3 f_equal. lia.
Qed.

Lemma ext_len_small tt : 1 <= tt <= 255 -> ext_len tt = [tt].
Proof.
  intros. unfold ext_len. rewrite (Z.div_small (tt - 1)) by lia.
  simpl. f_equal. lia.
Qed.

Lemma emit_zeros_spec fuel tt out :
  1 <= tt <= Z.of_nat fuel -> emit_zeros fuel tt out = Ok (out ++ ext_len tt).
Proof.
  revert tt out. induction fuel as [|fuel IH]; intros tt out H; [lia|].
  simpl. destruct (Z.ltb_spec 255 tt).
  - rewrite IH by lia. unfold emit. rewrite (ext_len_step tt) by lia.
    by rewrite <- app_assoc.
  - rewrite ext_len_small by lia. unfold emit. by rewrite u8_small by lia.
Qed.

Lemma emit_run_len_spec n out :
  4 <= n -> emit_run_len n out = Ok (out ++ run_hdr n).
Proof.
  intros. unfold emit_run_len, run_hdr.
  destruct (Z.leb_spec n 3); [lia|]. destruct (Z.leb_spec n 18).
  - unfold emit. by rewrite u8_small by lia.
  - rewrite emit_zeros_spec by lia. unfold emit. by rewrite <- app_assoc.
Qed.

Lemma or_op_m2_spec pre off len t :
  1 <= off -> 3 <= len -> 0 <= t <= 3 ->
  or_op_m2 t (pre ++ match_bytes off len 0) = Ok (pre ++ match_bytes off len t).
Proof.
  intros Ho Hl Ht. unfold or_op_m2, match_bytes. rewrite !app_assoc.
  set (p := pre ++ mb_head off len).
  assert ((length (p ++ [(mb_lo off len + 0)%Z; mb_hi off len]) - 2)%nat = length p) as ->.
  { rewrite length_app. simpl. lia. }
  destruct (Z.ltb_spec (zlen (p ++ [mb_lo off len + 0; mb_hi off len])) 2) as [H|_].
  { rewrite zlen_app in H. pose proof (zlen_nonneg p). unfold zlen in *; simpl in *. lia. }
  change (Z.of_nat (length p)) with (zlen p). rewrite rd_app_at.
  rewrite bind_Ok. f_equal. rewrite insert_app_r_alt by lia. rewrite Nat.sub_diag. simpl.
  do 2 f_equal. destruct (mb_lo_bits off len) as [q Hq].
  pose proof (mb_lo_range off len Ho Hl).
  rewrite Z.add_0_r, Hq. change 4 with (2 ^ 2).
  rewrite (lor_low q t 2) by lia. apply u8_small. lia.
Qed.

Ltac mb_unfold :=
  unfold match_bytes, mb_head, mb_lo, mb_hi, is_m2, o34, M2_MAX_LEN, M2_MAX_OFFSET,
    M3_MAX_OFFSET, M4_MAX_OFFSET, M4_MAX_LEN, M3_MARKER, M4_MARKER in *.

Lemma emit_offset_spec m_off out :
  0 <= m_off ->
  emit_offset m_off out = out ++ [(m_off mod 64) * 4 + 0; (m_off / 64) mod 256].
Proof.
  intros. unfold emit_offset, emit. rewrite <- app_assoc. simpl.
  change 63 with (2 ^ 6 - 1). rewrite land_mask by lia.
  bits_to_arith. repeat f_equal.
  change (2 ^ 6) with 64. change (2 ^ 2) with 4. rewrite u8_small; [lia|].
  pose proof (Z.mod_pos_bound m_off 64). lia.
Qed.

Lemma m4_marker_spec off :
  M3_MAX_OFFSET < off <= M4_MAX_OFFSET ->
  Z.lor M4_MARKER (Z.shiftr (Z.land (off - 0x4000) 0x4000) 11) = m4_marker off.
Proof.
  unfold M3_MAX_OFFSET, M4_MAX_OFFSET, M4_MARKER, m4_marker. intros.
  change 0x4000 with (2 ^ 14). rewrite land_bit by lia.
  destruct (Z.leb_spec 0x8000 off).
  - replace ((off - 2 ^ 14) / 2 ^ 14) with 1; [done|].
    apply Z.div_unique with (r := off - 2 ^ 15); lia.
  - rewrite Z.div_small by lia. done.
Qed.

Lemma lor_small m n k :
  0 <= k -> (exists q, m = q * 2 ^ k) -> 0 <= n < 2 ^ k -> Z.lor m n = m + n.
Proof. intros ? [q ->] ?. by apply lor_low. Qed.

Lemma emit_short_match_spec off len out :
  1 <= off <= M4_MAX_OFFSET -> 3 <= len <= M2_MAX_LEN ->
  emit_short_match off len out = out ++ match_bytes off len 0.
Proof.
  intros Ho Hl. unfold emit_short_match, match_bytes, mb_head, mb_lo, mb_hi, is_m2.
  unfold M2_MAX_LEN in *. destruct (Z.leb_spec len 8); [simpl|lia].
  destruct (Z.leb_spec off M2_MAX_OFFSET) as [H2|H2]; unfold M2_MAX_OFFSET in H2.
  - unfold emit. rewrite <- app_assoc. simpl.
    change 7 with (2 ^ 3 - 1). rewrite land_mask by lia. bits_to_arith.
    change (2 ^ 3) with 8. change (2 ^ 5) with 32. change (2 ^ 2) with 4.
    rewrite (lor_small _ _ 5) by (Z.div_mod_to_equations; eauto with lia).
    rewrite !u8_small by (Z.div_mod_to_equations; lia).
    by rewrite Z.add_0_r.
  - unfold o34. destruct (Z.leb_spec off M3_MAX_OFFSET) as [H3|H3].
    + rewrite emit_offset_spec by lia. unfold emit, M3_MARKER.
      rewrite (lor_small 32 _ 5) by (try exists 1; lia).
      rewrite u8_small by lia.
      destruct (Z.leb_spec len 33); [|lia]. by rewrite <- !app_assoc.
    + rewrite m4_marker_spec by lia.
      unfold M3_MAX_OFFSET in *.
      rewrite emit_offset_spec by lia. unfold emit.
      destruct (m4_marker_range off) as [-> | ->];
        [rewrite (lor_small 16 _ 3) by (try exists 2; lia)
        |rewrite (lor_small 24 _ 3) by (try exists 3; lia)];
        rewrite u8_small by lia;
        (destruct (Z.leb_spec len 9); [|lia]; by rewrite <- !app_assoc).
Qed.

Lemma emit_long_match_spec off len out :
  1 <= off <= M4_MAX_OFFSET -> M2_MAX_LEN < len ->
  emit_long_match off len out = Ok (out ++ match_bytes off len 0).
Proof.
  intros Ho Hl. unfold emit_long_match, match_bytes, mb_head, mb_lo, mb_hi, is_m2, o34.
  unfold M2_MAX_LEN, M4_MAX_LEN in *. destruct (Z.leb_spec len 8); [lia|simpl].
  destruct (Z.leb_spec off M3_MAX_OFFSET) as [H3|H3].
  - unfold M3_MARKER. destruct (Z.leb_spec len 33).
    + rewrite emit_offset_spec by lia. unfold emit.
      rewrite (lor_small 32 _ 5) by (try exists 1; lia).
      rewrite u8_small by lia. by rewrite <- !app_assoc.
    + rewrite emit_zeros_spec by lia. rewrite bind_Ok, emit_offset_spec by lia.
      unfold emit. by rewrite <- !app_assoc.
  - rewrite m4_marker_spec by lia. unfold M3_MAX_OFFSET in *.
    assert (Hm : u8 (m4_marker off) = m4_marker off).
    { apply u8_small. destruct (m4_marker_range off); lia. }
    destruct (Z.leb_spec len 9).
    + rewrite emit_offset_spec by lia. unfold emit.
      assert (len = 9) as -> by lia.
      destruct (m4_marker_range off) as [-> | ->]; by rewrite <- !app_assoc.
    + rewrite emit_zeros_spec by lia. rewrite bind_Ok, emit_offset_spec by lia.
      unfold emit. rewrite Hm. by rewrite <- !app_assoc.
Qed.

(** ** The match finder *)

(** The input lies above the first [M4_MAX_OFFSET] bytes of the 32-bit address
    space, so no pointer left in the work memory is close enough to the end of
    the space to look near [ip] after a wrap-around. *)
Definition wrkmem_ok (d : Z -> Z) : Prop := forall k, d k < 2 ^ 32 - M4_MAX_OFFSET.

(** [l[i .. i+n)] repeats the bytes [off] back. *)
Definition repeats (l : list Z) (i n off : Z) : Prop :=
  forall j, i <= j < i + n -> rd l j = rd l (j - off).

Lemma repeats_add l i n m off :
  repeats l i n off -> repeats l (i + n) m off -> repeats l i (n + m) off.
Proof.
  intros H1 H2 j Hj. destruct (Z.ltb_spec j (i + n)); [apply H1|apply H2]; lia.
Qed.

Lemma repeats_1 l i off : rd l (i - off) = rd l i -> repeats l i 1 off.
Proof. intros H j Hj. replace j with i by lia. done. Qed.

Section finder.
Context (inp : list Z) (Hlen : zlen inp < 2 ^ 31).

(** Reads a byte that is in range, naming it. *)
Ltac rd_ok i b Hb :=
  let H := fresh in
  assert (H : exists b, rd inp i = Ok b) by (apply rd_in_range; lia);
  destruct H as [b Hb]; rewrite Hb, bind_Ok.

Lemma hash1_ok ip : 0 <= ip -> ip + 4 <= zlen inp -> exists h, hash1 inp ip = Ok h.
Proof.
  intros. unfold hash1, DX3_5_5_6.
  rd_ok ip b0 H0'. rd_ok (ip + 1) b1 H1'. rd_ok (ip + 2) b2 H2'. rd_ok (ip + 3) b3 H3'.
  rewrite bind_Ok. eauto.
Qed.

Lemma check_slot_spec m_pos ip :
  0 <= ip -> ip + 4 <= zlen inp -> m_pos < 2 ^ 32 - M4_MAX_OFFSET ->
  exists p, check_slot inp m_pos ip = Ok p /\
    (p <> P_literal -> 0 <= m_pos < ip /\ ip - m_pos <= M4_MAX_OFFSET) /\
    (p = P_try_match ->
       ip - m_pos <= M2_MAX_OFFSET \/ rd inp (m_pos + 3) = rd inp (ip + 3)).
Proof.
  intros Hip Hend Hm. unfold check_slot, M4_MAX_OFFSET in *.
  destruct (Z.ltb_spec m_pos 0). { eexists. split; [done|]. split; intros; congruence. }
  destruct (Z.eqb_spec ip m_pos). { eexists. split; [done|]. split; intros; congruence. }
  destruct (Z.ltb_spec 49151 (u32 (ip - m_pos))) as [|Hu].
  { eexists. split; [done|]. split; intros; congruence. }
  assert (Hlt : m_pos < ip).
  { destruct (Z.ltb_spec m_pos ip); [done|]. exfalso.
    assert (u32 (ip - m_pos) = ip - m_pos + 2 ^ 32).
    { unfold u32. symmetry. apply Z.mod_unique with (q := -1); lia. }
    lia. }
  rewrite u32_small in Hu by lia. simpl.
  destruct (Z.leb_spec (ip - m_pos) M2_MAX_OFFSET).
  { eexists. split; [done|]. split; intros; [lia|]. auto. }
  rd_ok (m_pos + 3) a Ha. rd_ok (ip + 3) b Hb.
  eexists. split; [done|]. split; [intros; lia|].
  destruct (Z.eqb_spec a b); [|done]. intros _. right. congruence.
Qed.

Lemma try_match_spec m_pos ip :
  0 <= m_pos < ip -> ip + 4 <= zlen inp ->
  exists b, try_match inp m_pos ip = Ok b /\
    (b = true -> repeats inp ip 3 (ip - m_pos)).
Proof.
  intros Hm Hend. unfold try_match.
  rd_ok m_pos a0 Ha0. rd_ok (m_pos + 1) a1 Ha1. rd_ok ip b0 Hb0. rd_ok (ip + 1) b1 Hb1.
  destruct (Z.eqb_spec a0 b0), (Z.eqb_spec a1 b1); simpl;
    try (eexists; split; [done|]; done).
  rd_ok (m_pos + 2) a2 Ha2. rd_ok (ip + 2) b2 Hb2.
  eexists. split; [done|]. intros ->%Z.eqb_eq.
  change 3 with (1 + (1 + 1)).
  repeat (apply repeats_add); apply repeats_1;
    [replace (ip - (ip - m_pos)) with m_pos by lia
    |replace (ip + 1 - (ip - m_pos)) with (m_pos + 1) by lia
    |replace (ip + 1 + 1 - (ip - m_pos)) with (m_pos + 2) by lia;
     replace (ip + 1 + 1) with (ip + 2) by lia]; congruence.
Qed.

(** A match that the finder reports repeats at least three bytes, and four when
    it is too far for the short form. *)
Definition found (ip m_pos : Z) : Prop :=
  0 <= m_pos < ip /\ ip - m_pos <= M4_MAX_OFFSET /\
  repeats inp ip 3 (ip - m_pos) /\
  (ip - m_pos <= M2_MAX_OFFSET \/ repeats inp (ip + 3) 1 (ip - m_pos)).

Lemma slot_found m_pos ip :
  0 <= ip -> ip + 4 <= zlen inp -> 0 <= m_pos < ip -> ip - m_pos <= M4_MAX_OFFSET ->
  (ip - m_pos <= M2_MAX_OFFSET \/ rd inp (m_pos + 3) = rd inp (ip + 3)) ->
  exists b, try_match inp m_pos ip = Ok b /\ (b = true -> found ip m_pos).
Proof.
  intros Hip Hend Hm Hoff Hfar. destruct (try_match_spec m_pos ip) as (b & Hb & Hr); [lia..|].
  exists b. split; [done|]. intros ->. unfold found. repeat split; auto; try lia.
  destruct Hfar as [|Hfar]; [auto|]. right. apply repeats_1.
  replace (ip + 3 - (ip - m_pos)) with (m_pos + 3) by lia. done.
Qed.

Lemma lookup_match_spec d ip :
  wrkmem_ok d -> 0 <= ip -> ip + 4 <= zlen inp ->
  exists i m, lookup_match inp d ip = Ok (i, m) /\
    (forall m_pos, m = Some m_pos -> found ip m_pos).
Proof.
  intros Hd Hip Hend. unfold lookup_match.
  destruct (hash1_ok ip) as [h ->]; [lia..|]. rewrite bind_Ok.
  destruct (check_slot_spec (d h) ip) as (p & -> & Hp & Ht); [lia..|apply Hd|].
  rewrite bind_Ok. destruct p.
  - do 2 eexists. split; [done|]. intros; discriminate.
  - destruct (slot_found (d h) ip) as (b & -> & Hb); try (apply Hp || apply Ht); auto; try done.
    rewrite bind_Ok. do 2 eexists. split; [done|]. destruct b; [|done].
    intros m_pos [= <-]. auto.
  - set (h2 := hash2 h).
    destruct (check_slot_spec (d h2) ip) as (p & -> & Hp2 & Ht2); [lia..|apply Hd|].
    rewrite bind_Ok. destruct p; try (do 2 eexists; split; [done|]; intros; discriminate).
    destruct (slot_found (d h2) ip) as (b & -> & Hb); try (apply Hp2 || apply Ht2); auto; try done.
    rewrite bind_Ok. do 2 eexists. split; [done|]. destruct b; [|done].
    intros m_pos [= <-]. auto.
Qed.

Lemma mismatch_spec n m ip :
  0 <= m < ip -> ip + Z.of_nat n <= zlen inp ->
  exists r, mismatch inp n m ip = Ok r /\
    match r with
    | None => repeats inp ip (Z.of_nat n) (ip - m)
    | Some q => ip <= q < ip + Z.of_nat n /\ repeats inp ip (q - ip) (ip - m) /\
                rd inp (q - (ip - m)) <> rd inp q
    end.
Proof.
  revert m ip. induction n as [|n IH]; intros m ip Hm Hend; cbn [mismatch].
  - eexists. split; [done|]. intros j Hj. lia.
  - rd_ok m a Ha. rd_ok ip b Hb. destruct (Z.eqb_spec a b) as [->|Hne].
    + destruct (IH (m + 1) (ip + 1)) as (r & -> & Hr); [lia..|].
      exists r. split; [done|].
      replace (ip + 1 - (m + 1)) with (ip - m) in Hr by lia.
      assert (H1 : repeats inp ip 1 (ip - m)).
      { apply repeats_1. replace (ip - (ip - m)) with m by lia. congruence. }
      destruct r as [q|].
      * destruct Hr as (Hq & Hr & Hd). split; [lia|]. split; [|done].
        replace (q - ip) with (1 + (q - (ip + 1))) by lia. by apply repeats_add.
      * replace (Z.of_nat (S n)) with (1 + Z.of_nat n) by lia. by apply repeats_add.
    + eexists. split; [done|]. split; [lia|]. split; [intros j Hj; lia|].
      replace (ip - (ip - m)) with m by lia. congruence.
Qed.

Lemma extend_match_spec fuel m ip :
  0 <= m < ip -> ip <= zlen inp -> zlen inp - ip < Z.of_nat fuel ->
  exists q, extend_match inp fuel m ip = Ok q /\ ip <= q <= zlen inp /\
    repeats inp ip (q - ip) (ip - m).
Proof.
  revert m ip. induction fuel as [|fuel IH]; intros m ip Hm Hend Hf; [lia|].
  cbn [extend_match]. unfold Comp.in_len. destruct (Z.ltb_spec ip (zlen inp)).
  - rd_ok m a Ha. rd_ok ip b Hb. destruct (Z.eqb_spec a b) as [->|].
    + destruct (IH (m + 1) (ip + 1)) as (q & Hq & Hr & Hrep); [lia..|].
      exists q. split; [exact Hq|]. split; [lia|].
      replace (ip + 1 - (m + 1)) with (ip - m) in Hrep by lia.
      replace (q - ip) with (1 + (q - (ip + 1))) by lia. apply repeats_add; [|done].
      apply repeats_1. replace (ip - (ip - m)) with m by lia. congruence.
    + eexists. split; [done|]. split; [lia|]. intros j Hj; lia.
  - eexists. split; [done|]. split; [lia|]. intros j Hj; lia.
Qed.

Lemma copy_lits_spec (Hb : Forall is_byte inp) n ii out :
  0 <= ii -> ii + Z.of_nat n <= zlen inp ->
  copy_lits inp n ii out = Ok (ii + Z.of_nat n, out ++ zslice inp ii (Z.of_nat n)).
Proof.
  revert ii out. induction n as [|n IH]; intros ii out Hii Hend; cbn [copy_lits].
  - unfold zslice. rewrite take_0, app_nil_r. do 2 f_equal. lia.
  - rd_ok ii b Hb'. rewrite IH by lia.
    replace (Z.of_nat (S n)) with (1 + Z.of_nat n) by lia.
    rewrite (zslice_S _ _ _ b) by (lia || done). unfold emit.
    rewrite u8_small by (apply (Forall_rd _ _ _ _ Hb Hb')).
    rewrite <- app_assoc. do 2 f_equal. lia.
Qed.

End finder.

(** ** The loop *)

Lemma enc_tokens_low ks a b : low_of a = low_of b -> enc_tokens ks a = enc_tokens ks b.
Proof.
  intros H. induction ks as [|k ks IH]; [done|]. cbn [enc_tokens]. rewrite IH.
  do 3 f_equal. unfold match_bytes. do 2 f_equal. f_equal. by destruct ks.
Qed.

Lemma emit_run_spec ks n :
  tokens_ok [] ks -> 0 < n -> (n <= 3 -> ks <> []) ->
  emit_run_len n (enc_tokens ks 0) = Ok (enc_tokens ks n ++ run_hdr n).
Proof.
  intros Hks Hn Hne. destruct (Z.leb_spec n 3) as [H3|H3].
  - destruct ks as [|k ks _] using rev_ind; [by destruct (Hne H3)|].
    apply tokens_ok_snoc in Hks as [_ (Ho & _ & Hl & _)].
    unfold emit_run_len. destruct (Z.leb_spec n 3); [|lia].
    rewrite !enc_tokens_snoc, (run_hdr_short n), app_nil_r, !app_assoc by lia.
    rewrite (low_of_short 0), (low_of_short n) by lia.
    apply or_op_m2_spec; lia.
  - rewrite emit_run_len_spec by lia. do 2 f_equal. apply enc_tokens_low.
    by rewrite (low_of_long n) by lia.
Qed.

(** The tokens start with a run of at least four literals (the loop starts at
    [in + 4]), so no run count is ever stored before the start of the output. *)
Definition first_run_ok (ks : list token) : Prop :=
  match ks with
  | [] => True
  | k :: _ => 4 <= zlen (k_lits k)
  end.

(** The state at the head of the loop: the bytes written are the encoding of
    tokens that stand for [in[0 .. ii)]. *)
Record cinv (inp : list Z) (st : cst) (ks : list token) : Prop := {
  ci_out : c_out st = enc_tokens ks 0;
  ci_exec : exec [] ks = take (Z.to_nat (c_ii st)) inp;
  ci_tokens : tokens_ok [] ks;
  ci_first : first_run_ok ks;
  ci_ii : 0 <= c_ii st <= c_ip st;
  ci_ip : 4 <= c_ip st <= zlen inp;
  ci_start : ks = [] -> c_ii st = 0;
  ci_dict : wrkmem_ok (c_dict st)
}.

Lemma first_run_ok_snoc ks k :
  first_run_ok ks -> (ks = [] -> 4 <= zlen (k_lits k)) -> first_run_ok (ks ++ [k]).
Proof. destruct ks; simpl; auto. Qed.

Lemma wrkmem_ok_set d i v : wrkmem_ok d -> v < 2 ^ 31 -> wrkmem_ok (dict_set d i v).
Proof.
  intros Hd Hv k. unfold dict_set. destruct (k =? i); [|apply Hd].
  unfold M4_MAX_OFFSET. lia.
Qed.

Section loop.
Context (inp : list Z) (Hlen : zlen inp < 2 ^ 31) (Hbytes : Forall is_byte inp).

Lemma emit_literals_spec st ks :
  cinv inp st ks ->
  let n := c_ip st - c_ii st in
  (if c_ip st =? c_ii st then Ok (c_ii st, c_out st)
   else
     out ← emit_run_len n (c_out st);
     copy_lits inp (Z.to_nat n) (c_ii st) out)
  = Ok (c_ip st, enc_tokens ks n ++ run_hdr n ++ zslice inp (c_ii st) n).
Proof.
  intros [Ho He Ht Hf Hii Hip Hs Hd] n. unfold n in *. clear n.
  destruct (Z.eqb_spec (c_ip st) (c_ii st)) as [E|E].
  - rewrite E, Z.sub_diag, run_hdr_short by lia. unfold zslice.
    rewrite take_0, !app_nil_r. by rewrite Ho.
  - rewrite Ho, emit_run_spec; [|done|lia|].
    2: { intros H3 ->. specialize (Hs eq_refl). lia. }
    rewrite bind_Ok, copy_lits_spec by (done || lia).
    rewrite <- app_assoc. rewrite Z2Nat.id by lia. do 2 f_equal. lia.
Qed.

(** Adding the token of a match of [len] bytes found at [ip]. *)
Lemma cinv_match st ks off len d :
  cinv inp st ks ->
  1 <= off <= M4_MAX_OFFSET -> off <= c_ip st -> 3 <= len ->
  (off <= M2_MAX_OFFSET \/ 4 <= len) ->
  c_ip st + len <= zlen inp -> repeats inp (c_ip st) len off -> wrkmem_ok d ->
  let n := c_ip st - c_ii st in
  let lits := zslice inp (c_ii st) n in
  cinv inp
    (Cst (c_ip st + len) (c_ip st + len) d
       (enc_tokens ks n ++ run_hdr n ++ lits ++ match_bytes off len 0))
    (ks ++ [Tok lits off len]).
Proof.
  intros [Ho He Ht Hf Hii Hip Hs Hd] Hoff Hoff' Hl Hfar Hend Hrep Hd' n lits.
  assert (Hn : zlen lits = n) by (apply zlen_zslice; lia).
  assert (Hpre : exec [] ks ++ lits = take (Z.to_nat (c_ip st)) inp).
  { rewrite He. unfold lits. rewrite take_zslice by lia. do 2 f_equal. lia. }
  split; simpl.
  - rewrite enc_tokens_snoc. simpl. by rewrite Hn.
  - rewrite exec_snoc. unfold exec_token; simpl. rewrite Hpre.
    rewrite copy_back_prefix; rewrite ?Z2Nat.id by lia; [done|lia..|].
    intros j Hj. apply Hrep. lia.
  - rewrite tokens_ok_snoc. split; [done|]. unfold token_ok; simpl.
    rewrite Hpre, zlen_take by lia. lia.
  - apply first_run_ok_snoc; [done|]. intros ->. simpl. rewrite Hn. unfold n.
    rewrite Hs by done. lia.
  - lia.
  - lia.
  - intros E. by destruct ks.
  - done.
Qed.

Lemma do_match_spec st ks m_pos i :
  cinv inp st ks -> found inp (c_ip st) m_pos -> c_ip st + 9 <= zlen inp ->
  exists st' k, do_match inp m_pos i st = Ok st' /\
    cinv inp st' (ks ++ [k]) /\ c_ip st < c_ip st'.
Proof.
  intros Hinv (Hm & Hoff & Hr3 & Hfar) Hend. unfold do_match.
  pose proof (emit_literals_spec st ks Hinv) as Hlit. simpl in Hlit. rewrite Hlit.
  rewrite bind_Ok. set (n := c_ip st - c_ii st).
  assert (Hd : wrkmem_ok (dict_set (c_dict st) i (c_ip st))).
  { apply wrkmem_ok_set; [apply Hinv|lia]. }
  destruct (mismatch_spec inp 6 (m_pos + 3) (c_ip st + 3)) as (r & -> & Hr); [lia..|].
  rewrite bind_Ok. replace (c_ip st + 3 - (m_pos + 3)) with (c_ip st - m_pos) in Hr by lia.
  destruct r as [q|].
  - destruct Hr as (Hq & Hrep & Hdiff).
    set (len := q - c_ip st).
    assert (Hlen4 : c_ip st - m_pos <= M2_MAX_OFFSET \/ 4 <= len).
    { destruct Hfar as [|Hfar]; [auto|]. right. unfold len.
      destruct (decide (q = c_ip st + 3)) as [->|]; [|lia].
      exfalso. apply Hdiff. symmetry. apply Hfar. lia. }
    assert (Hrep' : repeats inp (c_ip st) len (c_ip st - m_pos)).
    { unfold len. replace (q - c_ip st) with (3 + (q - (c_ip st + 3))) by lia.
      by apply repeats_add. }
    rewrite emit_short_match_spec by (unfold M2_MAX_LEN; unfold len in *; lia).
    pose proof (cinv_match st ks (c_ip st - m_pos) len
      (dict_set (c_dict st) i (c_ip st)) Hinv) as Hc.
    do 2 eexists. split; [done|]. split; [|simpl; lia].
    rewrite <- !app_assoc. replace q with (c_ip st + len) at 1 2 by (unfold len; lia).
    apply Hc; auto; unfold len; lia.
  - destruct (extend_match_spec inp (S (length inp)) (m_pos + M2_MAX_LEN + 1) (c_ip st + 9))
      as (q & -> & Hq & Hrep); [unfold M2_MAX_LEN, zlen in *; lia..|].
    rewrite bind_Ok. set (len := q - c_ip st).
    rewrite emit_long_match_spec by (unfold M2_MAX_LEN, len; lia). rewrite bind_Ok.
    assert (Hrep' : repeats inp (c_ip st) len (c_ip st - m_pos)).
    { unfold len. replace (q - c_ip st) with (3 + (6 + (q - (c_ip st + 9)))) by lia.
      apply repeats_add; [done|]. apply repeats_add; [done|].
      replace (c_ip st + 9 - (m_pos + M2_MAX_LEN + 1)) with (c_ip st - m_pos) in Hrep
        by (unfold M2_MAX_LEN; lia).
      replace (c_ip st + 3 + 6) with (c_ip st + 9) by lia. done. }
    pose proof (cinv_match st ks (c_ip st - m_pos) len
      (dict_set (c_dict st) i (c_ip st)) Hinv) as Hc.
    do 2 eexists. split; [done|]. split; [|simpl; lia].
    rewrite <- !app_assoc. replace q with (c_ip st + len) at 1 2 by (unfold len; lia).
    apply Hc; auto; unfold len; lia.
Qed.

Lemma cstep_spec st ks :
  cinv inp st ks -> c_ip st + 9 <= zlen inp ->
  exists st' ks', cstep inp st = Ok st' /\ cinv inp st' ks' /\ c_ip st < c_ip st'.
Proof.
  intros Hinv Hend. unfold cstep.
  destruct (lookup_match_spec inp Hlen (c_dict st) (c_ip st)) as (i & m & -> & Hm);
    [apply Hinv|destruct Hinv; lia|lia|].
  rewrite bind_Ok. destruct m as [m_pos|].
  - destruct (do_match_spec st ks m_pos i) as (st' & k & ? & ? & ?); eauto.
  - destruct Hinv. do 2 eexists. split; [done|]. split; [|simpl; lia].
    split; simpl; eauto; try lia. apply wrkmem_ok_set; [done|lia].
Qed.

Lemma cloop_spec fuel st ks :
  cinv inp st ks -> c_ip st + 9 <= zlen inp -> zlen inp - c_ip st < Z.of_nat fuel ->
  exists st' ks', cloop inp fuel st = Ok st' /\ cinv inp st' ks'.
Proof.
  revert st ks. induction fuel as [|fuel IH]; intros st ks Hinv Hend Hf; [lia|].
  cbn [cloop]. destruct (cstep_spec st ks Hinv Hend) as (st' & ks' & -> & Hinv' & Hlt).
  rewrite bind_Ok. unfold ip_end, Comp.in_len, M2_MAX_LEN.
  destruct (Z.leb_spec (zlen inp - 8 - 5) (c_ip st')); [eauto|].
  apply IH with (ks := ks'); [done|lia|lia].
Qed.

Lemma do_compress_spec wrkmem :
  wrkmem_ok wrkmem -> M2_MAX_LEN + 5 < zlen inp ->
  exists ks ii, _lzo1x_1_do_compress inp wrkmem = Ok (enc_tokens ks 0, zlen inp - ii) /\
    tokens_ok [] ks /\ first_run_ok ks /\ 0 <= ii <= zlen inp /\
    exec [] ks = take (Z.to_nat ii) inp /\ (ks = [] -> ii = 0).
Proof.
  unfold M2_MAX_LEN. intros Hw Hbig.
  destruct (cloop_spec (length inp) (Cst 4 0 wrkmem []) []) as (st & ks & Hst & Hinv).
  - split; simpl; auto; lia.
  - simpl. lia.
  - simpl. unfold zlen. lia.
  - exists ks, (c_ii st). destruct Hinv. unfold _lzo1x_1_do_compress. rewrite Hst, bind_Ok.
    unfold Comp.in_len. rewrite ci_out0. repeat split; auto; lia.
Qed.

(** The compressor returns, without a stray access, the encoding of tokens that
    stand for its input, whatever the work memory holds. *)
Lemma compress_encodes wrkmem :
  wrkmem_ok wrkmem ->
  exists ks fin, lzo1x_1_compress inp wrkmem = Ok (encode ks fin) /\
    tokens_ok [] ks /\ first_run_ok ks /\ exec [] ks ++ fin = inp.
Proof.
  intros Hw. unfold lzo1x_1_compress, Comp.in_len.
  assert (Hmain : exists ks t,
    (if zlen inp <=? M2_MAX_LEN + 5 then Ok ([], zlen inp)
     else _lzo1x_1_do_compress inp wrkmem) = Ok (enc_tokens ks 0, t) /\
    tokens_ok [] ks /\ first_run_ok ks /\ 0 <= t <= zlen inp /\
    exec [] ks = take (Z.to_nat (zlen inp - t)) inp /\ (ks = [] -> t = zlen inp)).
  { destruct (Z.leb_spec (zlen inp) (M2_MAX_LEN + 5)).
    - exists [], (zlen inp). pose proof (zlen_nonneg inp).
      rewrite Z.sub_diag, take_0. repeat split; try done; lia.
    - destruct (do_compress_spec wrkmem Hw) as (ks & ii & -> & ? & ? & ? & ? & ?); [done|].
      exists ks, (zlen inp - ii). replace (zlen inp - (zlen inp - ii)) with ii by lia.
      repeat split; auto; try lia. intros E. specialize (H4 E). lia. }
  destruct Hmain as (ks & t & -> & Hks & Hf & Ht & He & Hs). rewrite bind_Ok.
  exists ks, (zslice inp (zlen inp - t) t).
  assert (Hzt : zlen (zslice inp (zlen inp - t) t) = t) by (apply zlen_zslice; lia).
  split; [|split; [done|]; split; [done|]].
  2: { rewrite He, take_zslice by lia. apply take_ge. unfold zlen. lia. }
  unfold encode. rewrite Hzt.
  assert (Hcl : forall o, copy_lits inp (Z.to_nat t) (zlen inp - t) o =
    Ok (zlen inp, o ++ zslice inp (zlen inp - t) t)).
  { intros o. rewrite copy_lits_spec by (done || lia). rewrite Z2Nat.id by lia.
    do 2 f_equal. lia. }
  assert (Heof : forall o, emit 0 (emit 0 (emit (Z.lor M4_MARKER 1) o)) = o ++ eof_marker).
  { intros o. unfold emit. by rewrite <- !app_assoc. }
  destruct (Z.ltb_spec 0 t) as [Hpos|].
  - destruct ks as [|k ks].
    + change (enc_tokens [] 0) with (@nil Z). change (zlen (@nil Z) =? 0) with true.
      rewrite !andb_true_l. destruct (Z.leb_spec t 238).
      * rewrite bind_Ok, Hcl, !bind_Ok, Heof. unfold emit. rewrite u8_small by lia.
        by rewrite app_assoc.
      * rewrite emit_run_len_spec by lia. rewrite bind_Ok, Hcl, !bind_Ok, Heof.
        by rewrite app_assoc.
    + assert (Hz : (zlen (enc_tokens (k :: ks) 0) =? 0) = false).
      { apply Z.eqb_neq. simpl. unfold match_bytes. rewrite !zlen_app, !zlen_cons.
        pose proof (zlen_nonneg (k_lits k)). pose proof (zlen_nonneg (run_hdr (zlen (k_lits k)))).
        pose proof (zlen_nonneg (mb_head (k_off k) (k_len k))).
        pose proof (zlen_nonneg (enc_tokens ks 0)). rewrite zlen_nil. lia. }
      rewrite Hz. simpl andb. cbv iota.
      rewrite emit_run_spec by (done || lia). rewrite bind_Ok, Hcl, !bind_Ok, Heof.
      by rewrite !app_assoc.
  - assert (t = 0) as -> by lia. rewrite bind_Ok, Heof.
    destruct ks; [done|]. cbn [andb]. rewrite run_hdr_short by lia. by rewrite !app_nil_r.
Qed.

End loop.

End CompFacts.
