(* ===== verification/LzoDecompressFacts.v ===== *)
(** Facts about the decompressor: its copy loops against the reference
    [copy_back], its behaviour on every input (it returns, it never writes
    outside the output buffer), and its run on an encoded token list. *)
From S2P Require Import Prelude LzoDecompress LzoFormat.

Module DecFacts.
Import Lzo Fmt.

Section copies.
Context (inp : list Z) (cap : Z).
Hypothesis Hcap : cap < 2 ^ 32.
Hypothesis Hin : zlen inp < 2 ^ 32.

Lemma rd_back_rd l i : 0 <= i < zlen l -> rd_back l i = rd l i.
Proof.
  intros [H1 H2]. unfold rd_back. destruct (Z.leb_spec 0 i); [|lia]. by destruct (Z.ltb_spec i (zlen l)); [|lia].
Qed.

Lemma put_ok b out : zlen out < cap -> put cap b out = Ok (out ++ [b]).
Proof. intros. unfold put. destruct (Z.ltb_spec (zlen out) cap); [done|lia]. Qed.

Lemma put4_ok b0 b1 b2 b3 out :
  zlen out + 4 <= cap -> put4 cap b0 b1 b2 b3 out = Ok (out ++ [b0; b1; b2; b3]).
Proof.
  intros. unfold put4.
  repeat (rewrite put_ok by (zlen_simp; lia);
          rewrite ?bind_Ok).
  by rewrite <- !app_assoc.
Qed.

(** ** Literals *)

Lemma copy_in_loop_ok n ip out :
  0 <= ip -> ip + Z.of_nat n <= zlen inp -> zlen out + Z.of_nat n <= cap ->
  copy_in_loop inp cap n (Dst ip out) =
  Ok (Dst (ip + Z.of_nat n) (out ++ zslice inp ip (Z.of_nat n))).
Proof.
  revert ip out. induction n as [|n IH]; intros ip out H1 H2 H3; cbn [copy_in_loop].
  - unfold zslice. rewrite take_0, app_nil_r. do 2 f_equal. lia.
  - destruct (rd_in_range inp ip) as [b Hb]; [lia|].
    unfold copy_in; cbn [d_ip d_out]. rewrite Hb, bind_Ok, put_ok, !bind_Ok by lia.
    rewrite IH by (zlen_simp; lia).
    replace (Z.of_nat (S n)) with (1 + Z.of_nat n) by lia.
    rewrite (zslice_S _ _ _ b), <- app_assoc by (lia || done).
    do 2 f_equal. lia.
Qed.

Lemma copy4_in_ok ip out :
  0 <= ip -> ip + 4 <= zlen inp -> zlen out + 4 <= cap ->
  copy4_in inp cap (Dst ip out) = Ok (Dst (ip + 4) (out ++ zslice inp ip 4)).
Proof.
  intros. unfold copy4_in; cbn [d_ip d_out].
  destruct (rd_in_range inp ip) as [b0 E0]; [lia|].
  destruct (rd_in_range inp (ip + 1)) as [b1 E1]; [lia|].
  destruct (rd_in_range inp (ip + 2)) as [b2 E2]; [lia|].
  destruct (rd_in_range inp (ip + 3)) as [b3 E3]; [lia|].
  rewrite E0, E1, E2, E3, !bind_Ok, put4_ok, bind_Ok by lia.
  change (zslice inp ip 4) with (zslice inp ip (1 + (1 + (1 + (1 + 0))))).
  rewrite (zslice_S _ _ _ b0), (zslice_S _ _ _ b1), (zslice_S _ _ _ b2), (zslice_S _ _ _ b3);
    try lia; rewrite <- ?Z.add_assoc; try done.
Qed.

Lemma zslice_app i n m :
  0 <= i -> 0 <= n -> 0 <= m ->
  zslice inp i n ++ zslice inp (i + n) m = zslice inp i (n + m).
Proof.
  intros. unfold zslice. rewrite !Z2Nat.inj_add by lia.
  by rewrite <- (take_take_drop (drop (Z.to_nat i) inp)), drop_drop.
Qed.

Lemma copy4_in_loop_ok fuel t ip out :
  4 <= t < 2 ^ 32 -> t <= Z.of_nat fuel ->
  0 <= ip -> ip + t <= zlen inp -> zlen out + t <= cap ->
  copy4_in_loop inp cap fuel t (Dst ip out) =
  Ok (t mod 4, Dst (ip + (t - t mod 4)) (out ++ zslice inp ip (t - t mod 4))).
Proof.
  revert t ip out. induction fuel as [|fuel IH]; intros t ip out Ht Hf H1 H2 H3; [lia|].
  cbn [copy4_in_loop]. rewrite copy4_in_ok, bind_Ok by lia.
  rewrite u32_small by lia.
  replace (t mod 4) with ((t - 4) mod 4)
    by (replace (t - 4) with (t + (-1) * 4) by lia; by rewrite Z_mod_plus_full).
  destruct (Z.leb_spec 4 (t - 4)).
  - rewrite IH; rewrite ?zlen_app, ?zlen_zslice; try lia.
    rewrite <- app_assoc. pose proof (Z.mod_pos_bound (t - 4) 4).
    rewrite zslice_app by (Z.div_mod_to_equations; lia).
    do 3 f_equal; [lia|]. f_equal. f_equal. lia.
  - rewrite (Z.mod_small (t - 4)) by lia.
    replace (t - (t - 4)) with 4 by lia. done.
Qed.

Lemma literal_run_ok t ip out :
  1 <= t -> t + 4 < 2 ^ 32 -> 0 <= ip <= zlen inp -> zlen out <= cap ->
  literal_run inp cap t (Dst ip out) =
    if cap - zlen out <? t + 3 then output_overrun (Dst ip out)
    else if zlen inp - ip <? t + 4 then input_overrun (Dst ip out)
    else Ok (Goto L_first_literal_run (Dst (ip + (t + 3)) (out ++ zslice inp ip (t + 3)))).
Proof.
  intros H1 H2 H3 H4. unfold literal_run, HAVE_OP, HAVE_IP, in_len, d_op; cbn [d_ip d_out].
  pose proof (zlen_nonneg out).
  rewrite !u32_small by lia.
  destruct (Z.ltb_spec (cap - zlen out) (t + 3)); [done|].
  destruct (Z.ltb_spec (zlen inp - ip) (t + 4)); [done|].
  rewrite copy4_in_ok, bind_Ok by lia.
  assert (Hz4 : zlen (out ++ zslice inp ip 4) = zlen out + 4).
  { rewrite zlen_app, zlen_zslice; lia. }
  assert (Hn : 0 < t - 1 -> times (t - 1) = Z.to_nat (t - 1)).
  { intros. unfold times. destruct (Z.eqb_spec (t - 1) 0); [lia|done]. }
  destruct (Z.ltb_spec 0 (t - 1)).
  2: { assert (t = 1) as -> by lia. rewrite bind_Ok. done. }
  destruct (Z.leb_spec 4 (t - 1)).
  - rewrite copy4_in_loop_ok, bind_Ok by lia.
    pose proof (Z.mod_pos_bound (t - 1) 4). set (r := (t - 1) mod 4) in *.
    assert (r <= t - 1) by (apply Z.mod_le; lia).
    assert (Hz : zlen ((out ++ zslice inp ip 4) ++ zslice inp (ip + 4) (t - 1 - r)) =
                 zlen out + (t + 3 - r)).
    { rewrite zlen_app, Hz4, zlen_zslice; lia. }
    rewrite <- app_assoc in *. rewrite zslice_app in * by lia.
    destruct (Z.ltb_spec 0 r).
    + unfold times. destruct (Z.eqb_spec r 0); [lia|].
      rewrite copy_in_loop_ok, bind_Ok; rewrite ?Z2Nat.id by lia; try lia.
      rewrite <- app_assoc. replace (ip + 4 + (t - 1 - r)) with (ip + (4 + (t - 1 - r))) by lia.
      rewrite zslice_app by lia. do 2 f_equal. f_equal; [lia|].
      do 2 f_equal. lia.
    + rewrite bind_Ok. do 2 f_equal. f_equal; [lia|]. do 2 f_equal. lia.
  - rewrite Hn by lia. rewrite copy_in_loop_ok, bind_Ok; rewrite ?Z2Nat.id by lia; try lia.
    rewrite <- app_assoc, zslice_app by lia.
    do 2 f_equal. f_equal; [lia|]. do 2 f_equal. lia.
Qed.

(** ** Matches *)

Lemma copy_out_ok off out :
  1 <= off <= zlen out -> zlen out < cap ->
  copy_out cap (zlen out - off) out =
  Ok (zlen (copy_back 1 off out) - off, copy_back 1 off out).
Proof.
  intros. unfold copy_out. cbn [copy_back]. rewrite rd_back_rd by lia.
  destruct (rd_in_range out (zlen out - off)) as [b Hb]; [lia|].
  rewrite Hb, bind_Ok, put_ok, bind_Ok by lia.
  rewrite zlen_app, zlen_cons, zlen_nil. do 2 f_equal. lia.
Qed.

Lemma copy_out_loop_ok n off out :
  1 <= off <= zlen out -> zlen out + Z.of_nat n <= cap ->
  copy_out_loop cap n (zlen out - off) out = Ok (copy_back n off out).
Proof.
  revert out. induction n as [|n IH]; intros out H1 H2; cbn [copy_out_loop]; [done|].
  rewrite copy_out_ok, bind_Ok by lia.
  pose proof (copy_back_length 1 off out H1).
  rewrite IH by lia. by rewrite <- copy_back_add.
Qed.

Lemma copy_back_S n off out b :
  rd out (zlen out - off) = Ok b -> copy_back (S n) off out = copy_back n off (out ++ [b]).
Proof. intros H. cbn [copy_back]. by rewrite H. Qed.

(** A read that falls in the old part of the output. *)
Ltac by_prefix E :=
  rewrite rd_app_l by (zlen_simp; lia);
  rewrite <- E; f_equal; zlen_simp; lia.

(** The four-byte copy is four one-byte copies when source and destination are
    at least four bytes apart. *)
Lemma copy4_out_ok off out :
  4 <= off <= zlen out -> zlen out + 4 <= cap ->
  copy4_out cap (zlen out - off) out =
  Ok (zlen (copy_back 4 off out) - off, copy_back 4 off out).
Proof.
  intros. unfold copy4_out. rewrite !rd_back_rd by lia.
  destruct (rd_in_range out (zlen out - off)) as [b0 E0]; [lia|].
  destruct (rd_in_range out (zlen out - off + 1)) as [b1 E1]; [lia|].
  destruct (rd_in_range out (zlen out - off + 2)) as [b2 E2]; [lia|].
  destruct (rd_in_range out (zlen out - off + 3)) as [b3 E3]; [lia|].
  rewrite E0, E1, E2, E3, !bind_Ok, put4_ok, bind_Ok by lia.
  assert (Hc : copy_back 4 off out = out ++ [b0; b1; b2; b3]).
  { rewrite (copy_back_S _ _ _ b0) by done.
    rewrite (copy_back_S _ _ _ b1) by by_prefix E1. rewrite <- app_assoc.
    rewrite (copy_back_S _ _ _ b2) by by_prefix E2. rewrite <- app_assoc.
    rewrite (copy_back_S _ _ _ b3) by by_prefix E3. by rewrite <- app_assoc. }
  rewrite Hc, zlen_app, !zlen_cons, zlen_nil. do 2 f_equal. lia.
Qed.

Lemma copy4_out_loop_ok fuel t off out :
  4 <= t < 2 ^ 32 -> t <= Z.of_nat fuel ->
  4 <= off <= zlen out -> zlen out + t <= cap ->
  let out' := copy_back (Z.to_nat (t - t mod 4)) off out in
  copy4_out_loop cap fuel t (zlen out - off) out = Ok (t mod 4, zlen out' - off, out').
Proof.
  revert t out. induction fuel as [|fuel IH]; intros t out Ht Hf H1 H2; [lia|].
  cbn [copy4_out_loop]. rewrite copy4_out_ok, bind_Ok by lia.
  rewrite u32_small by lia.
  pose proof (copy_back_length 4 off out ltac:(lia)) as Hl.
  replace (t mod 4) with ((t - 4) mod 4)
    by (replace (t - 4) with (t + (-1) * 4) by lia; by rewrite Z_mod_plus_full).
  destruct (Z.leb_spec 4 (t - 4)).
  - rewrite IH by lia. rewrite <- copy_back_add by lia.
    pose proof (Z.mod_pos_bound (t - 4) 4).
    assert ((t - 4) mod 4 <= t - 4) by (apply Z.mod_le; lia).
    replace (4 + Z.to_nat (t - 4 - (t - 4) mod 4))%nat
      with (Z.to_nat (t - (t - 4) mod 4)) by lia. done.
  - rewrite (Z.mod_small (t - 4)) by lia. replace (t - (t - 4)) with 4 by lia. done.
Qed.

Lemma copy_match_ok t off ip out :
  1 <= t < 2 ^ 32 -> 1 <= off <= zlen out -> zlen out + (t + 2) <= cap ->
  copy_match inp cap t (zlen out - off) (Dst ip out) =
  match_done inp (Dst ip (copy_back (Z.to_nat (t + 2)) off out)).
Proof.
  intros. unfold copy_match; cbn [d_ip d_out].
  rewrite copy_out_ok, bind_Ok by lia.
  pose proof (copy_back_length 1 off out ltac:(lia)) as H1'.
  rewrite copy_out_ok, bind_Ok by lia.
  rewrite <- (copy_back_add 1 1) in * by lia.
  pose proof (copy_back_length (1 + 1) off out ltac:(lia)) as H2'.
  unfold times. destruct (Z.eqb_spec t 0); [lia|].
  rewrite copy_out_loop_ok by lia. rewrite bind_Ok, <- copy_back_add by lia.
  do 3 f_equal. lia.
Qed.

(** The match copy, by words or by bytes, is the reference copy. *)
Lemma long_match_ok t off ip out :
  1 <= t -> t + 2 < 2 ^ 32 -> zlen out <= cap ->
  long_match inp cap t (zlen out - off) (Dst ip out) =
    if HAVE_LB (zlen out - off) (zlen out) then lookbehind_overrun (Dst ip out)
    else if cap - zlen out <? t + 2 then output_overrun (Dst ip out)
    else match_done inp (Dst ip (copy_back (Z.to_nat (t + 2)) off out)).
Proof.
  intros H1 H2 H3. unfold long_match, d_op, HAVE_OP; cbn [d_ip d_out].
  pose proof (zlen_nonneg out).
  destruct (HAVE_LB _ _) eqn:Hlb; [done|].
  apply orb_false_iff in Hlb as [Ha%Z.ltb_ge Hb%Z.leb_gt].
  rewrite !(u32_small (cap - _)), (u32_small (t + _ - _)) by lia.
  replace (t + 3 - 1) with (t + 2) by lia.
  destruct (Z.ltb_spec (cap - zlen out) (t + 2)); [done|].
  replace (zlen out - (zlen out - off)) with off by lia.
  destruct (Z.leb_spec (2 * 4 - (3 - 1)) t); simpl andb; [|apply copy_match_ok; lia].
  destruct (Z.leb_spec 4 off); [|apply copy_match_ok; lia].
  rewrite copy4_out_ok, bind_Ok by lia.
  rewrite u32_small by lia. replace (t - (4 - (3 - 1))) with (t - 2) by lia.
  pose proof (copy_back_length 4 off out ltac:(lia)) as Hl4.
  rewrite copy4_out_loop_ok by lia. rewrite bind_Ok.
  pose proof (Z.mod_pos_bound (t - 2) 4). set (r := (t - 2) mod 4) in *.
  assert (r <= t - 2) by (apply Z.mod_le; lia).
  rewrite <- copy_back_add by lia.
  set (n := (4 + Z.to_nat (t - 2 - r))%nat).
  pose proof (copy_back_length n off out ltac:(lia)) as Hln.
  destruct (Z.ltb_spec 0 r).
  - unfold times. destruct (Z.eqb_spec r 0); [lia|].
    rewrite copy_out_loop_ok by lia. rewrite bind_Ok, <- copy_back_add by lia.
    do 3 f_equal. lia.
  - rewrite bind_Ok. do 3 f_equal. lia.
Qed.

Lemma match_next_copies t st :
  1 <= t <= 3 ->
  (st ← copy_in inp cap st;
   if 1 <? t then
     st ← copy_in inp cap st;
     (if 2 <? t then copy_in inp cap st else Ok st)
   else Ok st) = copy_in_loop inp cap (Z.to_nat t) st.
Proof.
  intros H. assert (t = 1 \/ t = 2 \/ t = 3) as [-> | [-> | ->]] by lia; simpl;
    destruct (copy_in inp cap st) as [st1| | |]; simpl; try done;
    destruct (copy_in inp cap st1) as [st2| | |]; simpl; try done;
    by destruct (copy_in inp cap st2).
Qed.

Lemma match_next_eq t ip out :
  1 <= t <= 3 -> 0 <= ip <= zlen inp -> zlen out <= cap ->
  match_next inp cap t (Dst ip out) =
    if cap - zlen out <? t then output_overrun (Dst ip out)
    else if zlen inp - ip <? t + 1 then input_overrun (Dst ip out)
    else
      b ← rd inp (ip + t);
      Ok (Goto (if ip + t + 1 <? zlen inp then L_match b else L_outer)
            (Dst (ip + t + 1) (out ++ zslice inp ip t))).
Proof.
  intros H1 H2 H3. unfold match_next, HAVE_OP, HAVE_IP, in_len, d_op; cbn [d_ip d_out].
  pose proof (zlen_nonneg out).
  rewrite !u32_small by lia.
  destruct (Z.ltb_spec (cap - zlen out) t); [done|].
  destruct (Z.ltb_spec (zlen inp - ip) (t + 1)); [done|].
  rewrite <- bind_assoc, match_next_copies by lia.
  rewrite copy_in_loop_ok by lia. rewrite bind_Ok; cbn [d_ip d_out].
  by rewrite Z2Nat.id by lia.
Qed.

End copies.

(** ** Every input *)

(** The number of input bytes for which the run length counter [t] cannot wrap
    around: every zero byte adds 255 to a 32-bit counter. *)
Definition MAX_SAFE_IN : Z := 2 ^ 24.

Definition label_ok (l : label) : Prop :=
  match l with
  | L_match t => is_byte t
  | L_match_next t => 1 <= t <= 3
  | _ => True
  end.

Section any_input.
Context (inp : list Z) (cap : Z).
Hypothesis Hcap : 0 <= cap < 2 ^ 32.
Hypothesis Hin : zlen inp <= MAX_SAFE_IN.
Hypothesis Hbytes : Forall is_byte inp.

(** A jump from a point with input position [ip0] has read at least one more
    byte, all of them in range, and the output fits. *)
Definition jump_ok (ip0 : Z) (j : jump) : Prop :=
  match j with
  | Goto l st => label_ok l /\ ip0 < d_ip st <= zlen inp /\ zlen (d_out st) <= cap
  | Return _ st => zlen (d_out st) <= cap
  end.

Lemma skip_zeros_safe fuel t ip :
  0 <= t -> 0 <= ip <= zlen inp -> t + 255 * (zlen inp - ip) < 2 ^ 32 ->
  zlen inp - ip < Z.of_nat fuel ->
  safe (skip_zeros inp fuel t ip) (fun r =>
    match r with
    | None => True
    | Some (t', ip') => ip <= ip' < zlen inp /\ t <= t' <= t + 255 * (ip' - ip)
    end).
Proof.
  revert t ip. induction fuel as [|fuel IH]; intros t ip Ht Hip Hb Hf; [lia|].
  cbn [skip_zeros]. apply (safe_bind _ _ (fun _ => 0 <= ip < zlen inp)).
  { apply safe_rd; [lia|]. intros b Hb'. by apply rd_range in Hb'. }
  intros b Hr. destruct (b =? 0); [|simpl; lia].
  unfold HAVE_IP, in_len. rewrite (u32_small (t + 255)) by lia.
  destruct (u32 _ <? 1); [done|].
  eapply safe_mono; [apply IH; lia|].
  intros [[t' ip']|]; [lia|done].
Qed.

Lemma extend_len_safe base ip :
  1 <= base <= 31 -> 0 <= ip <= zlen inp ->
  safe (extend_len inp base 0 ip) (fun r =>
    match r with
    | None => True
    | Some (t', ip') => ip < ip' <= zlen inp /\ 1 <= t' <= 255 * zlen inp + 31
    end).
Proof.
  unfold MAX_SAFE_IN in Hin. intros Hbase Hip. unfold extend_len.
  destruct (HAVE_IP _ _ _); [done|].
  eapply safe_bind; [apply skip_zeros_safe; unfold zlen in *; lia|].
  intros [[t ip']|] H; [|done].
  apply (safe_bind _ _ is_byte).
  { apply safe_rd; [lia|]. intros b. by apply (Forall_rd is_byte). }
  intros b Hb. unfold is_byte in Hb. simpl. rewrite u32_small by lia. lia.
Qed.

Lemma match_done_safe ip0 st :
  ip0 < d_ip st <= zlen inp -> 2 <= d_ip st -> zlen (d_out st) <= cap ->
  safe (match_done inp st) (jump_ok ip0).
Proof.
  intros Hip H2 Hop. unfold match_done. rewrite rd_back_rd by lia.
  apply (safe_bind _ _ (fun _ => True)); [by apply safe_rd; [lia|]|]. intros b _.
  change 3 with (2 ^ 2 - 1). rewrite land_mask by lia. change (2 ^ 2) with 4.
  pose proof (Z.mod_pos_bound b 4). simpl.
  destruct (Z.eqb_spec (b mod 4) 0); simpl; repeat split; lia.
Qed.

Lemma overrun_safe ip0 code st : zlen (d_out st) <= cap -> safe (Ok (Return code st)) (jump_ok ip0).
Proof. done. Qed.

Lemma long_match_safe ip0 t off ip out :
  1 <= t -> t + 2 < 2 ^ 32 -> zlen out <= cap -> ip0 < ip <= zlen inp -> 2 <= ip ->
  safe (long_match inp cap t (zlen out - off) (Dst ip out)) (jump_ok ip0).
Proof.
  unfold MAX_SAFE_IN in Hin. intros H1 H2 H3 Hip Hip2. rewrite long_match_ok by lia.
  destruct (HAVE_LB _ _) eqn:Hlb; [done|].
  apply orb_false_iff in Hlb as [Ha%Z.ltb_ge Hb%Z.leb_gt].
  destruct (Z.ltb_spec (cap - zlen out) (t + 2)); [done|].
  apply match_done_safe; cbn [d_ip d_out]; [lia|lia|].
  rewrite copy_back_length by lia. lia.
Qed.

(** Two or three bytes copied from a match whose offset was checked. *)
Lemma copy_out_safe off out :
  1 <= off <= zlen out -> zlen out < cap ->
  safe (copy_out cap (zlen out - off) out) (fun r =>
    r = (zlen (snd r) - off, snd r) /\ zlen (snd r) = zlen out + 1).
Proof.
  intros. rewrite copy_out_ok by lia. split; [done|]. cbn [snd].
  rewrite copy_back_length by lia. lia.
Qed.

Lemma copy2_safe ip0 off ip out :
  HAVE_LB (zlen out - off) (zlen out) = false -> cap - zlen out >= 2 -> ip0 < ip <= zlen inp -> 2 <= ip ->
  safe ('(m_pos, out) ← copy_out cap (zlen out - off) out;
        '(m_pos, out) ← copy_out cap m_pos out;
        match_done inp (Dst ip out)) (jump_ok ip0).
Proof.
  intros [Ha%Z.ltb_ge Hb%Z.leb_gt]%orb_false_iff Hop Hip Hip2.
  eapply safe_bind; [apply copy_out_safe; lia|].
  intros [m out1] [[= ->] Hl1]; cbn [snd] in *.
  eapply safe_bind; [apply copy_out_safe; lia|].
  intros [m' out2] [[= ->] Hl2]; cbn [snd] in *. apply match_done_safe; simpl; lia.
Qed.

Lemma get_le16_safe ip (P : Z -> Prop) :
  0 <= ip -> (ip + 2 <= zlen inp -> forall w, P w) -> safe (get_le16 inp ip) P.
Proof.
  intros Hip H. unfold get_le16.
  apply (safe_bind _ _ (fun _ => True)); [by apply safe_rd; [lia|]|]. intros b0 _.
  apply (safe_bind _ _ (fun _ => ip + 2 <= zlen inp)).
  { apply safe_rd; [lia|]. intros b Hb%rd_range. lia. }
  intros b1 Hb1. simpl. auto.
Qed.

(** The length and the offset bytes of an M3 or M4 match, then what uses them. *)
Lemma m34_safe base t ip ip0 (k : Z -> Z -> Z -> result jump) (st : dst) :
  1 <= base <= 31 -> 0 <= t < 32 -> 0 <= ip0 <= ip -> ip <= zlen inp -> zlen (d_out st) <= cap ->
  (forall t' ip' w, 1 <= t' <= 255 * zlen inp + 31 -> ip <= ip' -> ip' + 2 <= zlen inp ->
     safe (k t' ip' w) (jump_ok ip0)) ->
  safe (r ← (if t =? 0 then extend_len inp base t ip else Ok (Some (t, ip)));
        match r with
        | None => input_overrun st
        | Some (t, ip) => w ← get_le16 inp ip; k t ip w
        end) (jump_ok ip0).
Proof.
  intros Hbase Ht Hip0 Hip Hop Hk.
  eapply (safe_bind _ _ (fun r => match r with None => True | Some (t', ip') =>
    ip <= ip' <= zlen inp /\ 1 <= t' <= 255 * zlen inp + 31 end)).
  { destruct (Z.eqb_spec t 0) as [-> | ]; [|simpl; lia].
    eapply safe_mono; [apply extend_len_safe; lia|]. intros [[]|]; lia. }
  intros [[t' ip']|] H'; [|done].
  apply (safe_bind _ _ (fun _ => ip' + 2 <= zlen inp)); [by apply get_le16_safe; [lia|]|].
  intros w Hw. apply Hk; lia.
Qed.

Lemma m2_safe t ip out :
  64 <= t < 256 -> 1 <= ip <= zlen inp -> zlen out <= cap ->
  safe (do_match inp cap t (Dst ip out)) (jump_ok ip).
Proof.
  unfold MAX_SAFE_IN in Hin. intros Ht Hip Hop. pose proof (zlen_nonneg out).
  unfold do_match, d_op; cbn [d_ip d_out]. destruct (Z.leb_spec 64 t); [|lia].
  apply (safe_bind _ _ (fun _ => 0 <= ip < zlen inp)).
  { apply safe_rd; [lia|]. intros b Hb%rd_range. lia. }
  intros b Hr. unfold HAVE_OP. rewrite (Z.shiftr_div_pow2 t 5) by lia.
  change (2 ^ 5) with 32.
  assert (1 <= t / 32 - 1 <= 6) by (Z.div_mod_to_equations; lia).
  rewrite !(u32_small (cap - _)), (u32_small (t / 32 - 1 + 3 - 1)) by lia.
  set (off := 1 + Z.land (Z.shiftr t 2) 7 + Z.shiftl b 3).
  replace (zlen out - 1 - Z.land (Z.shiftr t 2) 7 - Z.shiftl b 3) with (zlen out - off)
    by (unfold off; lia).
  destruct (HAVE_LB _ _) eqn:Hlb; [done|].
  apply orb_false_iff in Hlb as [Ha%Z.ltb_ge Hb%Z.leb_gt].
  destruct (Z.ltb_spec (cap - zlen out) (t / 32 - 1 + 3 - 1)); [done|].
  rewrite copy_match_ok by lia. apply match_done_safe; cbn [d_ip d_out]; [lia|lia|].
  rewrite copy_back_length by lia. lia.
Qed.

Lemma do_match_safe t ip out :
  is_byte t -> 1 <= ip <= zlen inp -> zlen out <= cap ->
  safe (do_match inp cap t (Dst ip out)) (jump_ok ip).
Proof.
  intros Ht Hip Hop. destruct (Z.leb_spec 64 t); [apply m2_safe; unfold is_byte in Ht; lia|].
  unfold MAX_SAFE_IN, is_byte in *. pose proof (zlen_nonneg out).
  unfold do_match, d_op; cbn [d_ip d_out]. destruct (Z.leb_spec 64 t); [lia|].
  rewrite (land_mask t 5 ltac:(lia) : Z.land t 31 = t mod 2 ^ 5).
  rewrite (land_mask t 3 ltac:(lia) : Z.land t 7 = t mod 2 ^ 3).
  destruct (Z.leb_spec 32 t) as [H32|H32]; [|destruct (Z.leb_spec 16 t) as [H16|H16]].
  - apply (m34_safe 31 _ _ _ (fun t ip w => long_match inp cap t
      (zlen out - 1 - Z.shiftr w 2) (Dst (ip + 2) out)));
      try (simpl; Z.div_mod_to_equations; lia).
    intros t' ip' w Hk1 Hk2 Hk3.
    replace (zlen out - 1 - Z.shiftr w 2) with (zlen out - (1 + Z.shiftr w 2)) by lia.
    apply long_match_safe; lia.
  - apply (m34_safe 7 _ _ _ (fun t' ip w =>
      if zlen out - Z.shiftl (Z.land t 8) 11 - Z.shiftr w 2 =? zlen out then
        Ok (Return (if ip + 2 =? in_len inp then LZO_E_OK
                    else if ip + 2 <? in_len inp then LZO_E_INPUT_NOT_CONSUMED
                    else LZO_E_INPUT_OVERRUN) (Dst (ip + 2) out))
      else long_match inp cap t' (zlen out - Z.shiftl (Z.land t 8) 11 - Z.shiftr w 2 - 0x4000)
             (Dst (ip + 2) out)));
      try (simpl; Z.div_mod_to_equations; lia).
    intros t' ip' w Hk1 Hk2 Hk3. destruct (_ =? _); [done|].
    set (o := Z.shiftl (Z.land t 8) 11 + Z.shiftr w 2 + 0x4000).
    replace (zlen out - Z.shiftl (Z.land t 8) 11 - Z.shiftr w 2 - 0x4000)
      with (zlen out - o) by (unfold o; lia).
    apply long_match_safe; lia.
  - apply (safe_bind _ _ (fun _ => 0 <= ip < zlen inp)).
    { apply safe_rd; [lia|]. intros b Hb%rd_range. lia. }
    intros b Hr. unfold HAVE_OP. rewrite !(u32_small (cap - _)) by lia.
    set (off := 1 + Z.shiftr t 2 + Z.shiftl b 2).
    replace (zlen out - 1 - Z.shiftr t 2 - Z.shiftl b 2) with (zlen out - off)
      by (unfold off; lia).
    destruct (HAVE_LB _ _) eqn:Hlb; [done|].
    destruct (Z.ltb_spec (cap - zlen out) 2); [done|].
    apply copy2_safe; [done|lia..].
Qed.

Lemma first_literal_run_safe ip out :
  0 <= ip <= zlen inp -> zlen out <= cap ->
  safe (first_literal_run inp cap (Dst ip out)) (jump_ok ip).
Proof.
  intros Hip Hop. unfold first_literal_run, d_op, HAVE_OP; cbn [d_ip d_out].
  pose proof (zlen_nonneg out).
  apply (safe_bind _ _ (fun b => is_byte b /\ 0 <= ip < zlen inp)).
  { apply safe_rd; [lia|]. intros b Hb. split; [by apply (Forall_rd is_byte _ _ _ Hbytes Hb)|].
    apply rd_range in Hb. lia. }
  intros t [Ht Hr]. destruct (_ <=? t); [unfold is_byte in *; simpl; unfold is_byte; lia|].
  apply (safe_bind _ _ (fun _ => 0 <= ip + 1 < zlen inp)).
  { apply safe_rd; [lia|]. intros b Hb%rd_range. lia. }
  intros b Hr1. rewrite !(u32_small (cap - _)) by lia.
  set (off := 1 + M2_MAX_OFFSET + Z.shiftr t 2 + Z.shiftl b 2).
  replace (zlen out - (1 + M2_MAX_OFFSET) - Z.shiftr t 2 - Z.shiftl b 2) with (zlen out - off)
    by (unfold off; lia).
  destruct (HAVE_LB _ _) eqn:Hlb; [done|].
  destruct (Z.ltb_spec (cap - zlen out) 3); [done|].
  apply orb_false_iff in Hlb as [Ha%Z.ltb_ge Hb%Z.leb_gt].
  eapply safe_bind; [apply copy_out_safe; lia|].
  intros [m out1] [[= ->] Hl1]; cbn [snd] in *.
  apply copy2_safe; [|lia..]. apply orb_false_iff. split; [apply Z.ltb_ge|apply Z.leb_gt]; lia.
Qed.

Lemma outer_safe ip out :
  0 <= ip <= zlen inp -> zlen out <= cap -> safe (outer inp cap (Dst ip out)) (jump_ok ip).
Proof.
  intros Hip Hop. unfold outer, in_len; cbn [d_ip d_out]. unfold MAX_SAFE_IN in Hin.
  destruct (Z.ltb_spec ip (zlen inp)); [|done].
  apply (safe_bind _ _ is_byte).
  { apply safe_rd; [lia|]. intros b. by apply (Forall_rd is_byte). }
  intros t Ht. destruct (Z.leb_spec 16 t); [unfold is_byte in *; simpl; unfold is_byte; lia|].
  unfold is_byte in Ht.
  eapply (safe_bind _ _ (fun r => match r with None => True | Some (t', ip') =>
    ip < ip' <= zlen inp /\ 1 <= t' <= 255 * zlen inp + 31 end)).
  { destruct (Z.eqb_spec t 0) as [-> | ]; [|simpl; lia].
    eapply safe_mono; [apply extend_len_safe; lia|]. intros [[]|]; lia. }
  intros [[t' ip']|] H'; [|done].
  rewrite literal_run_ok by lia.
  destruct (Z.ltb_spec (cap - zlen out) (t' + 3)); [done|].
  destruct (Z.ltb_spec (zlen inp - ip') (t' + 4)); [done|].
  simpl. rewrite zlen_app, zlen_zslice by lia. repeat split; lia.
Qed.

Lemma match_next_safe t ip out :
  1 <= t <= 3 -> 0 <= ip <= zlen inp -> zlen out <= cap ->
  safe (match_next inp cap t (Dst ip out)) (jump_ok ip).
Proof.
  unfold MAX_SAFE_IN in Hin. intros Ht Hip Hop. rewrite match_next_eq by lia.
  destruct (Z.ltb_spec (cap - zlen out) t); [done|].
  destruct (Z.ltb_spec (zlen inp - ip) (t + 1)); [done|].
  apply (safe_bind _ _ is_byte).
  { apply safe_rd; [lia|]. intros b. by apply (Forall_rd is_byte). }
  intros b Hb. simpl. rewrite zlen_app, zlen_zslice by lia.
  destruct (_ <? _); simpl; repeat split; try apply Hb; lia.
Qed.

Lemma drun_safe fuel l st :
  label_ok l -> 0 <= d_ip st <= zlen inp -> (forall t, l = L_match t -> 1 <= d_ip st) -> zlen (d_out st) <= cap ->
  zlen inp - d_ip st < Z.of_nat fuel ->
  safe (drun inp cap fuel l st) (fun r => zlen (snd r) <= cap).
Proof.
  revert l st. induction fuel as [|fuel IH]; intros l [ip out] Hl Hip Hm Hop Hf;
    cbn [d_ip d_out] in *; [lia|].
  cbn [drun]. apply (safe_bind _ _ (jump_ok ip)).
  { destruct l; cbn [dstep].
    - by apply outer_safe.
    - by apply first_literal_run_safe.
    - specialize (Hm t eq_refl). apply do_match_safe; done || lia.
    - by apply match_next_safe. }
  intros [l' st'|c st'] Hj; [|done]. destruct Hj as (Hl' & Hip' & Hop').
  apply IH; [done|lia|intros; lia|done|lia].
Qed.

(** The decompressor on any input: it returns with an output that fits, or it
    reads past the end of the input. It never writes past the output. *)
Lemma decompress_safe_all :
  safe (lzo1x_decompress_safe inp cap) (fun r => zlen (snd r) <= cap).
Proof.
  unfold lzo1x_decompress_safe, HAVE_OP, HAVE_IP, in_len, d_op; cbn [d_ip d_out].
  unfold MAX_SAFE_IN in Hin. change (zlen (@nil Z)) with 0.
  apply (safe_bind _ _ (fun b => is_byte b /\ 0 < zlen inp)).
  { apply safe_rd; [lia|]. intros b Hb. split; [by apply (Forall_rd is_byte _ _ _ Hbytes Hb)|].
    apply rd_range in Hb. lia. }
  unfold is_byte. intros b [Hb Hpos].
  assert (Hnil : zlen (@nil Z) = 0) by done.
  destruct (Z.ltb_spec 17 b); [|apply drun_safe; unfold zlen in *; simpl in *; lia || done].
  destruct (Z.ltb_spec (b - 17) 4).
  { apply drun_safe; unfold zlen in *; simpl in *; lia. }
  rewrite !u32_small by lia.
  destruct (Z.ltb_spec (cap - 0) (b - 17)); [simpl; lia|].
  destruct (Z.ltb_spec (zlen inp - 1) (b - 17 + 1)); [simpl; lia|].
  unfold times. destruct (Z.eqb_spec (b - 17) 0); [lia|].
  rewrite copy_in_loop_ok, bind_Ok by lia. rewrite Z2Nat.id by lia.
  apply drun_safe; cbn [d_ip d_out app]; rewrite ?zlen_zslice by lia; unfold zlen in *;
    lia || done.
Qed.

End any_input.
End DecFacts.
