(* ===== verification/LzoRoundtrip.v ===== *)
(** The decompressor inverts the compressor, and the size of a compressed
    block is bounded by [lzo1x_worst_compress]. *)
From S2P Require Import Prelude LzoDecompress LzoCompress LzoFormat LzoCompressFacts LzoDecompressFacts.

Module Roundtrip.
Import Lzo Fmt CompFacts DecFacts.

(** ** Runs of the decompressor without fuel *)

Inductive dsteps (inp : list Z) (cap : Z) : label -> dst -> Z * list Z -> Prop :=
| dsteps_return l st c st' :
    dstep inp cap l st = Ok (Return c st') -> dsteps inp cap l st (c, d_out st')
| dsteps_goto l st l' st' r :
    dstep inp cap l st = Ok (Goto l' st') -> dsteps inp cap l' st' r ->
    dsteps inp cap l st r.

(** ** Progress: a jump has read on, within the input *)

Section progress.
Context (inp : list Z) (cap : Z).

(** [st'] is [st] or comes after it, and is within the input if [st] is. *)
Definition after (st st' : dst) : Prop := d_ip st <= d_ip st' /\ (d_ip st <= zlen inp -> d_ip st' <= zlen inp).

Ltac cases H :=
  repeat first
    [ progress (cbn [d_ip d_out] in * )
    | match type of H with
      | Ok _ = Ok _ => injection H as H; try subst
      | Goto _ _ = Goto _ _ => injection H as ? H; try subst
      | (_ ≫= _) = Ok _ => let E := fresh "E" in apply bind_Ok_inv in H as (? & E & H)
      | (if ?c then _ else _) = Ok _ => destruct c eqn:?
      | (match ?c with _ => _ end) = Ok _ => destruct c eqn:?
      end
    | discriminate ].

Lemma copy_in_after st st' : copy_in inp cap st = Ok st' -> after st st'.
Proof. unfold copy_in, after. intros H. cases H. apply rd_range in E. lia. Qed.

Lemma copy4_in_after st st' : copy4_in inp cap st = Ok st' -> after st st'.
Proof. unfold copy4_in, after. intros H. cases H. apply rd_range in E2. lia. Qed.

Lemma after_trans st1 st2 st3 : after st1 st2 -> after st2 st3 -> after st1 st3.
Proof. unfold after. intros [] []. split; [lia|tauto]. Qed.

Lemma after_refl st : after st st.
Proof. unfold after. lia. Qed.

Lemma copy_in_loop_after n : forall st st', copy_in_loop inp cap n st = Ok st' -> after st st'.
Proof.
  induction n as [|n IH]; intros st st' H; cbn [copy_in_loop] in H; cases H; [apply after_refl|].
  eapply after_trans; [by apply copy_in_after|by apply IH].
Qed.

Lemma copy4_in_loop_after fuel : forall t st t' st', copy4_in_loop inp cap fuel t st = Ok (t', st') -> after st st'.
Proof.
  induction fuel as [|fuel IH]; intros t st t' st' H; cbn [copy4_in_loop] in H; [done|]. cbv zeta in H.
  apply bind_Ok_inv in H as (st1 & E & H). apply copy4_in_after in E. destruct (4 <=? _).
  - eapply after_trans; [exact E|by eapply IH].
  - by injection H as _ ->.
Qed.

Lemma skip_zeros_after fuel : forall t ip t' ip', skip_zeros inp fuel t ip = Ok (Some (t', ip')) -> ip <= ip'.
Proof.
  induction fuel as [|fuel IH]; intros t ip t' ip' H; cbn [skip_zeros] in H; [done|]. cbv zeta in H.
  apply bind_Ok_inv in H as (b & _ & H). destruct (b =? 0); [|injection H as _ ->; lia].
  destruct (HAVE_IP _ _ _); [done|]. apply IH in H. lia.
Qed.

Lemma extend_len_after base t ip t' ip' : extend_len inp base t ip = Ok (Some (t', ip')) -> ip < ip' <= zlen inp.
Proof.
  unfold extend_len. intros H. destruct (HAVE_IP _ _ _); [done|]. apply bind_Ok_inv in H as ([[t1 ip1]|] & E & H); [|done].
  apply bind_Ok_inv in H as (b & Eb & H). injection H as _ <-. apply skip_zeros_after in E. apply rd_range in Eb. lia.
Qed.

(** The length field of a run or a match, in its first byte or behind it. *)
Lemma length_after base (c : bool) t ip t' ip' : ip <= zlen inp ->
  (if c then extend_len inp base t ip else Ok (Some (t, ip))) = Ok (Some (t', ip')) -> ip <= ip' <= zlen inp.
Proof. intros Hip H. destruct c; [apply extend_len_after in H|injection H as _ ->]; lia. Qed.

Lemma get_le16_after ip w : get_le16 inp ip = Ok w -> ip + 2 <= zlen inp.
Proof. unfold get_le16. intros H. cases H. apply rd_range in E0. lia. Qed.

Lemma match_done_after st l' st' : match_done inp st = Ok (Goto l' st') -> st' = st.
Proof. unfold match_done. intros H. apply bind_Ok_inv in H as (b & _ & H). by destruct (Z.land b 3 =? 0); injection H. Qed.

Lemma copy_match_after t m_pos st l' st' : copy_match inp cap t m_pos st = Ok (Goto l' st') -> d_ip st' = d_ip st.
Proof.
  unfold copy_match. intros H. apply bind_Ok_inv in H as ([? ?] & _ & H). apply bind_Ok_inv in H as ([? ?] & _ & H).
  apply bind_Ok_inv in H as (? & _ & H). by apply match_done_after in H as ->.
Qed.

Lemma long_match_after t m_pos st l' st' : long_match inp cap t m_pos st = Ok (Goto l' st') -> d_ip st' = d_ip st.
Proof.
  unfold long_match, lookbehind_overrun, output_overrun. intros H. destruct (HAVE_LB _ _); [done|]. destruct (HAVE_OP _ _ _); [done|].
  destruct (_ && _); [|by apply copy_match_after in H].
  apply bind_Ok_inv in H as ([? ?] & _ & H). apply bind_Ok_inv in H as ([[? ?] ?] & _ & H).
  apply bind_Ok_inv in H as (? & _ & H). by apply match_done_after in H as ->.
Qed.

Lemma literal_run_after t st l' st' : literal_run inp cap t st = Ok (Goto l' st') -> after st st'.
Proof.
  unfold literal_run, output_overrun, input_overrun. intros H. destruct (HAVE_OP _ _ _); [done|]. destruct (HAVE_IP _ _ _); [done|].
  apply bind_Ok_inv in H as (st1 & E1 & H). apply copy4_in_after in E1. apply bind_Ok_inv in H as (st2 & E2 & H).
  injection H as _ <-. eapply after_trans; [exact E1|].
  destruct (0 <? u32 (t - 1)); [|injection E2 as ->; apply after_refl].
  destruct (4 <=? u32 (t - 1)); [|by apply copy_in_loop_after in E2].
  apply bind_Ok_inv in E2 as ([t3 st3] & E3 & E2). apply copy4_in_loop_after in E3. eapply after_trans; [exact E3|].
  destruct (0 <? t3); [by apply copy_in_loop_after in E2|injection E2 as ->; apply after_refl].
Qed.

Lemma outer_after st l' st' : outer inp cap st = Ok (Goto l' st') -> d_ip st < d_ip st' <= zlen inp.
Proof.
  unfold outer, input_overrun. intros H. destruct (_ <? _); [|done]. apply bind_Ok_inv in H as (t & Et & H). apply rd_range in Et.
  destruct (16 <=? t); [injection H as _ <-; cbn; lia|]. apply bind_Ok_inv in H as ([[t' ip']|] & E & H); [|done].
  apply length_after in E; [|cbn; lia]. apply literal_run_after in H as [H1 H2]. cbn in *. lia.
Qed.

Lemma first_literal_run_after st l' st' : first_literal_run inp cap st = Ok (Goto l' st') -> d_ip st < d_ip st' <= zlen inp.
Proof.
  unfold first_literal_run, lookbehind_overrun, output_overrun. intros H.
  apply bind_Ok_inv in H as (t & Et & H). apply rd_range in Et. destruct (16 <=? t); [injection H as _ <-; cbn; lia|].
  apply bind_Ok_inv in H as (b & Eb & H). apply rd_range in Eb. destruct (HAVE_LB _ _); [done|]. destruct (HAVE_OP _ _ _); [done|].
  do 3 apply bind_Ok_inv in H as ([? ?] & _ & H). apply match_done_after in H as ->. cbn in *. lia.
Qed.

Lemma match_next_after t st l' st' : match_next inp cap t st = Ok (Goto l' st') -> d_ip st < d_ip st' <= zlen inp.
Proof.
  unfold match_next, output_overrun, input_overrun. intros H. destruct (HAVE_OP _ _ _); [done|]. destruct (HAVE_IP _ _ _); [done|].
  apply bind_Ok_inv in H as (st1 & E1 & H). apply copy_in_after in E1. apply bind_Ok_inv in H as (st2 & E2 & H).
  apply bind_Ok_inv in H as (b & Eb & H). apply rd_range in Eb. injection H as _ <-. cbn.
  assert (H2 : after st1 st2); [|unfold after in *; lia].
  destruct (1 <? t); [|injection E2 as ->; apply after_refl]. apply bind_Ok_inv in E2 as (st3 & E3 & E2). apply copy_in_after in E3.
  eapply after_trans; [exact E3|]. destruct (2 <? t); [by apply copy_in_after in E2|injection E2 as ->; apply after_refl].
Qed.

Lemma do_match_after t st l' st' : 0 < d_ip st <= zlen inp ->
  do_match inp cap t st = Ok (Goto l' st') -> d_ip st < d_ip st' <= zlen inp.
Proof.
  intros Hip. unfold do_match, lookbehind_overrun, output_overrun, input_overrun. intros H. destruct (64 <=? t).
  { apply bind_Ok_inv in H as (b & Eb & H). apply rd_range in Eb. destruct (HAVE_LB _ _); [done|]. destruct (HAVE_OP _ _ _); [done|].
    apply copy_match_after in H. cbn in H. lia. }
  destruct (32 <=? t); [|destruct (16 <=? t)].
  - apply bind_Ok_inv in H as ([[t' ip']|] & E & H); [|done]. apply length_after in E; [|lia].
    apply bind_Ok_inv in H as (w & Ew & H). apply get_le16_after in Ew. apply long_match_after in H. cbn in H. lia.
  - apply bind_Ok_inv in H as ([[t' ip']|] & E & H); [|done]. apply length_after in E; [|lia].
    apply bind_Ok_inv in H as (w & Ew & H). apply get_le16_after in Ew. cbv zeta in H. destruct (_ =? _); [done|].
    apply long_match_after in H. cbn in H. lia.
  - apply bind_Ok_inv in H as (b & Eb & H). apply rd_range in Eb. destruct (HAVE_LB _ _); [done|]. destruct (HAVE_OP _ _ _); [done|].
    do 2 apply bind_Ok_inv in H as ([? ?] & _ & H). apply match_done_after in H as ->. cbn. lia.
Qed.

End progress.

(** A run that ends takes no more jumps than there are bytes to read. *)
Lemma dsteps_drun_fuel inp cap l st r fuel :
  dsteps inp cap l st r -> 0 <= d_ip st <= zlen inp -> (forall t, l = L_match t -> 0 < d_ip st) ->
  zlen inp - d_ip st < Z.of_nat fuel -> drun inp cap fuel l st = Ok r.
Proof.
  intros Hd. revert fuel. induction Hd as [l st c st' H|l st l' st' r H Hd IH]; intros fuel Hip Hm Hf;
    (destruct fuel as [|fuel]; [lia|]); cbn [drun]; rewrite H, bind_Ok; [done|].
  assert (Hp : d_ip st < d_ip st' <= zlen inp).
  { destruct l; cbn [dstep] in H.
    - by apply outer_after in H.
    - by apply first_literal_run_after in H.
    - specialize (Hm t eq_refl). apply do_match_after in H; lia.
    - by apply match_next_after in H. }
  apply IH; intros; lia.
Qed.

Section decode.
Context (inp : list Z) (cap : Z).
Hypothesis Hcap : 0 <= cap < 2 ^ 32.
Hypothesis Hin : zlen inp < 2 ^ 32 - 64.

(** ** Lengths *)

Lemma skip_zeros_encoded k pre b post fuel t :
  inp = pre ++ replicate k 0 ++ b :: post -> b <> 0 -> (k < fuel)%nat ->
  0 <= t -> t + 255 * Z.of_nat k < 2 ^ 32 ->
  skip_zeros inp fuel t (zlen pre) = Ok (Some (t + 255 * Z.of_nat k, zlen pre + Z.of_nat k)).
Proof.
  revert pre fuel t. induction k as [|k IH]; intros pre fuel t Hi Hb Hf Ht Hov;
    (destruct fuel as [|fuel]; [lia|]); cbn [skip_zeros].
  - assert (rd inp (zlen pre) = Ok b) as -> by (rewrite Hi; apply rd_app_at).
    rewrite bind_Ok. destruct (Z.eqb_spec b 0); [done|]. do 3 f_equal; lia.
  - assert (rd inp (zlen pre) = Ok 0) as -> by (rewrite Hi; apply rd_app_at).
    rewrite bind_Ok. cbn [Z.eqb]. unfold HAVE_IP, in_len.
    assert (Hl : zlen inp = zlen pre + 1 + zlen (replicate k 0) + 1 + zlen post).
    { rewrite Hi. cbn [replicate app]. zlen_simp. lia. }
    pose proof (zlen_nonneg pre). pose proof (zlen_nonneg post).
    pose proof (zlen_nonneg (replicate k 0)).
    rewrite !u32_small by lia.
    destruct (Z.ltb_spec (zlen inp - (zlen pre + 1)) 1); [lia|].
    replace (zlen pre + 1) with (zlen (pre ++ [0])) by (by zlen_simp).
    rewrite IH; [|by rewrite <- app_assoc|done|lia..].
    do 3 f_equal; zlen_simp; lia.
Qed.

Lemma extend_len_encoded base tt pre post :
  inp = pre ++ ext_len tt ++ post -> 1 <= tt -> 0 <= base -> base + tt < 2 ^ 32 ->
  extend_len inp base 0 (zlen pre) = Ok (Some (base + tt, zlen pre + zlen (ext_len tt))).
Proof.
  intros Hi Htt Hb Hov.
  assert (Hk : 0 <= (tt - 1) / 255) by (apply Z.div_pos; lia).
  pose proof (zlen_ext_len tt Htt) as Hzl. pose proof (ext_len_range tt Htt) as Hr.
  assert (Hl : zlen inp = zlen pre + zlen (ext_len tt) + zlen post).
  { rewrite Hi, !zlen_app. lia. }
  pose proof (zlen_nonneg pre). pose proof (zlen_nonneg post).
  unfold extend_len, HAVE_IP, in_len. rewrite u32_small by lia.
  destruct (Z.ltb_spec (zlen inp - zlen pre) 1); [lia|].
  unfold ext_len in Hi at 1. rewrite <- app_assoc in Hi. cbn [app] in Hi.
  rewrite (skip_zeros_encoded _ _ _ _ _ _ Hi); [|lia|unfold zlen in *; lia|lia|lia].
  rewrite bind_Ok. set (k := (tt - 1) / 255) in *.
  assert (rd inp (zlen pre + Z.of_nat (Z.to_nat k)) = Ok (tt - 255 * k)) as ->.
  { rewrite Hi, app_assoc. rewrite <- (rd_app_at (pre ++ replicate (Z.to_nat k) 0) post).
    f_equal. rewrite zlen_app. unfold zlen. by rewrite length_replicate. }
  rewrite bind_Ok, u32_small by lia. do 3 f_equal; lia.
Qed.

(** ** Matches *)

Lemma match_done_encoded p off len low post out :
  inp = p ++ [mb_lo off len + low; mb_hi off len] ++ post -> 0 <= low <= 3 ->
  match_done inp (Dst (zlen p + 2) out) =
  Ok (Goto (if low =? 0 then L_outer else L_match_next low) (Dst (zlen p + 2) out)).
Proof.
  intros Hi Hlow. unfold match_done; cbn [d_ip].
  rewrite rd_back_rd by (rewrite Hi; zlen_simp; pose proof (zlen_nonneg p); pose proof (zlen_nonneg post); lia).
  assert (rd inp (zlen p + 2 - 2) = Ok (mb_lo off len + low)) as ->.
  { replace (zlen p + 2 - 2) with (zlen p) by lia. rewrite Hi. apply rd_app_at. }
  rewrite bind_Ok. destruct (mb_lo_bits off len) as [q ->].
  rewrite (land_mask _ 2 ltac:(lia) : Z.land _ 3 = _ mod 2 ^ 2).
  change (2 ^ 2) with 4. rewrite Z.add_comm, Z.mod_add, Z.mod_small by lia.
  by destruct (low =? 0).
Qed.

(** The offset field of an M3 or M4 match. *)
Lemma get_le16_encoded p off len low post :
  inp = p ++ [mb_lo off len + low; mb_hi off len] ++ post ->
  is_m2 off len = false -> 1 <= off -> 0 <= low <= 3 ->
  exists w, get_le16 inp (zlen p) = Ok w /\ Z.shiftr w 2 = o34 off mod 16384.
Proof.
  intros Hi Hm Ho Hlow. unfold get_le16.
  assert (rd inp (zlen p) = Ok (mb_lo off len + low)) as ->
    by (rewrite Hi; apply rd_app_at).
  assert (rd inp (zlen p + 1) = Ok (mb_hi off len)) as ->.
  { rewrite Hi. change ([?a; ?b] ++ post) with ([a] ++ b :: post).
    rewrite app_assoc. rewrite <- (rd_app_at (p ++ [mb_lo off len + low]) post).
    f_equal. by zlen_simp. }
  rewrite !bind_Ok. eexists. split; [done|].
  unfold mb_lo, mb_hi. rewrite Hm.
  rewrite Z.lor_comm, Z.shiftl_mul_pow2, lor_low by (Z.div_mod_to_equations; lia).
  rewrite Z.shiftr_div_pow2 by lia. Z.div_mod_to_equations. lia.
Qed.

(** The length field: in the marker byte, or extended after it. *)
Lemma len_field_encoded base len p head post :
  inp = p ++ head ++ post -> 1 <= base -> len + base < 2 ^ 32 -> 3 <= len ->
  (exists m, head = if len <=? base + 2 then [m + (len - 2)] else m :: ext_len (len - (base + 2))) ->
  let t := if len <=? base + 2 then len - 2 else 0 in
  (if t =? 0 then extend_len inp base t (zlen p + 1) else Ok (Some (t, zlen p + 1))) =
  Ok (Some (len - 2, zlen p + zlen head)).
Proof.
  intros Hi Hbase Hov Hlen [m Hh]. destruct (Z.leb_spec len (base + 2)) as [Hl|Hl]; cbn zeta.
  - subst head. destruct (Z.eqb_spec (len - 2) 0); [lia|]. by zlen_simp.
  - cbn [Z.eqb]. replace (zlen p + 1) with (zlen (p ++ [m])) by (by zlen_simp).
    rewrite (extend_len_encoded base (len - (base + 2)) (p ++ [m]) post); [|subst|lia..].
    + subst head. do 3 f_equal; [lia|]. zlen_simp. lia.
    + by rewrite <- !app_assoc.
Qed.

(** The copy of a match that fits in the output. *)
Lemma long_match_encoded off len p low post out :
  inp = p ++ [mb_lo off len + low; mb_hi off len] ++ post -> 0 <= low <= 3 ->
  1 <= off <= zlen out -> 3 <= len -> zlen out + len <= cap ->
  long_match inp cap (len - 2) (zlen out - off) (Dst (zlen p + 2) out) =
  Ok (Goto (if low =? 0 then L_outer else L_match_next low)
       (Dst (zlen p + 2) (copy_back (Z.to_nat len) off out))).
Proof.
  intros Hi Hlow Ho Hlen Hfit.
  rewrite long_match_ok by lia.
  assert (HAVE_LB (zlen out - off) (zlen out) = false) as ->.
  { apply orb_false_iff. split; [apply Z.ltb_ge|apply Z.leb_gt]; lia. }
  destruct (Z.ltb_spec (cap - zlen out) (len - 2 + 2)); [lia|].
  replace (len - 2 + 2) with len by lia. eapply match_done_encoded; eauto.
Qed.

Lemma m2_encoded pre off len low post out :
  inp = pre ++ match_bytes off len low ++ post -> is_m2 off len = true ->
  0 <= low <= 3 -> 1 <= off <= zlen out -> 3 <= len -> zlen out + len <= cap ->
  do_match inp cap (mb_lo off len + low) (Dst (zlen pre + 1) out) =
  Ok (Goto (if low =? 0 then L_outer else L_match_next low)
       (Dst (zlen pre + 2) (copy_back (Z.to_nat len) off out))).
Proof.
  intros Hi Hm Hlow Ho Hlen Hfit.
  unfold match_bytes, mb_head in Hi. rewrite Hm in Hi. cbn [app] in Hi.
  assert (Hhi : rd inp (zlen pre + 1) = Ok (mb_hi off len)).
  { rewrite Hi. change (?a :: ?b :: post) with ([a] ++ b :: post).
    rewrite app_assoc. rewrite <- (rd_app_at (pre ++ [mb_lo off len + low]) post).
    f_equal. by zlen_simp. }
  pose proof Hm as Hm'. unfold is_m2, M2_MAX_LEN, M2_MAX_OFFSET in Hm'.
  apply andb_true_iff in Hm' as [Hl8%Z.leb_le Ho2%Z.leb_le].
  unfold do_match, d_op; cbn [d_ip d_out].
  assert (Ht : mb_lo off len + low = (len - 1) * 32 + ((off - 1) mod 8) * 4 + low).
  { unfold mb_lo. by rewrite Hm. }
  pose proof (Z.mod_pos_bound (off - 1) 8).
  destruct (Z.leb_spec 64 (mb_lo off len + low)); [|lia].
  rewrite Hhi, bind_Ok.
  rewrite (land_mask _ 3 ltac:(lia) : Z.land _ 7 = _ mod 2 ^ 3). bits_to_arith.
  change (2 ^ 2) with 4. change (2 ^ 3) with 8. change (2 ^ 5) with 32.
  replace (zlen out - 1 - (mb_lo off len + low) / 4 mod 8 - mb_hi off len * 8)
    with (zlen out - off).
  2: { rewrite Ht. unfold mb_hi. rewrite Hm. Z.div_mod_to_equations. lia. }
  replace ((mb_lo off len + low) / 32 - 1) with (len - 2).
  2: { rewrite Ht. Z.div_mod_to_equations. lia. }
  assert (HAVE_LB (zlen out - off) (zlen out) = false) as ->.
  { apply orb_false_iff. split; [apply Z.ltb_ge|apply Z.leb_gt]; lia. }
  unfold HAVE_OP. rewrite !u32_small by lia.
  destruct (Z.ltb_spec (cap - zlen out) (len - 2 + 3 - 1)); [lia|].
  rewrite copy_match_ok by lia. replace (len - 2 + 2) with len by lia.
  replace (zlen pre + 1 + 1) with (zlen pre + 2) by lia.
  by apply (match_done_encoded pre off len low post).
Qed.

Lemma m3_encoded pre off len low post out t :
  inp = pre ++ match_bytes off len low ++ post -> is_m2 off len = false ->
  off <= M3_MAX_OFFSET -> t = 32 + (if len <=? 33 then len - 2 else 0) ->
  0 <= low <= 3 -> 1 <= off <= zlen out -> 3 <= len -> zlen out + len <= cap ->
  len + 33 < 2 ^ 32 ->
  do_match inp cap t (Dst (zlen pre + 1) out) =
  Ok (Goto (if low =? 0 then L_outer else L_match_next low)
       (Dst (zlen pre + zlen (match_bytes off len low)) (copy_back (Z.to_nat len) off out))).
Proof.
  intros Hi Hm Ho3 Ht Hlow Ho Hlen Hfit Hov. unfold M3_MAX_OFFSET in *.
  unfold match_bytes in *. rewrite <- app_assoc in Hi.
  assert (Hh : mb_head off len = if len <=? 33 then [32 + (len - 2)] else 32 :: ext_len (len - 33)).
  { unfold mb_head. rewrite Hm. unfold M3_MAX_OFFSET.
    by destruct (Z.leb_spec off 0x4000); [|lia]. }
  pose proof (len_field_encoded 31 len pre (mb_head off len) _ Hi ltac:(lia) ltac:(lia) Hlen
    (ex_intro _ 32 Hh)) as Hlf. cbn zeta in Hlf. change (31 + 2) with 33 in Hlf.
  rewrite app_assoc in Hi.
  destruct (get_le16_encoded _ off len low post Hi Hm ltac:(lia) Hlow) as (w & Hw & Hws).
  assert (Htr : 0 <= (if len <=? 33 then len - 2 else 0) < 32).
  { destruct (Z.leb_spec len 33); lia. }
  unfold do_match, d_op; cbn [d_ip d_out].
  destruct (Z.leb_spec 64 t); [lia|]. destruct (Z.leb_spec 32 t); [|lia].
  rewrite (land_mask _ 5 ltac:(lia) : Z.land _ 31 = _ mod 2 ^ 5).
  replace (t mod 2 ^ 5) with (if len <=? 33 then len - 2 else 0).
  2: { rewrite Ht. change (2 ^ 5) with 32. Z.div_mod_to_equations. lia. }
  rewrite Hlf, bind_Ok. rewrite <- zlen_app, Hw, bind_Ok, Hws.
  replace (zlen out - 1 - o34 off mod 16384) with (zlen out - off).
  2: { unfold o34, M3_MAX_OFFSET. destruct (Z.leb_spec off 0x4000); [|lia].
       rewrite Z.mod_small by lia. lia. }
  rewrite (long_match_encoded off len _ low post) by (done || lia).
  do 3 f_equal. zlen_simp. lia.
Qed.

Lemma m4_encoded pre off len low post out t :
  inp = pre ++ match_bytes off len low ++ post -> is_m2 off len = false ->
  M3_MAX_OFFSET < off <= M4_MAX_OFFSET ->
  t = m4_marker off + (if len <=? 9 then len - 2 else 0) ->
  0 <= low <= 3 -> 1 <= off <= zlen out -> 3 <= len -> zlen out + len <= cap ->
  len + 33 < 2 ^ 32 ->
  do_match inp cap t (Dst (zlen pre + 1) out) =
  Ok (Goto (if low =? 0 then L_outer else L_match_next low)
       (Dst (zlen pre + zlen (match_bytes off len low)) (copy_back (Z.to_nat len) off out))).
Proof.
  intros Hi Hm Ho4 Ht Hlow Ho Hlen Hfit Hov. unfold M3_MAX_OFFSET, M4_MAX_OFFSET in *.
  unfold match_bytes in *. rewrite <- app_assoc in Hi.
  assert (Hh : mb_head off len = if len <=? 9 then [m4_marker off + (len - 2)]
                                 else m4_marker off :: ext_len (len - 9)).
  { unfold mb_head. rewrite Hm. unfold M3_MAX_OFFSET.
    by destruct (Z.leb_spec off 0x4000); [lia|]. }
  pose proof (len_field_encoded 7 len pre (mb_head off len) _ Hi ltac:(lia) ltac:(lia) Hlen
    (ex_intro _ (m4_marker off) Hh)) as Hlf. cbn zeta in Hlf. change (7 + 2) with 9 in Hlf.
  rewrite app_assoc in Hi.
  destruct (get_le16_encoded _ off len low post Hi Hm ltac:(lia) Hlow) as (w & Hw & Hws).
  assert (Htr : 0 <= (if len <=? 9 then len - 2 else 0) < 8).
  { destruct (Z.leb_spec len 9); lia. }
  pose proof (m4_marker_range off) as Hmr.
  unfold do_match, d_op; cbn [d_ip d_out].
  destruct (Z.leb_spec 64 t); [lia|]. destruct (Z.leb_spec 32 t); [lia|].
  destruct (Z.leb_spec 16 t); [|lia].
  rewrite (land_mask _ 3 ltac:(lia) : Z.land _ 7 = _ mod 2 ^ 3).
  rewrite (land_bit t 3 ltac:(lia) : Z.land t 8 = _). bits_to_arith.
  change (2 ^ 3) with 8. change (2 ^ 11) with 2048.
  replace (t mod 8) with (if len <=? 9 then len - 2 else 0).
  2: { rewrite Ht. Z.div_mod_to_equations. lia. }
  rewrite Hlf, bind_Ok. rewrite <- zlen_app, Hw, bind_Ok, Hws.
  replace (zlen out - (t / 8) mod 2 * 8 * 2048 - o34 off mod 16384) with (zlen out - o34 off).
  2: { unfold o34, m4_marker, M3_MAX_OFFSET in *. destruct (Z.leb_spec off 0x4000); [lia|].
       rewrite Ht. destruct (Z.leb_spec 0x8000 off); Z.div_mod_to_equations; lia. }
  unfold o34, M3_MAX_OFFSET. destruct (Z.leb_spec off 0x4000); [lia|].
  destruct (Z.eqb_spec (zlen out - (off - 0x4000)) (zlen out)); [lia|].
  replace (zlen out - (off - 0x4000) - 0x4000) with (zlen out - off) by lia.
  rewrite (long_match_encoded off len _ low post) by (done || lia).
  do 3 f_equal. zlen_simp. lia.
Qed.

Lemma match_encoded pre off len low post out :
  inp = pre ++ match_bytes off len low ++ post ->
  0 <= low <= 3 -> 1 <= off <= M4_MAX_OFFSET -> off <= zlen out -> 3 <= len ->
  zlen out + len <= cap -> len + 33 < 2 ^ 32 ->
  exists t, rd inp (zlen pre) = Ok t /\ 16 <= t /\
  do_match inp cap t (Dst (zlen pre + 1) out) =
  Ok (Goto (if low =? 0 then L_outer else L_match_next low)
       (Dst (zlen pre + zlen (match_bytes off len low)) (copy_back (Z.to_nat len) off out))).
Proof.
  intros Hi Hlow Ho Ho' Hlen Hfit Hov.
  destruct (is_m2 off len) eqn:Hm.
  - exists (mb_lo off len + low). split; [|split].
    + rewrite Hi. unfold match_bytes, mb_head. rewrite Hm. apply rd_app_at.
    + unfold mb_lo. rewrite Hm. pose proof (Z.mod_pos_bound (off - 1) 8). lia.
    + rewrite (m2_encoded _ _ _ _ post) by (done || lia).
      do 3 f_equal. unfold match_bytes, mb_head. by rewrite Hm.
  - assert (Hh : exists t tl, mb_head off len = t :: tl /\
      t = if off <=? M3_MAX_OFFSET then 32 + (if len <=? 33 then len - 2 else 0)
          else m4_marker off + (if len <=? 9 then len - 2 else 0)).
    { unfold mb_head. rewrite Hm. destruct (off <=? _); [destruct (len <=? 33)|destruct (len <=? 9)];
        do 2 eexists; split; try done; lia. }
    destruct Hh as (t & tl & Hh & Ht). exists t. split; [|].
    { rewrite Hi. unfold match_bytes. rewrite Hh. apply rd_app_at. }
    destruct (Z.leb_spec off M3_MAX_OFFSET).
    + split; [destruct (Z.leb_spec len 33); lia|]. apply (m3_encoded _ _ _ _ post); done || lia.
    + split; [destruct (m4_marker_range off), (Z.leb_spec len 9); lia|].
      apply (m4_encoded _ _ _ _ post); done || lia.
Qed.

(** ** Runs of literals *)

(** Where the decompressor is before a run of [n] literals that follows a match. *)
Definition run_label (n : Z) : label :=
  if low_of n =? 0 then L_outer else L_match_next (low_of n).

(** The length byte (or bytes) of a run of at least four literals. *)
Lemma run_hdr_encoded n pre post :
  inp = pre ++ run_hdr n ++ post -> 4 <= n -> n + 20 < 2 ^ 32 ->
  exists b, rd inp (zlen pre) = Ok b /\ 0 <= b < 16 /\
    (if b =? 0 then extend_len inp 15 b (zlen pre + 1) else Ok (Some (b, zlen pre + 1))) =
    Ok (Some (n - 3, zlen pre + zlen (run_hdr n))).
Proof.
  intros Hi Hn Hov. unfold run_hdr in *. destruct (Z.leb_spec n 3); [lia|].
  destruct (Z.leb_spec n 18).
  - exists (n - 3). split; [rewrite Hi; apply rd_app_at|]. split; [lia|].
    destruct (Z.eqb_spec (n - 3) 0); [lia|]. by zlen_simp.
  - exists 0. split; [rewrite Hi; apply rd_app_at|]. split; [lia|].
    cbn [Z.eqb]. replace (zlen pre + 1) with (zlen (pre ++ [0])) by (by zlen_simp).
    rewrite (extend_len_encoded 15 (n - 18) (pre ++ [0]) post) by
      (lia || by rewrite <- app_assoc).
    do 3 f_equal; zlen_simp; lia.
Qed.

(** A run of [lits] at [pre], and the first byte [t] of the match after it. *)
Section run.
Context (pre lits post out : list Z) (t : Z) (r : Z * list Z).
Hypothesis Hi : inp = pre ++ run_hdr (zlen lits) ++ lits ++ t :: post.
Hypothesis Hpost : 0 < zlen post.
Hypothesis Ht : 16 <= t.
Hypothesis Hfit : zlen out + zlen lits <= cap.

Definition run_end : Z := zlen pre + zlen (run_hdr (zlen lits)) + zlen lits.

Hypothesis Hr : dsteps inp cap (L_match t) (Dst (run_end + 1) (out ++ lits)) r.

Lemma run_len : zlen inp = run_end + 1 + zlen post.
Proof. unfold run_end. rewrite Hi. zlen_simp. lia. Qed.

Lemma run_rd : rd inp run_end = Ok t.
Proof.
  rewrite Hi, !app_assoc, <- (rd_app_at ((pre ++ run_hdr (zlen lits)) ++ lits) post).
  f_equal. unfold run_end. by zlen_simp.
Qed.

Lemma run_slice : zslice inp (zlen pre + zlen (run_hdr (zlen lits))) (zlen lits) = lits.
Proof.
  rewrite Hi, app_assoc. unfold zslice.
  rewrite drop_app_length' by (unfold zlen; rewrite length_app; lia).
  apply take_app_length'. unfold zlen. lia.
Qed.

Lemma run_none : zlen lits = 0 -> dsteps inp cap L_outer (Dst (zlen pre) out) r.
Proof.
  intros H0. pose proof run_len. pose proof run_rd as Hrt. revert Hrt Hr.
  assert (Hl : lits = []) by (apply nil_length_inv; unfold zlen in H0; lia).
  unfold run_end. rewrite Hl, app_nil_r. change (zlen (run_hdr (zlen (@nil Z)))) with 0.
  change (zlen (@nil Z)) with 0. rewrite !Z.add_0_r. intros Hrt Hd.
  pose proof (rd_range _ _ _ Hrt).
  eapply dsteps_goto; [|exact Hd]. cbn [dstep]. unfold outer, in_len; cbn [d_ip d_out].
  destruct (Z.ltb_spec (zlen pre) (zlen inp)); [|lia]. rewrite Hrt, bind_Ok.
  by destruct (Z.leb_spec 16 t); [|lia].
Qed.

Lemma run_short :
  1 <= zlen lits <= 3 -> dsteps inp cap (L_match_next (zlen lits)) (Dst (zlen pre) out) r.
Proof.
  intros Hn.
  pose proof run_len as Hl. pose proof run_rd as Hrt. pose proof run_slice as Hsl.
  revert Hl Hrt Hsl Hr. unfold run_end. rewrite run_hdr_short by lia.
  change (zlen (@nil Z)) with 0. rewrite !Z.add_0_r. intros Hl Hrt Hsl Hd.
  pose proof (zlen_nonneg pre). pose proof (zlen_nonneg out).
  eapply dsteps_goto; [|exact Hd]. cbn [dstep]. rewrite match_next_eq by lia.
  destruct (Z.ltb_spec (cap - zlen out) (zlen lits)); [lia|].
  destruct (Z.ltb_spec (zlen inp - zlen pre) (zlen lits + 1)); [lia|].
  rewrite Hrt, bind_Ok.
  destruct (Z.ltb_spec (zlen pre + zlen lits + 1) (zlen inp)); [|lia]. by rewrite Hsl.
Qed.

Lemma run_long : 4 <= zlen lits -> dsteps inp cap L_outer (Dst (zlen pre) out) r.
Proof.
  intros Hn.
  pose proof run_len as Hl. pose proof run_rd as Hrt. pose proof run_slice as Hsl.
  pose proof (zlen_nonneg pre). pose proof (zlen_nonneg out).
  pose proof (zlen_nonneg (run_hdr (zlen lits))). unfold run_end in *.
  destruct (run_hdr_encoded (zlen lits) pre (lits ++ t :: post)) as (b & Hb & Hbr & Hx);
    [done|lia..|].
  eapply dsteps_goto with (l' := L_first_literal_run); [|eapply dsteps_goto; [|exact Hr]];
    cbn [dstep].
  - unfold outer, in_len; cbn [d_ip d_out].
    destruct (Z.ltb_spec (zlen pre) (zlen inp)); [|lia].
    rewrite Hb, bind_Ok. destruct (Z.leb_spec 16 b); [lia|]. rewrite Hx, bind_Ok.
    rewrite literal_run_ok by lia. replace (zlen lits - 3 + 3) with (zlen lits) by lia.
    destruct (Z.ltb_spec (cap - zlen out) (zlen lits)); [lia|].
    destruct (Z.ltb_spec (zlen inp - (zlen pre + zlen (run_hdr (zlen lits))))
      (zlen lits - 3 + 4)); [lia|].
    by rewrite Hsl.
  - unfold first_literal_run; cbn [d_ip d_out]. rewrite Hrt, bind_Ok.
    by destruct (Z.leb_spec 16 t); [|lia].
Qed.

(** A run is appended to the output, and the byte after it starts a match. *)
Lemma run_encoded : dsteps inp cap (run_label (zlen lits)) (Dst (zlen pre) out) r.
Proof.
  pose proof (zlen_nonneg lits). unfold run_label, low_of.
  destruct (Z.leb_spec (zlen lits) 3), (Z.eqb_spec (zlen lits) 0); try lia.
  - by apply run_none.
  - apply run_short. lia.
  - apply run_long. lia.
Qed.
End run.

(** ** Streams *)

Definition enc_from (ks : list token) (fin : list Z) : list Z :=
  enc_tokens ks (zlen fin) ++ run_hdr (zlen fin) ++ fin ++ eof_marker.

Lemma eof_encoded pre out :
  inp = pre ++ eof_marker ->
  dsteps inp cap (L_match 17) (Dst (zlen pre + 1) out) (LZO_E_OK, out).
Proof.
  intros Hi. change out with (d_out (Dst (zlen pre + 3) out)) at 2.
  assert (Hl : zlen inp = zlen pre + 3) by (rewrite Hi; by zlen_simp).
  apply dsteps_return. cbn [dstep]. unfold do_match, get_le16, d_op, in_len; cbn [d_ip d_out].
  change (Z.land 17 7) with 1. cbn -[rd].
  assert (rd inp (zlen pre + 1) = Ok 0) as ->.
  { rewrite Hi, rd_app_r by lia. by replace (zlen pre + 1 - zlen pre) with 1 by lia. }
  assert (rd inp (zlen pre + 1 + 1) = Ok 0) as ->.
  { rewrite Hi, rd_app_r by lia. by replace (zlen pre + 1 + 1 - zlen pre) with 2 by lia. }
  rewrite !bind_Ok. cbn. rewrite !Z.sub_0_r, Z.eqb_refl, Hl.
  replace (zlen pre + 1 + 2) with (zlen pre + 3) by lia. by rewrite Z.eqb_refl.
Qed.

Lemma match_bytes_cons p off len low rest t :
  rd (p ++ match_bytes off len low ++ rest) (zlen p) = Ok t ->
  exists post, match_bytes off len low ++ rest = t :: post /\ 0 < zlen post.
Proof.
  unfold match_bytes. rewrite rd_app_r, Z.sub_diag, <- app_assoc by lia.
  destruct (mb_head off len) as [|t' tl]; cbn; intros [= ->];
    (eexists; split; [reflexivity|]); zlen_simp; pose proof (zlen_nonneg rest);
    [lia|pose proof (zlen_nonneg tl); lia].
Qed.

Lemma decode_from ks fin pre out :
  inp = pre ++ enc_from ks fin -> tokens_ok out ks ->
  zlen (exec out ks ++ fin) <= cap -> zlen (exec out ks) < 2 ^ 31 ->
  dsteps inp cap (run_label (next_run ks (zlen fin))) (Dst (zlen pre) out)
    (LZO_E_OK, exec out ks ++ fin).
Proof.
  unfold enc_from. revert pre out.
  induction ks as [|k ks IH]; intros pre out Hi Hok Hfit Hbig.
  - change (exec out []) with out in *. rewrite zlen_app in Hfit. cbn [enc_tokens app] in Hi.
    eapply (run_encoded pre fin [0; 0] out 17); [done|done|lia..|].
    rewrite app_assoc, app_assoc in Hi.
    replace (run_end pre fin) with (zlen ((pre ++ run_hdr (zlen fin)) ++ fin))
      by (unfold run_end; zlen_simp; lia).
    by apply eof_encoded.
  - destruct Hok as [Hk Hok]. pose proof (exec_token_length _ _ Hk) as Hkl.
    pose proof (exec_length_ge _ _ Hok) as Hge. destruct Hk as (Ho & Ho' & Hlen & _).
    change (exec out (k :: ks)) with (exec (exec_token out k) ks) in *.
    rewrite zlen_app in Hfit. pose proof (zlen_nonneg fin). pose proof (zlen_nonneg out).
    pose proof (zlen_nonneg (k_lits k)).
    cbn [enc_tokens next_run] in Hi |- *. set (low := low_of (next_run ks (zlen fin))) in *.
    assert (Hlow : 0 <= low <= 3) by (apply low_of_range; destruct ks; apply zlen_nonneg).
    set (mb := match_bytes (k_off k) (k_len k) low) in *.
    set (rest := enc_tokens ks (zlen fin) ++ run_hdr (zlen fin) ++ fin ++ eof_marker) in *.
    assert (Hi' : inp = ((pre ++ run_hdr (zlen (k_lits k))) ++ k_lits k) ++ mb ++ rest).
    { rewrite Hi. unfold rest. by rewrite <- !app_assoc. }
    destruct (match_encoded _ _ _ _ _ (out ++ k_lits k) Hi') as (t & Hrt & H16 & Hstep);
      [lia..|zlen_simp; lia|lia|].
    assert (He : run_end pre (k_lits k) = zlen ((pre ++ run_hdr (zlen (k_lits k))) ++ k_lits k))
      by (unfold run_end; zlen_simp; lia).
    rewrite Hi' in Hrt. apply match_bytes_cons in Hrt as (post & Hpost & Hpos). fold mb in Hpost.
    apply (run_encoded pre (k_lits k) post out t); [|done|lia|lia|].
    { rewrite Hi', Hpost. by rewrite <- !app_assoc. }
    rewrite He. eapply dsteps_goto; [exact Hstep|]. rewrite <- zlen_app.
    apply IH; [by rewrite <- app_assoc|done|rewrite zlen_app; lia|lia].
Qed.

End decode.

(** ** Size of a compressed block *)

Lemma run_hdr_size n : 0 <= n -> zlen (run_hdr n) <= (if n <=? 3 then 0 else 1 + n / 16).
Proof.
  intros. unfold run_hdr. destruct (Z.leb_spec n 3); [done|].
  destruct (Z.leb_spec n 18); zlen_simp; rewrite ?zlen_ext_len by lia;
    Z.div_mod_to_equations; lia.
Qed.

Lemma match_bytes_size off len low :
  1 <= off -> 3 <= len -> (off <= M2_MAX_OFFSET \/ 4 <= len) ->
  zlen (match_bytes off len low) <= len - 1.
Proof.
  intros Ho Hlen Hshort. unfold match_bytes, mb_head. zlen_simp.
  destruct (is_m2 off len) eqn:Hm; [zlen_simp; lia|].
  assert (4 <= len).
  { unfold is_m2, M2_MAX_LEN in Hm. apply andb_false_iff in Hm.
    rewrite !Z.leb_gt in Hm. lia. }
  destruct (off <=? _); [destruct (Z.leb_spec len 33)|destruct (Z.leb_spec len 9)];
    zlen_simp; rewrite ?zlen_ext_len by lia; Z.div_mod_to_equations; lia.
Qed.

Lemma enc_tokens_size ks fin out :
  0 <= zlen out -> tokens_ok out ks ->
  16 * zlen (enc_tokens ks fin) <= 17 * (zlen (exec out ks) - zlen out).
Proof.
  revert out. induction ks as [|k ks IH]; intros out Hout Hok; [simpl; zlen_simp; lia|].
  destruct Hok as [Hk Hks]. pose proof (exec_token_length _ _ Hk) as Hl.
  pose proof (IH _ (zlen_nonneg _) Hks) as Hs. destruct Hk as (Ho & _ & Hlen & Hshort).
  change (exec out (k :: ks)) with (exec (exec_token out k) ks).
  cbn [enc_tokens]. zlen_simp. pose proof (zlen_nonneg (k_lits k)) as Hn.
  pose proof (run_hdr_size _ Hn).
  pose proof (match_bytes_size (k_off k) (k_len k) (low_of (next_run ks fin))
    ltac:(lia) Hlen Hshort).
  assert (16 * (if zlen (k_lits k) <=? 3 then 0 else 1 + zlen (k_lits k) / 16) <=
    16 + zlen (k_lits k)) by (destruct (_ <=? _); Z.div_mod_to_equations; lia).
  lia.
Qed.

Lemma encode_size ks fin :
  tokens_ok [] ks ->
  zlen (encode ks fin) <= lzo1x_worst_compress (zlen (exec [] ks ++ fin)).
Proof.
  intros Hok. pose proof (enc_tokens_size ks (zlen fin) [] ltac:(apply zlen_nonneg) Hok) as Hs.
  revert Hs. unfold encode, lzo1x_worst_compress. zlen_simp. intros Hs.
  pose proof (zlen_nonneg fin) as Hf. pose proof (run_hdr_size _ Hf).
  pose proof (zlen_nonneg (exec [] ks)). change (zlen eof_marker) with 3.
  assert ((if zlen fin <=? 3 then 0 else 1 + zlen fin / 16) <= 1 + zlen fin / 16)
    by (destruct (_ <=? _); Z.div_mod_to_equations; lia).
  destruct ks as [|k ks]; [destruct (_ && _)|]; zlen_simp; Z.div_mod_to_equations; lia.
Qed.

(** ** An encoded stream is made of bytes *)

Lemma ext_len_bytes tt : 1 <= tt -> Forall is_byte (ext_len tt).
Proof.
  intros H. pose proof (ext_len_range tt H). apply Forall_app. split.
  - by apply Forall_replicate.
  - apply Forall_singleton. unfold is_byte. lia.
Qed.

Lemma run_hdr_bytes n : Forall is_byte (run_hdr n).
Proof.
  unfold run_hdr. destruct (Z.leb_spec n 3); [done|]. destruct (Z.leb_spec n 18).
  - apply Forall_singleton. unfold is_byte. lia.
  - constructor; [done|]. apply ext_len_bytes. lia.
Qed.

Lemma match_bytes_bytes off len low :
  1 <= off -> 3 <= len -> 0 <= low <= 3 -> Forall is_byte (match_bytes off len low).
Proof.
  intros Ho Hlen Hlow. pose proof (mb_lo_range off len Ho Hlen).
  pose proof (mb_hi_range off len Ho). apply Forall_app. split.
  - unfold mb_head. destruct (is_m2 off len); [done|].
    destruct (m4_marker_range off) as [-> | ->];
      destruct (off <=? _); [destruct (Z.leb_spec len 33)|destruct (Z.leb_spec len 9)|
        destruct (Z.leb_spec len 33)|destruct (Z.leb_spec len 9)];
      (apply Forall_singleton; unfold is_byte; lia) ||
      (constructor; [done|apply ext_len_bytes; lia]).
  - repeat constructor; lia.
Qed.

Lemma enc_tokens_bytes ks fin out :
  0 <= fin -> tokens_ok out ks -> Forall (fun k => Forall is_byte (k_lits k)) ks ->
  Forall is_byte (enc_tokens ks fin).
Proof.
  intros Hfin. revert out. induction ks as [|k ks IH]; intros out Hok Hb; [done|].
  destruct Hok as [(Ho & _ & Hlen & _) Hok]. apply Forall_cons in Hb as [Hk Hb].
  cbn [enc_tokens]. rewrite !Forall_app. repeat split; eauto.
  - apply run_hdr_bytes.
  - apply match_bytes_bytes; [lia..|]. apply low_of_range. destruct ks; [done|apply zlen_nonneg].
Qed.

Lemma copy_back_prefix_of n off out : exists s, copy_back n off out = out ++ s.
Proof.
  revert out. induction n as [|n IH]; intros out; cbn [copy_back].
  - exists []. by rewrite app_nil_r.
  - destruct (rd out _) as [b| | |]; [|exists []; by rewrite app_nil_r..].
    destruct (IH (out ++ [b])) as [s ->]. exists (b :: s). by rewrite <- app_assoc.
Qed.

Lemma exec_prefix_of out ks : exists s, exec out ks = out ++ s.
Proof.
  revert out. induction ks as [|k ks IH]; intros out.
  - exists []. by rewrite app_nil_r.
  - destruct (copy_back_prefix_of (Z.to_nat (k_len k)) (k_off k) (out ++ k_lits k)) as [s Hs].
    destruct (IH (exec_token out k)) as [s' Hs'].
    change (exec out (k :: ks)) with (exec (exec_token out k) ks). rewrite Hs'.
    unfold exec_token. rewrite Hs, <- !app_assoc. eauto.
Qed.

(** The literals of a stream are part of what it stands for. *)
Lemma exec_lits_bytes out ks :
  Forall is_byte (exec out ks) -> Forall (fun k => Forall is_byte (k_lits k)) ks.
Proof.
  revert out. induction ks as [|k ks IH]; intros out Hb; constructor; [|by eapply IH].
  change (exec out (k :: ks)) with (exec (exec_token out k) ks) in Hb.
  destruct (exec_prefix_of (exec_token out k) ks) as [s Hs]. rewrite Hs in Hb.
  unfold exec_token in Hb.
  destruct (copy_back_prefix_of (Z.to_nat (k_len k)) (k_off k) (out ++ k_lits k)) as [s' Hs'].
  rewrite Hs', !Forall_app in Hb. tauto.
Qed.

Lemma encode_bytes ks fin :
  tokens_ok [] ks -> Forall is_byte (exec [] ks ++ fin) -> Forall is_byte (encode ks fin).
Proof.
  intros Hok [Hb Hf]%Forall_app. unfold encode.
  assert (Forall is_byte eof_marker) by (repeat constructor; done).
  pose proof (zlen_nonneg fin). pose proof (exec_lits_bytes _ _ Hb).
  destruct ks as [|k ks].
  - destruct (Z.ltb_spec 0 (zlen fin)), (Z.leb_spec (zlen fin) 238); cbn [andb];
      rewrite !Forall_app; repeat split; auto using run_hdr_bytes.
    apply Forall_singleton. unfold is_byte. lia.
  - rewrite !Forall_app. repeat split; auto using run_hdr_bytes.
    by apply enc_tokens_bytes with (out := []).
Qed.

(** ** Whole streams *)

Section whole.
Context (ks : list token) (fin : list Z) (cap : Z).
Hypothesis Hcap : 0 <= cap < 2 ^ 32.
Hypothesis Hok : tokens_ok [] ks.
Hypothesis Hfirst : first_run_ok ks.
Hypothesis Hbytes : Forall is_byte (exec [] ks ++ fin).
Hypothesis Hfit : zlen (exec [] ks ++ fin) <= cap.
Hypothesis Hbig : zlen (exec [] ks) < 2 ^ 31.
Hypothesis Hsize : zlen (encode ks fin) < 2 ^ 32 - 64.

Lemma decode_drun l st fuel :
  (forall t, l <> L_match t) -> 0 <= d_ip st <= zlen (encode ks fin) ->
  zlen (encode ks fin) - d_ip st < Z.of_nat fuel ->
  dsteps (encode ks fin) cap l st (LZO_E_OK, exec [] ks ++ fin) ->
  drun (encode ks fin) cap fuel l st = Ok (LZO_E_OK, exec [] ks ++ fin).
Proof. intros Hl Hip Hf Hd. apply dsteps_drun_fuel; [done|done| |done]. intros t E. by destruct (Hl t). Qed.

(** A stream that starts with a run header, or with the end marker. *)
Lemma decode_plain :
  encode ks fin = enc_from ks fin -> run_label (next_run ks (zlen fin)) = L_outer ->
  (exists b, rd (encode ks fin) 0 = Ok b /\ b <= 17) ->
  lzo1x_decompress_safe (encode ks fin) cap = Ok (LZO_E_OK, exec [] ks ++ fin).
Proof.
  intros He Hl (b & Hb & Hb17). unfold lzo1x_decompress_safe. rewrite Hb, bind_Ok.
  destruct (Z.ltb_spec 17 b); [lia|].
  apply decode_drun; cbn [d_ip d_out]; [done| |unfold zlen; lia|].
  - split; [done|apply zlen_nonneg].
  - rewrite <- Hl. apply (decode_from _ cap Hcap Hsize ks fin []); done.
Qed.

(** A stream that is one short run. *)
Lemma decode_one_run :
  ks = [] -> 1 <= zlen fin <= 238 ->
  lzo1x_decompress_safe (encode ks fin) cap = Ok (LZO_E_OK, exec [] ks ++ fin).
Proof.
  intros Hk Hn. 
  pose proof decode_drun as Hdrun. pose proof Hfit as Hfit'. rewrite Hk in Hdrun, Hfit' |- *.
  assert (He : encode [] fin = [17 + zlen fin] ++ fin ++ 17 :: [0; 0]).
  { unfold encode. destruct (Z.ltb_spec 0 (zlen fin)), (Z.leb_spec (zlen fin) 238); done || lia. }
  assert (Hl : zlen (encode [] fin) = zlen fin + 4) by (rewrite He; zlen_simp; lia).
  change (exec [] []) with (@nil Z) in *. cbn [app] in Hdrun, Hfit' |- *.
  unfold lzo1x_decompress_safe. rewrite He at 1. cbn [app].
  change (rd (_ :: _) 0) with (Ok (17 + zlen fin)). rewrite bind_Ok.
  destruct (Z.ltb_spec 17 (17 + zlen fin)); [|lia].
  replace (17 + zlen fin - 17) with (zlen fin) by lia.
  assert (Heof : dsteps (encode [] fin) cap (L_match 17) (Dst (zlen fin + 2) fin) (LZO_E_OK, fin)).
  { replace (zlen fin + 2) with (zlen ([17 + zlen fin] ++ fin) + 1) by (zlen_simp; lia).
    apply eof_encoded. by rewrite He, <- app_assoc. }
  destruct (Z.ltb_spec (zlen fin) 4).
  - apply Hdrun; cbn [d_ip d_out]; [done|lia|unfold zlen in *; lia|].
    change 1 with (zlen [17 + zlen fin]).
    apply (run_short (encode [] fin) cap Hcap ltac:(lia)
        [17 + zlen fin] fin [0; 0] [] 17);
      rewrite ?run_hdr_short by lia; try done; try lia.
    unfold run_end. rewrite run_hdr_short by lia.
    change (zlen [17 + zlen fin]) with 1. change (zlen (@nil Z)) with 0.
    by replace (1 + 0 + zlen fin + 1) with (zlen fin + 2) by lia.
  - unfold HAVE_OP, HAVE_IP, d_op, in_len; cbn [d_ip d_out]. change (zlen (@nil Z)) with 0.
    rewrite !u32_small by lia. destruct (Z.ltb_spec (cap - 0) (zlen fin)); [lia|].
    destruct (Z.ltb_spec (zlen (encode [] fin) - 1) (zlen fin + 1)); [lia|].
    assert (times (zlen fin) = length fin) as ->.
    { unfold times. destruct (Z.eqb_spec (zlen fin) 0); [lia|]. unfold zlen. lia. }
    rewrite copy_in_loop_ok by (change (zlen (@nil Z)) with 0; unfold zlen in *; lia).
    rewrite bind_Ok. cbn [app].
    assert (zslice (encode [] fin) 1 (Z.of_nat (length fin)) = fin) as ->.
    { rewrite He. unfold zslice. cbn [Z.to_nat app]. change (Pos.to_nat 1) with 1%nat.
      cbn [drop]. apply take_app_length'. lia. }
    apply Hdrun; cbn [d_ip d_out]; [done|unfold zlen in *; lia..|].
    apply dsteps_goto with (L_match 17) (Dst (zlen fin + 2) fin); [|done].
    cbn [dstep]. unfold first_literal_run; cbn [d_ip d_out].
    assert (rd (encode [] fin) (1 + Z.of_nat (length fin)) = Ok 17) as ->.
    { rewrite He, app_assoc. rewrite <- (rd_app_at ([17 + zlen fin] ++ fin) [0; 0]).
      f_equal. by zlen_simp. }
    rewrite bind_Ok. cbn. do 3 f_equal. unfold zlen. lia.
Qed.

Lemma decode_encode :
  lzo1x_decompress_safe (encode ks fin) cap = Ok (LZO_E_OK, exec [] ks ++ fin).
Proof.
  pose proof (zlen_nonneg fin) as Hn.
  assert (Hhdr : forall n post, 4 <= n -> exists b, rd (run_hdr n ++ post) 0 = Ok b /\ b <= 17).
  { intros n post H. unfold run_hdr. destruct (Z.leb_spec n 3); [lia|].
    destruct (Z.leb_spec n 18); eexists; (split; [reflexivity|lia]). }
  assert (Hks : ks = [] \/ exists k ks', ks = k :: ks') by (destruct ks; eauto).
  destruct Hks as [Hk|(k & ks' & Hk)].
  - destruct (decide (1 <= zlen fin <= 238)); [by apply decode_one_run|].
    assert (He : encode ks fin = enc_from ks fin).
    { rewrite Hk. unfold encode.
      destruct (Z.ltb_spec 0 (zlen fin)), (Z.leb_spec (zlen fin) 238); done || lia. }
    apply decode_plain; [done|rewrite Hk; cbn [next_run]|rewrite He, Hk].
    + unfold run_label, low_of.
      by destruct (Z.leb_spec (zlen fin) 3), (Z.eqb_spec (zlen fin) 0); try lia.
    + unfold enc_from; cbn [enc_tokens app].
      destruct (decide (4 <= zlen fin)); [by apply Hhdr|].
      assert (Hnil : fin = []) by (apply nil_length_inv; unfold zlen in *; lia).
      rewrite Hnil. by exists 17.
  - pose proof Hfirst as Hf. rewrite Hk in Hf. cbn [first_run_ok] in Hf.
    apply decode_plain; rewrite Hk; cbn [next_run].
    + unfold encode, enc_from. by rewrite <- app_assoc.
    + unfold run_label. by rewrite low_of_long by lia.
    + unfold encode; cbn [enc_tokens]. rewrite <- !app_assoc. by apply Hhdr.
Qed.

End whole.

(** ** Results *)

(** C1: whatever the work memory holds, the compressor succeeds on every block of
    less than 2^31 bytes, and the decompressor, given room for it, returns
    [LZO_E_OK] and exactly the block. *)
Theorem lzo_roundtrip inp wrkmem cap :
  Forall is_byte inp -> wrkmem_ok wrkmem ->
  zlen inp < 2 ^ 31 -> zlen inp <= cap < 2 ^ 32 ->
  exists c, Comp.lzo1x_1_compress inp wrkmem = Ok c /\
            lzo1x_decompress_safe c cap = Ok (LZO_E_OK, inp).
Proof.
  intros Hb Hw Hsz Hcap. pose proof (zlen_nonneg inp) as Hn.
  destruct (compress_encodes inp ltac:(lia) Hb wrkmem Hw) as (ks & fin & Hc & Hok & Hf & He).
  exists (encode ks fin). split; [done|].
  pose proof (encode_size ks fin Hok) as Hes. rewrite He in Hes.
  assert (zlen (exec [] ks) <= zlen inp).
  { rewrite <- He, zlen_app. pose proof (zlen_nonneg fin). lia. }
  rewrite <- He. apply decode_encode; rewrite ?He; try done; try lia.
  unfold lzo1x_worst_compress in Hes. Z.div_mod_to_equations. lia.
Qed.

Lemma lzo_roundtrip_witness :
  exists c, Comp.lzo1x_1_compress (replicate 40 7 ++ [1; 2; 3]) (fun _ => 0) = Ok c /\
            lzo1x_decompress_safe c 43 = Ok (LZO_E_OK, replicate 40 7 ++ [1; 2; 3]).
Proof.
  apply (lzo_roundtrip (replicate 40 7 ++ [1; 2; 3]) (fun _ => 0) 43).
  - apply (bool_decide_unpack _). by vm_compute.
  - intros k. vm_compute. done.
  - by vm_compute.
  - split; by vm_compute.
Defined.

(** C3: the compressed block never needs more than the [lzo1x_worst_compress]
    bytes its callers reserve for it, and is made of bytes. The input is below
    2^31 bytes. *)
Theorem lzo_worst_case inp wrkmem :
  Forall is_byte inp -> wrkmem_ok wrkmem -> zlen inp < 2 ^ 31 ->
  exists c, Comp.lzo1x_1_compress inp wrkmem = Ok c /\ Forall is_byte c /\
            zlen c <= lzo1x_worst_compress (zlen inp).
Proof.
  intros Hb Hw Hn.
  destruct (compress_encodes inp Hn Hb wrkmem Hw) as (ks & fin & Hc & Hok & Hf & He).
  exists (encode ks fin). split; [done|]. rewrite <- He in Hb |- *.
  split; [by apply encode_bytes|by apply encode_size].
Qed.

Lemma lzo_worst_case_witness :
  exists c, Comp.lzo1x_1_compress (replicate 40 7) (fun _ => 0) = Ok c /\ Forall is_byte c /\
            zlen c <= lzo1x_worst_compress (zlen (replicate 40 7)).
Proof.
  apply (lzo_worst_case (replicate 40 7) (fun _ => 0)).
  - apply (bool_decide_unpack _). by vm_compute.
  - intros k. vm_compute. done.
  - by vm_compute.
Defined.

(** C7: on any input of at most 2^24 bytes (behind that the 32-bit counter of a run
    can wrap around), however corrupt, and for every room for the output, the
    decompressor terminates, never writes outside [out[0 .. *out_len)], never
    reads before the input or before the output or output it has not written,
    and reports no more bytes than fit: its only possible fault is a read at or
    past the end of the input. *)
Theorem lzo_decompress_safe_any inp cap :
  0 <= cap < 2 ^ 32 -> zlen inp <= MAX_SAFE_IN -> Forall is_byte inp ->
  safe (lzo1x_decompress_safe inp cap) (fun r => zlen r.2 <= cap).
Proof. intros Hc Hn Hb. by apply decompress_safe_all. Qed.

Lemma lzo_decompress_safe_any_witness :
  safe (lzo1x_decompress_safe [21; 1; 2; 3; 4; 64; 255; 0] 16) (fun r => zlen r.2 <= 16).
Proof.
  apply (lzo_decompress_safe_any [21; 1; 2; 3; 4; 64; 255; 0] 16).
  - lia.
  - by vm_compute.
  - apply (bool_decide_unpack _). by vm_compute.
Defined.

(** Behind the last byte of the input. *)
Lemma rd_end {A} (l : list A) i : zlen l <= i -> rd l i = Stray Rd.
Proof.
  unfold rd, zlen. intros Hi. destruct (Z.ltb_spec i 0); [lia|]. by rewrite lookup_ge_None_2 by lia.
Qed.

(** C25: a stream that is cut behind the first byte [t] of a match, which follows
    a run of 4 to 238 literals: for the three values of [t] whose length is in
    the bytes behind it the decompressor reports the missing input, with the
    literals; for each of the other 253 it reads past the end of the input, as it
    does on an empty input. *)
Theorem lzo_decompress_overreads lits t cap :
  4 <= zlen lits <= 238 -> is_byte t -> zlen lits <= cap < 2 ^ 32 ->
  lzo1x_decompress_safe [] cap = Stray Rd /\
  lzo1x_decompress_safe (17 + zlen lits :: lits ++ [t]) cap =
    if decide (t = 16 \/ t = 24 \/ t = 32) then Ok (LZO_E_INPUT_OVERRUN, lits) else Stray Rd.
Proof.
  intros Hn Ht Hcap. split; [done|]. set (inp := 17 + zlen lits :: lits ++ [t]).
  assert (Hl : zlen inp = zlen lits + 2) by (unfold inp; zlen_simp; lia).
  assert (Hlast : rd inp (1 + zlen lits) = Ok t).
  { unfold inp. change (?x :: ?l) with ([x] ++ l). rewrite app_assoc. rewrite <- (rd_app_at ([17 + zlen lits] ++ lits) []).
    f_equal. by zlen_simp. }
  assert (Hend : rd inp (zlen lits + 2) = Stray Rd) by (apply rd_end; lia).
  unfold lzo1x_decompress_safe. change (rd inp 0) with (Ok (17 + zlen lits)). rewrite bind_Ok.
  destruct (Z.ltb_spec 17 (17 + zlen lits)); [|lia]. replace (17 + zlen lits - 17) with (zlen lits) by lia.
  destruct (Z.ltb_spec (zlen lits) 4); [lia|]. unfold HAVE_OP, HAVE_IP, d_op, in_len. cbn [d_ip d_out].
  change (zlen (@nil Z)) with 0. rewrite !u32_small by lia.
  destruct (Z.ltb_spec (cap - 0) (zlen lits)); [lia|]. destruct (Z.ltb_spec (zlen inp - 1) (zlen lits + 1)); [lia|].
  assert (times (zlen lits) = length lits) as -> by (unfold times; destruct (Z.eqb_spec (zlen lits) 0); [lia|unfold zlen; lia]).
  assert (Hlits : zslice inp 1 (zlen lits) = lits).
  { unfold inp, zslice. cbn [Z.to_nat]. change (Pos.to_nat 1) with 1%nat. cbn [drop]. apply take_app_length'. unfold zlen. lia. }
  rewrite copy_in_loop_ok by (change (zlen (@nil Z)) with 0; unfold zlen in *; lia).
  rewrite bind_Ok. fold (zlen lits). rewrite Hlits. cbn [app].
  replace (length inp) with (S (S (length lits))) by (unfold inp; cbn; rewrite length_app; cbn; lia).
  cbn [drun dstep]. unfold first_literal_run. cbn [d_ip d_out].
  rewrite Hlast, bind_Ok. replace (1 + zlen lits + 1) with (zlen lits + 2) by lia.
  destruct (Z.leb_spec 16 t) as [H16|H16].
  - rewrite bind_Ok. destruct (decide _) as [Hd|Hd].
    + assert (Hext : forall base, extend_len inp base 0 (zlen lits + 2) = Ok None).
      { intros base. unfold extend_len, HAVE_IP, in_len. rewrite Hl. by replace (zlen lits + 2 - (zlen lits + 2)) with 0 by lia. }
      destruct Hd as [-> | [-> | ->]]; cbn -[extend_len inp]; by rewrite Hext.
    + cbn [dstep]. unfold do_match. cbn [d_ip d_out]. destruct (Z.leb_spec 64 t); [by rewrite Hend|].
      rewrite (land_mask t 5 ltac:(lia) : Z.land t 31 = t mod 2 ^ 5), (land_mask t 3 ltac:(lia) : Z.land t 7 = t mod 2 ^ 3).
      unfold get_le16. destruct (Z.leb_spec 32 t); [|destruct (Z.leb_spec 16 t); [|lia]].
      * destruct (Z.eqb_spec (t mod 2 ^ 5) 0); [change (2 ^ 5) with 32 in *; Z.div_mod_to_equations; lia|].
        rewrite bind_Ok. by rewrite Hend.
      * destruct (Z.eqb_spec (t mod 2 ^ 3) 0); [change (2 ^ 3) with 8 in *; Z.div_mod_to_equations; lia|].
        rewrite bind_Ok. by rewrite Hend.
  - rewrite Hend. by rewrite decide_False by lia.
Qed.

Lemma lzo_decompress_overreads_witness :
  lzo1x_decompress_safe [] 16 = Stray Rd /\ lzo1x_decompress_safe [21; 1; 2; 3; 4; 64] 16 = Stray Rd.
Proof.
  apply (lzo_decompress_overreads [1; 2; 3; 4] 64 16).
  - split; by vm_compute.
  - split; by vm_compute.
  - split; by vm_compute.
Defined.

End Roundtrip.
