(* ===== verification/Compression.v ===== *)
(** The compressed block file, [src/src/core/loader/compression.c].

    A log or checkpoint file is a fixed header followed by blocks; a block is a
    [struct comp_block_head] and the LZO stream of at most [MAX_COMP_SZ] bytes.
    The codec is used through the interface of [linux/lzo.h]: [LzoApi] are its
    functions, [LzoLaws] what they promise. [read_blocks] is the reader of the
    format, built on [decompress]. *)
From S2P Require Import Prelude Kernel.
From S2P Require Import LzoDecompress LzoCompress LzoFormat LzoCompressFacts LzoDecompressFacts LzoRoundtrip.

(** defs.h, compression.h *)
Definition BIGBUFFER_SZ : Z := 2048 * 1024.
Definition MAX_COMP_SZ : Z := BIGBUFFER_SZ.

Definition COMP_LZO_COMP : Z := 2.

(** "SNITCHASER-LZO000" and its terminating zero *)
Definition COMP_FILE_HEADER : list Z :=
  [83; 78; 73; 84; 67; 72; 65; 83; 69; 82; 45; 76; 90; 79; 48; 48; 48; 0].
Definition COMP_FILE_HEADER_SZ : Z := 18.

Class LzoApi := {
  api_worst_compress : Z -> Z;
  (** the input, and the contents of the work memory *)
  api_compress : list Z -> (Z -> Z) -> result (list Z);
  (** the input and [*dst_len]; the return code and the bytes decoded *)
  api_decompress_safe : list Z -> Z -> result (Z * list Z)
}.

Class LzoLaws `{LzoApi} := {
  (** the work memory the compressor may be given *)
  work_ok : (Z -> Z) -> Prop;
  api_compress_ok : forall buf w,
    Forall is_byte buf -> work_ok w -> zlen buf <= MAX_COMP_SZ ->
    exists c, api_compress buf w = Ok c /\ zlen c <= api_worst_compress (zlen buf) /\
      api_decompress_safe c (zlen buf) = Ok (Lzo.LZO_E_OK, buf);
  api_worst_small : forall n, 0 <= n <= MAX_COMP_SZ -> api_worst_compress n < 2 ^ 31
}.

#[global] Instance lzo_api : LzoApi := {
  api_worst_compress := Lzo.lzo1x_worst_compress;
  api_compress := Comp.lzo1x_1_compress;
  api_decompress_safe := Lzo.lzo1x_decompress_safe
}.

(** A block of at most [MAX_COMP_SZ] bytes is well within what the codec is
    proved for. *)
#[global] Program Instance lzo_laws : LzoLaws := {
  work_ok := CompFacts.wrkmem_ok
}.
Next Obligation.
  intros buf w Hb Hw Hsz. unfold MAX_COMP_SZ, BIGBUFFER_SZ in Hsz. pose proof (zlen_nonneg buf).
  destruct (CompFacts.compress_encodes buf ltac:(lia) Hb w Hw) as (ks & fin & Hc & Hok & Hf & He).
  exists (Fmt.encode ks fin). pose proof (Roundtrip.encode_size ks fin Hok) as Hes.
  assert (zlen (Fmt.exec [] ks) <= zlen buf).
  { rewrite <- He, zlen_app. pose proof (zlen_nonneg fin). lia. }
  rewrite He in Hes. split; [done|]. split; [done|]. cbn [api_decompress_safe lzo_api].
  rewrite <- He at 2. apply Roundtrip.decode_encode; rewrite ?He; try done; try lia.
  unfold Lzo.lzo1x_worst_compress in Hes. Z.div_mod_to_equations. lia.
Qed.
Next Obligation.
  intros n Hn. cbn. unfold Lzo.lzo1x_worst_compress, MAX_COMP_SZ, BIGBUFFER_SZ in *.
  Z.div_mod_to_equations. lia.
Qed.

Module Compr.
Section compression.
Context {K : Type} `{Kernel K} `{LzoApi}.

(** The contents of the memory [alloca] returns, which nobody initialised. *)
Context (stack : K -> Z -> Z).

Definition comp_block_head (type ori_sz comp_sz : Z) : list Z :=
  le32 type ++ le32 ori_sz ++ le32 comp_sz.

Definition sizeof_comp_block_head : Z := 12.

(** The compressor always returns [LZO_E_OK], so the assertion on its return
    code is not a branch of the model. *)
Definition flush_small_buffer (k : K) (fd : Z) (buffer : list Z) : result K :=
  let sz := zlen buffer in
  _ ← assert (sz <=? MAX_COMP_SZ);
  if sz =? 0 then Ok k
  else
    let destlen := api_worst_compress sz in
    destbuffer ← api_compress buffer (stack k);
    if destlen <? zlen destbuffer then Stray Wr
    else
      let destlen := zlen destbuffer in
      let '(err, k) := sys_write k fd (comp_block_head COMP_LZO_COMP sz destlen) in
      _ ← assert (u32 err =? sizeof_comp_block_head);
      let '(err, k) := sys_write k fd destbuffer in
      _ ← assert (u32 err =? destlen);
      Ok k.

Fixpoint flush_loop (fuel : nat) (k : K) (fd : Z) (buffer : list Z) : result K :=
  if 0 <? zlen buffer then
    match fuel with
    | O => NoFuel
    | S fuel =>
        let sz := zlen buffer in
        let flushsz := if MAX_COMP_SZ <? sz then MAX_COMP_SZ else sz in
        k ← flush_small_buffer k fd (take (Z.to_nat flushsz) buffer);
        flush_loop fuel k fd (drop (Z.to_nat flushsz) buffer)
    end
  else Ok k.

Definition flush_comp_buffer (k : K) (fd : Z) (buffer : list Z) : result K :=
  _ ← assert (0 <=? fd);
  flush_loop (S (Z.to_nat (zlen buffer / MAX_COMP_SZ))) k fd buffer.

Definition decompress (src : list Z) (dst_len : Z) : result (list Z) :=
  '(err, dst) ← api_decompress_safe src dst_len;
  _ ← assert (err =? Lzo.LZO_E_OK);
  Ok dst.

Definition write_comp_file_head (k : K) (fd : Z) : result K :=
  _ ← assert (0 <=? fd);
  let '(err, k) := sys_write k fd COMP_FILE_HEADER in
  _ ← assert (u32 err =? COMP_FILE_HEADER_SZ);
  Ok k.

(** ** The reader of the format *)

(** The next block: its data and what follows it. *)
Definition read_block (l : list Z) : option (list Z * list Z) :=
  let ori_sz := of_le (zslice l 4 4) in
  let comp_sz := of_le (zslice l 8 4) in
  if (12 <=? zlen l) && (of_le (zslice l 0 4) =? COMP_LZO_COMP) &&
     (12 + comp_sz <=? zlen l)
  then
    match decompress (zslice l 12 comp_sz) ori_sz with
    | Ok d => if zlen d =? ori_sz then Some (d, drop (Z.to_nat (12 + comp_sz)) l) else None
    | _ => None
    end
  else None.

Fixpoint read_blocks (fuel : nat) (l : list Z) : option (list Z) :=
  match l, fuel with
  | [], _ => Some []
  | _, O => None
  | _, S fuel =>
      '(d, rest) ← read_block l;
      ds ← read_blocks fuel rest;
      Some (d ++ ds)
  end.

End compression.

(** ** Blocks *)

Section facts.
Context {K : Type} `{KernelFiles K} `{LzoLaws}.
Context (stack : K -> Z -> Z) (Hstack : forall k, work_ok (stack k)).
Context (up : Prop) (Hup : up -> KernelUp K).

Lemma read_block_app d c rest :
  zlen d < 2 ^ 32 -> zlen c < 2 ^ 32 -> api_decompress_safe c (zlen d) = Ok (Lzo.LZO_E_OK, d) ->
  read_block (comp_block_head COMP_LZO_COMP (zlen d) (zlen c) ++ c ++ rest) = Some (d, rest).
Proof.
  intros Hd Hc Hdec. pose proof (zlen_nonneg d). pose proof (zlen_nonneg c).
  pose proof (zlen_nonneg rest). unfold read_block, comp_block_head.
  set (h1 := le32 COMP_LZO_COMP). set (h2 := le32 (zlen d)). set (h3 := le32 (zlen c)).
  assert (E1 : zslice ((h1 ++ h2 ++ h3) ++ c ++ rest) 0 4 = h1) by done.
  assert (E2 : zslice ((h1 ++ h2 ++ h3) ++ c ++ rest) 4 4 = h2) by done.
  assert (E3 : zslice ((h1 ++ h2 ++ h3) ++ c ++ rest) 8 4 = h3) by done.
  assert (Hz : zlen ((h1 ++ h2 ++ h3) ++ c ++ rest) = 12 + zlen c + zlen rest).
  { rewrite !zlen_app. change (zlen h1) with 4. change (zlen h2) with 4.
    change (zlen h3) with 4. lia. }
  assert (Hd12 : forall n, 0 <= n -> drop (Z.to_nat (12 + n)) ((h1 ++ h2 ++ h3) ++ c ++ rest) =
    drop (Z.to_nat n) (c ++ rest)).
  { intros n Hn. replace (Z.to_nat (12 + n)) with (12 + Z.to_nat n)%nat by lia.
    by rewrite <- drop_drop. }
  rewrite E1, E2, E3. unfold h1, h2, h3. rewrite !of_le32 by (unfold COMP_LZO_COMP; lia).
  fold h1 h2 h3. rewrite Hz. destruct (Z.leb_spec 12 (12 + zlen c + zlen rest)); [|lia].
  destruct (Z.leb_spec (12 + zlen c) (12 + zlen c + zlen rest)); [|lia].
  rewrite Z.eqb_refl. cbn [andb]. unfold zslice. rewrite (Hd12 0 ltac:(lia) : drop (Z.to_nat 12) _ = _).
  rewrite Hd12 by lia. change (Z.to_nat 0) with 0%nat. rewrite drop_0.
  rewrite take_app_length', drop_app_length' by (unfold zlen; lia).
  unfold decompress. rewrite Hdec. simpl. by rewrite Z.eqb_refl.
Qed.

Lemma read_blocks_mono n m l d :
  read_blocks n l = Some d -> (n <= m)%nat -> read_blocks m l = Some d.
Proof.
  revert m l d. induction n as [|n IH]; intros m l d Hr Hm.
  - destruct l; [|done]. by destruct m.
  - destruct l as [|x l]; [by destruct m|]. destruct m as [|m]; [lia|].
    cbn [read_blocks] in *. destruct (read_block (x :: l)) as [[d' rest]|]; simpl in *; [|done].
    destruct (read_blocks n rest) as [ds|] eqn:E; simpl in *; [|done].
    rewrite (IH _ _ _ E) by lia. done.
Qed.

(** [l] is a sequence of blocks that stands for [data]. *)
Inductive blocks : list Z -> list Z -> Prop :=
| blocks_nil : blocks [] []
| blocks_cons d c l ds :
    zlen d < 2 ^ 32 -> zlen c < 2 ^ 32 ->
    api_decompress_safe c (zlen d) = Ok (Lzo.LZO_E_OK, d) -> blocks l ds ->
    blocks (comp_block_head COMP_LZO_COMP (zlen d) (zlen c) ++ c ++ l) (d ++ ds).

Lemma blocks_app l1 d1 l2 d2 : blocks l1 d1 -> blocks l2 d2 -> blocks (l1 ++ l2) (d1 ++ d2).
Proof.
  induction 1 as [|d c l ds Hd Hc Hdec _ IH]; intros Hb; [done|].
  rewrite <- !app_assoc. constructor; auto.
Qed.

Lemma blocks_one d c :
  zlen d < 2 ^ 32 -> zlen c < 2 ^ 32 ->
  api_decompress_safe c (zlen d) = Ok (Lzo.LZO_E_OK, d) ->
  blocks (comp_block_head COMP_LZO_COMP (zlen d) (zlen c) ++ c) d.
Proof.
  intros Hd Hc Hdec. pose proof (blocks_cons d c [] [] Hd Hc Hdec blocks_nil) as Hb.
  by rewrite !app_nil_r in Hb.
Qed.

(** The reader recovers the data, and needs no more rounds than bytes. *)
Lemma blocks_read l d : blocks l d -> read_blocks (length l) l = Some d.
Proof.
  induction 1 as [|d c l ds Hd Hc Hdec _ IH]; [done|].
  pose proof (read_block_app d c l Hd Hc Hdec) as Hr.
  set (m := comp_block_head _ _ _) in *.
  assert (Hlen : exists n, length (m ++ c ++ l) = S n /\ (length l <= n)%nat).
  { exists (11 + length c + length l)%nat. rewrite !length_app. by split; [|lia]. }
  destruct Hlen as (n & -> & Hn). cbn [read_blocks].
  destruct (m ++ c ++ l) as [|x l'] eqn:E; [done|].
  rewrite Hr. simpl. by rewrite (read_blocks_mono _ _ _ _ IH Hn).
Qed.

Lemma flush_small_buffer_spec k fd fn buf :
  fd_file k fd = Some fn -> Forall is_byte buf -> zlen buf <= MAX_COMP_SZ ->
  outcome up (flush_small_buffer stack k fd buf) (fun k' =>
    fd_file k' fd = Some fn /\
    exists l, file_bytes k' fn = file_bytes k fn ++ l /\ blocks l buf).
Proof.
  intros Hfd Hb Hsz. unfold flush_small_buffer. pose proof (zlen_nonneg buf).
  destruct (Z.leb_spec (zlen buf) MAX_COMP_SZ); [|lia]. cbn [assert]. rewrite bind_Ok.
  destruct (Z.eqb_spec (zlen buf) 0) as [E|E].
  { split; [done|]. exists []. rewrite app_nil_r. split; [done|].
    assert (buf = []) as -> by (apply nil_length_inv; unfold zlen in E; lia). constructor. }
  destruct (api_compress_ok buf (stack k) Hb (Hstack k) Hsz) as (c & -> & Hw & Hdec).
  rewrite bind_Ok. destruct (Z.ltb_spec (api_worst_compress (zlen buf)) (zlen c)); [lia|].
  pose proof (api_worst_small (zlen buf) ltac:(lia)). unfold MAX_COMP_SZ, BIGBUFFER_SZ in *.
  apply (write_asserted up Hup _ _ fn); [done|done|done|].
  intros k1 Hfd1 Hf1. apply (write_asserted up Hup _ _ fn); [done|lia|done|].
  intros k2 Hfd2 Hf2. split; [done|]. eexists. split.
  - by rewrite Hf2, Hf1, <- app_assoc.
  - apply blocks_one; lia || done.
Qed.

Lemma flush_loop_spec fuel k fd fn buf :
  fd_file k fd = Some fn -> Forall is_byte buf ->
  zlen buf < MAX_COMP_SZ * Z.of_nat fuel \/ zlen buf = 0 ->
  outcome up (flush_loop stack fuel k fd buf) (fun k' =>
    fd_file k' fd = Some fn /\
    exists l, file_bytes k' fn = file_bytes k fn ++ l /\ blocks l buf).
Proof.
  revert k buf. induction fuel as [|fuel IH]; intros k buf Hfd Hb Hf;
    cbn [flush_loop]; pose proof (zlen_nonneg buf);
    destruct (Z.ltb_spec 0 (zlen buf)) as [Hpos|Hpos]; try lia.
  1, 3: split; [done|]; exists []; rewrite app_nil_r; split; [done|];
    assert (buf = []) as -> by (apply nil_length_inv; unfold zlen in *; lia); constructor.
  set (n := if MAX_COMP_SZ <? zlen buf then MAX_COMP_SZ else zlen buf).
  assert (Hn : 0 < n <= zlen buf /\ n <= MAX_COMP_SZ /\ (n = MAX_COMP_SZ \/ n = zlen buf)).
  { unfold n. destruct (Z.ltb_spec MAX_COMP_SZ (zlen buf)); unfold MAX_COMP_SZ, BIGBUFFER_SZ in *; lia. }
  eapply outcome_bind.
  { apply flush_small_buffer_spec with (fn := fn); [done|by apply Forall_take|].
    rewrite zlen_take; lia. }
  intros k1 (Hfd1 & l1 & Hf1 & Hb1). eapply outcome_mono.
  { apply IH; [done|by apply Forall_drop|]. rewrite zlen_drop by lia. lia. }
  intros k2 (Hfd2 & l2 & Hf2 & Hb2). split; [done|]. exists (l1 ++ l2).
  rewrite Hf2, Hf1, <- app_assoc. split; [done|].
  rewrite <- (take_drop (Z.to_nat n) buf). by apply blocks_app.
Qed.

Lemma flush_comp_buffer_spec k fd fn buf :
  0 <= fd -> fd_file k fd = Some fn -> Forall is_byte buf ->
  outcome up (flush_comp_buffer stack k fd buf) (fun k' =>
    fd_file k' fd = Some fn /\
    exists l, file_bytes k' fn = file_bytes k fn ++ l /\ blocks l buf).
Proof.
  intros Hpos Hfd Hb. unfold flush_comp_buffer.
  destruct (Z.leb_spec 0 fd); [|lia]. cbn [assert]. rewrite bind_Ok.
  apply flush_loop_spec; [done|done|left]. pose proof (zlen_nonneg buf).
  unfold MAX_COMP_SZ, BIGBUFFER_SZ. rewrite Nat2Z.inj_succ, Z2Nat.id by (apply Z.div_pos; lia).
  Z.div_mod_to_equations. lia.
Qed.

Lemma write_comp_file_head_spec k fd fn :
  0 <= fd -> fd_file k fd = Some fn ->
  outcome up (write_comp_file_head k fd) (fun k' =>
    fd_file k' fd = Some fn /\ file_bytes k' fn = file_bytes k fn ++ COMP_FILE_HEADER).
Proof.
  intros Hpos Hfd. unfold write_comp_file_head.
  destruct (Z.leb_spec 0 fd); [|lia]. cbn [assert]. rewrite bind_Ok.
  by apply (write_asserted up Hup _ _ fn).
Qed.

End facts.

(** C8: on a kernel whose calls succeed, [flush_comp_buffer] returns, and what
    it appended to the file is a sequence of blocks from which the reader of
    the format recovers exactly the buffer, whatever its size. The calls of the
    kernel succeed and the descriptor is open on the file. *)
Theorem flush_comp_buffer_roundtrip {K} `{KernelUp K} (stack : K -> Z -> Z) k fd fn buf :
  (forall k, work_ok (stack k)) -> 0 <= fd -> fd_file k fd = Some fn -> Forall is_byte buf ->
  exists k' l, flush_comp_buffer stack k fd buf = Ok k' /\
    file_bytes k' fn = file_bytes k fn ++ l /\
    read_blocks (length l) l = Some buf.
Proof.
  intros Hs Hpos Hfd Hb.
  destruct (outcome_up _ _ _ (flush_comp_buffer_spec stack Hs True (fun _ => _) k fd fn buf Hpos Hfd Hb) I)
    as (k' & Hk & _ & l & Hf & Hbl).
  exists k', l. split; [done|]. split; [done|]. by apply blocks_read.
Qed.

Definition ram1 : Ram.ram := (Ram.open Ram.empty [108] O_TRUNC 0).2.

Lemma flush_comp_buffer_roundtrip_witness :
  exists k' l, flush_comp_buffer (fun _ _ => 0) ram1 3 [1; 2; 3; 1; 2; 3] = Ok k' /\
    file_bytes k' [108] = file_bytes ram1 [108] ++ l /\
    read_blocks (length l) l = Some [1; 2; 3; 1; 2; 3].
Proof.
  apply (flush_comp_buffer_roundtrip (K := Ram.ram) (fun _ _ => 0) ram1 3 [108] [1; 2; 3; 1; 2; 3]).
  - intros _ k. by vm_compute.
  - lia.
  - reflexivity.
  - apply (bool_decide_unpack _). by vm_compute.
Defined.

End Compr.
