(* ===== verification/Bigbuffer.v ===== *)
(** The buffer in front of a compressed file, [src/src/core/loader/bigbuffer.c].

    A thread's big buffer collects what is written to a checkpoint or a log and
    is compressed into the file when it is full. The logical stream is what the
    blocks in the file stand for followed by the pending bytes of the buffer;
    appending to the buffer appends to it. *)
From S2P Require Import Prelude Kernel Compression.

Module Big.
Import Compr.

Record bigbuffer := BB {
  bb_buffer : list Z;
  bb_ptr : Z
}.

Definition reset_bigbuffer_ptr (bb : bigbuffer) : bigbuffer := BB (bb_buffer bb) 0.

Definition set_bigbuffer_ptr (bb : bigbuffer) (offset : Z) : bigbuffer :=
  BB (bb_buffer bb) offset.

Definition init_bigbuffer (bb : bigbuffer) : bigbuffer := reset_bigbuffer_ptr bb.

Section bigbuffer.
Context {K : Type} `{Kernel K} `{LzoApi} (stack : K -> Z -> Z).

Definition flush_bigbuffer (k : K) (fd : Z) (bb : bigbuffer) : result (K * bigbuffer) :=
  _ ← assert (0 <=? fd);
  k ← (if negb (bb_ptr bb =? 0) then
         buf ← mem_read (bb_buffer bb) 0 (bb_ptr bb);
         flush_comp_buffer stack k fd buf
       else Ok k);
  Ok (k, reset_bigbuffer_ptr bb).

(** The [do ... while (sz > 0)] of [append_bigbuffer]. *)
Fixpoint append_loop (fuel : nat) (k : K) (fd : Z) (bb : bigbuffer) (buf : list Z) :
    result (K * bigbuffer) :=
  match fuel with
  | O => NoFuel
  | S fuel =>
      let cp_sz := Z.min (u32 (BIGBUFFER_SZ - bb_ptr bb)) (zlen buf) in
      '(bb, buf) ← (if 0 <? cp_sz then
                      b ← mem_write (bb_buffer bb) (bb_ptr bb) (take (Z.to_nat cp_sz) buf);
                      Ok (BB b (bb_ptr bb + cp_sz), drop (Z.to_nat cp_sz) buf)
                    else Ok (bb, buf));
      '(k, bb) ← (if 0 <? zlen buf then
                    _ ← assert (bb_ptr bb =? BIGBUFFER_SZ);
                    flush_bigbuffer k fd bb
                  else Ok (k, bb));
      if 0 <? zlen buf then append_loop fuel k fd bb buf else Ok (k, bb)
  end.

Definition append_bigbuffer (k : K) (fd : Z) (bb : bigbuffer) (buf : list Z) :
    result (K * bigbuffer) :=
  _ ← assert (bb_ptr bb <? BIGBUFFER_SZ);
  _ ← assert (0 <=? fd);
  if zlen buf =? 0 then Ok (k, bb)
  else append_loop (S (S (Z.to_nat (zlen buf / BIGBUFFER_SZ)))) k fd bb buf.

End bigbuffer.

(** ** The stream behind a buffer *)

Definition pending (bb : bigbuffer) : list Z := take (Z.to_nat (bb_ptr bb)) (bb_buffer bb).

Record bb_ok (bb : bigbuffer) : Prop := {
  bb_size : zlen (bb_buffer bb) = BIGBUFFER_SZ;
  bb_range : 0 <= bb_ptr bb <= BIGBUFFER_SZ;
  bb_bytes : Forall is_byte (bb_buffer bb)
}.

Lemma zlen_pending bb : bb_ok bb -> zlen (pending bb) = bb_ptr bb.
Proof. intros [Hs Hr _]. apply zlen_take. lia. Qed.

Lemma bb_ok_reset bb : bb_ok bb -> bb_ok (reset_bigbuffer_ptr bb).
Proof. intros [Hs Hr Hb]. split; simpl; unfold BIGBUFFER_SZ in *; lia || done. Qed.

Section facts.
Context {K : Type} `{KernelFiles K} `{LzoLaws}.
Context (stack : K -> Z -> Z) (Hstack : forall k, work_ok (stack k)).
Context (up : Prop) (Hup : up -> KernelUp K).

(** [k'] is [k] with blocks that stand for [d] appended to the file. *)
Definition grown (fd : Z) (fn : list Z) (k k' : K) (d : list Z) : Prop :=
  fd_file k' fd = Some fn /\
  exists l, file_bytes k' fn = file_bytes k fn ++ l /\ blocks l d.

Lemma grown_refl fd fn k : fd_file k fd = Some fn -> grown fd fn k k [].
Proof. intros. split; [done|]. exists []. rewrite app_nil_r. split; [done|constructor]. Qed.

Lemma grown_trans fd fn k1 k2 k3 d1 d2 :
  grown fd fn k1 k2 d1 -> grown fd fn k2 k3 d2 -> grown fd fn k1 k3 (d1 ++ d2).
Proof.
  intros (_ & l1 & F1 & B1) (Hf & l2 & F2 & B2). split; [done|]. exists (l1 ++ l2).
  rewrite F2, F1, <- app_assoc. split; [done|by apply blocks_app].
Qed.

Lemma flush_bigbuffer_spec k fd fn bb :
  0 <= fd -> fd_file k fd = Some fn -> bb_ok bb ->
  outcome up (flush_bigbuffer stack k fd bb) (fun r =>
    r.2 = reset_bigbuffer_ptr bb /\ grown fd fn k r.1 (pending bb)).
Proof.
  intros Hpos Hfd Hbb. unfold flush_bigbuffer. destruct (Z.leb_spec 0 fd); [|lia].
  cbn [assert]. rewrite bind_Ok. destruct Hbb as [Hs Hr Hb].
  apply (outcome_bind _ _ _ (fun k' => grown fd fn k k' (pending bb))); [|done].
  destruct (Z.eqb_spec (bb_ptr bb) 0) as [E|E]; cbn [negb].
  - unfold pending. rewrite E. simpl. by apply grown_refl.
  - rewrite mem_read_ok by lia. rewrite bind_Ok.
    apply flush_comp_buffer_spec; [done..|]. by apply Forall_take.
Qed.

(** The pointer after [n] more bytes: a buffer that is filled exactly is not
    flushed. *)
Definition ptr_after (ptr n : Z) : Z :=
  if n =? 0 then ptr else (ptr + n - 1) mod BIGBUFFER_SZ + 1.

Lemma ptr_after_small ptr n :
  0 <= ptr -> 0 < n -> ptr + n <= BIGBUFFER_SZ -> ptr_after ptr n = ptr + n.
Proof.
  intros. unfold ptr_after. destruct (Z.eqb_spec n 0); [lia|].
  rewrite Z.mod_small by lia. lia.
Qed.

Lemma ptr_after_flush ptr n m :
  0 < n -> 0 < m -> ptr + m = BIGBUFFER_SZ -> ptr_after ptr (m + n) = ptr_after 0 n.
Proof.
  intros Hn Hm HE. unfold ptr_after. destruct (Z.eqb_spec (m + n) 0), (Z.eqb_spec n 0); try lia.
  replace (ptr + (m + n) - 1) with (0 + n - 1 + 1 * BIGBUFFER_SZ) by lia.
  rewrite Z.mod_add by (unfold BIGBUFFER_SZ; lia). done.
Qed.

Definition appended (fd : Z) (fn : list Z) (k : K) (bb : bigbuffer) (buf : list Z)
    (r : K * bigbuffer) : Prop :=
  bb_ok r.2 /\ bb_ptr r.2 = ptr_after (bb_ptr bb) (zlen buf) /\
  exists d, grown fd fn k r.1 d /\ pending bb ++ buf = d ++ pending r.2.

Lemma append_loop_spec fuel k fd fn bb buf :
  0 <= fd -> fd_file k fd = Some fn -> bb_ok bb -> bb_ptr bb < BIGBUFFER_SZ ->
  Forall is_byte buf -> 0 < zlen buf -> bb_ptr bb + zlen buf <= BIGBUFFER_SZ * Z.of_nat fuel ->
  outcome up (append_loop stack fuel k fd bb buf) (appended fd fn k bb buf).
Proof.
  intros Hpos. revert k bb buf.
  induction fuel as [|fuel IH]; intros k bb buf Hfd Hbb Hlt Hb Hz Hf;
    destruct Hbb as [Hs Hr Hbs]; [lia|]. cbn [append_loop].
  rewrite u32_small by (unfold BIGBUFFER_SZ in *; lia).
  set (n := Z.min (BIGBUFFER_SZ - bb_ptr bb) (zlen buf)).
  assert (Hn : 0 < n <= zlen buf) by (unfold n; lia).
  assert (Hzt : zlen (take (Z.to_nat n) buf) = n) by (apply zlen_take; lia).
  assert (Hzd : zlen (drop (Z.to_nat n) buf) = zlen buf - n) by (apply zlen_drop; lia).
  destruct (Z.ltb_spec 0 n); [|lia].
  destruct (mem_write_ok (bb_buffer bb) (bb_ptr bb) (take (Z.to_nat n) buf))
    as (b & Hw & Hbl & Hbt); [lia|rewrite Hzt; unfold n; lia|].
  pose proof (Forall_mem_write is_byte _ _ _ _ Hbs (Forall_take _ _ _ Hb) Hw) as Hb'.
  rewrite Hw, !bind_Ok, Hzd. rewrite Hzt in Hbt. set (bb1 := BB b (bb_ptr bb + n)).
  assert (Hbb1 : bb_ok bb1) by (split; simpl; [lia|unfold n; lia|done]).
  assert (Hp1 : pending bb1 = pending bb ++ take (Z.to_nat n) buf) by done.
  destruct (Z.ltb_spec 0 (zlen buf - n)) as [Hrest|Hrest].
  - assert (Hfull : bb_ptr bb + n = BIGBUFFER_SZ) by (unfold n in *; lia).
    rewrite (Hfull : bb_ptr bb1 = _), Z.eqb_refl. cbn [assert]. rewrite bind_Ok.
    eapply outcome_bind; [by apply flush_bigbuffer_spec|].
    intros [k2 bb2] [Hbb2 Hg]. simpl in Hbb2, Hg. subst bb2.
    eapply outcome_mono.
    { apply IH; [apply Hg|by apply bb_ok_reset|done|by apply Forall_drop|lia|].
      simpl. lia. }
    intros [k3 bb3] (Hok & Hptr & d & Hg' & Hd). split; [done|]. split.
    + rewrite Hptr, Hzd. simpl.
      replace (zlen buf) with (n + (zlen buf - n)) at 2 by lia. symmetry.
      apply ptr_after_flush; lia.
    + exists (pending bb1 ++ d). split; [by eapply grown_trans|].
      simpl in Hd |- *. rewrite <- app_assoc, <- Hd, Hp1, <- app_assoc. by rewrite take_drop.
  - assert (n = zlen buf) as Hnz by lia. simpl. split; [done|]. split.
    + simpl. rewrite ptr_after_small; unfold n in *; lia.
    + exists []. split; [by apply grown_refl|]. simpl. rewrite Hp1. f_equal.
      symmetry. apply take_ge. unfold zlen in *. lia.
Qed.

Lemma append_bigbuffer_spec k fd fn bb buf :
  0 <= fd -> fd_file k fd = Some fn -> bb_ok bb -> bb_ptr bb < BIGBUFFER_SZ ->
  Forall is_byte buf ->
  outcome up (append_bigbuffer stack k fd bb buf) (appended fd fn k bb buf).
Proof.
  intros Hpos Hfd Hbb Hlt Hb. unfold append_bigbuffer.
  destruct (Z.ltb_spec (bb_ptr bb) BIGBUFFER_SZ); [|lia].
  destruct (Z.leb_spec 0 fd); [|lia]. cbn [assert]. rewrite !bind_Ok.
  pose proof (zlen_nonneg buf). destruct (Z.eqb_spec (zlen buf) 0) as [E|E].
  - assert (buf = []) as -> by (apply nil_length_inv; unfold zlen in E; lia).
    split; [done|]. split; [done|]. exists []. split; [by apply grown_refl|].
    by rewrite app_nil_r.
  - apply append_loop_spec; [done..|lia|]. destruct Hbb as [_ Hr _].
    rewrite !Nat2Z.inj_succ, Z2Nat.id by (apply Z.div_pos; unfold BIGBUFFER_SZ; lia).
    unfold BIGBUFFER_SZ in *. Z.div_mod_to_equations. lia.
Qed.

(** The calls a client makes: appends, one after the other. *)
Fixpoint appends (k : K) (fd : Z) (bb : bigbuffer) (bufs : list (list Z)) :
    result (K * bigbuffer) :=
  match bufs with
  | [] => Ok (k, bb)
  | b :: bufs => '(k, bb) ← append_bigbuffer stack k fd bb b; appends k fd bb bufs
  end.

(** No append starts when the bytes appended before it fill the buffer exactly;
    [n] bytes were appended so far. *)
Fixpoint stays_open (n : Z) (bufs : list (list Z)) : bool :=
  match bufs with
  | [] => true
  | b :: bufs => negb ((0 <? n) && (n mod BIGBUFFER_SZ =? 0)) && stays_open (n + zlen b) bufs
  end.

Lemma ptr_after_full n : 0 <= n -> (ptr_after 0 n <? BIGBUFFER_SZ) = negb ((0 <? n) && (n mod BIGBUFFER_SZ =? 0)).
Proof.
  unfold ptr_after. intros Hn. destruct (Z.eqb_spec n 0) as [->|]; [done|].
  destruct (Z.ltb_spec 0 n), (Z.eqb_spec (n mod BIGBUFFER_SZ) 0), (Z.ltb_spec ((0 + n - 1) mod BIGBUFFER_SZ + 1) BIGBUFFER_SZ); cbn [andb negb]; try done; exfalso;
    unfold BIGBUFFER_SZ in *; Z.div_mod_to_equations; lia.
Qed.

Lemma ptr_after_add ptr n m :
  0 <= n -> 0 <= m -> ptr_after (ptr_after ptr n) m = ptr_after ptr (n + m).
Proof.
  intros. unfold ptr_after.
  destruct (Z.eqb_spec n 0), (Z.eqb_spec m 0), (Z.eqb_spec (n + m) 0); try lia; subst;
    rewrite ?Z.add_0_r; try done; try lia.
  replace ((ptr + n - 1) mod BIGBUFFER_SZ + 1 + m - 1)
    with (m + (ptr + n - 1) mod BIGBUFFER_SZ) by lia.
  rewrite Zplus_mod_idemp_r. do 2 f_equal. lia.
Qed.

Lemma appends_spec k fd fn bb bufs n :
  0 <= fd -> fd_file k fd = Some fn -> bb_ok bb -> 0 <= n -> bb_ptr bb = ptr_after 0 n ->
  Forall (Forall is_byte) bufs ->
  if stays_open n bufs then
    outcome up (appends k fd bb bufs) (fun r =>
      bb_ok r.2 /\ exists d, grown fd fn k r.1 d /\ pending bb ++ concat bufs = d ++ pending r.2)
  else up -> appends k fd bb bufs = Fatal.
Proof.
  intros Hpos. revert k bb n. induction bufs as [|b bufs IH]; intros k bb n Hfd Hbb Hn Hptr0 Hb.
  - split; [done|]. exists []. split; [by apply grown_refl|]. simpl. by rewrite app_nil_r.
  - apply Forall_cons in Hb as [Hb Hbs]. pose proof (zlen_nonneg b). cbn [stays_open appends].
    rewrite <- ptr_after_full, <- Hptr0 by done. destruct (Z.ltb_spec (bb_ptr bb) BIGBUFFER_SZ) as [Hlt|Hge]; cbn [andb].
    2: { intros _. unfold append_bigbuffer. by destruct (Z.ltb_spec (bb_ptr bb) BIGBUFFER_SZ); [lia|]. }
    pose proof (append_bigbuffer_spec k fd fn bb b Hpos Hfd Hbb Hlt Hb) as Ha.
    assert (Hnext : forall r, appended fd fn k bb b r -> if stays_open (n + zlen b) bufs then
        outcome up (appends r.1 fd r.2 bufs) (fun r' => bb_ok r'.2 /\ exists d, grown fd fn r.1 r'.1 d /\
          pending r.2 ++ concat bufs = d ++ pending r'.2)
      else up -> appends r.1 fd r.2 bufs = Fatal).
    { intros [k1 bb1] (Hok & Hptr & d & Hg & Hd). cbn [fst snd] in *. apply IH; [apply Hg|done|lia| |done].
      rewrite Hptr, Hptr0. apply ptr_after_add; lia. }
    destruct (stays_open (n + zlen b) bufs).
    + eapply outcome_bind; [exact Ha|]. intros [k1 bb1] Hr. pose proof Hr as (_ & _ & d & Hg & Hd).
      eapply outcome_mono; [exact (Hnext _ Hr)|]. intros [k2 bb2] (Hok2 & d2 & Hg2 & Hd2). cbn [fst snd] in *. split; [done|].
      exists (d ++ d2). split; [by eapply grown_trans|]. cbn [concat]. by rewrite app_assoc, Hd, <- !app_assoc, Hd2.
    + intros Hu. destruct (outcome_up _ _ _ Ha Hu) as ([k1 bb1] & -> & Hr). exact (Hnext _ Hr Hu).
Qed.

End facts.

(** C12: a client that starts on an empty buffer, appends any chunks of bytes and
    flushes has put in the file blocks from which the reader recovers the chunks
    in order, and the buffer is empty again; unless some append starts after
    the ones before it have filled the buffer exactly, a positive multiple of
    its size: then the process ends with a failed assertion. The writes of the
    kernel are complete. *)
Theorem bigbuffer_stream {K} `{KernelUp K} (stack : K -> Z -> Z) k fd fn bb bufs :
  (forall k, work_ok (stack k)) -> 0 <= fd -> fd_file k fd = Some fn ->
  bb_ok bb -> bb_ptr bb = 0 -> Forall (Forall is_byte) bufs ->
  if stays_open 0 bufs then
    exists k' bb' l,
      ('(k, bb) ← appends stack k fd bb bufs; flush_bigbuffer stack k fd bb) = Ok (k', bb') /\
      bb_ok bb' /\ bb_ptr bb' = 0 /\
      file_bytes k' fn = file_bytes k fn ++ l /\
      read_blocks (length l) l = Some (concat bufs)
  else ('(k, bb) ← appends stack k fd bb bufs; flush_bigbuffer stack k fd bb) = Fatal.
Proof.
  intros Hs Hpos Hfd Hbb Hp Hb.
  pose proof (appends_spec stack Hs True (fun _ => _) k fd fn bb bufs 0 Hpos Hfd Hbb ltac:(lia) Hp Hb) as Ha.
  destruct (stays_open 0 bufs); [|by rewrite Ha].
  destruct (outcome_up _ _ _ Ha I) as ([k1 bb1] & Hk1 & Hok & d & Hg & Hd). cbn [fst snd] in *.
  destruct (outcome_up _ _ _ (flush_bigbuffer_spec stack Hs True (fun _ => _) k1 fd fn bb1
    Hpos (proj1 Hg) Hok) I) as ([k2 bb2] & Hk2 & Hbb2 & Hg2). cbn [fst snd] in *.
  destruct (grown_trans _ _ _ _ _ _ _ Hg Hg2) as (_ & l & Hl & Hbl).
  exists k2, bb2, l. rewrite Hk1, bind_Ok, Hk2. subst bb2.
  split; [done|]. split; [by apply bb_ok_reset|]. split; [done|]. split; [done|].
  rewrite <- Hd in Hbl. unfold pending in Hbl. rewrite Hp in Hbl. by apply blocks_read in Hbl.
Qed.

Definition empty_bb : bigbuffer := BB (replicate (Z.to_nat BIGBUFFER_SZ) 0) 0.

Lemma empty_bb_ok : bb_ok empty_bb.
Proof.
  split.
  - unfold zlen, empty_bb, bb_buffer. rewrite length_replicate. unfold BIGBUFFER_SZ. lia.
  - cbn [empty_bb bb_ptr]. unfold BIGBUFFER_SZ. lia.
  - by apply Forall_replicate.
Qed.

Lemma bigbuffer_stream_witness :
  exists k' bb' l,
    ('(k, bb) ← appends (fun _ _ => 0) ram1 3 empty_bb [[1; 2]; []; [3]];
     flush_bigbuffer (fun _ _ => 0) k 3 bb) = Ok (k', bb') /\
    bb_ok bb' /\ bb_ptr bb' = 0 /\
    file_bytes k' [108] = file_bytes ram1 [108] ++ l /\
    read_blocks (length l) l = Some [1; 2; 3].
Proof.
  apply (bigbuffer_stream (K := Ram.ram) (fun _ _ => 0) ram1 3 [108] empty_bb [[1; 2]; []; [3]]).
  - intros _ k. by vm_compute.
  - lia.
  - reflexivity.
  - exact empty_bb_ok.
  - reflexivity.
  - apply (bool_decide_unpack _). by vm_compute.
Defined.

(** The bytes that fill the buffer exactly are accepted, leave it full, and
    make the next append abort, whatever it appends. *)
Lemma bigbuffer_exact_fill {K} `{KernelFiles K} `{LzoLaws} (stack : K -> Z -> Z) k fd fn bb buf :
  (forall k, work_ok (stack k)) -> 0 <= fd -> fd_file k fd = Some fn ->
  bb_ok bb -> bb_ptr bb + zlen buf = BIGBUFFER_SZ -> buf <> [] -> Forall is_byte buf ->
  exists bb', append_bigbuffer stack k fd bb buf = Ok (k, bb') /\ bb_ptr bb' = BIGBUFFER_SZ /\
    forall k' fd' buf', append_bigbuffer stack k' fd' bb' buf' = Fatal.
Proof.
  intros Hs Hpos Hfd [Hsz Hr Hbs] Hfill Hne Hb.
  assert (Hpl : 0 < zlen buf) by (destruct buf; [done|]; zlen_simp; pose proof (zlen_nonneg buf); lia).
  destruct (mem_write_ok (bb_buffer bb) (bb_ptr bb) buf) as (b & Hw & _ & _); [lia..|].
  exists (BB b BIGBUFFER_SZ). split; [|split; [done|]].
  - unfold append_bigbuffer. destruct (Z.ltb_spec (bb_ptr bb) BIGBUFFER_SZ); [|lia].
    destruct (Z.leb_spec 0 fd); [|lia]. destruct (Z.eqb_spec (zlen buf) 0); [lia|].
    cbn [assert append_loop]. rewrite !bind_Ok, u32_small by (unfold BIGBUFFER_SZ in *; lia).
    replace (Z.min (BIGBUFFER_SZ - bb_ptr bb) (zlen buf)) with (zlen buf) by lia.
    destruct (Z.ltb_spec 0 (zlen buf)); [|lia].
    rewrite take_ge, drop_ge, Hw by (unfold zlen; lia). rewrite !bind_Ok, Hfill.
    done.
  - intros k' fd' buf'. unfold append_bigbuffer. cbn [bb_ptr]. by rewrite Z.ltb_irrefl.
Qed.

End Big.
