(* ===== verification/Logger.v ===== *)
(** The event log of a thread, [src/src/core/loader/logger.c] and the typed
    appends of [logger.h].

    A logger writes into the thread's big buffer through [asm_curr_ptr] (an
    offset into the thread's data area, shared with assembly code that writes
    ahead of its check, hence the 32 bytes kept free at the end) and flushes it
    to the log file as compressed blocks. [ASM_BASE] is the offset of the
    buffer in that area, computed by the build from the layout of the area. *)
From S2P Require Import Prelude Kernel Compression Bigbuffer.

Module Log.
Import Compr Big.

(** [struct logger_tpd_stub] with the buffer it points to; [l_locked] is the
    state of [log_flush_mutex] as its only user sees it. *)
Record logger := Logger {
  log_fn : list Z;
  this_bigbuffer : bigbuffer;
  asm_curr_ptr : Z;
  asm_end_ptr : Z;
  l_locked : bool
}.

Definition set_bb (l : logger) (bb : bigbuffer) : logger :=
  Logger (log_fn l) bb (asm_curr_ptr l) (asm_end_ptr l) (l_locked l).
Definition set_curr (l : logger) (p : Z) : logger :=
  Logger (log_fn l) (this_bigbuffer l) p (asm_end_ptr l) (l_locked l).
Definition set_locked (l : logger) (b : bool) : logger :=
  Logger (log_fn l) (this_bigbuffer l) (asm_curr_ptr l) (asm_end_ptr l) b.

(** [xmutex_lock] on a mutex its caller already holds never returns. *)
Definition lock (l : logger) : result logger :=
  if l_locked l then NoFuel else Ok (set_locked l true).
Definition unlock (l : logger) : logger := set_locked l false.

Section logger.
Context {K : Type} `{Kernel K} `{LzoApi} (stack : K -> Z -> Z) (ASM_BASE : Z).

Definition flush_logger (k : K) (l : logger) : result (K * logger) :=
  l ← lock l;
  let curr_offset := u32 (asm_curr_ptr l - ASM_BASE) in
  let l := set_bb l (set_bigbuffer_ptr (this_bigbuffer l) curr_offset) in
  _ ← assert (curr_offset <? BIGBUFFER_SZ);
  let '(fd, k) := sys_open k (log_fn l) (Z.lor (Z.lor O_WRONLY O_APPEND) O_CREAT) 436 in
  if fd <? 0 then
    let l := unlock l in
    let l := set_bb l (reset_bigbuffer_ptr (this_bigbuffer l)) in
    Ok (k, set_curr l ASM_BASE)
  else
    '(k, bb) ← flush_bigbuffer stack k fd (this_bigbuffer l);
    let l := set_bb l (reset_bigbuffer_ptr bb) in
    let '(err, k) := sys_close k fd in
    if negb (err =? 0) then Fatal
    else Ok (k, unlock (set_curr l ASM_BASE)).

(** The copy of [data] to [start_ptr + (asm_curr_ptr - ASM_BASE)]. *)
Definition store (l : logger) (data : list Z) : result logger :=
  let bb := this_bigbuffer l in
  b ← mem_write (bb_buffer bb) (asm_curr_ptr l - ASM_BASE) data;
  Ok (set_curr (set_bb l (BB b (bb_ptr bb))) (asm_curr_ptr l + zlen data)).

Fixpoint append_loop (fuel : nat) (k : K) (l : logger) (data : list Z) : result (K * logger) :=
  if 0 <? zlen data then
    match fuel with
    | O => NoFuel
    | S fuel =>
        let aval := u32 (asm_end_ptr l - asm_curr_ptr l) in
        let cpysz := if zlen data <? aval then zlen data else aval in
        l ← store l (take (Z.to_nat cpysz) data);
        let data := drop (Z.to_nat cpysz) data in
        '(k, l) ← (if 0 <? zlen data then flush_logger k l else Ok (k, l));
        append_loop fuel k l data
    end
  else Ok (k, l).

Definition append_logger (k : K) (l : logger) (data : list Z) : result (K * logger) :=
  append_loop (S (S (Z.to_nat (zlen data / (BIGBUFFER_SZ - 32))))) k l data.

(** [append_logger_u32] and its siblings: a value is never split over a flush. *)
Definition append_logger_TYPE (n : nat) (k : K) (l : logger) (x : Z) : result (K * logger) :=
  '(k, l) ← (if asm_end_ptr l <? u32 (asm_curr_ptr l + Z.of_nat n)
             then flush_logger k l else Ok (k, l));
  l ← store l (le n x);
  Ok (k, l).

Definition append_logger_u32 := append_logger_TYPE 4.
Definition append_logger_ptr := append_logger_TYPE 4.
Definition append_logger_u16 := append_logger_TYPE 2.
Definition append_logger_u8 := append_logger_TYPE 1.
Definition append_logger_int := append_logger_TYPE 4.

(** [flush_all_logger], over the loggers of the threads in [tls_list]. *)
Fixpoint flush_each (k : K) (ls : list logger) : result (K * list logger) :=
  match ls with
  | [] => Ok (k, [])
  | l :: ls =>
      '(k, l) ← flush_logger k l;
      '(k, ls) ← flush_each k ls;
      Ok (k, l :: ls)
  end.

Definition flush_all_logger (k : K) (tls_locked : bool) (ls : list logger) :
    result (K * list logger) :=
  if tls_locked then NoFuel else flush_each k ls.

(** The part of [init_logger] that sets the stub up; [fn] is the name it
    formatted into [log_fn]. *)
Definition init_stub (l : logger) (fn : list Z) : logger :=
  Logger fn (reset_bigbuffer_ptr (this_bigbuffer l)) ASM_BASE (ASM_BASE + BIGBUFFER_SZ - 32) false.

End logger.

(** ** The log behind a logger *)

Section facts.
Context {K : Type} `{KernelFiles K} `{LzoLaws}.
Context (stack : K -> Z -> Z) (Hstack : forall k, work_ok (stack k)).
Context (up : Prop) (Hup : up -> KernelUp K).
Context (ASM_BASE : Z) (Hbase : 0 <= ASM_BASE) (Htop : ASM_BASE + BIGBUFFER_SZ < 2 ^ 32).

Record logger_ok (l : logger) : Prop := {
  lg_size : zlen (bb_buffer (this_bigbuffer l)) = BIGBUFFER_SZ;
  lg_bytes : Forall is_byte (bb_buffer (this_bigbuffer l));
  lg_end : asm_end_ptr l = ASM_BASE + BIGBUFFER_SZ - 32;
  lg_curr : ASM_BASE <= asm_curr_ptr l <= asm_end_ptr l;
  lg_free : l_locked l = false
}.

(** The bytes logged and not yet flushed. *)
Definition unflushed (l : logger) : list Z :=
  take (Z.to_nat (asm_curr_ptr l - ASM_BASE)) (bb_buffer (this_bigbuffer l)).

(** [d] went to the log file as blocks. *)
Definition logged (fn : list Z) (k k' : K) (d : list Z) : Prop :=
  exists l, file_bytes k' fn = file_bytes k fn ++ l /\ blocks l d.

Lemma logged_refl fn k : logged fn k k [].
Proof. exists []. rewrite app_nil_r. split; [done|constructor]. Qed.

Lemma logged_trans fn k1 k2 k3 d1 d2 :
  logged fn k1 k2 d1 -> logged fn k2 k3 d2 -> logged fn k1 k3 (d1 ++ d2).
Proof.
  intros (l1 & F1 & B1) (l2 & F2 & B2). exists (l1 ++ l2).
  rewrite F2, F1, <- app_assoc. split; [done|by apply blocks_app].
Qed.

(** What a flush does: the log is written out, or, when the file could not be
    opened, lost; either way the buffer is empty and the mutex free. *)
Definition flushed (k : K) (l : logger) (r : K * logger) : Prop :=
  logger_ok r.2 /\ asm_curr_ptr r.2 = ASM_BASE /\ log_fn r.2 = log_fn l /\
  (logged (log_fn l) k r.1 (unflushed l) \/
   ~ up /\ file_bytes r.1 (log_fn l) = file_bytes k (log_fn l)).

Lemma flush_logger_spec k l :
  logger_ok l -> outcome up (flush_logger stack ASM_BASE k l) (flushed k l).
Proof.
  intros [Hs Hb He Hc Hfree]. unfold flush_logger, lock. rewrite Hfree, bind_Ok.
  cbn [asm_curr_ptr set_locked this_bigbuffer set_bb log_fn].
  assert (Hoff : asm_curr_ptr l - ASM_BASE < BIGBUFFER_SZ) by lia.
  assert (HS : BIGBUFFER_SZ = 2097152) by done.
  rewrite u32_small by lia.
  destruct (Z.ltb_spec (asm_curr_ptr l - ASM_BASE) BIGBUFFER_SZ); [|lia].
  cbn [assert]. rewrite bind_Ok.
  destruct (sys_open _ _ _ _) as [fd k1] eqn:Ho. destruct (Z.ltb_spec fd 0) as [Hneg|Hpos].
  - split; [|split; [done|split; [done|right]]].
    + split; simpl; [done|done|done|lia|done].
    + split; [|by apply (open_fail _ _ _ _ _ _ _ Ho)].
      intros Hu. destruct (Hup Hu) as [Hou _ _].
      pose proof (Hou k (log_fn l) (Z.lor (Z.lor O_WRONLY O_APPEND) O_CREAT) 436) as Hge.
      rewrite Ho in Hge. simpl in Hge. lia.
  - destruct (open_ok _ _ _ _ _ _ Ho Hpos eq_refl) as [Hfd Hf].
    set (bb := set_bigbuffer_ptr _ _).
    assert (Hbb : bb_ok bb) by (split; simpl; [done|lia|done]).
    eapply outcome_bind; [by apply (flush_bigbuffer_spec stack Hstack up Hup k1 fd (log_fn l))|].
    intros [k2 bb2] [Hbb2 (Hfd2 & lb & Hl & Hbl)]. simpl in Hbb2, Hfd2, Hl, Hbl. subst bb2.
    destruct (sys_close k2 fd) as [err k3] eqn:Hcl. destruct (Z.eqb_spec err 0); cbn [negb].
    + split; [|split; [done|split; [done|left]]].
      * split; simpl; [done|done|done|lia|done].
      * exists lb. simpl. rewrite (close_ok _ _ _ _ _ Hcl), Hl, Hf. done.
    + intros Hu. destruct (Hup Hu) as [_ _ Hcu]. specialize (Hcu _ _ _ Hfd2).
      rewrite Hcl in Hcu. simpl in Hcu. lia.
Qed.

Lemma store_spec l data :
  logger_ok l -> Forall is_byte data -> asm_curr_ptr l + zlen data <= asm_end_ptr l ->
  exists l', store ASM_BASE l data = Ok l' /\ logger_ok l' /\ log_fn l' = log_fn l /\
    asm_curr_ptr l' = asm_curr_ptr l + zlen data /\ unflushed l' = unflushed l ++ data.
Proof.
  intros [Hs Hb He Hc Hfree] Hd Hfit. unfold store. pose proof (zlen_nonneg data).
  destruct (mem_write_ok (bb_buffer (this_bigbuffer l)) (asm_curr_ptr l - ASM_BASE) data)
    as (b & Hw & Hbl & Hbt); [lia..|].
  pose proof (Forall_mem_write is_byte _ _ _ _ Hb Hd Hw).
  rewrite Hw, bind_Ok. eexists. split; [done|]. split; [split; simpl; lia || done|].
  split; [done|]. split; [done|]. unfold unflushed. simpl. rewrite <- Hbt. f_equal. lia.
Qed.

(** What an append does, on a kernel whose calls succeed. *)
Definition log_grown (k : K) (l : logger) (data : list Z) (r : K * logger) : Prop :=
  logger_ok r.2 /\ log_fn r.2 = log_fn l /\
  (up -> exists d, logged (log_fn l) k r.1 d /\ unflushed l ++ data = d ++ unflushed r.2).

Lemma log_grown_trans k l data r data' r' :
  log_grown k l data r -> log_grown r.1 r.2 data' r' -> log_grown k l (data ++ data') r'.
Proof.
  intros (Hok & Hfn & Hu) (Hok' & Hfn' & Hu'). split; [done|]. split; [congruence|].
  intros U. destruct (Hu U) as (d & Hd & E), (Hu' U) as (d' & Hd' & E').
  exists (d ++ d'). rewrite Hfn in Hd'. split; [by eapply logged_trans|].
  by rewrite app_assoc, E, <- !app_assoc, E'.
Qed.

Lemma flush_grown k l :
  logger_ok l -> outcome up (flush_logger stack ASM_BASE k l) (fun r =>
    log_grown k l [] r /\ asm_curr_ptr r.2 = ASM_BASE).
Proof.
  intros Hl. eapply outcome_mono; [by apply flush_logger_spec|].
  intros [k' l'] (Hok & Hc & Hfn & Hd). simpl in *. split; [|done]. split; [done|]. split; [done|].
  intros U. destruct Hd as [Hd|[Hn _]]; [|contradiction]. exists (unflushed l).
  split; [done|]. unfold unflushed at 3. simpl. by rewrite Hc, Z.sub_diag.
Qed.

Lemma store_grown k l data l' :
  logger_ok l' -> log_fn l' = log_fn l -> unflushed l' = unflushed l ++ data ->
  log_grown k l data (k, l').
Proof.
  intros Hok Hfn Hu. split; [done|]. split; [done|]. intros _. exists [].
  split; [apply logged_refl|]. by rewrite <- Hu.
Qed.

Lemma append_logger_loop_spec fuel k l data :
  logger_ok l -> Forall is_byte data ->
  (0 < zlen data ->
   asm_curr_ptr l - ASM_BASE + zlen data <= (BIGBUFFER_SZ - 32) * Z.of_nat fuel) ->
  outcome up (append_loop stack ASM_BASE fuel k l data) (log_grown k l data).
Proof.
  assert (HS : BIGBUFFER_SZ = 2097152) by done.
  revert k l data. induction fuel as [|fuel IH]; intros k l data Hl Hd Hf;
    pose proof (zlen_nonneg data); pose proof Hl as [Hs Hb He Hc Hfree]; cbn [append_loop];
    destruct (Z.ltb_spec 0 (zlen data)) as [Hpos|Hpos]; try lia.
  1, 3: assert (data = []) as -> by (apply nil_length_inv; unfold zlen in *; lia);
    apply store_grown; by rewrite ?app_nil_r.
  rewrite u32_small by lia. set (n := if zlen data <? asm_end_ptr l - asm_curr_ptr l then _ else _).
  assert (Hn : 0 <= n <= zlen data /\ asm_curr_ptr l + n <= asm_end_ptr l /\
               (n = zlen data \/ asm_curr_ptr l + n = asm_end_ptr l)).
  { unfold n. destruct (Z.ltb_spec (zlen data) (asm_end_ptr l - asm_curr_ptr l)); lia. }
  assert (Hzt : zlen (take (Z.to_nat n) data) = n) by (apply zlen_take; lia).
  destruct (store_spec l (take (Z.to_nat n) data)) as (l1 & Hst & Hok1 & Hfn1 & Hc1 & Hu1);
    [done|by apply Forall_take|lia|].
  rewrite Hst, bind_Ok, zlen_drop by lia. rewrite Hzt in Hc1.
  pose proof (store_grown k l _ l1 Hok1 Hfn1 Hu1) as Hg1.
  apply outcome_mono with (P := log_grown k l (take (Z.to_nat n) data ++ drop (Z.to_nat n) data));
    [|by rewrite take_drop].
  destruct (Z.ltb_spec 0 (zlen data - n)) as [Hrest|Hrest].
  - eapply outcome_bind; [by apply flush_grown|]. intros [k2 l2] [Hg2 Hc2]. simpl in Hc2.
    eapply outcome_mono.
    { apply IH; [apply Hg2|by apply Forall_drop|rewrite zlen_drop by lia; lia]. }
    intros r Hr. eapply log_grown_trans; [done|].
    exact (log_grown_trans _ _ _ _ _ _ Hg2 Hr).
  - rewrite bind_Ok. eapply outcome_mono.
    { apply IH; [done|by apply Forall_drop|rewrite zlen_drop by lia; lia]. }
    intros r Hr. by eapply log_grown_trans.
Qed.

Lemma append_logger_spec k l data :
  logger_ok l -> Forall is_byte data ->
  outcome up (append_logger stack ASM_BASE k l data) (log_grown k l data).
Proof.
  intros Hl Hd. apply append_logger_loop_spec; [done..|]. destruct Hl as [_ _ He Hc _].
  assert (HS : BIGBUFFER_SZ = 2097152) by done. pose proof (zlen_nonneg data).
  rewrite !Nat2Z.inj_succ, Z2Nat.id by (apply Z.div_pos; lia).
  rewrite HS in *. change (2097152 - 32) with 2097120. Z.div_mod_to_equations. lia.
Qed.

Lemma append_logger_TYPE_spec n k l x :
  logger_ok l -> (n <= 32)%nat ->
  outcome up (append_logger_TYPE stack ASM_BASE n k l x) (log_grown k l (le n x)).
Proof.
  assert (HS : BIGBUFFER_SZ = 2097152) by done. intros Hl Hn. unfold append_logger_TYPE.
  apply (outcome_bind _ _ _ (fun r => log_grown k l [] r /\
    asm_curr_ptr r.2 + Z.of_nat n <= asm_end_ptr r.2)).
  - pose proof Hl as [_ _ He Hc _]. rewrite u32_small by lia.
    destruct (Z.ltb_spec (asm_end_ptr l) (asm_curr_ptr l + Z.of_nat n)).
    + eapply outcome_mono; [by apply flush_grown|]. intros r [Hg Hc']. split; [done|].
      destruct Hg as ([_ _ He' _ _] & _). lia.
    + split; [apply store_grown; by rewrite ?app_nil_r|done].
  - intros [k1 l1] [Hg Hfit]. simpl in Hfit.
    destruct (store_spec l1 (le n x)) as (l2 & Hst & Hok2 & Hfn2 & _ & Hu2);
      [apply Hg|apply le_bytes|by rewrite zlen_le|].
    rewrite Hst, bind_Ok. apply (log_grown_trans _ _ [] _ _ _ Hg). by apply store_grown.
Qed.

(** ** Sequences of events *)

Inductive event :=
| Raw (data : list Z)
| Typed (n : nat) (x : Z).

Definition event_bytes (e : event) : list Z :=
  match e with
  | Raw data => data
  | Typed n x => le n x
  end.

Definition event_ok (e : event) : Prop :=
  match e with
  | Raw data => Forall is_byte data
  | Typed n _ => (n <= 4)%nat
  end.

Definition log_event (k : K) (l : logger) (e : event) : result (K * logger) :=
  match e with
  | Raw data => append_logger stack ASM_BASE k l data
  | Typed n x => append_logger_TYPE stack ASM_BASE n k l x
  end.

Fixpoint log_events (k : K) (l : logger) (es : list event) : result (K * logger) :=
  match es with
  | [] => Ok (k, l)
  | e :: es => '(k, l) ← log_event k l e; log_events k l es
  end.

Lemma log_events_spec k l es :
  logger_ok l -> Forall event_ok es ->
  outcome up (log_events k l es) (log_grown k l (concat (map event_bytes es))).
Proof.
  revert k l. induction es as [|e es IH]; intros k l Hl He.
  - apply store_grown; by rewrite ?app_nil_r.
  - apply Forall_cons in He as [He Hes]. cbn [log_events map concat].
    apply (outcome_bind _ _ _ (log_grown k l (event_bytes e))).
    + destruct e as [data|n x]; simpl in *.
      * by apply append_logger_spec.
      * apply append_logger_TYPE_spec; [done|lia].
    + intros [k1 l1] Hg. eapply outcome_mono; [apply IH; [apply Hg|done]|].
      intros r Hr. by eapply log_grown_trans.
Qed.

End facts.

(** C14: whatever a thread logs, raw or typed, the flushes it takes on the way
    lose and reorder nothing: after a final flush the log file has grown by
    blocks that decode to the logged bytes in order, every value whole; the
    buffer is empty and the flush mutex is free. The calls of the kernel
    succeed, the buffer is inside the address space and empty at the start, the
    mutex is free, and a typed value has at most 4 bytes. *)
Theorem logger_stream {K} `{KernelUp K} (stack : K -> Z -> Z) ASM_BASE k l es :
  (forall k, work_ok (stack k)) -> 0 <= ASM_BASE -> ASM_BASE + BIGBUFFER_SZ < 2 ^ 32 ->
  logger_ok ASM_BASE l -> asm_curr_ptr l = ASM_BASE -> Forall event_ok es ->
  exists k' l' b,
    ('(k, l) ← log_events stack ASM_BASE k l es; flush_logger stack ASM_BASE k l) = Ok (k', l') /\
    file_bytes k' (log_fn l) = file_bytes k (log_fn l) ++ b /\
    read_blocks (length b) b = Some (concat (map event_bytes es)) /\
    asm_curr_ptr l' = ASM_BASE /\ l_locked l' = false.
Proof.
  intros Hs Hb Ht Hl Hc He.
  destruct (outcome_up _ _ _ (log_events_spec stack Hs True (fun _ => _) ASM_BASE Hb Ht k l es
    Hl He) I) as ([k1 l1] & Hk1 & Hok1 & Hfn1 & Hu1). cbn [fst snd] in *.
  destruct (Hu1 I) as (d1 & Hd1 & E1).
  destruct (outcome_up _ _ _ (flush_logger_spec stack Hs True (fun _ => _) ASM_BASE k1 l1
    Hok1) I) as ([k2 l2] & Hk2 & Hok2 & Hc2 & Hfn2 & Hd2). cbn [fst snd] in *.
  destruct Hd2 as [Hd2|[Hn _]]; [|by destruct Hn]. rewrite Hfn1 in Hd2.
  destruct (logged_trans _ _ _ _ _ _ Hd1 Hd2) as (b & Hf & Hbl). rewrite <- E1 in Hbl.
  exists k2, l2, b. rewrite Hk1, bind_Ok, Hk2. split; [done|]. split; [done|].
  unfold unflushed in Hbl. rewrite Hc, Z.sub_diag in Hbl. apply blocks_read in Hbl.
  split; [done|]. split; [done|apply Hok2].
Qed.

Definition empty_logger : logger :=
  init_stub 4096 (Logger [] empty_bb 0 0 true) [108; 111; 103].

Lemma empty_logger_ok : logger_ok 4096 empty_logger.
Proof. split; [exact (bb_size _ empty_bb_ok)|exact (bb_bytes _ empty_bb_ok)|done| |done]. by vm_compute. Qed.

Lemma logger_stream_witness :
  exists k' l' b,
    ('(k, l) ← log_events (fun _ _ => 0) 4096 Ram.empty empty_logger [Typed 2 5; Raw [7; 7]; Typed 4 3];
     flush_logger (fun _ _ => 0) 4096 k l) = Ok (k', l') /\
    file_bytes k' (log_fn empty_logger) = file_bytes Ram.empty (log_fn empty_logger) ++ b /\
    read_blocks (length b) b = Some [5; 0; 7; 7; 3; 0; 0; 0] /\
    asm_curr_ptr l' = 4096 /\ l_locked l' = false.
Proof.
  apply (logger_stream (K := Ram.ram) (fun _ _ => 0) 4096 Ram.empty empty_logger
    [Typed 2 5; Raw [7; 7]; Typed 4 3]).
  - intros _ k. by vm_compute.
  - lia.
  - by vm_compute.
  - exact empty_logger_ok.
  - reflexivity.
  - repeat constructor; simpl; by (lia || vm_compute).
Defined.

End Log.
