(* ===== verification/Mutex.v ===== *)
(** The futex mutex of the loader, [src/src/core/loader/mutex.c], with the
    wrappers of [futex.c] and the signal masks of [signal.c].

    Threads interleave at the atomic operations of the two functions. A thread
    is at a program point [pc] (named after the source line it is about to
    run), [run] is one atomic step of it, and [step] is a step of the system;
    the kernel's part is the futex queue (the threads that are [Asleep]) and
    the signal mask of every thread. *)
From stdpp Require Import functions.
From S2P Require Import Prelude.

Module Mutex.

(** ** One thread *)

Inductive pc :=
| Outside             (* not using the mutex *)
| Lock_try            (* the first atomic_cmpxchg(&lock->val, 0, 1) *)
| Lock_test (c : Z)   (* c == 2 || atomic_cmpxchg(&lock->val, 1, 2) != 0 *)
| Lock_wait           (* futex_wait(&lock->val, 2) *)
| Asleep              (* in the futex queue *)
| Lock_retry          (* while ((c = atomic_cmpxchg(&lock->val, 0, 2)) != 0) *)
| Held                (* between xmutex_lock and xmutex_unlock *)
| Unlock_dec          (* atomic_dec_and_test(&lock->val) *)
| Unlock_set          (* atomic_set(&lock->val, 0) *)
| Unlock_wake         (* futex_wake(&lock->val, 1) *)
| Unlock_restore.     (* restore_signals(sigset) *)

#[global] Instance pc_eq_dec : EqDecision pc.
Proof. solve_decision. Defined.

(** The old value and the new one. *)
Definition atomic_cmpxchg (val old new : Z) : Z * Z :=
  (val, if val =? old then new else val).

Definition xmutex_init : Z := 0.
Definition xmutex_is_locked (val : Z) : bool := negb (val =? 0).

(** The step of [xmutex_lock] or [xmutex_unlock] at [p]: the new value of the
    mutex and the next point. A thread that is asleep has no step of its own,
    and the client decides when a thread that holds the mutex unlocks it. *)
Definition run (val : Z) (p : pc) : option (Z * pc) :=
  match p with
  | Outside => Some (val, Lock_try)
  | Lock_try =>
      let '(c, val) := atomic_cmpxchg val 0 1 in
      Some (val, if negb (c =? 0) then Lock_test c else Held)
  | Lock_test c =>
      if c =? 2 then Some (val, Lock_wait)
      else
        let '(o, val) := atomic_cmpxchg val 1 2 in
        Some (val, if negb (o =? 0) then Lock_wait else Lock_retry)
  | Lock_wait => Some (val, if val =? 2 then Asleep else Lock_retry)
  | Asleep => None
  | Lock_retry =>
      let '(c, val) := atomic_cmpxchg val 0 2 in
      Some (val, if negb (c =? 0) then Lock_test c else Held)
  | Held => Some (val, Unlock_dec)
  | Unlock_dec =>
      let val := s32 (val - 1) in
      Some (val, if negb (val =? 0) then Unlock_set else Unlock_restore)
  | Unlock_set => Some (0, Unlock_wake)
  | Unlock_wake => Some (val, Unlock_restore)
  | Unlock_restore => Some (val, Outside)
  end.

(** The signal mask of a thread and the [sigset] it saved: [block_signals] at
    the start of [xmutex_lock], [restore_signals] at the end of
    [xmutex_unlock]. *)
Definition RECORD_PROCMASK_0 : Z := 0x3ffbfa37.
Definition RECORD_PROCMASK_1 : Z := 0xfffffffe.
(** A signal set as a number: [sig[0]] is its low word. *)
Definition set_maskall_sigset : Z := Z.lor RECORD_PROCMASK_0 (Z.shiftl RECORD_PROCMASK_1 32).

Record thread := Thread { at_ : pc; mask : Z; sigset : Z }.

Definition block_signals (t : thread) : thread := Thread (at_ t) set_maskall_sigset (mask t).
Definition restore_signals (t : thread) : thread := Thread (at_ t) (sigset t) (sigset t).

Definition goto (p : pc) (t : thread) : thread := Thread p (mask t) (sigset t).

(** The step of a thread with its masks. *)
Definition move (p : pc) (t : thread) : thread :=
  match at_ t with
  | Outside => goto p (block_signals t)
  | Unlock_restore => goto p (restore_signals t)
  | _ => goto p t
  end.

(** ** The system *)

Record system := System { val : Z; threads : nat -> thread }.

Inductive step : system -> system -> Prop :=
(* a thread runs to its next point *)
| step_run s t v p :
    run (val s) (at_ (threads s t)) = Some (v, p) ->
    at_ (threads s t) <> Unlock_wake ->
    step s (System v (<[t := move p (threads s t)]> (threads s)))
(* [futex_wake(.., 1)] with somebody in the queue wakes one of them *)
| step_wake s t u :
    at_ (threads s t) = Unlock_wake -> at_ (threads s u) = Asleep ->
    step s (System (val s)
      (<[u := goto Lock_retry (threads s u)]>
        (<[t := move Unlock_restore (threads s t)]> (threads s))))
(* and wakes nobody when the queue is empty *)
| step_wake_none s t :
    at_ (threads s t) = Unlock_wake -> (forall u, at_ (threads s u) <> Asleep) ->
    step s (System (val s) (<[t := move Unlock_restore (threads s t)]> (threads s)))
(* [futex_wait] may return without a wake *)
| step_spurious s u :
    at_ (threads s u) = Asleep ->
    step s (System (val s) (<[u := goto Lock_retry (threads s u)]> (threads s))).

Definition initial (s : system) : Prop :=
  val s = xmutex_init /\ forall t, at_ (threads s t) = Outside.

Definition reachable (s : system) : Prop := exists s0, initial s0 /\ rtc step s0 s.

(** ** Mutual exclusion *)

(** The thread has the mutex. *)
Definition holds (p : pc) : bool :=
  match p with
  | Held | Unlock_dec | Unlock_set => true
  | _ => false
  end.

Record inv (s : system) : Prop := {
  i_val : val s = 0 \/ val s = 1 \/ val s = 2;
  i_one : forall t u, holds (at_ (threads s t)) = true -> holds (at_ (threads s u)) = true -> t = u;
  i_held : val s <> 0 <-> exists t, holds (at_ (threads s t)) = true;
  i_test : forall t c, at_ (threads s t) = Lock_test c -> c <> 0
}.

(** A thread that is not asleep and will look at the mutex, or wake somebody
    who will, before it leaves. *)
Definition pending (p : pc) : bool :=
  match p with
  | Lock_test _ | Lock_wait | Lock_retry | Unlock_set | Unlock_wake => true
  | _ => false
  end.

(** No wake-up is lost: as long as a thread sleeps, the value tells the holder
    to wake one, or somebody is about to. *)
Definition woken (s : system) : Prop :=
  (exists t, at_ (threads s t) = Asleep) ->
  val s = 2 \/ exists t, pending (at_ (threads s t)) = true.

Lemma at_move p t : at_ (move p t) = p.
Proof. unfold move. by destruct (at_ t). Qed.

Lemma initial_inv s : initial s -> inv s /\ woken s.
Proof.
  intros (Hv & Ht). split.
  - constructor.
    + rewrite Hv. by left.
    + intros t u. by rewrite Ht.
    + rewrite Hv. split; [done|]. intros (t & H). by rewrite Ht in H.
    + intros t c. by rewrite Ht.
  - intros (t & H). by rewrite Ht in H.
Qed.

Lemma run_dec v :
  v = 1 \/ v = 2 ->
  run v Unlock_dec = Some (v - 1, if v =? 1 then Unlock_restore else Unlock_set).
Proof. by intros [-> | ->]. Qed.

(** How one step of a thread changes the mutex: it keeps who has it, takes it,
    or gives it back. *)
Lemma run_holds v p v' p' :
  v = 0 \/ v = 1 \/ v = 2 -> (holds p = true -> v <> 0) -> (forall c, p = Lock_test c -> c <> 0) ->
  run v p = Some (v', p') -> p <> Unlock_wake ->
  (v' = 0 \/ v' = 1 \/ v' = 2) /\ (forall c, p' = Lock_test c -> c <> 0) /\
  (holds p' = holds p /\ (v' <> 0 <-> v <> 0) \/
   (v = 0 /\ v' <> 0 /\ holds p = false /\ holds p' = true) \/
   (v <> 0 /\ v' = 0 /\ holds p = true /\ holds p' = false)).
Proof.
  intros Hv Hp Hc Hrun Hw.
  assert (Hd : p = Unlock_dec \/ p <> Unlock_dec) by (destruct p; auto).
  destruct Hd as [-> | Hd].
  { specialize (Hp eq_refl). rewrite run_dec in Hrun by lia. injection Hrun as <- <-.
    destruct Hv as [-> | [-> | ->]]; [done| |]; cbn; (split; [lia|]); (split; [done|]); [right; right|left];
      repeat split; lia. }
  destruct p; try done; destruct Hv as [-> | [-> | ->]]; cbn in Hrun, Hp;
    try (by destruct (Hp eq_refl)); try destruct (c =? 2); injection Hrun as <- <-; cbn;
    (split; [lia|]); (split; [intros ? [=]; lia|]); naive_solver.
Qed.

(** A thread moves to [p'] and the mutex to [v']. *)
Lemma inv_update s t v' th :
  inv s ->
  (v' = 0 \/ v' = 1 \/ v' = 2) -> (forall c, at_ th = Lock_test c -> c <> 0) ->
  (holds (at_ th) = holds (at_ (threads s t)) /\ (v' <> 0 <-> val s <> 0) \/
   (val s = 0 /\ v' <> 0 /\ holds (at_ (threads s t)) = false /\ holds (at_ th) = true) \/
   (val s <> 0 /\ v' = 0 /\ holds (at_ (threads s t)) = true /\ holds (at_ th) = false)) ->
  inv (System v' (<[t := th]> (threads s))).
Proof.
  intros [Hv Hone Hheld Htest] Hv' Hc Hcase.
  assert (Hlook : forall u, <[t := th]> (threads s) u = if decide (u = t) then th else threads s u).
  { intros u. destruct (decide (u = t)) as [->|]; [apply fn_lookup_insert|by apply fn_lookup_insert_ne]. }
  assert (Hno : val s = 0 -> forall u, holds (at_ (threads s u)) = false).
  { intros H0 u. destruct (holds (at_ (threads s u))) eqn:E; [|done].
    exfalso. apply Hheld; [by exists u|done]. }
  constructor; cbn; [done| | |].
  - intros x y. rewrite !Hlook. repeat case_decide; subst; try done.
    + intros H1 H2. destruct Hcase as [(E & _) | [(E & _) | (_ & _ & _ & E)]]; [|by rewrite Hno in H2|congruence].
      apply Hone; congruence.
    + intros H1 H2. destruct Hcase as [(E & _) | [(E & _) | (_ & _ & _ & E)]]; [|by rewrite Hno in H1|congruence].
      apply Hone; congruence.
    + apply Hone.
  - split.
    + intros H0. destruct Hcase as [(E & Hiff) | [(_ & _ & _ & E) | (_ & ? & _)]]; [|by exists t; rewrite Hlook, decide_True|done].
      apply Hiff, Hheld in H0 as (u & Hu). exists u. rewrite Hlook. case_decide; [subst; congruence|done].
    + intros (u & Hu). rewrite Hlook in Hu.
      destruct Hcase as [(E & Hiff) | [(_ & ? & _) | (Hs & _ & E & E')]]; [|done|].
      * apply Hiff, Hheld. case_decide; [subst; exists t; congruence|by exists u].
      * case_decide; [congruence|]. exfalso. by apply H, Hone.
  - intros u c. rewrite Hlook. case_decide; [apply Hc|apply Htest].
Qed.

Lemma step_inv s s' : step s s' -> inv s -> inv s'.
Proof.
  intros Hst Hi. destruct Hst as [s t v p Hrun Hw|s t u Ht Hu|s t Ht Hn|s u Hu].
  - pose proof Hi as [Hv _ Hheld Htest].
    destruct (run_holds (val s) (at_ (threads s t)) v p) as (Hv' & Hc & Hcase); [done| |apply Htest|done|done|].
    { intros H. apply Hheld. by exists t. }
    apply inv_update; try rewrite at_move; try done.
  - pose proof Hi as [Hv _ _ _].
    assert (Hi' : inv (System (val s) (<[t := move Unlock_restore (threads s t)]> (threads s)))).
    { apply inv_update; try rewrite at_move; try done. left. by rewrite Ht. }
    apply (inv_update _ u (val s) (goto Lock_retry (threads s u)) Hi'); try done.
    left. cbn. split; [|done]. destruct (decide (u = t)) as [->|]; [congruence|].
    by rewrite fn_lookup_insert_ne, Hu.
  - pose proof Hi as [Hv _ _ _]. apply inv_update; try rewrite at_move; try done. left. by rewrite Ht.
  - pose proof Hi as [Hv _ _ _]. apply inv_update; try done. left. by rewrite Hu.
Qed.

(** ** Wake-ups *)

(** A step keeps the reason why sleepers will be woken. *)
Lemma run_woken v p v' p' :
  v = 0 \/ v = 1 \/ v = 2 -> run v p = Some (v', p') -> p <> Unlock_wake ->
  (p' = Asleep -> v' = 2) /\ (v = 2 \/ pending p = true -> v' = 2 \/ pending p' = true).
Proof.
  intros Hv Hrun Hw. destruct p; try done; destruct Hv as [-> | [-> | ->]]; cbn in Hrun;
    try destruct (c =? 2); injection Hrun as <- <-; vm_compute; split;
    try (by intros); try (by left); try (by right); try tauto; intros [H|H]; try done; auto.
Qed.

Lemma step_woken s s' : step s s' -> inv s -> woken s -> woken s'.
Proof.
  intros Hst [Hv _ _ _] Hw. destruct Hst as [s t v p Hrun Hnw|s t u Ht Hu|s t Ht Hn|s u Hu]; intros (x & Hx).
  - destruct (run_woken (val s) (at_ (threads s t)) v p Hv Hrun Hnw) as (Has & Hkeep). cbn [val threads] in *.
    destruct (decide (x = t)) as [->|Hxt].
    { rewrite fn_lookup_insert, at_move in Hx. left. auto. }
    rewrite fn_lookup_insert_ne in Hx by done.
    destruct (Hw (ex_intro _ x Hx)) as [H2 | (y & Hy)].
    + destruct (Hkeep (or_introl H2)) as [? | Hp]; [by left|]. right. exists t.
      by rewrite fn_lookup_insert, at_move.
    + destruct (decide (y = t)) as [->|Hyt].
      * destruct (Hkeep (or_intror Hy)) as [? | Hp]; [by left|]. right. exists t.
        by rewrite fn_lookup_insert, at_move.
      * right. exists y. by rewrite fn_lookup_insert_ne.
  - right. exists u. cbn. by rewrite fn_lookup_insert.
  - exfalso. cbn in Hx. destruct (decide (x = t)) as [->|Hxt].
    + by rewrite fn_lookup_insert, at_move in Hx.
    + rewrite fn_lookup_insert_ne in Hx by done. by apply (Hn x).
  - right. exists u. cbn. by rewrite fn_lookup_insert.
Qed.

Lemma reachable_inv s : reachable s -> inv s /\ woken s.
Proof.
  intros (s0 & Hi & Hr). apply initial_inv in Hi. induction Hr as [s|s1 s2 s3 H12 H23 IH]; [done|].
  destruct Hi as (Hi & Hw). apply IH. split; [by eapply step_inv|by eapply step_woken].
Qed.

(** C28: at most one thread is between [xmutex_lock] and the release in
    [xmutex_unlock], and [xmutex_is_locked] tells whether there is one. *)
Theorem xmutex_exclusion s :
  reachable s ->
  (forall t u, holds (at_ (threads s t)) = true -> holds (at_ (threads s u)) = true -> t = u) /\
  (xmutex_is_locked (val s) = true <-> exists t, holds (at_ (threads s t)) = true).
Proof.
  intros ([_ Hone Hheld _] & _)%reachable_inv. split; [done|]. rewrite <- Hheld.
  unfold xmutex_is_locked. by destruct (Z.eqb_spec (val s) 0).
Qed.

(** C29: no wake-up is lost: whenever a thread sleeps on the mutex, another
    thread holds it, or is awake inside [xmutex_lock] or [xmutex_unlock] on its
    way to take it or to wake a sleeper. In particular the threads are never
    all asleep or outside. *)
Theorem xmutex_no_lost_wakeup s t :
  reachable s -> at_ (threads s t) = Asleep ->
  exists u, holds (at_ (threads s u)) = true \/ pending (at_ (threads s u)) = true.
Proof.
  intros ([_ _ Hheld _] & Hw)%reachable_inv Ht.
  destruct (Hw (ex_intro _ t Ht)) as [H2 | (u & Hu)]; [|by exists u; right].
  destruct Hheld as [Hheld _]. destruct Hheld as (u & Hu); [lia|]. exists u. by left.
Qed.

(** ** Signals *)

(** Inside the two functions and while it holds the mutex a thread has its
    signals masked; outside it has the mask it had when it called
    [xmutex_lock]. *)
Definition masked (s0 s : system) : Prop :=
  forall t, if decide (at_ (threads s t) = Outside)
            then mask (threads s t) = mask (threads s0 t)
            else mask (threads s t) = set_maskall_sigset /\
                 sigset (threads s t) = mask (threads s0 t).

Lemma masked_move s0 s t p v' :
  masked s0 s -> (at_ (threads s t) = Unlock_restore <-> p = Outside) ->
  masked s0 (System v' (<[t := move p (threads s t)]> (threads s))).
Proof.
  intros Hm Hp u. cbn. destruct (decide (u = t)) as [->|]; [|rewrite fn_lookup_insert_ne by done; apply Hm].
  rewrite fn_lookup_insert, at_move. specialize (Hm t). unfold move.
  destruct (decide (p = Outside)) as [Ho|Ho].
  - apply Hp in Ho as Hr. rewrite Hr in Hm |- *. cbn in *. by destruct Hm.
  - destruct (at_ (threads s t)) eqn:E; cbn in *; try done.
    by destruct Ho; apply Hp.
Qed.

Lemma run_outside v p v' p' :
  run v p = Some (v', p') -> (p = Unlock_restore <-> p' = Outside).
Proof.
  destruct p; cbn; intros [= <- <-] || intros H; repeat case_match; simplify_eq; split; congruence.
Qed.

Lemma masked_goto s0 s u v' :
  masked s0 s -> at_ (threads s u) = Asleep ->
  masked s0 (System v' (<[u := goto Lock_retry (threads s u)]> (threads s))).
Proof.
  intros Hm Hu x. cbn. destruct (decide (x = u)) as [->|].
  - rewrite fn_lookup_insert. specialize (Hm u). rewrite Hu in Hm. by cbn in *.
  - rewrite fn_lookup_insert_ne by done. apply Hm.
Qed.

Lemma step_masked s0 s s' : step s s' -> masked s0 s -> masked s0 s'.
Proof.
  intros Hst Hm. destruct Hst as [s t v p Hrun Hnw|s t u Ht Hu|s t Ht Hn|s u Hu].
  - apply masked_move; [done|]. by eapply run_outside.
  - assert (Hut : u <> t) by congruence.
    assert (Hm' : masked s0 (System (val s) (<[t := move Unlock_restore (threads s t)]> (threads s)))).
    { apply masked_move; [done|]. by rewrite Ht. }
    apply (masked_goto _ _ u (val s)) in Hm'; cbn in *; rewrite fn_lookup_insert_ne in * by done; done.
  - apply masked_move; [done|]. by rewrite Ht.
  - by apply masked_goto.
Qed.

(** The signals [RECORD_PROCMASK] leaves unblocked. *)
Definition unblocked : list Z := [4; 7; 8; 9; 11; 19; 31; 32; 33].

Lemma maskall_bits n :
  1 <= n <= 64 -> Z.testbit set_maskall_sigset (n - 1) = negb (bool_decide (In n unblocked)).
Proof.
  intros Hn. assert (Hall : forallb (fun n => Bool.eqb (Z.testbit set_maskall_sigset (Z.of_nat n - 1))
    (negb (bool_decide (In (Z.of_nat n) unblocked)))) (seq 1 64) = true) by (by vm_compute).
  rewrite forallb_forall in Hall. specialize (Hall (Z.to_nat n)).
  rewrite Z2Nat.id in Hall by lia. apply eqb_prop, Hall, in_seq. lia.
Qed.

Lemma rtc_preserved {A} (R : A -> A -> Prop) (P : A -> Prop) x y :
  (forall a b, R a b -> P a -> P b) -> rtc R x y -> P x -> P y.
Proof. intros HP Hr. induction Hr; eauto. Qed.

(** C30: a thread that holds the mutex has every signal blocked except the
    synchronous faults and the ones the recorder keeps for itself, and once it
    is outside again it has the mask it started with. *)
Theorem xmutex_signals s0 s t :
  initial s0 -> rtc step s0 s ->
  (at_ (threads s t) = Outside -> mask (threads s t) = mask (threads s0 t)) /\
  (holds (at_ (threads s t)) = true ->
   forall n, 1 <= n <= 64 ->
   Z.testbit (mask (threads s t)) (n - 1) = negb (bool_decide (In n unblocked))).
Proof.
  intros Hi Hr. assert (Hm : masked s0 s).
  { assert (Hm0 : masked s0 s0) by (intros u; destruct Hi as (_ & Hi); by rewrite decide_True).
    eapply rtc_preserved; eauto using step_masked. }
  specialize (Hm t). split.
  - intros Ho. by rewrite decide_True in Hm.
  - intros Hh n Hn. rewrite decide_False in Hm by (intros E; by rewrite E in Hh).
    destruct Hm as (-> & _). by apply maskall_bits.
Qed.

(** ** A run *)

(** Lets the threads of a schedule step, one after the other. *)
Definition step1 (t : nat) (s : system) : option system :=
  match at_ (threads s t) with
  | Unlock_wake => None
  | p => '(v, p') ← run (val s) p; Some (System v (<[t := move p' (threads s t)]> (threads s)))
  end.
Fixpoint schedule (ts : list nat) (s : system) : option system :=
  match ts with
  | [] => Some s
  | t :: ts => s ← step1 t s; schedule ts s
  end.

Lemma step1_step t s s' : step1 t s = Some s' -> step s s'.
Proof.
  unfold step1. destruct (at_ (threads s t)) eqn:E; try done;
    (destruct (run (val s) _) as [[v p']|] eqn:Hr; [|done]); cbn; intros [= <-];
    (apply step_run; rewrite E; done).
Qed.

Lemma schedule_steps ts s s' : schedule ts s = Some s' -> rtc step s s'.
Proof.
  revert s. induction ts as [|t ts IH]; intros s; cbn; [by intros [= <-]|].
  destruct (step1 t s) as [s1|] eqn:E; [|done]. cbn. intros H.
  eapply rtc_l; [by eapply step1_step|by apply IH].
Qed.

(** Thread 0 takes the mutex; thread 1 finds it taken, marks it and sleeps. *)
Definition start_system : system := System 0 (fun _ => Thread Outside 5 0).
Definition contended : system :=
  default start_system (schedule [0; 0; 1; 1; 1; 1]%nat start_system).

Lemma contended_steps : initial start_system /\ rtc step start_system contended.
Proof. split; [by split|]. by apply (schedule_steps [0; 0; 1; 1; 1; 1]%nat). Qed.

Lemma contended_reachable : reachable contended.
Proof. exists start_system. apply contended_steps. Qed.

Lemma xmutex_exclusion_witness :
  (forall t u, holds (at_ (threads contended t)) = true ->
     holds (at_ (threads contended u)) = true -> t = u) /\
  (xmutex_is_locked (val contended) = true <-> exists t, holds (at_ (threads contended t)) = true).
Proof. apply (xmutex_exclusion contended). exact contended_reachable. Defined.

Lemma xmutex_no_lost_wakeup_witness :
  exists u, holds (at_ (threads contended u)) = true \/ pending (at_ (threads contended u)) = true.
Proof. apply (xmutex_no_lost_wakeup contended 1); [exact contended_reachable|by vm_compute]. Defined.

Lemma xmutex_signals_witness :
  (at_ (threads contended 0%nat) = Outside ->
   mask (threads contended 0%nat) = mask (threads start_system 0%nat)) /\
  (holds (at_ (threads contended 0%nat)) = true ->
   forall n, 1 <= n <= 64 ->
   Z.testbit (mask (threads contended 0%nat)) (n - 1) = negb (bool_decide (In n unblocked))).
Proof. apply (xmutex_signals start_system contended 0); apply contended_steps. Defined.

End Mutex.
