(* ===== verification/Mm.v ===== *)
(** Memory of the loader, [src/src/core/loader/mm.c]: pages from the kernel and
    the object allocator that carves objects out of 32 MB buckets.

    A bucket head is at the start of its pages; [heads] is the memory the heads
    are in, by address, [buk_list] the list threaded through them (first to
    last) and a pointer to a bucket its address. *)
From S2P Require Import Prelude Kernel.

(** ** Pages of the kernel *)

(** The two calls, returning what the system calls return: an address or a
    negated error number as an unsigned word, and a status. *)
Class KernelPages (K : Type) := {
  sys_uniform_mmap : K -> Z -> Z -> Z * K;
  sys_munmap : K -> Z -> Z -> Z * K
}.

Definition PAGE_SIZE : Z := 4096.
Definition PROT_READ : Z := 1.
Definition PROT_WRITE : Z := 2.
Definition PROT_EXEC : Z := 4.

(** The ranges [a[0 .. n)] and [b[0 .. m)] have no byte in common. *)
Definition apart (a n b m : Z) : Prop := a + n <= b \/ b + m <= a.

(** What mmap(2) and munmap(2) promise about anonymous private pages: [mapped]
    are the ranges the program mapped and did not unmap. An error is one of
    the numbers 1 to 4095, negated. *)
Class KernelPagesLaws (K : Type) `{KernelPages K} := {
  mapped : K -> list (Z * Z);
  mmap_ok : forall k n prot p k',
    0 < n -> n mod PAGE_SIZE = 0 -> sys_uniform_mmap k n prot = (p, k') ->
    (2 ^ 32 - 4096 < p < 2 ^ 32 /\ mapped k' = mapped k) \/
    (p mod PAGE_SIZE = 0 /\ PAGE_SIZE <= p /\ p + n <= 2 ^ 32 - 4096 /\
     Forall (fun r => apart p n r.1 r.2) (mapped k) /\ mapped k' = (p, n) :: mapped k);
  munmap_ok : forall k p n k',
    In (p, n) (mapped k) -> sys_munmap k p n = (0, k') -> mapped k ≡ₚ (p, n) :: mapped k'
}.

(** A kernel that, as long as it [has_room], has a bucket to give; munmap(2)
    succeeds on every page-aligned range, mapped or not. *)
Class KernelPagesUp (K : Type) `{KernelPagesLaws K} := {
  has_room : K -> Prop;
  mmap_up : forall k n prot,
    has_room k -> 0 < n <= 2 ^ 26 -> (sys_uniform_mmap k n prot).1 mod PAGE_SIZE = 0;
  munmap_up : forall k p n, p mod PAGE_SIZE = 0 -> 0 < n -> 0 <= p -> p + n <= 2 ^ 32 ->
    (sys_munmap k p n).1 = 0
}.

Module Mm.

Definition is_valid_page (p : Z) : bool := Z.land p (PAGE_SIZE - 1) =? 0.

Definition OBJ_BUCKET_SIZE : Z := 32 * 2 ^ 20.
Definition sizeof_obj_buk_head : Z := 28.
Definition MAX_AVAL_OBJ_SIZE : Z := OBJ_BUCKET_SIZE - sizeof_obj_buk_head.

Record obj_buk_head := Buk {
  buk_addr : Z;
  buk_end : Z;
  cur_ptr : Z;
  total_size : Z;
  aval_size : Z
}.

Record obj_mm_tpd_stub := Objmm {
  heads : gmap Z obj_buk_head;
  buk_list : list Z;
  cur_buk : option Z;
  executable : bool
}.

Section mm.
Context {K : Type} `{KernelPages K}.

Definition xalloc_pages (k : K) (sz : Z) (executable : bool) : result (Z * K) :=
  _ ← assert (0 <? sz);
  let sz := ALIGN_UP sz PAGE_SIZE in
  let prot := Z.lor PROT_READ PROT_WRITE in
  let prot := if executable then Z.lor prot PROT_EXEC else prot in
  let '(ptr, k) := sys_uniform_mmap k sz prot in
  _ ← assert (is_valid_page ptr);
  Ok (ptr, k).

Definition xdealloc_pages (k : K) (ptr sz : Z) : result K :=
  _ ← assert (is_valid_page ptr);
  let sz := ALIGN_UP sz PAGE_SIZE in
  let '(err, k) := sys_munmap k ptr sz in
  _ ← assert (err =? 0);
  Ok k.

Definition alloc_obj_buk (k : K) (executable : bool) : result (obj_buk_head * K) :=
  '(mem, k) ← xalloc_pages k OBJ_BUCKET_SIZE executable;
  _ ← assert (negb (mem =? 0));
  let cur := mem + sizeof_obj_buk_head in
  let end_ := mem + OBJ_BUCKET_SIZE in
  Ok (Buk mem end_ cur (end_ - cur) (end_ - cur), k).

Definition free_obj_buk (k : K) (buk : obj_buk_head) : result K :=
  _ ← assert (negb (buk_addr buk =? 0));
  xdealloc_pages k (buk_addr buk) OBJ_BUCKET_SIZE.

(** The old contents of [*objmm] are overwritten. *)
Definition init_mm_obj (executable : bool) : obj_mm_tpd_stub := Objmm ∅ [] None executable.

(** The head at [a]. *)
Definition head (heads : gmap Z obj_buk_head) (a : Z) : result obj_buk_head :=
  match heads !! a with Some b => Ok b | None => Stray Rd end.

(** [list_for_each_entry_safe] over the buckets. *)
Fixpoint free_buks (k : K) (heads : gmap Z obj_buk_head) (l : list Z) : result K :=
  match l with
  | [] => Ok k
  | a :: l => b ← head heads a; k ← free_obj_buk k b; free_buks k (delete a heads) l
  end.

(** The stub is zeroed, its list head included; [init_mm_obj] must come before
    the next use. *)
Definition clean_mm_obj (k : K) (objmm : obj_mm_tpd_stub) : result (K * obj_mm_tpd_stub) :=
  k ← free_buks k (heads objmm) (buk_list objmm);
  Ok (k, Objmm ∅ [] None false).

(** [None] is [NULL]. *)
Definition alloc_from_buk (buk : obj_buk_head) (size : Z) : result (option (Z * obj_buk_head)) :=
  if aval_size buk <? size then Ok None
  else
    let ptr := cur_ptr buk in
    let cur := u32 (cur_ptr buk + size) in
    _ ← assert (cur <? buk_end buk);
    Ok (Some (ptr, Buk (buk_addr buk) (buk_end buk) cur (total_size buk) (aval_size buk - size))).

(** The first bucket with the most room, and that room. *)
Fixpoint find_max (heads : gmap Z obj_buk_head) (l : list Z) (max_buk : option Z) (max_aval : Z) :
    result (option Z * Z) :=
  match l with
  | [] => Ok (max_buk, max_aval)
  | a :: l =>
      b ← head heads a;
      if max_aval <? aval_size b then find_max heads l (Some a) (aval_size b)
      else find_max heads l max_buk max_aval
  end.

Definition set_head (objmm : obj_mm_tpd_stub) (a : Z) (b : obj_buk_head) : obj_mm_tpd_stub :=
  Objmm (<[a := b]> (heads objmm)) (buk_list objmm) (cur_buk objmm) (executable objmm).
Definition set_cur (objmm : obj_mm_tpd_stub) (c : option Z) : obj_mm_tpd_stub :=
  Objmm (heads objmm) (buk_list objmm) c (executable objmm).

(** An allocation from the current bucket; [buk == NULL] gives [NULL]. *)
Definition alloc_cur (objmm : obj_mm_tpd_stub) (size : Z) : result (option (Z * obj_mm_tpd_stub)) :=
  match cur_buk objmm with
  | None => Ok None
  | Some c =>
      b ← head (heads objmm) c;
      r ← alloc_from_buk b size;
      Ok (match r with Some (ptr, b) => Some (ptr, set_head objmm c b) | None => None end)
  end.

(** The last part of [alloc_obj]: a new bucket, linked in front of the others. *)
Definition alloc_new (k : K) (objmm : obj_mm_tpd_stub) (max_buk : option Z) (size : Z) :
    result (Z * K * obj_mm_tpd_stub) :=
  '(b, k) ← alloc_obj_buk k (executable objmm);
  let new := buk_addr b in
  r ← alloc_from_buk b size;
  match r with
  | None => Fatal
  | Some (ptr, b) =>
      let objmm := Objmm (<[new := b]> (heads objmm)) (new :: buk_list objmm)
                         (cur_buk objmm) (executable objmm) in
      max_buk ← (match max_buk with
                 | None => Ok new
                 | Some m =>
                     bm ← head (heads objmm) m;
                     Ok (if aval_size bm <? aval_size b then new else m)
                 end);
      Ok (ptr, k, set_cur objmm (Some max_buk))
  end.

Definition alloc_obj (k : K) (objmm : obj_mm_tpd_stub) (size : Z) :
    result (Z * K * obj_mm_tpd_stub) :=
  if MAX_AVAL_OBJ_SIZE <=? size then Fatal
  else
    _ ← assert (0 <? size);
    r ← alloc_cur objmm size;
    match r with
    | Some (ptr, objmm) => Ok (ptr, k, objmm)
    | None =>
        '(max_buk, _) ← find_max (heads objmm) (buk_list objmm) None 0;
        match max_buk with
        | None => alloc_new k objmm None size
        | Some m =>
            bm ← head (heads objmm) m;
            if negb (bool_decide (Some m = cur_buk objmm)) && (size <? aval_size bm) then
              r ← alloc_from_buk bm size;
              match r with
              | None => Fatal
              | Some (ptr, bm) =>
                  let objmm := set_head objmm m bm in
                  match cur_buk objmm with
                  | None => Stray Rd
                  | Some c =>
                      bc ← head (heads objmm) c;
                      Ok (ptr, k, if aval_size bc <? aval_size bm then set_cur objmm (Some m) else objmm)
                  end
              end
            else alloc_new k objmm (Some m) size
        end
    end.

End mm.

(** ** Pages *)

Lemma is_valid_page_spec p : is_valid_page p = (p mod PAGE_SIZE =? 0).
Proof.
  unfold is_valid_page. change (PAGE_SIZE - 1) with (2 ^ 12 - 1). by rewrite land_mask by lia.
Qed.

(** ** The buckets *)

Record buk_ok (a : Z) (b : obj_buk_head) : Prop := {
  b_addr : buk_addr b = a;
  b_end : buk_end b = a + OBJ_BUCKET_SIZE;
  b_room : cur_ptr b + aval_size b = buk_end b;
  b_cur : a + sizeof_obj_buk_head <= cur_ptr b < buk_end b;
  b_page : a mod PAGE_SIZE = 0;
  b_range : 0 < a /\ a + OBJ_BUCKET_SIZE <= 2 ^ 32 - 4096
}.

Section facts.
Context {K : Type} {KP : KernelPages K} {KL : KernelPagesLaws K} {KU : KernelPagesUp K}.

(** The allocator with the objects it gave out ([live], the last one first):
    the buckets are mapped and apart, the current bucket is one of them, and
    the objects are apart and in the used part of a bucket, behind its head. *)
Record mm_ok (k : K) (mm : obj_mm_tpd_stub) (live : list (Z * Z)) : Prop := {
  m_bucket : forall a, In a (buk_list mm) ->
    exists b, heads mm !! a = Some b /\ buk_ok a b /\ In (a, OBJ_BUCKET_SIZE) (mapped k);
  m_nodup : NoDup (buk_list mm);
  m_apart : forall a a', In a (buk_list mm) -> In a' (buk_list mm) -> a <> a' ->
    apart a OBJ_BUCKET_SIZE a' OBJ_BUCKET_SIZE;
  m_cur : match cur_buk mm with Some c => In c (buk_list mm) | None => buk_list mm = [] end;
  m_live : Forall (fun o => 0 < o.2 /\ exists a b, In a (buk_list mm) /\ heads mm !! a = Some b /\
    a + sizeof_obj_buk_head <= o.1 /\ o.1 + o.2 <= cur_ptr b) live;
  m_objects : ForallOrdPairs (fun o o' => apart o.1 o.2 o'.1 o'.2) live
}.

(** The bucket [b] at [a] after an object of [size] bytes was cut off. *)
Definition cut (b : obj_buk_head) (size : Z) : obj_buk_head :=
  Buk (buk_addr b) (buk_end b) (cur_ptr b + size) (total_size b) (aval_size b - size).

Lemma alloc_from_buk_spec a b size :
  buk_ok a b -> 0 < size ->
  alloc_from_buk b size =
  (if aval_size b <? size then Ok None
   else if aval_size b =? size then Fatal else Ok (Some (cur_ptr b, cut b size))).
Proof.
  intros [Ha He Hr Hc Hp Hg] Hs. unfold alloc_from_buk. destruct (Z.ltb_spec (aval_size b) size); [done|].
  unfold sizeof_obj_buk_head in *. rewrite u32_small by lia.
  destruct (Z.eqb_spec (aval_size b) size), (Z.ltb_spec (cur_ptr b + size) (buk_end b)); lia || done.
Qed.

Lemma cut_ok a b size : buk_ok a b -> 0 < size < aval_size b -> buk_ok a (cut b size).
Proof. intros [Ha He Hr Hc Hp Hg] Hs. constructor; cbn; lia. Qed.

(** Cutting an object off a bucket keeps everything apart. *)
Lemma mm_ok_cut k mm live a b size c :
  mm_ok k mm live -> In a (buk_list mm) -> heads mm !! a = Some b -> 0 < size < aval_size b ->
  match c with Some c => In c (buk_list mm) | None => buk_list mm = [] end ->
  mm_ok k (set_cur (set_head mm a (cut b size)) c) ((cur_ptr b, size) :: live).
Proof.
  intros [Hb Hnd Hap Hcur Hlive Hobj] Ha Hh Hs Hc.
  assert (Hba : buk_ok a b) by (destruct (Hb a Ha) as (b' & E & ? & _); congruence).
  constructor; cbn; [|done|done|done| |].
  - intros x Hx. destruct (Hb x Hx) as (bx & Ex & Hbx & Hm). destruct (decide (x = a)) as [->|Hne].
    + exists (cut b size). rewrite lookup_insert_eq. split; [done|]. split; [by apply cut_ok|done].
    + exists bx. by rewrite lookup_insert_ne.
  - constructor.
    + cbn. split; [lia|]. exists a, (cut b size). rewrite lookup_insert_eq. cbn.
      destruct Hba as [_ _ _ Hcb _ _]. repeat split; [done|lia|lia].
    + eapply Forall_impl; [exact Hlive|]. intros o (Ho & x & bx & Hx & Ex & H1 & H2). split; [done|].
      destruct (decide (x = a)) as [->|Hne].
      * exists a, (cut b size). rewrite lookup_insert_eq. cbn. assert (bx = b) as -> by congruence.
        repeat split; [done|done|lia].
      * exists x, bx. by rewrite lookup_insert_ne.
  - constructor; [|done]. eapply Forall_impl; [exact Hlive|].
    intros o (Ho & x & bx & Hx & Ex & H1 & H2). cbn. unfold apart.
    destruct (decide (x = a)) as [->|Hne]; [right; congruence|].
    destruct (Hb x Hx) as (bx' & Ex' & [_ Hex _ Hcx _ _] & _). assert (bx' = bx) as -> by congruence.
    destruct Hba as [_ Hea Hra Hca _ _]. unfold sizeof_obj_buk_head in *.
    destruct (Hap x a Hx Ha Hne); lia.
Qed.

Lemma xalloc_pages_up k sz ex :
  has_room k -> 0 < sz <= 2 ^ 26 -> sz mod PAGE_SIZE = 0 ->
  exists p k', xalloc_pages k sz ex = Ok (p, k') /\ p mod PAGE_SIZE = 0 /\ PAGE_SIZE <= p /\
    p + sz <= 2 ^ 32 - 4096 /\ Forall (fun r => apart p sz r.1 r.2) (mapped k) /\
    mapped k' = (p, sz) :: mapped k.
Proof.
  intros Hroom Hsz Hal. unfold xalloc_pages. destruct (Z.ltb_spec 0 sz); [|lia]. cbn [assert]. rewrite bind_Ok.
  unfold PAGE_SIZE in *. rewrite align_up_aligned by (done || lia).
  set (prot := if ex then _ else _).
  destruct (sys_uniform_mmap k sz prot) as [p k'] eqn:E.
  pose proof (mmap_up k sz prot Hroom Hsz) as Hu. rewrite E in Hu. cbn [fst] in Hu. unfold PAGE_SIZE in Hu.
  rewrite is_valid_page_spec. unfold PAGE_SIZE. rewrite Hu. cbn [Z.eqb assert]. rewrite bind_Ok.
  destruct (mmap_ok k sz prot p k' ltac:(lia) Hal E) as [(Hp & _) | (H1 & H2 & H3 & H4 & H5)].
  - exfalso. Z.div_mod_to_equations. lia.
  - exists p, k'. done.
Qed.

Lemma alloc_obj_buk_up k ex :
  has_room k -> exists b k', alloc_obj_buk k ex = Ok (b, k') /\ buk_ok (buk_addr b) b /\
    aval_size b = MAX_AVAL_OBJ_SIZE /\
    Forall (fun r => apart (buk_addr b) OBJ_BUCKET_SIZE r.1 r.2) (mapped k) /\
    mapped k' = (buk_addr b, OBJ_BUCKET_SIZE) :: mapped k.
Proof.
  intros Hroom. unfold alloc_obj_buk.
  destruct (xalloc_pages_up k OBJ_BUCKET_SIZE ex) as (p & k' & -> & Hm & Hp & Hr & Hap & Hk);
    [done|by vm_compute|by vm_compute|].
  rewrite bind_Ok. unfold PAGE_SIZE in *. destruct (Z.eqb_spec p 0); [lia|]. cbn [negb assert]. rewrite bind_Ok.
  eexists _, k'. split; [done|]. cbn [buk_addr aval_size]. unfold MAX_AVAL_OBJ_SIZE, sizeof_obj_buk_head, OBJ_BUCKET_SIZE in *.
  split; [|split; [lia|done]]. constructor; cbn; unfold sizeof_obj_buk_head, OBJ_BUCKET_SIZE; lia || done.
Qed.

(** A new bucket, linked in. *)
Lemma mm_ok_new k mm live b k' c :
  mm_ok k mm live -> buk_ok (buk_addr b) b ->
  Forall (fun r => apart (buk_addr b) OBJ_BUCKET_SIZE r.1 r.2) (mapped k) ->
  mapped k' = (buk_addr b, OBJ_BUCKET_SIZE) :: mapped k ->
  match c with Some c => c = buk_addr b \/ In c (buk_list mm) | None => False end ->
  mm_ok k' (Objmm (<[buk_addr b := b]> (heads mm)) (buk_addr b :: buk_list mm) c (executable mm)) live.
Proof.
  intros [Hb Hnd Hap Hcur Hlive Hobj] Hbk Hfr Hk Hc. set (n := buk_addr b) in *.
  rewrite List.Forall_forall in Hfr.
  assert (Hn : forall a, In a (buk_list mm) -> apart n OBJ_BUCKET_SIZE a OBJ_BUCKET_SIZE /\ a <> n).
  { intros a Ha. destruct (Hb a Ha) as (ba & _ & _ & Hm). pose proof (Hfr _ Hm) as Hx. cbn in Hx.
    split; [done|]. intros ->. unfold apart, OBJ_BUCKET_SIZE in Hx. lia. }
  assert (Hlk : forall a, In a (buk_list mm) -> <[n := b]> (heads mm) !! a = heads mm !! a).
  { intros a Ha. apply lookup_insert_ne. by destruct (Hn a Ha). }
  constructor; cbn; [| | | | |done].
  - intros a [<- | Ha]; [exists b; rewrite lookup_insert_eq, Hk; split; [done|]; split; [done|by left]|].
    destruct (Hb a Ha) as (ba & E & H1 & H2). exists ba. rewrite Hlk, Hk by done.
    split; [done|]. split; [done|by right].
  - constructor; [|done]. rewrite list_elem_of_In. intros Hi. by destruct (Hn n Hi).
  - intros a a' [<- | Ha] [<- | Ha'] Hne; [done| | |by apply Hap].
    + by destruct (Hn a' Ha').
    + destruct (Hn a Ha) as ([?|?] & _); [by right|by left].
  - destruct c as [c|]; [|done]. destruct Hc as [-> | Hc]; [by left|by right].
  - eapply Forall_impl; [exact Hlive|]. intros o (Ho & a & ba & Ha & E & H1). split; [done|].
    exists a, ba. rewrite Hlk by done.
    split; [by right|done].
Qed.

Lemma head_ok k mm live a :
  mm_ok k mm live -> In a (buk_list mm) ->
  exists b, head (heads mm) a = Ok b /\ heads mm !! a = Some b /\ buk_ok a b.
Proof.
  intros [Hb _ _ _ _ _] Ha. destruct (Hb a Ha) as (b & E & Hbk & _). exists b. unfold head. by rewrite E.
Qed.

Lemma find_max_spec hs : forall l m0 av0,
  (forall a, In a l -> exists b, hs !! a = Some b) ->
  exists r av, find_max hs l m0 av0 = Ok (r, av) /\ (r = m0 \/ exists m, r = Some m /\ In m l).
Proof.
  induction l as [|a l IH]; intros m0 av0 Hl; cbn [find_max]; [eauto|].
  destruct (Hl a (or_introl eq_refl)) as (b & E). unfold head. rewrite E, bind_Ok.
  assert (Hl' : forall a, In a l -> exists b, hs !! a = Some b) by (intros; apply Hl; by right).
  destruct (_ <? _).
  - destruct (IH (Some a) (aval_size b) Hl') as (r & av & -> & Hr). exists r, av. split; [done|]. right.
    destruct Hr as [-> | (m & -> & Hm)]; [exists a; split; [done|by left]|exists m; split; [done|by right]].
  - destruct (IH m0 av0 Hl') as (r & av & -> & Hr). exists r, av. split; [done|].
    destruct Hr as [-> | (m & -> & Hm)]; [by left|right; exists m; split; [done|by right]].
Qed.

(** The outcome of an allocation that succeeds. *)
Definition allocated (size : Z) (live : list (Z * Z)) (r : result (Z * K * obj_mm_tpd_stub)) : Prop :=
  exists p k' mm', r = Ok (p, k', mm') /\ mm_ok k' mm' ((p, size) :: live).

Lemma alloc_new_spec k mm live mx size :
  has_room k -> mm_ok k mm live -> 0 < size < MAX_AVAL_OBJ_SIZE ->
  (forall m, mx = Some m -> In m (buk_list mm)) ->
  allocated size live (alloc_new k mm mx size).
Proof.
  intros Hrm Hok Hs Hmx. unfold alloc_new.
  destruct (alloc_obj_buk_up k (executable mm) Hrm) as (b & k' & -> & Hbk & Hav & Hfr & Hk). rewrite bind_Ok.
  rewrite (alloc_from_buk_spec _ b size Hbk) by lia.
  destruct (Z.ltb_spec (aval_size b) size); [lia|]. destruct (Z.eqb_spec (aval_size b) size); [lia|].
  rewrite bind_Ok. cbn [heads].
  assert (Hc : exists c, (match mx with
     | None => Ok (buk_addr b)
     | Some m => bm ← head (<[buk_addr b := cut b size]> (heads mm)) m;
                 Ok (if aval_size bm <? aval_size (cut b size) then buk_addr b else m)
     end) = Ok c /\ (c = buk_addr b \/ In c (buk_list mm))).
  { destruct mx as [m|]; [|eauto]. pose proof (Hmx m eq_refl) as Hm.
    destruct (head_ok k mm live m Hok Hm) as (bm & _ & E & _). unfold head.
    destruct (decide (m = buk_addr b)) as [->|Hne].
    - rewrite lookup_insert_eq, bind_Ok. destruct (_ <? _); eauto.
    - rewrite lookup_insert_ne, E, bind_Ok by done. destruct (_ <? _); eauto. }
  destruct Hc as (c & -> & Hc). rewrite bind_Ok. eexists _, k', _. split; [done|].
  pose proof (mm_ok_new k mm live b k' (Some c) Hok Hbk Hfr Hk Hc) as Hn.
  apply (mm_ok_cut _ _ _ (buk_addr b) b size (Some c)) in Hn; cbn in *;
    [|by left|by rewrite lookup_insert_eq|lia|destruct Hc as [-> | ?]; [by left|by right]].
  unfold set_head, set_cur in *. cbn in *. by rewrite insert_insert_eq in Hn.
Qed.

(** The room the current bucket has left. *)
Definition cur_room (mm : obj_mm_tpd_stub) : option Z :=
  c ← cur_buk mm; b ← heads mm !! c; Some (aval_size b).

Lemma alloc_cur_spec k mm live size :
  mm_ok k mm live -> 0 < size -> cur_room mm <> Some size ->
  alloc_cur mm size = Ok None \/
  exists p mm', alloc_cur mm size = Ok (Some (p, mm')) /\ mm_ok k mm' ((p, size) :: live).
Proof.
  intros Hok Hs Hroom. unfold alloc_cur, cur_room in *. pose proof Hok as [_ _ _ Hcur _ _].
  destruct (cur_buk mm) as [c|] eqn:Ec; [|by left].
  destruct (head_ok k mm live c Hok Hcur) as (b & -> & E & Hbk). rewrite bind_Ok.
  rewrite (alloc_from_buk_spec c b size Hbk Hs).
  destruct (Z.ltb_spec (aval_size b) size); [by left|]. cbn in Hroom. rewrite E in Hroom. cbn in Hroom.
  destruct (Z.eqb_spec (aval_size b) size) as [E'|]; [by rewrite E' in Hroom|]. rewrite bind_Ok. right.
  eexists _, _. split; [done|].
  pose proof (mm_ok_cut k mm live c b size (Some c) Hok Hcur E ltac:(lia) Hcur) as H'.
  unfold set_cur in H'. cbn in H'. unfold set_head. by rewrite Ec.
Qed.

(** An object of exactly the size the current bucket has left is not
    allocated: the assertion that the bucket does not become full ends the
    process, although the bucket has the room. *)
Lemma alloc_obj_exact_fill k mm live size :
  mm_ok k mm live -> 0 < size < MAX_AVAL_OBJ_SIZE -> cur_room mm = Some size ->
  alloc_obj k mm size = Fatal.
Proof.
  intros Hok Hs Hroom. unfold alloc_obj, alloc_cur, cur_room in *.
  destruct (Z.leb_spec MAX_AVAL_OBJ_SIZE size), (Z.ltb_spec 0 size); try lia. cbn [assert]. rewrite bind_Ok.
  pose proof Hok as [_ _ _ Hcur _ _]. destruct (cur_buk mm) as [c|]; [|done]. cbn in Hroom.
  destruct (head_ok k mm live c Hok Hcur) as (b & -> & E & Hbk). rewrite bind_Ok, E in *. cbn in Hroom.
  injection Hroom as Hroom. rewrite (alloc_from_buk_spec c b size Hbk) by lia.
  destruct (Z.ltb_spec (aval_size b) size), (Z.eqb_spec (aval_size b) size); lia || done.
Qed.

(** C31: the object allocator gives out objects of the size asked for that
    overlap no object given out before, no bucket head and nothing outside the
    buckets, for every size below the limit and as long as the kernel has pages,
    unless the current bucket has exactly that many bytes left: then the
    assertion that it does not become full ends the process. *)
Theorem alloc_obj_fresh k mm live size :
  has_room k -> mm_ok k mm live -> 0 < size < MAX_AVAL_OBJ_SIZE ->
  if decide (cur_room mm = Some size) then alloc_obj k mm size = Fatal
  else exists p k' mm', alloc_obj k mm size = Ok (p, k', mm') /\ mm_ok k' mm' ((p, size) :: live).
Proof.
  intros Hrm Hok Hs. destruct (decide _) as [Hroom|Hroom]; [by eapply alloc_obj_exact_fill|]. unfold alloc_obj.
  destruct (Z.leb_spec MAX_AVAL_OBJ_SIZE size), (Z.ltb_spec 0 size); try lia. cbn [assert]. rewrite bind_Ok.
  destruct (alloc_cur_spec k mm live size Hok ltac:(lia) Hroom) as [-> | (p & mm' & -> & Hok')];
    rewrite bind_Ok; [|by eexists _, _, _].
  destruct (find_max_spec (heads mm) (buk_list mm) None 0) as (r & av & -> & Hr).
  { intros a Ha. destruct (head_ok k mm live a Hok Ha) as (b & _ & E & _). eauto. }
  rewrite bind_Ok. destruct Hr as [-> | (m & -> & Hm)]; [by apply alloc_new_spec|].
  destruct (head_ok k mm live m Hok Hm) as (bm & -> & E & Hbk). rewrite bind_Ok.
  destruct (negb _ && _) eqn:Et; [|by apply alloc_new_spec; [..|intros ? [= <-]]].
  apply andb_true_iff in Et as [Hne Hlt%Z.ltb_lt].
  rewrite (alloc_from_buk_spec m bm size Hbk) by lia.
  destruct (Z.ltb_spec (aval_size bm) size), (Z.eqb_spec (aval_size bm) size); try lia. rewrite bind_Ok.
  pose proof Hok as [_ _ _ Hcur _ _]. cbn [cur_buk set_head heads].
  destruct (cur_buk mm) as [c|] eqn:Ec; [|by rewrite Hcur in Hm].
  destruct (head_ok k mm live c Hok Hcur) as (bc & _ & Eb & _).
  pose proof (fun c' Hc' => mm_ok_cut k mm live m bm size (Some c') Hok Hm E ltac:(lia) Hc') as Hcut.
  assert (Hh : exists b', head (<[m := cut bm size]> (heads mm)) c = Ok b').
  { unfold head. destruct (decide (c = m)) as [->|]; [rewrite lookup_insert_eq|rewrite lookup_insert_ne, Eb by done]; eauto. }
  destruct Hh as (b' & ->). rewrite bind_Ok. eexists _, _, _. split; [done|].
  destruct (_ <? _); [by apply Hcut|]. specialize (Hcut c Hcur). unfold set_cur, set_head in *. cbn in *.
  by rewrite Ec.
Qed.

(** ** Giving everything back *)

Lemma free_buks_spec : forall l k hs,
  NoDup l -> (forall a, In a l -> exists b, hs !! a = Some b /\ buk_ok a b) ->
  (exists rest, mapped k ≡ₚ map (fun a => (a, OBJ_BUCKET_SIZE)) l ++ rest) ->
  exists k', free_buks k hs l = Ok k' /\
    mapped k ≡ₚ map (fun a => (a, OBJ_BUCKET_SIZE)) l ++ mapped k'.
Proof.
  induction l as [|a l IH]; intros k hs Hnd Hl (rest & Hm); cbn [free_buks map app] in *.
  { by exists k. }
  apply NoDup_cons in Hnd as [Hna Hnd]. destruct (Hl a (or_introl eq_refl)) as (b & E & Hbk).
  unfold head. rewrite E, bind_Ok. unfold free_obj_buk. destruct Hbk as [-> _ _ _ Hp Hr].
  destruct (Z.eqb_spec a 0); [lia|]. cbn [negb assert]. rewrite bind_Ok. unfold xdealloc_pages.
  rewrite is_valid_page_spec, Hp. cbn [Z.eqb assert]. rewrite bind_Ok.
  change (ALIGN_UP OBJ_BUCKET_SIZE PAGE_SIZE) with OBJ_BUCKET_SIZE.
  assert (Hin : In (a, OBJ_BUCKET_SIZE) (mapped k)).
  { apply list_elem_of_In. rewrite Hm. by left. }
  destruct (sys_munmap k a OBJ_BUCKET_SIZE) as [err k1] eqn:Eu.
  pose proof (munmap_up k a OBJ_BUCKET_SIZE Hp ltac:(by vm_compute) ltac:(lia) ltac:(lia)) as Hu. rewrite Eu in Hu. cbn in Hu. subst err.
  cbn [Z.eqb assert]. rewrite bind_Ok. rewrite bind_Ok.
  pose proof (munmap_ok k a OBJ_BUCKET_SIZE k1 Hin Eu) as Hperm.
  destruct (IH k1 (delete a hs)) as (k' & -> & Hk').
  - done.
  - intros x Hx. destruct (Hl x (or_intror Hx)) as (bx & Ex & Hbx). exists bx. split; [|done].
    rewrite lookup_delete_ne; [done|]. intros ->. apply Hna. by apply list_elem_of_In.
  - exists rest. rewrite Hperm in Hm. by apply Permutation_cons_inv in Hm.
  - exists k'. split; [done|]. by rewrite Hperm, Hk'.
Qed.

(** The buckets are among the mapped ranges, each once. *)
Lemma buckets_mapped : forall l (m : list (Z * Z)),
  NoDup l -> (forall a, In a l -> In (a, OBJ_BUCKET_SIZE) m) ->
  exists rest, m ≡ₚ map (fun a => (a, OBJ_BUCKET_SIZE)) l ++ rest.
Proof.
  induction l as [|a l IH]; intros m Hnd Hl; [by exists m|]. apply NoDup_cons in Hnd as [Hna Hnd].
  pose proof (Hl a (or_introl eq_refl)) as Hin. apply in_split in Hin as (l1 & l2 & ->).
  destruct (IH (l1 ++ l2) Hnd) as (rest & Hr).
  { intros x Hx. specialize (Hl x (or_intror Hx)). rewrite in_app_iff in *. cbn in Hl.
    destruct Hl as [? | [E | ?]]; [by left| |by right]. injection E as ->.
    exfalso. apply Hna. by apply list_elem_of_In. }
  exists rest. cbn. rewrite <- Hr. by rewrite Permutation_middle.
Qed.

(** [clean_mm_obj] unmaps every bucket and nothing else, and leaves the
    allocator empty. *)
Lemma clean_mm_obj_unmaps k mm live :
  mm_ok k mm live ->
  exists k', clean_mm_obj k mm = Ok (k', Objmm ∅ [] None false) /\
    mapped k ≡ₚ map (fun a => (a, OBJ_BUCKET_SIZE)) (buk_list mm) ++ mapped k'.
Proof.
  intros Hok. pose proof Hok as [Hb Hnd _ _ _ _]. unfold clean_mm_obj.
  destruct (free_buks_spec (buk_list mm) k (heads mm)) as (k' & -> & Hk').
  - done.
  - intros a Ha. destruct (Hb a Ha) as (b & E & Hbk & _). eauto.
  - apply buckets_mapped; [done|]. intros a Ha. by destruct (Hb a Ha) as (b & _ & _ & Hm).
  - exists k'. done.
Qed.

Lemma init_mm_obj_ok k ex : mm_ok k (init_mm_obj ex) [].
Proof. constructor; cbn; try done; constructor. Qed.

End facts.

(** ** A kernel *)

(** Ranges handed out from high addresses downwards; the witnesses run on it. *)
Module Pages.

Record pages := Pagesk { ranges : list (Z * Z) }.

(** No range starts below. *)
Definition low (k : pages) : Z := foldr (fun r a => Z.min r.1 a) (2 ^ 32 - 2 ^ 27) (ranges k).

Definition mmap (k : pages) (n prot : Z) : Z * pages :=
  let p := (low k - n) / PAGE_SIZE * PAGE_SIZE in
  if PAGE_SIZE <=? p then (p, Pagesk ((p, n) :: ranges k)) else (2 ^ 32 - 12, k).

Fixpoint remove1 (r : Z * Z) (l : list (Z * Z)) : list (Z * Z) :=
  match l with
  | [] => []
  | r' :: l => if decide (r = r') then l else r' :: remove1 r l
  end.

Definition munmap (k : pages) (p n : Z) : Z * pages :=
  if decide ((p, n) ∈ ranges k) then (0, Pagesk (remove1 (p, n) (ranges k))) else (0, k).

Lemma low_spec k : low k <= 2 ^ 32 - 2 ^ 27 /\ Forall (fun r => low k <= r.1) (ranges k).
Proof.
  unfold low. induction (ranges k) as [|r l [IH1 IH2]]; cbn [foldr]; [split; [lia|done]|].
  set (a := foldr _ _ l) in *. split; [lia|]. constructor; [lia|].
  eapply Forall_impl; [exact IH2|]. cbn beta. intros x Hx. lia.
Qed.

Lemma remove1_perm r l : r ∈ l -> l ≡ₚ r :: remove1 r l.
Proof.
  induction l as [|r' l IH]; intros Hr; [by apply not_elem_of_nil in Hr|]. cbn.
  destruct (decide (r = r')) as [->|Hne]; [done|].
  apply elem_of_cons in Hr as [->|Hr]; [done|]. by rewrite Permutation_swap, <- IH.
Qed.

#[global] Instance pages_kernel : KernelPages pages := {
  sys_uniform_mmap := mmap;
  sys_munmap := munmap
}.

#[global] Program Instance pages_laws : KernelPagesLaws pages := { mapped := ranges }.
Next Obligation.
  intros k n prot p k' Hn Hal. cbn. unfold mmap, PAGE_SIZE in *.
  destruct (Z.leb_spec 4096 ((low k - n) / 4096 * 4096)); intros [= <- <-]; [right|left; split; [lia|done]].
  destruct (low_spec k) as (H1 & H2). split; [Z.div_mod_to_equations; lia|]. split; [lia|].
  split; [Z.div_mod_to_equations; lia|]. split; [|done].
  eapply Forall_impl; [exact H2|]. intros r Hr. left. cbn in Hr. Z.div_mod_to_equations. lia.
Qed.
Next Obligation.
  intros k p n k' Hin. cbn. unfold munmap. rewrite <- list_elem_of_In in Hin. rewrite decide_True by done.
  intros [= <-]. by apply remove1_perm.
Qed.

#[global] Program Instance pages_up : KernelPagesUp pages := { has_room k := 2 ^ 27 <= low k }.
Next Obligation.
  intros k n prot Hr Hn. cbn beta in Hr. cbn [sys_uniform_mmap pages_kernel]. unfold mmap, PAGE_SIZE.
  pose proof (Z.div_mod (low k - n) 4096 ltac:(lia)). pose proof (Z.mod_pos_bound (low k - n) 4096 ltac:(lia)).
  destruct (Z.leb_spec 4096 ((low k - n) / 4096 * 4096)); cbn [fst]; [apply Z.mod_mul|]; lia.
Qed.
Next Obligation.
  intros k p n _ _ _ _. cbn. unfold munmap. by destruct (decide _).
Qed.

End Pages.

(** ** Runs *)

Definition k0 : Pages.pages := Pages.Pagesk [].

Lemma alloc_obj_fresh_witness :
  exists p k' mm', alloc_obj k0 (init_mm_obj false) 100 = Ok (p, k', mm') /\ mm_ok k' mm' [(p, 100)].
Proof.
  apply (alloc_obj_fresh k0 (init_mm_obj false) [] 100);
    [by vm_compute|apply init_mm_obj_ok|by vm_compute].
Defined.

(** One object was taken from the first bucket. *)
Definition used : Pages.pages * obj_mm_tpd_stub :=
  match alloc_new k0 (init_mm_obj false) None 100 with
  | Ok (_, k, mm) => (k, mm)
  | _ => (k0, init_mm_obj false)
  end.

Lemma used_ok : exists live, mm_ok used.1 used.2 live.
Proof.
  destruct (alloc_new_spec k0 (init_mm_obj false) [] None 100) as (p & k' & mm' & E & Hok);
    [by vm_compute|apply init_mm_obj_ok|by vm_compute|done|].
  unfold used. rewrite E. eauto.
Qed.

End Mm.
