(* ===== verification/ArchCheckpoint.v ===== *)
(** The processor part of a checkpoint, [src/src/core/loader/arch_checkpoint.c]
    and [processor.c]: the registers, the FPU state and the thread-local
    segments of the GDT.

    What only the processor knows (segment registers, the [fxsave] area) is an
    argument; so is the kernel's GDT, through a class. *)
From S2P Require Import Prelude.

(** [struct user_desc], four words of which the last one holds the flags. *)
Record user_desc := Desc { entry_number : Z; base_addr : Z; limit : Z; desc_flags : Z }.

Definition EINVAL : Z := 22.

(** get_thread_area(2) and set_thread_area(2). *)
Class KernelTls (K : Type) := {
  sys_get_thread_area : K -> user_desc -> Z * user_desc;
  sys_set_thread_area : K -> user_desc -> Z * K
}.

(** What the two calls promise: [areas k e] is the descriptor of the GDT entry
    [e], for the entries that hold thread-local segments. *)
Class KernelTlsLaws (K : Type) `{KernelTls K} := {
  areas : K -> Z -> option user_desc;
  area_number : forall k e d, areas k e = Some d -> entry_number d = e;
  get_area : forall k d, sys_get_thread_area k d =
    match areas k (entry_number d) with Some a => (0, a) | None => (- EINVAL, d) end;
  set_area : forall k d k' n,
    is_Some (areas k (entry_number d)) -> sys_set_thread_area k d = (n, k') ->
    n = 0 /\ forall e, areas k' e = if decide (e = entry_number d) then Some d else areas k e
}.

Module Arch.

(** ** Registers *)

Record pusha_regs := Pusha {
  r_eflags : Z; r_edi : Z; r_esi : Z; r_ebp : Z; r_esp : Z;
  r_ebx : Z; r_edx : Z; r_ecx : Z; r_eax : Z
}.

(** The segment registers and the [fxsave] image, as the processor has them. *)
Record cpu := Cpu {
  s_cs : Z; s_ds : Z; s_es : Z; s_fs : Z; s_gs : Z; s_ss : Z;
  fxstate : list Z
}.

(** [struct user_regs_struct] *)
Record user_regs_struct := Uregs {
  u_bx : Z; u_cx : Z; u_dx : Z; u_si : Z; u_di : Z; u_bp : Z; u_ax : Z;
  u_ds : Z; u_es : Z; u_fs : Z; u_gs : Z; u_orig_ax : Z; u_ip : Z; u_cs : Z;
  u_flags : Z; u_sp : Z; u_ss : Z
}.

Definition sizeof_user_regs : Z := 68.
Definition sizeof_fxsave : Z := 512.

Definition readsr (s : Z) : Z := Z.land s 0xffff.

Definition save_reg_state (c : cpu) (r : pusha_regs) (eip : Z) : user_regs_struct :=
  Uregs (r_ebx r) (r_ecx r) (r_edx r) (r_esi r) (r_edi r) (r_ebp r) (r_eax r)
    (readsr (s_ds c)) (readsr (s_es c)) (readsr (s_fs c)) (readsr (s_gs c))
    (r_eax r) eip (readsr (s_cs c)) (r_eflags r) (r_esp r) (readsr (s_ss c)).

Definition save_i387_state (c : cpu) : list Z := fxstate c.

(** The registers and the instruction pointer; [fs] and [gs] are loaded, the
    other segment registers are left alone. *)
Definition restore_reg_state (c : cpu) (u : user_regs_struct) : pusha_regs * Z * cpu :=
  (Pusha (u_flags u) (u_di u) (u_si u) (u_bp u) (u_sp u) (u_bx u) (u_dx u) (u_cx u) (u_ax u),
   u_ip u,
   Cpu (s_cs c) (s_ds c) (s_es c) (Z.land (u_fs u) 0xffff) (Z.land (u_gs u) 0xffff) (s_ss c) (fxstate c)).

Definition restore_i387_state (c : cpu) (fx : list Z) : cpu :=
  Cpu (s_cs c) (s_ds c) (s_es c) (s_fs c) (s_gs c) (s_ss c) fx.

(** ** The section *)

Definition ARCH_CKPT_SECT_UREGS_MARK : Z := 0xffff.
Definition ARCH_CKPT_SECT_FXREGS_MARK : Z := 0xfffe.

Definition uregs_words (u : user_regs_struct) : list Z :=
  [u_bx u; u_cx u; u_dx u; u_si u; u_di u; u_bp u; u_ax u; u_ds u; u_es u; u_fs u; u_gs u;
   u_orig_ax u; u_ip u; u_cs u; u_flags u; u_sp u; u_ss u].

Definition words (l : list Z) : list Z := concat (map le32 l).

Definition word_at (b : list Z) (i : Z) : Z := of_le (zslice b i 4).

Definition uregs_of (b : list Z) (i : Z) : user_regs_struct :=
  let w n := word_at b (i + 4 * n) in
  Uregs (w 0) (w 1) (w 2) (w 3) (w 4) (w 5) (w 6) (w 7) (w 8) (w 9) (w 10) (w 11) (w 12) (w 13)
    (w 14) (w 15) (w 16).

(** [sizeof(struct arch_cpuinfo_s)]: the [fxsave] area is aligned to 16, so 12
    bytes between [fxsz] and it are padding. *)
Definition sizeof_arch_cpuinfo : Z := 608.

(** The bytes of the structure; [pad] is what the buffer had in the padding.
    [fxsz] is the size of the field itself, not of the area behind it. *)
Definition arch_cpuinfo (u : user_regs_struct) (pad fx : list Z) : list Z :=
  le32 ARCH_CKPT_SECT_UREGS_MARK ++ le32 sizeof_user_regs ++ words (uregs_words u) ++
  le32 ARCH_CKPT_SECT_FXREGS_MARK ++ le32 4 ++ pad ++ fx.

Definition get_ckpt_cpuinfo (c : cpu) (pad : list Z) (sz : Z) (regs : pusha_regs) (eip : Z) :
    result (list Z) :=
  _ ← assert (sizeof_arch_cpuinfo <=? sz);
  Ok (arch_cpuinfo (save_reg_state c regs eip) pad (save_i387_state c)).

Definition restore_ckpt_cpuinfo (c : cpu) (b : list Z) : result (pusha_regs * Z * cpu) :=
  _ ← assert (zlen b =? sizeof_arch_cpuinfo);
  _ ← assert (word_at b 0 =? ARCH_CKPT_SECT_UREGS_MARK);
  _ ← assert (word_at b 4 =? sizeof_user_regs);
  let '(regs, eip, c) := restore_reg_state c (uregs_of b 8) in
  _ ← assert (word_at b 76 =? ARCH_CKPT_SECT_FXREGS_MARK);
  _ ← assert (word_at b 80 =? 4);
  Ok (regs, eip, restore_i387_state c (zslice b 96 sizeof_fxsave)).

(** ** Thread-local segments *)

Definition GDT_ENTRY_TLS_ENTRIES : Z := 3.
Definition sizeof_user_desc : Z := 16.
Definition TLS_INFO_SZ : Z := sizeof_user_desc * GDT_ENTRY_TLS_ENTRIES.

Definition desc_bytes (d : user_desc) : list Z :=
  words [entry_number d; base_addr d; limit d; desc_flags d].
Definition desc_of (b : list Z) (i : Z) : user_desc :=
  Desc (word_at b i) (word_at b (i + 4)) (word_at b (i + 8)) (word_at b (i + 12)).

Section tls.
Context {K : Type} `{KernelTls K}.

(** The first entry the kernel answers for, and its descriptor; after the last
    round without one, [min] and the descriptor of that round. *)
Fixpoint gdt_min_loop (fuel : nat) (k : K) (min : Z) (d : user_desc) : result (Z * user_desc) :=
  match fuel with
  | O => Ok (min, d)
  | S fuel =>
      let '(err, d) := sys_get_thread_area k (Desc min 0 0 0) in
      if err =? 0 then Ok (min, d)
      else if negb (err =? - EINVAL) then Fatal
      else gdt_min_loop fuel k (min + 1) d
  end.

Definition check_arch_gdt_min (k : K) : result (Z * user_desc) :=
  '(min, d) ← gdt_min_loop (Z.to_nat (64 - GDT_ENTRY_TLS_ENTRIES)) k 0 (Desc 0 0 0 0);
  if 64 <=? min then Fatal else Ok (min, d).

(** [u_info[i]] for [1 <= i < n]; [old] are the descriptors the buffer held. *)
Fixpoint tls_entries (k : K) (min i : Z) (old : list user_desc) : result (list user_desc) :=
  match old with
  | [] => Ok []
  | o :: old =>
      let '(err, d) := sys_get_thread_area k (Desc (min + i) (base_addr o) (limit o) (desc_flags o)) in
      _ ← assert (err =? 0);
      ds ← tls_entries k min (i + 1) old;
      Ok (d :: ds)
  end.

Definition get_tls_info (k : K) (buffer : list Z) (sz : Z) : result (list Z) :=
  _ ← assert (TLS_INFO_SZ <=? sz);
  '(min, d0) ← check_arch_gdt_min k;
  ds ← tls_entries k min 1 [desc_of buffer 16; desc_of buffer 32];
  Ok (concat (map desc_bytes (d0 :: ds))).

Fixpoint restore_entries (k : K) (gdt_min i : Z) (ds : list user_desc) : result K :=
  match ds with
  | [] => Ok k
  | d :: ds =>
      _ ← assert (entry_number d =? gdt_min + i);
      let '(err, k) := sys_set_thread_area k d in
      _ ← assert (err =? 0);
      restore_entries k gdt_min (i + 1) ds
  end.

Definition restore_tls_info (k : K) (b : list Z) : result K :=
  _ ← assert (zlen b =? TLS_INFO_SZ);
  '(gdt_min, _) ← check_arch_gdt_min k;
  restore_entries k gdt_min 0 [desc_of b 0; desc_of b 16; desc_of b 32].

End tls.

(** ** Round trip of the registers *)

Lemma zlen_words l : zlen (words l) = 4 * zlen l.
Proof.
  induction l as [|x l IH]; [done|]. unfold words in *. cbn [map concat]. rewrite zlen_app, IH, zlen_cons.
  change (zlen (le32 x)) with 4. lia.
Qed.

Lemma word_at_app_l a b i : 0 <= i -> i + 4 <= zlen a -> word_at (a ++ b) i = word_at a i.
Proof.
  intros Hi Ha. unfold word_at, zslice. f_equal. unfold zlen in Ha.
  rewrite drop_app_le by lia. rewrite take_app_le by (rewrite length_drop; lia). done.
Qed.

Lemma word_at_app_r a b i : zlen a <= i -> word_at (a ++ b) i = word_at b (i - zlen a).
Proof.
  intros Ha. unfold word_at, zslice, zlen in *. rewrite drop_app_ge by lia. do 3 f_equal. lia.
Qed.

Lemma word_at_words l i x :
  l !! i = Some x -> is_u32 x -> word_at (words l) (4 * Z.of_nat i) = x.
Proof.
  revert i. induction l as [|y l IH]; intros i Hi Hx; [done|]. unfold words. cbn [map concat].
  destruct i as [|i]; cbn in Hi.
  - injection Hi as ->. rewrite word_at_app_l by (change (zlen (le32 x)) with 4; lia).
    unfold word_at. change (zslice (le32 x) _ 4) with (le32 x). by apply of_le32.
  - rewrite word_at_app_r by (change (zlen (le32 y)) with 4; lia). change (zlen (le32 y)) with 4.
    replace (4 * Z.of_nat (S i) - 4) with (4 * Z.of_nat i) by lia. by apply IH.
Qed.

Definition regs_ok (r : pusha_regs) : Prop :=
  Forall is_u32 [r_eflags r; r_edi r; r_esi r; r_ebp r; r_esp r; r_ebx r; r_edx r; r_ecx r; r_eax r].

Lemma readsr_u32 s : is_u32 (readsr s).
Proof.
  unfold readsr, is_u32. change 0xffff with (2 ^ 16 - 1). rewrite land_mask by lia.
  pose proof (Z.mod_pos_bound s (2 ^ 16)). lia.
Qed.

Lemma uregs_words_ok c r eip :
  regs_ok r -> is_u32 eip -> Forall is_u32 (uregs_words (save_reg_state c r eip)).
Proof.
  intros Hr He. unfold regs_ok in Hr. rewrite !Forall_cons in Hr.
  destruct Hr as (H1 & H2 & H3 & H4 & H5 & H6 & H7 & H8 & H9 & _).
  unfold uregs_words, save_reg_state. cbn.
  repeat apply Forall_cons_2; auto using readsr_u32, Forall_nil_2.
Qed.

(** The structure as words, then the padding and the FPU state. *)
Definition cpuinfo_words (u : user_regs_struct) : list Z :=
  [ARCH_CKPT_SECT_UREGS_MARK; sizeof_user_regs] ++ uregs_words u ++ [ARCH_CKPT_SECT_FXREGS_MARK; 4].

Lemma arch_cpuinfo_words u pad fx :
  arch_cpuinfo u pad fx = words (cpuinfo_words u) ++ pad ++ fx.
Proof.
  unfold arch_cpuinfo, cpuinfo_words, words. rewrite !map_app, !concat_app. cbn [map concat].
  by rewrite <- !app_assoc, !app_nil_l.
Qed.

Lemma cpuinfo_word u pad fx i x :
  cpuinfo_words u !! i = Some x -> is_u32 x ->
  word_at (arch_cpuinfo u pad fx) (4 * Z.of_nat i) = x.
Proof.
  intros Hi Hx. rewrite arch_cpuinfo_words. apply lookup_lt_Some in Hi as Hl.
  rewrite word_at_app_l; [by apply word_at_words|lia|]. rewrite zlen_words. unfold zlen. lia.
Qed.

Lemma uregs_of_cpuinfo u pad fx :
  Forall is_u32 (uregs_words u) -> uregs_of (arch_cpuinfo u pad fx) 8 = u.
Proof.
  intros Hu. assert (Hw : forall n x, 0 <= n -> uregs_words u !! Z.to_nat n = Some x ->
    word_at (arch_cpuinfo u pad fx) (8 + 4 * n) = x).
  { intros n x Hn Hx. replace (8 + 4 * n) with (4 * Z.of_nat (2 + Z.to_nat n)) by lia.
    apply cpuinfo_word; [|by eapply Forall_lookup_1]. unfold cpuinfo_words. cbn [app lookup list_lookup].
    apply lookup_app_l_Some. done. }
  unfold uregs_of.
  repeat match goal with |- context [word_at _ (8 + 4 * ?n)] => rewrite (Hw n _ ltac:(lia) eq_refl) end.
  by destruct u.
Qed.

Lemma zlen_cpuinfo u pad fx :
  zlen pad = 12 -> zlen fx = sizeof_fxsave -> zlen (arch_cpuinfo u pad fx) = sizeof_arch_cpuinfo.
Proof.
  intros Hp Hf. rewrite arch_cpuinfo_words, !zlen_app, zlen_words, Hp, Hf.
  change (zlen (cpuinfo_words u)) with 21. done.
Qed.

Lemma cpuinfo_restored c c' pad regs eip :
  regs_ok regs -> is_u32 eip -> zlen pad = 12 -> zlen (fxstate c) = sizeof_fxsave ->
  exists b, get_ckpt_cpuinfo c pad 1024 regs eip = Ok b /\ zlen b = sizeof_arch_cpuinfo /\
    restore_ckpt_cpuinfo c' b =
    Ok (regs, eip, Cpu (s_cs c') (s_ds c') (s_es c') (readsr (s_fs c)) (readsr (s_gs c)) (s_ss c')
                       (fxstate c)).
Proof.
  intros Hr He Hp Hf. eexists. split; [done|]. unfold save_i387_state. set (u := save_reg_state c regs eip).
  pose proof (uregs_words_ok c regs eip Hr He) as Hu. fold u in Hu.
  split; [by apply zlen_cpuinfo|]. unfold restore_ckpt_cpuinfo.
  rewrite zlen_cpuinfo by done.
  pose proof (cpuinfo_word u pad (fxstate c) 0 ARCH_CKPT_SECT_UREGS_MARK eq_refl ltac:(by vm_compute)) as W0.
  pose proof (cpuinfo_word u pad (fxstate c) 1 sizeof_user_regs eq_refl ltac:(by vm_compute)) as W1.
  pose proof (cpuinfo_word u pad (fxstate c) 19 ARCH_CKPT_SECT_FXREGS_MARK eq_refl ltac:(by vm_compute)) as W2.
  pose proof (cpuinfo_word u pad (fxstate c) 20 4 eq_refl ltac:(by vm_compute)) as W3.
  change (4 * Z.of_nat 0) with 0 in W0. change (4 * Z.of_nat 1) with 4 in W1.
  change (4 * Z.of_nat 19) with 76 in W2. change (4 * Z.of_nat 20) with 80 in W3.
  rewrite W0, W1, W2, W3, uregs_of_cpuinfo by done. change (assert (?x =? ?x)) with (Ok ()).
  rewrite !bind_Ok. cbn [restore_reg_state].
  assert (Hfx : zslice (arch_cpuinfo u pad (fxstate c)) 96 sizeof_fxsave = fxstate c).
  { rewrite arch_cpuinfo_words. unfold zslice, zlen in *.
    rewrite app_assoc, drop_app_ge by (rewrite length_app; change (length (words (cpuinfo_words u))) with 84%nat; lia).
    rewrite length_app. change (length (words (cpuinfo_words u))) with 84%nat.
    replace (Z.to_nat 96 - (84 + length pad))%nat with 0%nat by lia. cbn [drop].
    apply take_ge. lia. }
  rewrite Hfx. unfold restore_i387_state, u, readsr. cbn [save_reg_state restore_reg_state u_fs u_gs u_bx u_cx u_dx
    u_si u_di u_bp u_ax u_ip u_flags u_sp s_cs s_ds s_es s_fs s_gs s_ss]. unfold readsr.
  rewrite <- !Z.land_assoc, !Z.land_diag. by destruct regs.
Qed.

(** Restoring the processor section of a checkpoint gives back the general
    registers, the flags, the stack and instruction pointers, the FPU state and
    the [fs] and [gs] selectors that were saved, whatever the padding of the
    structure held. *)
Lemma cpuinfo_roundtrip c c' pad regs eip :
  regs_ok regs -> is_u32 eip -> zlen pad = 12 -> zlen (fxstate c) = sizeof_fxsave ->
  exists b, get_ckpt_cpuinfo c pad 1024 regs eip = Ok b /\ zlen b = sizeof_arch_cpuinfo /\
    restore_ckpt_cpuinfo c' b =
    Ok (regs, eip, Cpu (s_cs c') (s_ds c') (s_es c') (readsr (s_fs c)) (readsr (s_gs c)) (s_ss c')
                       (fxstate c)).
Proof. apply cpuinfo_restored. Qed.

(** ** Round trip of the thread-local segments *)

Section tls_facts.
Context {K : Type} {KT : KernelTls K} {KL : KernelTlsLaws K}.

(** The entries [min .. min + 2] are the thread-local ones. *)
Definition tls_at (k : K) (min : Z) (ds : list user_desc) : Prop :=
  0 <= min < 61 /\ (forall e, 0 <= e < min -> areas k e = None) /\ length ds = 3%nat /\
  forall i d, ds !! i = Some d -> areas k (min + Z.of_nat i) = Some d.

Lemma gdt_min_loop_spec k min d : forall fuel e d0,
  0 <= e <= min -> (forall e', e <= e' < min -> areas k e' = None) -> areas k min = Some d ->
  (Z.to_nat (min - e) < fuel)%nat -> gdt_min_loop fuel k e d0 = Ok (min, d).
Proof.
  induction fuel as [|fuel IH]; intros e d0 He Hn Hm Hf; [lia|]. cbn [gdt_min_loop].
  rewrite get_area. cbn [entry_number]. destruct (decide (e = min)) as [->|Hne].
  - by rewrite Hm.
  - rewrite Hn by lia. cbn. apply IH; [lia| |done|lia]. intros e' He'. apply Hn. lia.
Qed.

Lemma check_arch_gdt_min_spec k min ds d :
  tls_at k min ds -> ds !! 0%nat = Some d -> check_arch_gdt_min k = Ok (min, d).
Proof.
  intros (Hmin & Hno & _ & Hds) Hd. unfold check_arch_gdt_min.
  pose proof (Hds 0%nat d Hd) as H0. cbn in H0. rewrite Z.add_0_r in H0.
  rewrite (gdt_min_loop_spec k min d) by (done || lia || (intros; apply Hno; lia) ||
    (change (Z.to_nat (64 - GDT_ENTRY_TLS_ENTRIES)) with 61%nat; lia)).
  rewrite bind_Ok. destruct (Z.leb_spec 64 min); [lia|done].
Qed.

Definition desc_ok (d : user_desc) : Prop :=
  Forall is_u32 [entry_number d; base_addr d; limit d; desc_flags d].

Lemma desc_of_words ds i d :
  ds !! i = Some d -> Forall desc_ok ds -> desc_of (concat (map desc_bytes ds)) (16 * Z.of_nat i) = d.
Proof.
  revert i. induction ds as [|d0 ds IH]; intros i Hi Hok; [done|]. cbn [map concat].
  apply Forall_cons in Hok as [H0 Hok].
  assert (Hl : zlen (desc_bytes d0) = 16) by done.
  destruct i as [|i]; cbn in Hi.
  - injection Hi as ->. unfold desc_of. change (16 * Z.of_nat 0) with 0. rewrite !Z.add_0_l.
    rewrite !word_at_app_l by (try rewrite Hl; lia). unfold desc_ok in H0.
    rewrite !Forall_cons in H0. destruct H0 as (H1 & H2 & H3 & H4 & _).
    pose proof (fun i x => word_at_words [entry_number d; base_addr d; limit d; desc_flags d] i x) as Hw.
    unfold desc_bytes.
    rewrite (Hw 0%nat _ eq_refl H1 : word_at _ 0 = _), (Hw 1%nat _ eq_refl H2 : word_at _ 4 = _),
      (Hw 2%nat _ eq_refl H3 : word_at _ 8 = _), (Hw 3%nat _ eq_refl H4 : word_at _ 12 = _).
    by destruct d.
  - unfold desc_of. rewrite !word_at_app_r by (try rewrite Hl; lia). rewrite Hl.
    specialize (IH i Hi Hok). unfold desc_of in IH.
    replace (16 * Z.of_nat (S i) - 16) with (16 * Z.of_nat i) by lia.
    replace (16 * Z.of_nat (S i) + 4 - 16) with (16 * Z.of_nat i + 4) by lia.
    replace (16 * Z.of_nat (S i) + 8 - 16) with (16 * Z.of_nat i + 8) by lia.
    by replace (16 * Z.of_nat (S i) + 12 - 16) with (16 * Z.of_nat i + 12) by lia.
Qed.

Lemma restore_entries_spec min : forall ds i k,
  (forall j, 0 <= j < i + zlen ds -> is_Some (areas k (min + j))) -> 0 <= i ->
  (forall j d, ds !! j = Some d -> entry_number d = min + i + Z.of_nat j) ->
  exists k', restore_entries k min i ds = Ok k' /\
    (forall j d, ds !! j = Some d -> areas k' (min + i + Z.of_nat j) = Some d) /\
    (forall e, e < min + i -> areas k' e = areas k e).
Proof.
  induction ds as [|d ds IH]; intros i k Hk Hi Hn; cbn [restore_entries]; [by exists k|].
  pose proof (Hn 0%nat d eq_refl) as Hd. cbn in Hd. rewrite Z.add_0_r in Hd.
  rewrite Hd, Z.eqb_refl. cbn [assert]. rewrite bind_Ok. rewrite zlen_cons in Hk.
  pose proof (zlen_nonneg ds).
  destruct (sys_set_thread_area k d) as [n k1] eqn:E.
  destruct (set_area k d k1 n) as (-> & Hk1); [rewrite Hd; apply Hk; lia|done|].
  cbn [Z.eqb assert]. rewrite bind_Ok.
  destruct (IH (i + 1) k1) as (k' & -> & Hds & Hlow).
  - intros j Hj. rewrite Hk1. case_decide; [done|]. apply Hk. lia.
  - lia.
  - intros j d' Hj. rewrite (Hn (S j) d' Hj). lia.
  - exists k'. split; [done|]. split.
    + intros [|j] d' Hj; cbn in Hj.
      * injection Hj as <-. rewrite Z.add_0_r, Hlow by lia. rewrite Hk1, decide_True; congruence.
      * rewrite <- (Hds j d' Hj). f_equal. lia.
    + intros e He. rewrite Hlow by lia. rewrite Hk1, decide_False; [done|]. lia.
Qed.

Lemma tls_info_restored k k2 min ds ds2 buffer :
  tls_at k min ds -> Forall desc_ok ds -> tls_at k2 min ds2 ->
  exists b k3, get_tls_info k buffer 1024 = Ok b /\ zlen b = TLS_INFO_SZ /\
    restore_tls_info k2 b = Ok k3 /\
    forall i d, ds !! i = Some d -> areas k3 (min + Z.of_nat i) = Some d.
Proof.
  intros Ht Hok Ht2. pose proof Ht as (Hmin & Hno & Hlen & Hds).
  destruct ds as [|d0 [|d1 [|d2 [|? ?]]]]; try discriminate Hlen.
  assert (Hget : get_tls_info k buffer 1024 = Ok (concat (map desc_bytes [d0; d1; d2]))).
  { unfold get_tls_info. cbn [assert]. change (TLS_INFO_SZ <=? 1024) with true. cbn [assert]. rewrite bind_Ok.
    rewrite (check_arch_gdt_min_spec k min _ d0 Ht eq_refl), bind_Ok. cbn [tls_entries]. rewrite !get_area.
    cbn [entry_number]. rewrite (Hds 1%nat d1 eq_refl : areas k (min + 1) = Some d1).
    rewrite (Hds 2%nat d2 eq_refl : areas k (min + (1 + 1)) = Some d2). done. }
  assert (Hnum : forall i d, [d0; d1; d2] !! i = Some d -> entry_number d = min + 0 + Z.of_nat i).
  { intros i d Hd. rewrite (area_number _ _ _ (Hds i d Hd)). lia. }
  pose proof Ht2 as (_ & _ & Hlen2 & Hds2). destruct ds2 as [|e0 [|e1 [|e2 [|? ?]]]]; try discriminate Hlen2.
  destruct (restore_entries_spec min [d0; d1; d2] 0 k2) as (k3 & Hres & Hk3 & _); [|lia|done|].
  { intros j Hj. change (zlen [d0; d1; d2]) with 3 in Hj. replace j with (Z.of_nat (Z.to_nat j)) by lia.
    destruct (lookup_lt_is_Some_2 [e0; e1; e2] (Z.to_nat j)) as (e & He); [cbn; lia|].
    rewrite (Hds2 _ _ He). done. }
  eexists _, k3. split; [exact Hget|]. split; [done|]. split.
  - unfold restore_tls_info. change (zlen _ =? TLS_INFO_SZ) with true. cbn [assert]. rewrite bind_Ok.
    rewrite (check_arch_gdt_min_spec k2 min _ e0 Ht2 eq_refl), bind_Ok.
    rewrite (desc_of_words [d0; d1; d2] 0 d0 eq_refl Hok : desc_of _ 0 = d0).
    rewrite (desc_of_words [d0; d1; d2] 1 d1 eq_refl Hok : desc_of _ 16 = d1).
    rewrite (desc_of_words [d0; d1; d2] 2 d2 eq_refl Hok : desc_of _ 32 = d2). done.
  - intros i d Hd. rewrite <- (Hk3 i d Hd). f_equal. lia.
Qed.

(** Restoring the section of the thread-local segments sets each of the
    three GDT entries to the descriptor it had when the checkpoint was taken,
    provided the restoring kernel keeps them at the same entries. *)
Lemma tls_info_roundtrip k k2 min ds ds2 buffer :
  tls_at k min ds -> Forall desc_ok ds -> tls_at k2 min ds2 ->
  exists b k3, get_tls_info k buffer 1024 = Ok b /\ zlen b = TLS_INFO_SZ /\
    restore_tls_info k2 b = Ok k3 /\
    forall i d, ds !! i = Some d -> areas k3 (min + Z.of_nat i) = Some d.
Proof. apply tls_info_restored. Qed.

End tls_facts.

(** ** Runs *)

(** A kernel whose thread-local segments are the entries 6 to 8. *)
Module Gdt.

Definition gdt : Type := list user_desc.

Definition area (k : gdt) (e : Z) : option user_desc :=
  if decide (6 <= e) then d ← k !! Z.to_nat (e - 6);
    Some (Desc e (base_addr d) (limit d) (desc_flags d)) else None.

#[global] Instance gdt_kernel : KernelTls gdt := {
  sys_get_thread_area k d :=
    match area k (entry_number d) with Some a => (0, a) | None => (- EINVAL, d) end;
  sys_set_thread_area k d :=
    match area k (entry_number d) with
    | Some _ => (0, <[Z.to_nat (entry_number d - 6) := d]> k)
    | None => (- EINVAL, k)
    end
}.

#[global] Program Instance gdt_laws : KernelTlsLaws gdt := { areas := area }.
Next Obligation.
  intros k e d. unfold area. case_decide; [|done]. destruct (_ !! _); cbn; by intros [= <-].
Qed.
Next Obligation. done. Qed.
Next Obligation.
  intros k d k' n (a & Ha). cbn. rewrite Ha. intros [= <- <-]. split; [done|]. intros e. unfold area in *.
  destruct (decide (6 <= entry_number d)) as [H6|]; [|done].
  destruct (k !! Z.to_nat (entry_number d - 6)) as [d'|] eqn:E; [|done].
  apply lookup_lt_Some in E. destruct (decide (e = entry_number d)) as [->|Hne].
  - rewrite (decide_True _ _ H6). unfold gdt in *. rewrite list_lookup_insert_eq by done. cbn. by destruct d.
  - destruct (decide (6 <= e)); [|done]. unfold gdt in *; by rewrite list_lookup_insert_ne by lia.
Qed.

End Gdt.

Definition regs1 : pusha_regs := Pusha 0x202 1 2 3 0xbffff000 4 5 6 7.
Definition cpu1 : cpu := Cpu 0x73 0x7b 0x7b 0x37 0x33 0x7b (replicate 512 9).
Definition gdt1 : Gdt.gdt := [Desc 6 0xb7e00000 0xfffff 0x51; Desc 7 0 0 0x28; Desc 8 0 0 0x28].

End Arch.
