(* ===== verification/Startup.v ===== *)
(** The initial stack of the process, [src/src/core/loader/startup_stack.c], and
    the options in its environment, [env_conf.c].

    The memory is a flat list of bytes; a pointer is an address, and 0 is
    [NULL]. [scan_startup_stack] finds the arguments, the environment, the
    auxiliary vector and the name of the executable; [read_env_conf] walks the
    environment it found. *)
From S2P Require Import Prelude CString CStringFacts.
Import Str StrFacts.

Module Startup.

(** ** The stack *)

(** linux/auxvec.h *)
Definition AT_NULL : Z := 0.
Definition AT_PHDR : Z := 3.
Definition AT_PHENT : Z := 4.
Definition AT_PHNUM : Z := 5.
Definition AT_BASE : Z := 7.
Definition AT_ENTRY : Z := 9.
Definition AT_EXECFN : Z := 31.
Definition AT_SYSINFO : Z := 32.
Definition AT_SYSINFO_EHDR : Z := 33.
Definition sizeof_elf_phdr : Z := 32.

(** Every field is the address of a word of the auxiliary vector, or [NULL]. *)
Record auxv_info_t := Auxv {
  p_user_entry : Z;
  pp_user_phdrs : Z;
  p_nr_user_phdrs : Z;
  p_base : Z;
  p_execfn : Z;
  p_sysinfo : Z;
  pp_sysinfo_ehdr : Z
}.

Record startup_stack_info := Stack {
  p_argc : Z;
  p_args : Z;
  p_envs : Z;
  p_auxvs : Z;
  cmdline_argbegin : Z;
  cmdline_argend : Z;
  envbegin : Z;
  envend : Z;
  bottom_exec_fn : Z;
  auxv_info : auxv_info_t
}.

Definition no_auxv : auxv_info_t := Auxv 0 0 0 0 0 0 0.

(** The case of [set_auxvinfo] that [t] selects, with [&p[1]]. *)
Definition set_auxvinfo (t q : Z) (a : auxv_info_t) : auxv_info_t :=
  let '(Auxv e ph n b x s h) := a in
  if t =? AT_ENTRY then Auxv q ph n b x s h
  else if t =? AT_BASE then Auxv e ph n q x s h
  else if t =? AT_PHDR then Auxv e q n b x s h
  else if t =? AT_PHNUM then Auxv e ph q b x s h
  else if t =? AT_EXECFN then Auxv e ph n b q s h
  else if t =? AT_SYSINFO then Auxv e ph n b x q h
  else if t =? AT_SYSINFO_EHDR then Auxv e ph n b x s q
  else a.

Section startup.
Variable m : list Z.

(** The word at [p]. *)
Definition ld32 (p : Z) : result Z := b ← mem_read m p 4; Ok (of_le b).

(** A byte through a pointer that may be [NULL]. *)
Definition strlen_at (p : Z) : result Z := if p =? 0 then Stray Rd else strlen m p.

(** The words of the stack the loops go over. *)
Definition stack_rounds : nat := S (length m).

(** [while ( *ptr != NULL) ptr++] *)
Fixpoint skip_pointers (fuel : nat) (ptr : Z) : result Z :=
  match fuel with
  | O => NoFuel
  | S fuel => w ← ld32 ptr; if w =? 0 then Ok ptr else skip_pointers fuel (ptr + 4)
  end.

Fixpoint auxv_loop (fuel : nat) (p : Z) (a : auxv_info_t) : result auxv_info_t :=
  match fuel with
  | O => NoFuel
  | S fuel =>
      t ← ld32 p;
      if t =? AT_NULL then Ok a
      else
        _ ← (if t =? AT_PHENT then v ← ld32 (p + 4); assert (v =? sizeof_elf_phdr) else Ok ());
        auxv_loop fuel (p + 8) (set_auxvinfo t (p + 4) a)
  end.

Definition init_auxv_info (p_auxvs : Z) : result auxv_info_t :=
  _ ← assert (negb (p_auxvs =? 0));
  auxv_loop stack_rounds p_auxvs no_auxv.

(** [while ( *cptr == 0) cptr++] *)
Fixpoint skip_zero_bytes (fuel : nat) (p : Z) : result Z :=
  match fuel with
  | O => NoFuel
  | S fuel => c ← rd m p; if c =? 0 then skip_zero_bytes fuel (p + 1) else Ok p
  end.

Definition scan_startup_stack (stack_top : Z) : result startup_stack_info :=
  argc ← ld32 stack_top;
  let argc := s32 argc in
  let args := stack_top + 4 in
  ptr ← skip_pointers stack_rounds args;
  let envs := ptr + 4 in
  firstenv ← ld32 envs;
  ptr ← skip_pointers stack_rounds envs;
  lastenv ← ld32 (ptr - 4);
  let auxvs := ptr + 4 in
  a ← init_auxv_info auxvs;
  argbegin ← ld32 args;
  lastarg ← ld32 (args + 4 * (argc - 1));
  n ← strlen_at lastarg;
  let argend := lastarg + n + 1 in
  n ← strlen_at lastenv;
  let end_ := lastenv + n + 1 in
  cptr ← skip_zero_bytes (rounds m) end_;
  Ok (Stack stack_top args envs auxvs argbegin argend firstenv end_ cptr a).

End startup.

(** ** The options *)

Record env_conf := Conf {
  trace_fork : bool;
  untrace_clone : bool;
  use_rebranch : bool;
  sampling : Z
}.

(** The defaults of env_conf_entries.h. *)
Definition default_conf : env_conf := Conf false false true (-1).

Section conf.
Variable m : list Z.

(** [None] is the [NULL] pointer; the digits are read until the first other
    character, and the sum wraps around as an [int]. *)
Fixpoint atoi_loop (fuel : nat) (x s : Z) : result Z :=
  match fuel with
  | O => NoFuel
  | S fuel =>
      c ← rd m x;
      if (s8 c <=? 57) && (48 <=? s8 c) then atoi_loop fuel (x + 1) (s32 (s * 10 + (c - 48)))
      else Ok s
  end.

Definition _atoi (x : option Z) : result Z :=
  match x with
  | None => Ok 0
  | Some x => atoi_loop (rounds m) x 0
  end.

(** [strncmp] of the literal [l] with the string at [p]: the literal is placed
    behind the memory. *)
Definition strncmp_lit (l : list Z) (p n : Z) : result Z := strncmp (m ++ l) (zlen m) p n.

(** The value of the entry when its name is [key]. *)
Definition cmp_get (key : list Z) (str : Z) : result (option Z) :=
  let key := key ++ codes "=" in
  c ← strncmp_lit (key ++ [0]) str (zlen key);
  Ok (if c =? 0 then Some (str + zlen key) else None).

Definition bool_conf (key : list Z) (entry : Z) (old : bool) : result bool :=
  val ← cmp_get key entry;
  match val with
  | Some val => c ← strncmp (m ++ literal "0") val (zlen m) 2; Ok (negb (c =? 0))
  | None => Ok old
  end.

Definition int_conf (key : list Z) (entry : Z) (old : Z) : result Z :=
  val ← cmp_get key entry;
  match val with
  | Some val => _atoi (Some val)
  | None => Ok old
  end.

Definition check_var (entry : Z) (c : env_conf) : result env_conf :=
  _ ← assert (negb (entry =? 0));
  f ← bool_conf (codes "SNITCHASER_TRACE_FORK") entry (trace_fork c);
  u ← bool_conf (codes "SNITCHASER_UNTRACE_CLONE") entry (untrace_clone c);
  r ← bool_conf (codes "SNITCHASER_USE") entry (use_rebranch c);
  s ← int_conf (codes "SNITCHASER_SAMPLING") entry (sampling c);
  Ok (Conf f u r s).

Fixpoint env_loop (fuel : nat) (ptr : Z) (c : env_conf) : result env_conf :=
  match fuel with
  | O => NoFuel
  | S fuel =>
      entry ← ld32 m ptr;
      if entry =? 0 then Ok c
      else c ← check_var entry c; env_loop fuel (ptr + 4) c
  end.

Definition read_env_conf (info : startup_stack_info) : result env_conf :=
  env_loop (stack_rounds m) (p_envs info) default_conf.

End conf.

End Startup.
