(* ===== verification/StartupFacts.v ===== *)
(** The startup code finds what the kernel put on the initial stack.

    The layout of the stack is the one execve(2) builds: [argc], the argument
    pointers and [NULL], the environment pointers and [NULL], pairs of words
    ended by [AT_NULL]; the strings lie one behind the other, arguments first,
    then the environment, then the name of the executable. *)
From S2P Require Import Prelude CString CStringFacts Startup.
Import Str StrFacts Startup.

Module StartupFacts.

(** ** The layout *)

(** The words [ws] are at [p]. *)
Fixpoint words_at (m : list Z) (p : Z) (ws : list Z) : Prop :=
  match ws with
  | [] => True
  | w :: ws => ld32 m p = Ok w /\ words_at m (p + 4) ws
  end.

Lemma words_at_app m p a b :
  words_at m p (a ++ b) <-> words_at m p a /\ words_at m (p + 4 * zlen a) b.
Proof.
  revert p. induction a as [|w a IH]; intros p; cbn [app words_at].
  - change (zlen (@nil Z)) with 0. rewrite Z.mul_0_r, Z.add_0_r. tauto.
  - rewrite IH, zlen_cons. replace (p + 4 + 4 * zlen a) with (p + 4 * (1 + zlen a)) by lia. tauto.
Qed.

Lemma ld32_range m p w : ld32 m p = Ok w -> 0 <= p /\ p + 4 <= zlen m.
Proof.
  unfold ld32, mem_read. intros H. destruct (Z.leb_spec 0 p), (Z.leb_spec (p + 4) (zlen m)); cbn in H; done || lia.
Qed.

Lemma words_at_range m p ws : ws <> [] -> words_at m p ws -> 0 <= p /\ p + 4 * zlen ws <= zlen m.
Proof.
  revert p. induction ws as [|w ws IH]; intros p Hne; [done|]. cbn. intros (Hw & Hws).
  apply ld32_range in Hw. rewrite zlen_cons. destruct ws as [|w' ws]; [change (zlen (@nil Z)) with 0; lia|].
  apply IH in Hws; [lia|done].
Qed.

(** The strings [ss] with their NULs. *)
Definition packed (ss : list (list Z)) : list Z := concat (map (fun s => s ++ [0]) ss).

(** The addresses of the strings of a pack at [p]. *)
Fixpoint pointers (p : Z) (ss : list (list Z)) : list Z :=
  match ss with
  | [] => []
  | s :: ss => p :: pointers (p + zlen s + 1) ss
  end.

Definition no_nul (s : list Z) : Prop := Forall (fun c => c <> 0) s.

(** What execve(2) leaves at [top]: the strings start at [strs], [aux] are the
    types and values of the auxiliary vector and [gap] bytes separate the
    environment from the name of the executable. *)
Record exec_stack (m : list Z) (top strs : Z) (args envs : list (list Z)) (aux : list (Z * Z))
    (exe : list Z) (gap : nat) : Prop := {
  es_top : 0 < top;
  es_strs : 0 < strs;
  es_words : words_at m top
    (zlen args :: pointers strs args ++ [0] ++ pointers (strs + zlen (packed args)) envs ++ [0] ++
     concat (map (fun tv => [tv.1; tv.2]) aux) ++ [AT_NULL]);
  es_bytes : zslice m strs (zlen (packed (args ++ envs) ++ replicate gap 0 ++ exe ++ [0])) =
    packed (args ++ envs) ++ replicate gap 0 ++ exe ++ [0];
  es_nul : Forall no_nul (args ++ envs ++ [exe]);
  es_exe : exe <> [];
  es_aux : Forall (fun tv => tv.1 <> AT_NULL /\ (tv.1 = AT_PHENT -> tv.2 = sizeof_elf_phdr)) aux;
  es_size : zlen m < 2 ^ 32
}.

(** ** Pointers and strings *)

Lemma pointers_length p ss : length (pointers p ss) = length ss.
Proof. revert p. induction ss as [|s ss IH]; intros p; cbn; [done|]. by rewrite IH. Qed.

Lemma pointers_pos p ss : 0 < p -> Forall (fun q => 0 < q) (pointers p ss).
Proof.
  revert p. induction ss as [|s ss IH]; intros p Hp; cbn; constructor; [done|].
  apply IH. pose proof (zlen_nonneg s). lia.
Qed.

Lemma zlen_packed_snoc ss s : zlen (packed (ss ++ [s])) = zlen (packed ss) + zlen s + 1.
Proof.
  unfold packed. rewrite map_app, concat_app, zlen_app. cbn [map concat].
  rewrite app_nil_r, zlen_app. change (zlen [0]) with 1. lia.
Qed.

Lemma packed_app a b : packed (a ++ b) = packed a ++ packed b.
Proof. unfold packed. by rewrite map_app, concat_app. Qed.

(** The pointer to the last string. *)
Lemma pointers_last p ss s :
  pointers p (ss ++ [s]) = pointers p ss ++ [p + zlen (packed ss)].
Proof.
  revert p. induction ss as [|s' ss IH]; intros p; cbn.
  - by rewrite Z.add_0_r.
  - rewrite IH. unfold packed. cbn. rewrite !zlen_app. change (zlen [0]) with 1. do 3 f_equal. lia.
Qed.

(** A string inside a known stretch of memory. *)
Lemma cstr_in m p l a s b :
  0 <= p -> zslice m p (zlen l) = l -> l = a ++ s ++ [0] ++ b -> no_nul s -> cstr m (p + zlen a) s.
Proof.
  intros Hp Hm -> Hs.
  assert (Hrd : forall i c, (a ++ s ++ [0] ++ b) !! i = Some c -> rd m (p + Z.of_nat i) = Ok c).
  { intros i c Hc. rewrite <- Hm in Hc. apply rd_Ok_iff. split; [lia|]. unfold zslice in Hc.
    apply lookup_take_Some in Hc as [Hc _]. rewrite lookup_drop in Hc. rewrite <- Hc. f_equal. lia. }
  clear Hm Hp. revert a Hrd. induction Hs as [|c s Hc Hs IH]; intros a Hrd; cbn [cstr].
  - apply Hrd. rewrite lookup_app_r by (unfold zlen; lia).
    unfold zlen. by rewrite Nat.sub_diag.
  - split; [|split; [done|]].
    + apply Hrd. rewrite lookup_app_r by lia. by rewrite Nat.sub_diag.
    + replace (p + zlen a + 1) with (p + zlen (a ++ [c])) by (rewrite zlen_app; change (zlen [c]) with 1; lia).
      apply IH. intros i c' Hc'. apply Hrd. by rewrite <- app_assoc in Hc'.
Qed.

(** ** The loops *)

Section loops.
Variable m : list Z.

Lemma skip_pointers_spec fuel p ws :
  words_at m p (ws ++ [0]) -> Forall (fun w => 0 < w) ws -> (length ws < fuel)%nat ->
  skip_pointers m fuel p = Ok (p + 4 * zlen ws).
Proof.
  intros Hw Hpos. revert fuel p Hw. induction Hpos as [|w ws Hw0 Hpos IH]; intros [|fuel] p Hw Hf; cbn in Hf; try lia;
    cbn [skip_pointers]; destruct Hw as (-> & Hw); rewrite bind_Ok.
  - change (zlen (@nil Z)) with 0. f_equal. lia.
  - destruct (Z.eqb_spec w 0); [lia|]. rewrite (IH fuel) by (done || lia). rewrite zlen_cons. f_equal. lia.
Qed.

Definition pairs (aux : list (Z * Z)) : list Z := concat (map (fun tv => [tv.1; tv.2]) aux).

(** The value of the last entry of type [t]. *)
Definition aux_value (t : Z) (aux : list (Z * Z)) : option Z :=
  snd <$> last (filter (fun tv => tv.1 = t) aux).

(** [q] is the address of the value, or [NULL] without one. *)
Definition points (q : Z) (v : option Z) : Prop :=
  match v with Some v => ld32 m q = Ok v | None => q = 0 end.

Definition auxv_ok (a : auxv_info_t) (aux : list (Z * Z)) : Prop :=
  points (p_user_entry a) (aux_value AT_ENTRY aux) /\
  points (pp_user_phdrs a) (aux_value AT_PHDR aux) /\
  points (p_nr_user_phdrs a) (aux_value AT_PHNUM aux) /\
  points (p_base a) (aux_value AT_BASE aux) /\
  points (p_execfn a) (aux_value AT_EXECFN aux) /\
  points (p_sysinfo a) (aux_value AT_SYSINFO aux) /\
  points (pp_sysinfo_ehdr a) (aux_value AT_SYSINFO_EHDR aux).

Lemma aux_value_snoc t aux t' v :
  aux_value t (aux ++ [(t', v)]) = if decide (t' = t) then Some v else aux_value t aux.
Proof.
  unfold aux_value. rewrite filter_app, filter_cons, filter_nil. cbn.
  case_decide; [by rewrite last_snoc|by rewrite app_nil_r].
Qed.

Lemma points_set q q' t t' v aux :
  points q (aux_value t aux) -> ld32 m q' = Ok v ->
  points (if t' =? t then q' else q) (aux_value t (aux ++ [(t', v)])).
Proof.
  intros Hq Hv. rewrite aux_value_snoc. by destruct (Z.eqb_spec t' t), (decide (t' = t)).
Qed.

Lemma set_auxvinfo_fields t q a :
  let n := set_auxvinfo t q a in
  p_user_entry n = (if t =? AT_ENTRY then q else p_user_entry a) /\
  pp_user_phdrs n = (if t =? AT_PHDR then q else pp_user_phdrs a) /\
  p_nr_user_phdrs n = (if t =? AT_PHNUM then q else p_nr_user_phdrs a) /\
  p_base n = (if t =? AT_BASE then q else p_base a) /\
  p_execfn n = (if t =? AT_EXECFN then q else p_execfn a) /\
  p_sysinfo n = (if t =? AT_SYSINFO then q else p_sysinfo a) /\
  pp_sysinfo_ehdr n = (if t =? AT_SYSINFO_EHDR then q else pp_sysinfo_ehdr a).
Proof.
  destruct a. unfold set_auxvinfo, AT_ENTRY, AT_PHDR, AT_PHNUM, AT_BASE, AT_EXECFN, AT_SYSINFO, AT_SYSINFO_EHDR.
  cbn zeta. repeat (case_match; cbn); repeat split; lia.
Qed.

Lemma set_auxvinfo_ok t q v a aux :
  auxv_ok a aux -> ld32 m q = Ok v -> auxv_ok (set_auxvinfo t q a) (aux ++ [(t, v)]).
Proof.
  intros (H1 & H2 & H3 & H4 & H5 & H6 & H7) Hv.
  destruct (set_auxvinfo_fields t q a) as (E1 & E2 & E3 & E4 & E5 & E6 & E7).
  unfold auxv_ok. rewrite E1, E2, E3, E4, E5, E6, E7. auto 10 using points_set.
Qed.

Lemma auxv_loop_spec fuel p a done_ aux :
  words_at m p (pairs aux ++ [AT_NULL]) ->
  Forall (fun tv => tv.1 <> AT_NULL /\ (tv.1 = AT_PHENT -> tv.2 = sizeof_elf_phdr)) aux ->
  auxv_ok a done_ -> (length aux < fuel)%nat ->
  exists a', auxv_loop m fuel p a = Ok a' /\ auxv_ok a' (done_ ++ aux).
Proof.
  intros Hw Haux. revert fuel p a done_ Hw. induction Haux as [|[t v] aux (Hnz & Hph) Haux IH];
    intros [|fuel] p a done_ Hw Ha Hf; cbn in Hf; try lia; cbn [auxv_loop].
  - destruct Hw as (-> & _). rewrite app_nil_r. by exists a.
  - destruct Hw as (-> & Hv & Hw). cbn [fst snd] in *. rewrite bind_Ok.
    destruct (Z.eqb_spec t AT_NULL); [done|]. rewrite Hv.
    assert (E : (if t =? AT_PHENT then assert (v =? sizeof_elf_phdr) else Ok ()) = Ok ()).
    { destruct (Z.eqb_spec t AT_PHENT) as [Ht|]; [by rewrite (Hph Ht)|done]. }
    assert (E' : (if t =? AT_PHENT then v0 ← Ok v; assert (v0 =? sizeof_elf_phdr) else Ok ()) = Ok ())
      by (by rewrite bind_Ok).
    rewrite E', bind_Ok.
    replace (p + 4 + 4) with (p + 8) in Hw by lia.
    destruct (IH fuel (p + 8) (set_auxvinfo t (p + 4) a) (done_ ++ [(t, v)])) as (a' & -> & Ha');
      [done|by apply set_auxvinfo_ok|lia|].
    exists a'. by rewrite <- app_assoc in Ha'.
Qed.

Lemma skip_zero_bytes_spec fuel p n c :
  (forall i, (i < n)%nat -> rd m (p + Z.of_nat i) = Ok 0) -> rd m (p + Z.of_nat n) = Ok c -> c <> 0 ->
  (n < fuel)%nat -> skip_zero_bytes m fuel p = Ok (p + Z.of_nat n).
Proof.
  revert fuel p. induction n as [|n IH]; intros [|fuel] p Hz Hc Hnz Hf; try lia; cbn [skip_zero_bytes].
  - rewrite Z.add_0_r in *. rewrite Hc, bind_Ok. by destruct (Z.eqb_spec c 0).
  - specialize (Hz 0%nat) as H0. rewrite Z.add_0_r in H0. rewrite H0 by lia. rewrite bind_Ok. cbn [Z.eqb].
    rewrite IH; [f_equal; lia| |by replace (p + 1 + Z.of_nat n) with (p + Z.of_nat (S n)) by lia|done|lia].
    intros i Hi. replace (p + 1 + Z.of_nat i) with (p + Z.of_nat (S i)) by lia. apply Hz. lia.
Qed.

End loops.

(** ** The scan *)

Lemma zslice_in {A} (m : list A) p l a b c :
  0 <= p -> zslice m p (zlen l) = l -> l = a ++ b ++ c -> zslice m (p + zlen a) (zlen b) = b.
Proof.
  intros Hp Hm ->. unfold zslice in *. rewrite Z2Nat.inj_add by (apply zlen_nonneg || done).
  rewrite <- drop_drop. apply (f_equal (drop (Z.to_nat (zlen a)))) in Hm.
  unfold zlen in *. rewrite !Nat2Z.id in *.
  rewrite drop_app_length in Hm. apply (f_equal (take (length b))) in Hm.
  rewrite take_app_length in Hm. rewrite <- Hm at 2.
  rewrite length_app, length_app, skipn_firstn_comm, take_take. f_equal. lia.
Qed.

Lemma words_at_snoc m p ws w : words_at m p (ws ++ [w]) -> ld32 m (p + 4 * zlen ws) = Ok w.
Proof. by intros (_ & H & _)%words_at_app. Qed.

Lemma zlen_pointers p ss : zlen (pointers p ss) = zlen ss.
Proof. unfold zlen. by rewrite pointers_length. Qed.

Lemma words_at_prefix m p a b : words_at m p (a ++ b) -> words_at m p a.
Proof. by intros (H & _)%words_at_app. Qed.

Lemma zlen_pairs aux : zlen (pairs aux) = 2 * zlen aux.
Proof.
  induction aux as [|[t v] aux IH]; [done|]. unfold pairs in *. cbn [map concat app].
  rewrite !zlen_cons, IH. lia.
Qed.

Section scan.
Variables (m : list Z) (top strs : Z) (args envs : list (list Z)) (aux : list (Z * Z)).
Variables (exe : list Z) (gap : nat).
Hypothesis Hst : exec_stack m top strs args envs aux exe gap.

Let arg_ptrs := pointers strs args.
Let env_ptrs := pointers (strs + zlen (packed args)) envs.
Let auxp := top + 4 + 4 * zlen args + 4 + 4 * zlen envs + 4.

(** The parts of the stack. *)
Lemma scan_words :
  ld32 m top = Ok (zlen args) /\ words_at m (top + 4) (arg_ptrs ++ [0]) /\
  words_at m (top + 4 + 4 * zlen args + 4) (env_ptrs ++ [0]) /\
  words_at m auxp (pairs aux ++ [AT_NULL]).
Proof.
  pose proof (es_words _ _ _ _ _ _ _ _ Hst) as Hw. fold arg_ptrs env_ptrs (pairs aux) in Hw.
  destruct Hw as (H0 & Hw). split; [done|].
  rewrite !app_assoc in Hw. rewrite <- (app_assoc _ (pairs aux)) in Hw.
  apply words_at_app in Hw as (Hw & Haux).
  rewrite <- (app_assoc _ env_ptrs) in Hw. apply words_at_app in Hw as (Harg & Henv).
  unfold arg_ptrs, env_ptrs, auxp in *. rewrite !zlen_app, !zlen_pointers in *. change (zlen [0]) with 1 in *.
  split; [done|]. split.
  - by replace (top + 4 + 4 * zlen args + 4) with (top + 4 + 4 * (zlen args + 1)) by lia.
  - replace (top + 4 + 4 * zlen args + 4 + 4 * zlen envs + 4)
      with (top + 4 + 4 * (zlen args + 1 + zlen envs + 1)) by lia. done.
Qed.

(** The stack has fewer words than the memory has bytes. *)
Lemma scan_fuel : (length args < stack_rounds m)%nat /\ (length envs < stack_rounds m)%nat /\
  (length aux < stack_rounds m)%nat /\ zlen args < 2 ^ 31 /\ 0 < auxp.
Proof.
  destruct scan_words as (_ & Ha & He & Hx). destruct Hst as [Htop _ _ _ _ _ _ Hsz].
  apply words_at_range in Ha; [|by destruct arg_ptrs].
  apply words_at_range in He; [|by destruct env_ptrs].
  apply words_at_range in Hx; [|by destruct (pairs aux)].
  unfold arg_ptrs, env_ptrs, auxp, stack_rounds in *.
  rewrite zlen_app, zlen_pointers in Ha, He. rewrite zlen_app, zlen_pairs in Hx.
  change (zlen [0]) with 1 in *. change (zlen [AT_NULL]) with 1 in *. unfold zlen in *. lia.
Qed.

(** The last string of a pack and what follows it. *)
Lemma last_string pre ss s post :
  zslice m strs (zlen (pre ++ packed (ss ++ [s]) ++ post)) = pre ++ packed (ss ++ [s]) ++ post ->
  no_nul s -> cstr m (strs + zlen pre + zlen (packed ss)) s.
Proof.
  intros Hb Hn. destruct Hst as [_ Hs _ _ _ _ _ _].
  rewrite <- Z.add_assoc, <- zlen_app. eapply (cstr_in m strs _ _ s post); [lia|exact Hb| |done].
  rewrite packed_app. unfold packed at 2. cbn. by rewrite !app_nil_r, <- !app_assoc.
Qed.

Lemma scan_strings a0 al e0 el :
  args = a0 ++ [al] -> envs = e0 ++ [el] ->
  let base := strs + zlen (packed args) in
  let exep := base + zlen (packed envs) + Z.of_nat gap in
  cstr m (strs + zlen (packed a0)) al /\ cstr m (base + zlen (packed e0)) el /\ cstr m exep exe /\
  zslice m strs (zlen (packed args)) = packed args /\
  zslice m base (zlen (packed envs)) = packed envs /\
  forall i, (i < gap)%nat -> rd m (base + zlen (packed envs) + Z.of_nat i) = Ok 0.
Proof.
  intros Ea Ee base exep. destruct Hst as [_ Hs _ Hb Hnul _ _ _].
  rewrite packed_app, <- app_assoc in Hb. rewrite !Forall_app in Hnul. destruct Hnul as (Hna & Hne & Hnx).
  apply Forall_inv in Hnx. assert (H0 : 0 <= strs) by lia. split; [|split; [|split; [|split; [|split]]]].
  - rewrite Ea in Hb, Hna. apply Forall_app in Hna as (_ & Hna). apply Forall_inv in Hna.
    pose proof (last_string [] a0 al _ Hb Hna) as H. change (zlen (@nil Z)) with 0 in H. by rewrite Z.add_0_r in H.
  - rewrite Ee in Hb, Hne. apply Forall_app in Hne as (_ & Hne). apply Forall_inv in Hne.
    by apply (last_string _ e0 el _ Hb).
  - unfold exep, base. replace (strs + zlen (packed args) + zlen (packed envs) + Z.of_nat gap)
      with (strs + zlen (packed args ++ packed envs ++ replicate gap 0)).
    + eapply (cstr_in m strs _ _ exe []); [done|exact Hb| |done]. by rewrite <- !app_assoc.
    + rewrite !zlen_app. unfold zlen. rewrite length_replicate. lia.
  - pose proof (zslice_in m strs _ [] (packed args) _ H0 Hb eq_refl) as H. by rewrite Z.add_0_r in H.
  - by eapply (zslice_in m strs _ (packed args) (packed envs)).
  - intros i Hi. unfold base.
    assert (H : zslice m (strs + zlen (packed args ++ packed envs)) (zlen (replicate gap 0)) = replicate gap 0).
    { eapply zslice_in; [done|exact Hb|]. by rewrite <- !app_assoc. }
    rewrite zlen_app, Z.add_assoc in H. set (q := strs + _ + _) in *.
    assert (Hl : (replicate gap 0) !! i = Some 0) by (by apply lookup_replicate).
    rewrite <- H in Hl. unfold zslice in Hl. apply lookup_take_Some in Hl as (Hl & _).
    rewrite lookup_drop in Hl. apply rd_Ok_iff. unfold q in *.
    pose proof (zlen_nonneg (packed args)). pose proof (zlen_nonneg (packed envs)).
    split; [lia|]. rewrite <- Hl. f_equal. lia.
Qed.

(** The two loops over the pointers and the auxiliary vector, together. *)
Lemma scan_pointers :
  skip_pointers m (stack_rounds m) (top + 4) = Ok (top + 4 + 4 * zlen args) /\
  skip_pointers m (stack_rounds m) (top + 4 + 4 * zlen args + 4) =
    Ok (top + 4 + 4 * zlen args + 4 + 4 * zlen envs) /\
  exists a, init_auxv_info m auxp = Ok a /\ auxv_ok m a aux.
Proof.
  destruct scan_words as (_ & Ha & He & Hx). destruct scan_fuel as (Fa & Fe & Fx & _ & Hpos).
  destruct Hst as [_ Hs _ _ _ _ Haux _]. pose proof (zlen_nonneg (packed args)).
  split; [|split].
  - rewrite (skip_pointers_spec m _ _ arg_ptrs) by (done || (apply pointers_pos; lia) ||
      (unfold arg_ptrs; by rewrite pointers_length)).
    unfold arg_ptrs. by rewrite zlen_pointers.
  - rewrite (skip_pointers_spec m _ _ env_ptrs) by (done || (apply pointers_pos; lia) ||
      (unfold env_ptrs; by rewrite pointers_length)).
    unfold env_ptrs. by rewrite zlen_pointers.
  - unfold init_auxv_info. destruct (Z.eqb_spec auxp 0); [lia|]. cbn [negb assert]. rewrite bind_Ok.
    by apply (auxv_loop_spec m _ _ no_auxv []).
Qed.

End scan.

(** The scan, with the places it found. *)
Lemma startup_scan_spec m top strs args envs aux exe gap :
  exec_stack m top strs args envs aux exe gap -> args <> [] -> envs <> [] ->
  exists info, scan_startup_stack m top = Ok info /\
    zslice m (cmdline_argbegin info) (cmdline_argend info - cmdline_argbegin info) = packed args /\
    zslice m (envbegin info) (envend info - envbegin info) = packed envs /\
    cstr m (bottom_exec_fn info) exe /\
    words_at m (p_args info) (pointers strs args ++ [0]) /\
    words_at m (p_envs info) (pointers (strs + zlen (packed args)) envs ++ [0]) /\
    auxv_ok m (auxv_info info) aux /\
    p_argc info = top /\ p_args info = top + 4 /\ p_envs info = top + 4 + 4 * zlen args + 4 /\
    init_auxv_info m (top + 4 + 4 * zlen args + 4 + 4 * zlen envs + 4) = Ok (auxv_info info).
Proof.
  intros Hst Hane Hene. pose proof Hst as [_ Hs _ _ _ Hxne _ _].
  destruct args as [|al a0 _] using rev_ind; [done|]. destruct envs as [|el e0 _] using rev_ind; [done|].
  clear Hane Hene. set (args := a0 ++ [al]) in *. set (envs := e0 ++ [el]) in *.
  destruct (scan_words _ _ _ _ _ _ _ _ Hst) as (H0 & Ha & He & _).
  destruct (scan_fuel _ _ _ _ _ _ _ _ Hst) as (_ & _ & _ & Hn & _).
  destruct (scan_pointers _ _ _ _ _ _ _ _ Hst) as (Ea & Ee & a & Eaux & Hok).
  destruct (scan_strings _ _ _ _ _ _ _ _ Hst a0 al e0 el eq_refl eq_refl) as (Cal & Cel & Cexe & Sa & Se & Hgap).
  assert (Hla : ld32 m (top + 4 + 4 * (zlen args - 1)) = Ok (strs + zlen (packed a0)) /\
                ld32 m (top + 4 + 4 * zlen args + 4 + 4 * zlen envs - 4)
                = Ok (strs + zlen (packed args) + zlen (packed e0))).
  { apply words_at_prefix in Ha, He. subst args envs. rewrite pointers_last in Ha, He.
    apply words_at_snoc in Ha, He. rewrite zlen_pointers in Ha, He. rewrite !zlen_app in *.
    change (zlen [al]) with 1 in *. change (zlen [el]) with 1 in *. rewrite <- Ha, <- He. split; f_equal; lia. }
  destruct Hla as (Hla & Hle).
  assert (Hfirst : forall p ss s q, words_at m p (pointers q (ss ++ [s]) ++ [0]) -> ld32 m p = Ok q)
    by (intros p [|] s q; by intros []).
  eexists. split.
  - unfold scan_startup_stack, strlen_at. rewrite H0, bind_Ok, s32_small by (pose proof (zlen_nonneg args); lia).
    rewrite Ea, bind_Ok, (Hfirst _ _ _ _ He), bind_Ok, Ee, bind_Ok, Hle, bind_Ok, Eaux, bind_Ok.
    rewrite (Hfirst _ _ _ _ Ha), bind_Ok, Hla, bind_Ok.
    pose proof (zlen_nonneg (packed args)). pose proof (zlen_nonneg (packed a0)). pose proof (zlen_nonneg (packed e0)).
    destruct (Z.eqb_spec (strs + zlen (packed a0)) 0); [lia|].
    destruct (Z.eqb_spec (strs + zlen (packed args) + zlen (packed e0)) 0); [lia|].
    rewrite (strlen_spec _ _ _ Cal), bind_Ok, (strlen_spec _ _ _ Cel), bind_Ok.
    replace (strs + zlen (packed args) + zlen (packed e0) + zlen el + 1)
      with (strs + zlen (packed args) + zlen (packed envs)) by (unfold envs; rewrite zlen_packed_snoc; lia).
    destruct exe as [|c exe]; [done|]. pose proof Cexe as (Hc & Hcnz & _).
    rewrite (skip_zero_bytes_spec m _ _ gap c Hgap Hc Hcnz), bind_Ok; [reflexivity|].
    apply rd_range in Hc. unfold rounds, zlen in *. lia.
  - cbn. split; [|split; [|split; [|split; [|split; [|split]]]]]; try done.
    + etrans; [|exact Sa]. f_equal. unfold args. rewrite zlen_packed_snoc. lia.
    + etrans; [|exact Se]. f_equal. lia.
Qed.

(** With an empty environment the scan reads through a null pointer: the word
    before the environment's terminator is the terminator of the arguments, and
    its string length is taken. Without arguments it takes [argc] itself, which
    is 0, for the last argument. *)
Lemma startup_empty_env m top strs args envs aux exe gap :
  exec_stack m top strs args envs aux exe gap -> args = [] \/ envs = [] -> scan_startup_stack m top = Stray Rd.
Proof.
  intros Hst Hor. pose proof Hst as [_ Hs _ _ Hnul _ _ Hsz].
  destruct (scan_words _ _ _ _ _ _ _ _ Hst) as (H0 & Ha & He & _).
  destruct (scan_fuel _ _ _ _ _ _ _ _ Hst) as (_ & _ & _ & Hn & _).
  destruct (scan_pointers _ _ _ _ _ _ _ _ Hst) as (Ea & Ee & a & Eaux & _).
  pose proof (words_at_snoc _ _ _ _ Ha) as Hza. rewrite zlen_pointers in Hza. pose proof (zlen_nonneg args).
  assert (Hfirst : forall p ws, words_at m p (ws ++ [0]) -> exists q, ld32 m p = Ok q) by (intros p [|w ws] [Hq _]; eauto).
  destruct (Hfirst _ _ Ha) as (qa & Hqa), (Hfirst _ _ He) as (qe & Hqe).
  assert (Hle : exists q, ld32 m (top + 4 + 4 * zlen args + 4 + 4 * zlen envs - 4) = Ok q /\ (envs = [] -> q = 0)).
  { destruct envs as [|el e0 _] using rev_ind.
    - exists 0. split; [|done]. rewrite <- Hza. f_equal. change (zlen (@nil (list Z))) with 0. lia.
    - apply words_at_prefix in He. rewrite pointers_last in He. apply words_at_snoc in He.
      rewrite zlen_pointers in He. eexists. split; [|intros Hn0; by destruct (app_cons_not_nil e0 [] el)].
      etrans; [|exact He]. f_equal. rewrite zlen_app. change (zlen [el]) with 1. lia. }
  destruct Hle as (qle & Hqle & Hnull).
  unfold scan_startup_stack. rewrite H0, bind_Ok, s32_small by lia.
  rewrite Ea, bind_Ok, Hqe, bind_Ok, Ee, bind_Ok, Hqle, bind_Ok, Eaux, bind_Ok, Hqa, bind_Ok.
  destruct args as [|al a0 _] using rev_ind.
  { change (zlen (@nil (list Z))) with 0 in *. replace (top + 4 + 4 * (0 - 1)) with top by lia. by rewrite H0. }
  destruct Hor as [Hor|Hor]; [by destruct a0|]. rewrite (Hnull Hor).
  apply words_at_prefix in Ha. rewrite pointers_last in Ha. apply words_at_snoc in Ha.
  rewrite zlen_pointers in Ha. rewrite !zlen_app in *. change (zlen [al]) with 1 in *.
  replace (top + 4 + 4 * (zlen a0 + 1 - 1)) with (top + 4 + 4 * zlen a0) by lia.
  rewrite Ha, bind_Ok. unfold strlen_at. pose proof (zlen_nonneg (packed a0)).
  destruct (Z.eqb_spec (strs + zlen (packed a0)) 0); [lia|].
  rewrite !Forall_app in Hnul. destruct Hnul as ((_ & Hal) & _). apply Forall_inv in Hal.
  pose proof (es_bytes _ _ _ _ _ _ _ _ Hst) as Hb. rewrite packed_app, <- app_assoc in Hb.
  pose proof (last_string _ _ _ _ _ _ _ _ Hst [] a0 al _ Hb Hal) as Hc. change (zlen (@nil Z)) with 0 in Hc.
  rewrite Z.add_0_r in Hc. by rewrite (strlen_spec _ _ _ Hc), bind_Ok.
Qed.

(** C32: on the stack execve(2) builds for a non-empty command line and
    environment, [scan_startup_stack] finds the bytes of all the arguments, of
    the whole environment and the name of the executable, the vectors of
    pointers to them, and for every entry of the auxiliary vector it looks for
    the address of the last value of that type. Without an argument, or with an
    empty environment, it reads through the null pointer. The stack is any in the
    32-bit address space whose strings lie one behind the other without a NUL in
    them, whose executable has a name, and whose program headers have the size
    the code asserts. *)
Theorem startup_scanned m top strs args envs aux exe gap :
  exec_stack m top strs args envs aux exe gap ->
  (args <> [] -> envs <> [] -> exists info, scan_startup_stack m top = Ok info /\
    zslice m (cmdline_argbegin info) (cmdline_argend info - cmdline_argbegin info) = packed args /\
    zslice m (envbegin info) (envend info - envbegin info) = packed envs /\
    cstr m (bottom_exec_fn info) exe /\
    words_at m (p_args info) (pointers strs args ++ [0]) /\
    words_at m (p_envs info) (pointers (strs + zlen (packed args)) envs ++ [0]) /\
    auxv_ok m (auxv_info info) aux) /\
  (args = [] \/ envs = [] -> scan_startup_stack m top = Stray Rd).
Proof.
  intros Hst. split; [|by eapply startup_empty_env]. intros Ha He.
  destruct (startup_scan_spec _ _ _ _ _ _ _ _ Hst Ha He) as (info & E & H1 & H2 & H3 & H4 & H5 & H6 & _).
  exists info. auto 10.
Qed.

Definition stack1 : list Z :=
  [0; 0; 0; 0] ++
  concat (map le32 [2; 60; 62; 0; 65; 82; 0; AT_ENTRY; 0x8048000; AT_PHENT; 32; AT_PHDR; 0x8048034; AT_NULL]) ++
  packed [codes "a"; codes "bc"; codes "SNITCHASER_USE=0"; codes "X=1"] ++ [0; 0] ++ codes "/bin/a" ++ [0].

Lemma stack1_ok :
  exec_stack stack1 4 60 [codes "a"; codes "bc"] [codes "SNITCHASER_USE=0"; codes "X=1"]
    [(AT_ENTRY, 0x8048000); (AT_PHENT, 32); (AT_PHDR, 0x8048034)] (codes "/bin/a") 2.
Proof.
  constructor; try (by vm_compute).
  - apply (bool_decide_unpack _). by vm_compute.
  - repeat constructor; try done; cbn; discriminate.
Qed.

Lemma startup_scanned_witness :
  exists info, scan_startup_stack stack1 4 = Ok info /\
    zslice stack1 (cmdline_argbegin info) (cmdline_argend info - cmdline_argbegin info)
      = packed [codes "a"; codes "bc"] /\ cstr stack1 (bottom_exec_fn info) (codes "/bin/a").
Proof.
  destruct (startup_scanned stack1 4 60 _ _ _ _ 2 stack1_ok) as [H _].
  destruct H as (info & E & Ha & _ & Hx & _); [done..|]. eauto.
Defined.

End StartupFacts.
