(* ===== verification/EnvConfFacts.v ===== *)
(** The options are read from the environment: for every option the last entry
    that names it decides. *)
From S2P Require Import Prelude CString CStringFacts Startup StartupFacts.
Import Str StrFacts Startup StartupFacts.

Module EnvFacts.

(** ** What the options mean *)

(** The rest of [s] after [pre]. *)
Fixpoint strip (pre s : list Z) : option (list Z) :=
  match pre, s with
  | [], _ => Some s
  | c :: pre, d :: s => if decide (c = d) then strip pre s else None
  | _ :: _, [] => None
  end.

(** The values the environment gives to [key], in order. *)
Definition values (key : list Z) (envs : list (list Z)) : list (list Z) :=
  omap (strip (key ++ codes "=")) envs.

Definition is_digit (c : Z) : bool := (48 <=? c) && (c <=? 57).

(** The number the leading digits of [v] denote. *)
Fixpoint decimal (v : list Z) (s : Z) : Z :=
  match v with
  | [] => s
  | c :: v => if is_digit c then decimal v (s * 10 + (c - 48)) else s
  end.

Definition flag (key : list Z) (envs : list (list Z)) (dflt : bool) : bool :=
  match last (values key envs) with
  | Some v => negb (bool_decide (v = codes "0"))
  | None => dflt
  end.

Definition conf_of (envs : list (list Z)) (c : env_conf) : env_conf :=
  Conf (flag (codes "SNITCHASER_TRACE_FORK") envs (trace_fork c))
       (flag (codes "SNITCHASER_UNTRACE_CLONE") envs (untrace_clone c))
       (flag (codes "SNITCHASER_USE") envs (use_rebranch c))
       (match last (values (codes "SNITCHASER_SAMPLING") envs) with
        | Some v => s32 (decimal v 0)
        | None => sampling c
        end).

(** ** Comparing with a literal *)

Lemma strip_app pre s v : strip pre s = Some v -> s = pre ++ v.
Proof.
  revert s. induction pre as [|c pre IH]; intros [|d s]; cbn; try congruence.
  case_decide as Hd; [|done]. intros E. subst d. f_equal. by apply IH.
Qed.

Lemma cstr_app m l p s : cstr m p s -> cstr (m ++ l) p s.
Proof.
  revert p. induction s as [|c s IH]; intros p; cbn [cstr].
  - intros H. pose proof (rd_range _ _ _ H). by rewrite rd_app_l.
  - intros (H & Hnz & Hs). pose proof (rd_range _ _ _ H). rewrite rd_app_l by done. auto.
Qed.

Lemma cstr_behind m l : no_nul l -> cstr (m ++ l ++ [0]) (zlen m) l.
Proof.
  intros Hl. pose proof (cstr_in (m ++ l ++ [0]) 0 (m ++ l ++ [0]) m l []) as H.
  rewrite Z.add_0_l in H. apply H; [done|apply zslice_all|done|done].
Qed.

(** [strncmp] against a whole key decides whether it is a prefix. *)
Lemma strncmp_strip mm p q key s :
  cstr mm p key -> cstr mm q s ->
  exists c, strncmp mm p q (zlen key) = Ok c /\ (c = 0 <-> is_Some (strip key s)).
Proof.
  unfold strncmp, zlen. rewrite Nat2Z.id. revert p q s.
  induction key as [|k key IH]; intros p q s Hp Hq; cbn [length strncmp_loop strip].
  - exists 0. split; [done|]. split; [by eexists|done].
  - destruct Hp as (-> & Hk & Hp). rewrite bind_Ok. destruct s as [|d s].
    + cbn in Hq. rewrite Hq, bind_Ok. destruct (Z.eqb_spec k 0); [done|]. cbn [negb].
      eexists. split; [done|]. split; [by destruct (k <? 0)|by intros []].
    + destruct Hq as (-> & Hd & Hq). rewrite bind_Ok. destruct (Z.eqb_spec k d) as [->|Hne]; cbn [negb].
      * destruct (Z.eqb_spec d 0); [done|]. rewrite decide_True by done. by apply IH.
      * eexists. split; [done|]. rewrite decide_False by done. split; [by destruct (k <? d)|by intros []].
Qed.

(** and [strncmp(val, "0", 2)] whether the value is exactly [0]. *)
Lemma strncmp_zero mm p q v :
  cstr mm p v -> cstr mm q (codes "0") ->
  exists c, strncmp mm p q 2 = Ok c /\ (c = 0 <-> v = codes "0").
Proof.
  change (codes "0") with [48]. intros Hp (Hq & _ & Hq'). unfold strncmp. change (Z.to_nat 2) with 2%nat. cbn [strncmp_loop].
  cbn [cstr] in Hq'. destruct v as [|a v]; cbn [cstr] in Hp.
  - rewrite Hp, bind_Ok, Hq, bind_Ok. cbn. eexists. split; [done|]. by split.
  - destruct Hp as (-> & Ha & Hp). rewrite bind_Ok, Hq, bind_Ok. destruct (Z.eqb_spec a 48) as [->|Hne]; cbn [negb].
    + change (48 =? 0) with false. cbn iota. destruct v as [|b v]; cbn [cstr] in Hp.
      * rewrite Hp, bind_Ok, Hq', bind_Ok. cbn. eexists. by split.
      * destruct Hp as (-> & Hb & _). rewrite bind_Ok, Hq', bind_Ok.
        destruct (Z.eqb_spec b 0); [done|]. cbn [negb]. eexists. split; [done|].
        split; [by destruct (b <? 0)|]. intros E. discriminate E.
    + eexists. split; [done|]. split; [by destruct (a <? 48)|]. intros [= ->]. done.
Qed.

(** ** One entry *)

Section entry.
Variable m : list Z.

Lemma cmp_get_spec key p s :
  no_nul (key ++ codes "=") -> cstr m p s ->
  exists o, cmp_get m key p = Ok o /\
    match strip (key ++ codes "=") s with
    | Some v => exists q, o = Some q /\ cstr m q v
    | None => o = None
    end.
Proof.
  intros Hk Hp. unfold cmp_get, strncmp_lit. set (k := key ++ codes "=") in *.
  destruct (strncmp_strip (m ++ k ++ [0]) (zlen m) p k s) as (c & -> & Hc);
    [by apply cstr_behind|by apply cstr_app|]. rewrite bind_Ok. eexists. split; [done|].
  destruct (Z.eqb_spec c 0) as [E|E].
  - apply Hc in E as (v & E). rewrite E. eexists. split; [done|].
    apply strip_app in E as ->. clear -Hp. revert p Hp. induction k as [|x k IH]; intros p Hp.
    + change (zlen (@nil Z)) with 0. by rewrite Z.add_0_r.
    + destruct Hp as (_ & _ & Hp). apply IH in Hp. rewrite zlen_cons.
      by replace (p + (1 + zlen k)) with (p + 1 + zlen k) by lia.
  - destruct (strip k s) as [v|]; [|done]. destruct E. apply Hc. by eexists.
Qed.

Lemma values_one key s :
  values key [s] = match strip (key ++ codes "=") s with Some v => [v] | None => [] end.
Proof. reflexivity. Qed.

Lemma bool_conf_spec key p s old :
  no_nul (key ++ codes "=") -> cstr m p s -> bool_conf m key p old = Ok (flag key [s] old).
Proof.
  intros Hk Hp. destruct (cmp_get_spec key p s Hk Hp) as (o & E & Ho).
  unfold bool_conf, flag. rewrite E, bind_Ok, values_one. destruct (strip _ s) as [v|].
  - destruct Ho as (q & -> & Hq). cbn [last].
    destruct (strncmp_zero (m ++ literal "0") q (zlen m) v) as (c & -> & Hc).
    { by apply cstr_app. } { apply cstr_behind. by repeat constructor. }
    rewrite bind_Ok. do 2 f_equal. destruct (Z.eqb_spec c 0); case_bool_decide; tauto.
  - by rewrite Ho.
Qed.

Lemma s32_step s c : s32 (s32 s * 10 + c) = s32 (s * 10 + c).
Proof.
  unfold s32, swrap. change (2 ^ (32 - 1)) with 2147483648. change (2 ^ 32) with 4294967296.
  Z.div_mod_to_equations. lia.
Qed.

Lemma atoi_loop_spec fuel p v s :
  cstr m p v -> Forall is_byte v -> (length v < fuel)%nat ->
  atoi_loop m fuel p (s32 s) = Ok (s32 (decimal v s)).
Proof.
  revert fuel p s. induction v as [|c v IH]; intros [|fuel] p s Hp Hb Hf; cbn in Hf; try lia; cbn [atoi_loop decimal].
  - cbn in Hp. by rewrite Hp, bind_Ok.
  - destruct Hp as (-> & Hc & Hp). rewrite bind_Ok. apply Forall_cons in Hb as (Hb & Hv).
    assert (E : (s8 c <=? 57) && (48 <=? s8 c) = is_digit c).
    { unfold is_digit, is_byte, s8, swrap in *. change (2 ^ (8 - 1)) with 128. change (2 ^ 8) with 256.
      Z.div_mod_to_equations. lia. }
    rewrite E. destruct (is_digit c); [|done]. rewrite s32_step. apply IH; done || lia.
Qed.

Lemma int_conf_spec key p s old :
  no_nul (key ++ codes "=") -> cstr m p s -> Forall is_byte s ->
  int_conf m key p old =
  Ok (match last (values key [s]) with Some v => s32 (decimal v 0) | None => old end).
Proof.
  intros Hk Hp Hb. destruct (cmp_get_spec key p s Hk Hp) as (o & E & Ho).
  unfold int_conf. rewrite E, bind_Ok, values_one. destruct (strip _ s) as [v|] eqn:Es.
  - destruct Ho as (q & -> & Hq). cbn [last _atoi]. change 0 with (s32 0) at 1. apply atoi_loop_spec; [done| |].
    + apply strip_app in Es as ->. by apply Forall_app in Hb as (_ & ?).
    + apply cstr_fuel in Hq. unfold rounds. lia.
  - by rewrite Ho.
Qed.

Lemma check_var_spec p s c :
  0 < p -> cstr m p s -> Forall is_byte s -> check_var m p c = Ok (conf_of [s] c).
Proof.
  intros Hpos Hp Hb. unfold check_var. destruct (Z.eqb_spec p 0); [lia|]. cbn [negb assert]. rewrite bind_Ok.
  rewrite !(bool_conf_spec _ p s) by (done || by repeat constructor). rewrite !bind_Ok.
  by rewrite (int_conf_spec _ p s) by (done || by repeat constructor).
Qed.

(** ** The whole environment *)

Lemma flag_app key a b d : flag key (a ++ b) d = flag key b (flag key a d).
Proof.
  unfold flag, values. rewrite omap_app, last_app. by destruct (last (omap _ b)).
Qed.

Lemma conf_of_app a b c : conf_of (a ++ b) c = conf_of b (conf_of a c).
Proof.
  unfold conf_of. cbn. rewrite !flag_app. f_equal. unfold values. rewrite omap_app, last_app.
  by destruct (last (omap _ b)).
Qed.

Lemma env_loop_spec fuel p ptrs envs c :
  words_at m p (ptrs ++ [0]) -> Forall2 (fun q s => 0 < q /\ cstr m q s /\ Forall is_byte s) ptrs envs ->
  (length ptrs < fuel)%nat -> env_loop m fuel p c = Ok (conf_of envs c).
Proof.
  intros Hw Hs. revert fuel p c Hw. induction Hs as [|q s ptrs envs (Hq & Hc & Hb) Hs IH];
    intros [|fuel] p c Hw Hf; cbn in Hf; try lia; cbn [env_loop]; destruct Hw as (-> & Hw); rewrite bind_Ok.
  - by destruct c.
  - destruct (Z.eqb_spec q 0); [lia|]. rewrite (check_var_spec q s) by done. rewrite bind_Ok.
    rewrite IH by (done || lia). by rewrite <- (conf_of_app [s]).
Qed.

End entry.

(** C33: reading the environment sets every option from the last entry that
    names it: a flag is off exactly when the value is [0], the sampling rate is
    the number its leading digits denote (as an [int]), and an option that is
    not named keeps its default. The environment is a vector of pointers to
    strings, ended by a null pointer. *)
Theorem env_conf_last_wins m info ptrs envs :
  words_at m (p_envs info) (ptrs ++ [0]) ->
  Forall2 (fun q s => 0 < q /\ cstr m q s /\ Forall is_byte s) ptrs envs ->
  read_env_conf m info = Ok (conf_of envs default_conf).
Proof.
  intros Hw Hs. unfold read_env_conf. apply (env_loop_spec m _ _ ptrs); [done|done|].
  apply words_at_range in Hw; [|by destruct ptrs]. rewrite zlen_app in Hw.
  unfold stack_rounds, zlen in *. cbn in Hw. lia.
Qed.

Definition env1 : list (list Z) :=
  [codes "SNITCHASER_SAMPLING=20x"; codes "SNITCHASER_USE=0"; codes "X=1"; codes "SNITCHASER_TRACE_FORK=yes"].
Definition env1_mem : list Z :=
  [0; 0; 0; 0] ++ concat (map le32 (pointers 24 env1 ++ [0])) ++ packed env1.

Lemma env_conf_last_wins_witness :
  read_env_conf env1_mem (Stack 0 0 4 0 0 0 0 0 0 no_auxv) = Ok (Conf true false false 20).
Proof.
  change (Conf true false false 20) with (conf_of env1 default_conf).
  apply (env_conf_last_wins env1_mem _ (pointers 24 env1) env1); [by vm_compute|].
  repeat constructor; try (by vm_compute); apply (bool_decide_unpack _); by vm_compute.
Defined.

End EnvFacts.
