(* ===== verification/Bits.v ===== *)
(** The bit tricks of [src/src/include/bithacks.h]: population counts by sums of
    octal and hexadecimal digits, rounding to powers of two, and the lowest
    clear bit of a word, which the slot allocator of [tls.c] is built on. *)
From S2P Require Import Prelude.

Module Bits.

(** The masks are [033333333333] and [030707070707] in octal. *)
Definition count_1s (c1 : Z) : Z :=
  let c2 := Z.land (Z.shiftr c1 1) 0xDB6DB6DB in
  let c2 := u32 (c1 - c2 - Z.land (Z.shiftr c2 1) 0xDB6DB6DB) in
  Z.land (u32 (c2 + Z.shiftr c2 3)) 0xC71C71C7 mod 63.

Definition count_1s_64 (c1 : Z) : Z :=
  let c2 := Z.land (Z.shiftr c1 1) 0x7777777777777777 in
  let c3 := Z.land (Z.shiftr c1 2) 0x3333333333333333 in
  let c4 := Z.land (Z.shiftr c1 3) 0x1111111111111111 in
  let c1 := u64 (c1 - c2 - c3 - c4) in
  Z.land (u64 (c1 + Z.shiftr c1 4)) 0x0F0F0F0F0F0F0F0F mod 0xFF.

(** [x |= x >> 1; x |= x >> 2; ...; x |= x >> 16] *)
Definition smear (x : Z) : Z :=
  let x := Z.lor x (Z.shiftr x 1) in
  let x := Z.lor x (Z.shiftr x 2) in
  let x := Z.lor x (Z.shiftr x 4) in
  let x := Z.lor x (Z.shiftr x 8) in
  Z.lor x (Z.shiftr x 16).

Definition pow2roundup (x : Z) : Z :=
  if x <=? 0 then 0 else s32 (smear (x - 1) + 1).

Definition pow2rounddown (x : Z) : Z :=
  if x <=? 0 then 0 else Z.shiftr (smear x) 1 + 1.

Definition last_0_pos (x : Z) : Z :=
  let tmp := Z.lxor (u32 (x + 1)) x in
  count_1s tmp - 1.

Definition set_last_0 (x : Z) : Z := Z.lor x (u32 (x + 1)).

Definition unset_bit_n (x n : Z) : Z := Z.land x (u32 (Z.lnot (Z.shiftl 1 n))).

(** ** Sums of digits *)

(** The number of bits set among the [n] lowest ones. *)
Fixpoint ones (n : nat) (x : Z) : Z :=
  match n with
  | O => 0
  | S n => Z.b2z (Z.testbit x (Z.of_nat n)) + ones n x
  end.

Lemma ones_S n x : ones (S n) x = Z.b2z (Z.testbit x (Z.of_nat n)) + ones n x.
Proof. reflexivity. Qed.

Lemma ones_div2 n x : ones (S n) x = x mod 2 + ones n (x / 2).
Proof.
  induction n as [|n IH].
  - cbn. rewrite Z.bit0_mod. lia.
  - change (ones (S (S n)) x) with (Z.b2z (Z.testbit x (Z.of_nat (S n))) + ones (S n) x). rewrite IH.
    cbn [ones]. rewrite Z.div2_bits by lia.
    replace (Z.of_nat (S n)) with (Z.succ (Z.of_nat n)) by lia. lia.
Qed.

Section digits.
(** Digits of [k] bits. *)
Variable k : nat.
Let B := 2 ^ Z.of_nat k.

Fixpoint value (ds : list Z) : Z :=
  match ds with
  | [] => 0
  | d :: ds => d + B * value ds
  end.

Fixpoint digits_of (n : nat) (x : Z) : list Z :=
  match n with
  | O => []
  | S n => x mod B :: digits_of n (x / B)
  end.

Definition digit (d : Z) : Prop := 0 <= d < B.

Lemma B_pos : 0 < B.
Proof. apply Z.pow_pos_nonneg; lia. Qed.

Lemma digits_ok n x : Forall digit (digits_of n x).
Proof.
  revert x. induction n as [|n IH]; intros x; cbn; constructor; [|done].
  apply Z.mod_pos_bound, B_pos.
Qed.

Lemma digits_length n x : length (digits_of n x) = n.
Proof. revert x. induction n as [|n IH]; intros x; cbn; [done|]. by rewrite IH. Qed.

Lemma value_digits n x : 0 <= x < B ^ Z.of_nat n -> value (digits_of n x) = x.
Proof.
  pose proof B_pos. revert x. induction n as [|n IH]; intros x Hx; cbn [digits_of value].
  - cbn in Hx. lia.
  - rewrite Nat2Z.inj_succ, Z.pow_succ_r in Hx by lia. rewrite IH.
    + pose proof (Z.div_mod x B ltac:(lia)). lia.
    + split; [apply Z.div_pos; lia|]. apply Z.div_lt_upper_bound; lia.
Qed.

(** A mask works digit by digit. *)
Lemma land_digits d y e z :
  digit d -> digit e -> Z.land (d + B * y) (e + B * z) = Z.land d e + B * Z.land y z.
Proof.
  intros Hd He. unfold digit, B in *. set (w := Z.of_nat k) in *. assert (0 <= w) by lia.
  assert (E : forall a b, 0 <= a < 2 ^ w -> a + 2 ^ w * b = Z.lor (Z.shiftl b w) a).
  { intros a b Ha. rewrite Z.shiftl_mul_pow2 by lia. rewrite lor_low by lia. lia. }
  assert (Hb : forall a n, 0 <= a < 2 ^ w -> w <= n -> Z.testbit a n = false).
  { intros a n Ha Hn. rewrite <- (Z.mod_small a (2 ^ w)) by lia. by apply Z.mod_pow2_bits_high. }
  assert (Hl : 0 <= Z.land d e < 2 ^ w).
  { split; [apply Z.land_nonneg; lia|]. apply (Z.le_lt_trans _ d); [|lia].
    apply Z.ldiff_le; [lia|]. apply Z.bits_inj'. intros i Hi.
    rewrite Z.ldiff_spec, Z.land_spec, Z.bits_0. by destruct (Z.testbit d i), (Z.testbit e i). }
  rewrite !E by done. apply Z.bits_inj'. intros n Hn.
  rewrite Z.land_spec, !Z.lor_spec, Z.land_spec.
  destruct (Z.ltb_spec n w).
  - by rewrite !Z.shiftl_spec_low by lia.
  - rewrite !Z.shiftl_spec by lia. rewrite Z.land_spec, !(Hb _ n) by done. by rewrite !orb_false_r.
Qed.

(** Masking a shifted number with [mask] in every digit, when the mask stops
    what comes down from the digit above. *)
Lemma land_shifted s mask ds :
  (s <= k)%nat -> 0 <= mask < 2 ^ Z.of_nat (k - s) -> Forall digit ds ->
  Z.land (value ds / 2 ^ Z.of_nat s) (value (map (fun _ => mask) ds)) =
  value (map (fun d => Z.land (d / 2 ^ Z.of_nat s) mask) ds).
Proof.
  intros Hs Hm Hds. induction Hds as [|d ds Hd Hds IH]; cbn [value map]; [by rewrite Z.land_0_r|].
  set (S2 := 2 ^ Z.of_nat s) in *. set (R := 2 ^ Z.of_nat (k - s)) in *.
  assert (EB : B = S2 * R).
  { unfold B, S2, R. rewrite <- Z.pow_add_r by lia. f_equal. lia. }
  assert (HS : 0 < S2) by (apply Z.pow_pos_nonneg; lia). assert (HR : 0 < R) by (apply Z.pow_pos_nonneg; lia).
  unfold digit in *. set (y := value ds) in *.
  assert (Hdq : 0 <= d / S2 < R) by (split; [apply Z.div_pos; lia|apply Z.div_lt_upper_bound; lia]).
  assert (E : (d + B * y) / S2 = (d / S2 + R * (y mod S2)) + B * (y / S2)).
  { rewrite EB. replace (d + S2 * R * y) with (d + (R * y) * S2) by lia. rewrite Z.div_add by lia.
    pose proof (Z.div_mod y S2 ltac:(lia)). nia. }
  pose proof (Z.mod_pos_bound y S2 HS). rewrite E, land_digits, IH; [|unfold digit; nia|unfold digit; nia].
  assert (Em : Z.land mask (Z.ones (Z.of_nat (k - s))) = mask)
    by (rewrite Z.land_ones by lia; by apply Z.mod_small).
  f_equal. rewrite <- Em at 1. rewrite (Z.land_comm mask), Z.land_assoc, Z.land_ones by lia. fold R.
  rewrite (Z.mul_comm R), Z.mod_add by lia. by rewrite Z.mod_small by lia.
Qed.

Lemma value_sub (f : Z -> Z) ds : value ds - value (map f ds) = value (map (fun d => d - f d) ds).
Proof. induction ds as [|d ds IH]; cbn; [done|]. rewrite <- IH. lia. Qed.

Lemma value_map_sub (f g : Z -> Z) (ds : list Z) : value (map f ds) - value (map g ds) = value (map (fun d => f d - g d) ds).
Proof. induction ds as [|d ds IH]; cbn; [done|]. rewrite <- IH. lia. Qed.

(** The bits of a number are those of its digits. *)
Lemma ones_value ds :
  Forall digit ds -> ones (k * length ds) (value ds) = foldr Z.add 0 (map (ones k) ds).
Proof.
  intros Hds. induction Hds as [|d ds Hd Hds IH]; cbn [length map foldr value]; [by rewrite Nat.mul_0_r|].
  rewrite <- IH. replace (k * S (length ds))%nat with (k + k * length ds)%nat by lia.
  set (n := (k * length ds)%nat). unfold digit, B in *.
  assert (G : forall j d, 0 <= d < 2 ^ Z.of_nat j ->
    ones (j + n) (d + 2 ^ Z.of_nat j * value ds) = ones j d + ones n (value ds)).
  { clear. induction j as [|j IHj]; intros d Hd.
    - cbn in Hd. replace d with 0 by lia. cbn [Nat.add ones]. change (2 ^ Z.of_nat 0) with 1.
      by rewrite Z.mul_1_l, !Z.add_0_l.
    - rewrite Nat2Z.inj_succ, Z.pow_succ_r in * by lia. cbn [Nat.add]. rewrite !ones_div2.
      replace (d + 2 * 2 ^ Z.of_nat j * value ds) with (d + (2 ^ Z.of_nat j * value ds) * 2) by lia.
      rewrite Z.mod_add, Z.div_add, IHj by (lia || (split; [apply Z.div_pos; lia|apply Z.div_lt_upper_bound; lia])).
      lia. }
  by apply G.
Qed.

End digits.

(** ** Population counts *)

Lemma check_digits (P : Z -> bool) n :
  forallb P (map Z.of_nat (seq 0 n)) = true -> forall d, 0 <= d < Z.of_nat n -> P d = true.
Proof.
  intros H d Hd. rewrite forallb_forall in H. apply H. apply in_map_iff.
  exists (Z.to_nat d). split; [lia|]. apply in_seq. lia.
Qed.

Lemma octal_digit d : 0 <= d < 8 ->
  d - Z.land (d / 2) 3 - Z.land (Z.land (d / 2) 3 / 2) 3 = ones 3 d /\ 0 <= ones 3 d <= 3 /\
  (d < 4 -> ones 3 d <= 2) /\ 0 <= Z.land (d / 2) 3 < 8.
Proof.
  intros Hd. set (P := fun d => bool_decide (d - Z.land (d / 2) 3 - Z.land (Z.land (d / 2) 3 / 2) 3 = ones 3 d
    /\ 0 <= ones 3 d <= 3 /\ (d < 4 -> ones 3 d <= 2) /\ 0 <= Z.land (d / 2) 3 < 8)).
  assert (H : P d = true) by (apply (check_digits P 8); [by vm_compute|lia]).
  by apply bool_decide_eq_true in H.
Qed.

Lemma nibble_digit d : 0 <= d < 16 ->
  d - Z.land (d / 2) 7 - Z.land (d / 4) 3 - Z.land (d / 8) 1 = ones 4 d /\ 0 <= ones 4 d <= 4.
Proof.
  intros Hd. set (P := fun d => bool_decide (d - Z.land (d / 2) 7 - Z.land (d / 4) 3 - Z.land (d / 8) 1 = ones 4 d
    /\ 0 <= ones 4 d <= 4)).
  assert (H : P d = true) by (apply (check_digits P 16); [by vm_compute|lia]).
  by apply bool_decide_eq_true in H.
Qed.

Lemma land_7 s : 0 <= s < 8 -> Z.land s 7 = s.
Proof. intros. change 7 with (2 ^ 3 - 1). rewrite land_mask by lia. by apply Z.mod_small. Qed.
Lemma land_15 s : 0 <= s < 16 -> Z.land s 15 = s.
Proof. intros. change 15 with (2 ^ 4 - 1). rewrite land_mask by lia. by apply Z.mod_small. Qed.
Lemma land_3 s : 0 <= s < 4 -> Z.land s 3 = s.
Proof. intros. change 3 with (2 ^ 2 - 1). rewrite land_mask by lia. by apply Z.mod_small. Qed.

(** The sums of pairs of digits, added up modulo 63. *)
Lemma sum_octal ps : length ps = 11%nat -> Forall (fun p => 0 <= p <= 3) ps -> nth 10 ps 0 <= 2 ->
  Z.land (u32 (value 3 ps + Z.shiftr (value 3 ps) 3)) 0xC71C71C7 mod 63 = foldr Z.add 0 ps.
Proof.
  intros Hl Hps Htop.
  destruct ps as [|p0 [|p1 [|p2 [|p3 [|p4 [|p5 [|p6 [|p7 [|p8 [|p9 [|p10 [|? ?]]]]]]]]]]]]; try discriminate Hl.
  repeat (apply Forall_cons in Hps as (? & Hps)). cbn in Htop. clear Hl Hps.
  assert (E : value 3 [p0; p1; p2; p3; p4; p5; p6; p7; p8; p9; p10] / 8 =
              value 3 [p1; p2; p3; p4; p5; p6; p7; p8; p9; p10]).
  { cbn [value]. change (2 ^ Z.of_nat 3) with 8. symmetry. apply Z.div_unique with p0; lia. }
  rewrite Z.shiftr_div_pow2 by lia. change (2 ^ 3) with 8. rewrite E.
  assert (E2 : value 3 [p0; p1; p2; p3; p4; p5; p6; p7; p8; p9; p10] +
               value 3 [p1; p2; p3; p4; p5; p6; p7; p8; p9; p10] =
               value 3 [p0 + p1; p1 + p2; p2 + p3; p3 + p4; p4 + p5; p5 + p6; p6 + p7; p7 + p8; p8 + p9; p9 + p10; p10])
    by (cbn [value]; lia).
  rewrite E2, u32_small by (cbn [value]; change (2 ^ Z.of_nat 3) with 8; lia).
  change 0xC71C71C7 with (value 3 [7; 0; 7; 0; 7; 0; 7; 0; 7; 0; 3]).
  cbn [value]. rewrite !land_digits by (unfold digit; change (2 ^ Z.of_nat 3) with 8; lia).
  rewrite !Z.land_0_r, !land_7, land_3 by lia. change (2 ^ Z.of_nat 3) with 8.
  cbn [foldr]. Z.div_mod_to_equations. lia.
Qed.

Lemma testbit_high x n m : 0 <= x < 2 ^ m -> m <= n -> Z.testbit x n = false.
Proof.
  intros Hx Hn. assert (0 <= m) by (destruct (Z.ltb_spec m 0); [rewrite Z.pow_neg_r in Hx; lia|lia]).
  rewrite <- (Z.mod_small x (2 ^ m)) by lia. apply Z.mod_pow2_bits_high. lia.
Qed.

(** The digits of a word and what the subtractions leave of them. *)
Lemma octal_split ds :
  Forall (digit 3) ds ->
  let h := fun d => Z.land (d / 2) 3 in
  let mask := value 3 (map (fun _ => 3) ds) in
  let c2 := Z.land (Z.shiftr (value 3 ds) 1) mask in
  value 3 ds - c2 - Z.land (Z.shiftr c2 1) mask = value 3 (map (ones 3) ds).
Proof.
  intros Hd h mask. cbn zeta. rewrite !Z.shiftr_div_pow2 by lia. change (2 ^ 1) with (2 ^ Z.of_nat 1).
  assert (Hh : Forall (digit 3) (map h ds)).
  { apply Forall_map. eapply Forall_impl; [exact Hd|]. intros d H. by apply octal_digit in H as (_ & _ & _ & H). }
  unfold mask. rewrite (land_shifted 3 1 3 ds) by (done || lia). change (2 ^ Z.of_nat 1) with 2. fold h.
  rewrite <- (map_map h (fun _ => 3)). change 2 with (2 ^ Z.of_nat 1).
  rewrite (land_shifted 3 1 3 (map h ds)) by (done || lia).
  change (2 ^ Z.of_nat 1) with 2. rewrite map_map, value_sub, value_map_sub. f_equal.
  apply map_ext_Forall. eapply Forall_impl; [exact Hd|]. intros d H. by apply octal_digit in H as (H & _).
Qed.

Lemma octal_bound ps : length ps = 11%nat -> Forall (fun p => 0 <= p <= 3) ps -> 0 <= value 3 ps < 2 ^ 32.
Proof.
  intros Hl Hps.
  destruct ps as [|p0 [|p1 [|p2 [|p3 [|p4 [|p5 [|p6 [|p7 [|p8 [|p9 [|p10 [|? ?]]]]]]]]]]]]; try discriminate Hl.
  repeat (apply Forall_cons in Hps as (? & Hps)). cbn [value]. change (2 ^ Z.of_nat 3) with 8. lia.
Qed.

(** [count_1s] counts the bits that are set. *)
Lemma count_1s_ones x : is_u32 x -> count_1s x = ones 32 x.
Proof.
  intros Hx. unfold is_u32 in Hx. set (ds := digits_of 3 11 x).
  assert (Hl : length ds = 11%nat) by apply digits_length.
  assert (Hd : Forall (digit 3) ds) by apply digits_ok.
  assert (Hv : value 3 ds = x) by (apply value_digits; change ((2 ^ Z.of_nat 3) ^ Z.of_nat 11) with (2 ^ 33); lia).
  assert (Htop : nth 10 ds 0 < 4).
  { unfold ds. cbn [digits_of nth]. change (2 ^ Z.of_nat 3) with 8. Z.div_mod_to_equations. lia. }
  assert (Hps : Forall (fun p => 0 <= p <= 3) (map (ones 3) ds)).
  { apply Forall_map. eapply Forall_impl; [exact Hd|]. intros d H. by apply octal_digit in H as (_ & H & _). }
  assert (Hp10 : nth 10 (map (ones 3) ds) 0 <= 2).
  { change 0 with (ones 3 0) at 1. rewrite map_nth. apply octal_digit; [|done].
    assert (In (nth 10 ds 0) ds) as Hin by (apply nth_In; lia).
    rewrite Forall_forall in Hd. apply Hd. by apply list_elem_of_In. }
  assert (Hmask : value 3 (map (fun _ => 3) ds) = 0xDB6DB6DB).
  { clearbody ds. clear -Hl. by do 11 (destruct ds as [|? ds]; [discriminate Hl|]); destruct ds. }
  clearbody ds. unfold count_1s. rewrite <- Hmask, <- Hv, octal_split by done.
  rewrite (u32_small (value _ _)) by (apply octal_bound; [by rewrite length_map|done]).
  rewrite sum_octal by (done || by rewrite length_map).
  rewrite <- (ones_value 3 ds Hd), Hl, Hv. change (3 * 11)%nat with 33%nat.
  rewrite (ones_S 32), (testbit_high x (Z.of_nat 32) 32) by lia. apply Z.add_0_l.
Qed.

(** ** The lowest clear bit *)

(** Everything below the lowest clear bit [n] of [x] is set. *)
Definition lowest_0 (x n : Z) : Prop :=
  0 <= n /\ Z.testbit x n = false /\ forall i, 0 <= i < n -> Z.testbit x i = true.

Lemma lowest_0_split x n : 0 <= x -> lowest_0 x n -> exists y, 0 <= y /\ x = 2 ^ (n + 1) * y + 2 ^ n - 1.
Proof.
  intros Hx (Hn & Hb & Hi). exists (Z.shiftr x (n + 1)).
  assert (E : x mod 2 ^ (n + 1) = Z.ones n).
  { apply Z.bits_inj'. intros i Hi0. destruct (Z.ltb_spec i (n + 1)).
    - rewrite Z.mod_pow2_bits_low, Z.testbit_ones_nonneg by lia. destruct (Z.ltb_spec i n).
      + apply Hi. lia.
      + by replace i with n by lia.
    - by rewrite Z.mod_pow2_bits_high, Z.ones_spec_high by lia. }
  rewrite Z.ones_equiv in E. rewrite Z.shiftr_div_pow2 by lia. split; [apply Z.div_pos; [lia|]; apply Z.pow_pos_nonneg; lia|].
  pose proof (Z.div_mod x (2 ^ (n + 1)) ltac:(pose proof (Z.pow_pos_nonneg 2 (n + 1)); lia)). lia.
Qed.

Lemma lowest_0_exists x m : 0 <= x < 2 ^ m - 1 -> exists n, n < m /\ lowest_0 x n.
Proof.
  intros Hx. assert (Hm : 0 <= m) by (destruct (Z.ltb_spec m 0); [rewrite Z.pow_neg_r in Hx; lia|lia]).
  revert x Hx. pattern m. apply natlike_ind; [cbn; lia| |done]. clear m Hm. intros m Hm IH x Hx.
  rewrite Z.pow_succ_r in Hx by done. destruct (Z.testbit x 0) eqn:E0.
  - assert (Ex : x = 2 * (x / 2) + 1) by (rewrite Z.bit0_odd, Zodd_mod in E0; Z.div_mod_to_equations; lia).
    destruct (IH (x / 2)) as (n & Hn & Hn0 & Hb & Hi); [lia|]. exists (n + 1). split; [lia|].
    rewrite Z.div2_bits in Hb by lia. split; [lia|]. split; [by rewrite <- Z.add_1_r in Hb|]. intros i Hi'.
    destruct (Z.eq_dec i 0) as [->|]; [done|]. specialize (Hi (i - 1) ltac:(lia)). rewrite Z.div2_bits in Hi by lia.
    by replace (Z.succ (i - 1)) with i in Hi by lia.
  - exists 0. split; [lia|]. split; [lia|]. split; [done|]. lia.
Qed.

(** Adding one flips exactly the bits up to the lowest clear one. *)
Lemma lowest_0_succ x n i :
  0 <= x -> lowest_0 x n -> 0 <= i ->
  Z.testbit (x + 1) i = if i <? n then false else if i =? n then true else Z.testbit x i.
Proof.
  intros Hx H Hi. destruct (lowest_0_split x n Hx H) as (y & Hy & E). destruct H as (Hn & Hb & Hlow).
  replace (x + 1) with ((2 * y + 1) * 2 ^ n) by (rewrite E, Z.pow_add_r by lia; lia).
  destruct (Z.ltb_spec i n); [by apply Z.mul_pow2_bits_low|]. rewrite Z.mul_pow2_bits by lia.
  destruct (Z.eqb_spec i n) as [->|].
  - by rewrite Z.sub_diag, Z.testbit_odd_0.
  - replace x with ((2 * y) * 2 ^ n + Z.ones n) by (rewrite Z.ones_equiv, E, Z.pow_add_r by lia; lia).
    rewrite <- lor_low by (rewrite ?Z.ones_equiv; pose proof (Z.pow_pos_nonneg 2 n); lia).
    rewrite Z.lor_spec, Z.mul_pow2_bits, Z.ones_spec_high, orb_false_r by lia.
    replace (i - n) with (Z.succ (i - n - 1)) by lia. by rewrite Z.testbit_odd_succ, Z.testbit_even_succ by lia.
Qed.

Lemma ones_ones j n : (n <= j)%nat -> ones j (Z.ones (Z.of_nat n)) = Z.of_nat n.
Proof.
  intros Hn. assert (H : forall i, ones i (Z.ones (Z.of_nat n)) = Z.of_nat (Nat.min i n)).
  { intros i. induction i as [|i IH]; [done|]. cbn [ones]. rewrite IH, Z.testbit_ones_nonneg by lia.
    destruct (Z.ltb_spec (Z.of_nat i) (Z.of_nat n)); cbn [Z.b2z]; lia. }
  rewrite H. lia.
Qed.

(** [last_0_pos] is the lowest clear bit of a word that has one, and
    [set_last_0] sets it and nothing else. *)
Lemma last_0_spec x : 0 <= x < 2 ^ 32 - 1 ->
  0 <= last_0_pos x < 32 /\ lowest_0 x (last_0_pos x) /\ set_last_0 x = Z.setbit x (last_0_pos x).
Proof.
  intros Hx. destruct (lowest_0_exists x 32 Hx) as (n & Hn & Hlow).
  pose proof Hlow as (Hn0 & Hb & Hi). assert (Hx0 : 0 <= x) by lia.
  assert (E : last_0_pos x = n).
  { unfold last_0_pos. rewrite u32_small by lia.
    assert (El : Z.lxor (x + 1) x = Z.ones (Z.of_nat (Z.to_nat (n + 1)))).
    { rewrite Z2Nat.id by lia. apply Z.bits_inj'. intros i Hi0.
      rewrite Z.lxor_spec, (lowest_0_succ x n i), Z.testbit_ones_nonneg by (done || lia).
      destruct (Z.ltb_spec i n), (Z.ltb_spec i (n + 1)); try lia; [by rewrite Hi by lia| |].
      - destruct (Z.eqb_spec i n) as [->|]; [by rewrite Hb|lia].
      - destruct (Z.eqb_spec i n); [lia|]. by destruct (Z.testbit x i). }
    rewrite El, count_1s_ones, ones_ones; [lia|lia|]. unfold is_u32. rewrite Z.ones_equiv.
    pose proof (Z.pow_le_mono_r 2 (Z.of_nat (Z.to_nat (n + 1))) 32). pose proof (Z.pow_pos_nonneg 2 (Z.of_nat (Z.to_nat (n + 1)))). lia. }
  rewrite E. split; [lia|]. split; [done|]. unfold set_last_0. rewrite u32_small by lia.
  apply Z.bits_inj'. intros i Hi0. rewrite Z.lor_spec, (lowest_0_succ x n i), Z.setbit_eqb by (done || lia).
  destruct (Z.ltb_spec i n); [by rewrite Hi, orb_true_r by lia|]. rewrite (Z.eqb_sym n i).
  destruct (Z.eqb_spec i n); [by rewrite orb_true_r|]. by destruct (Z.testbit x i).
Qed.

Lemma unset_bit_spec x n i : is_u32 x -> 0 <= n < 32 -> 0 <= i ->
  Z.testbit (unset_bit_n x n) i = if i =? n then false else Z.testbit x i.
Proof.
  intros Hx Hn Hi. unfold unset_bit_n. rewrite Z.land_spec. destruct (Z.ltb_spec i 32).
  - unfold u32. rewrite Z.mod_pow2_bits_low, Z.lnot_spec, Z.shiftl_1_l, Z.pow2_bits_eqb by lia.
    rewrite (Z.eqb_sym n i). destruct (i =? n); [by rewrite andb_false_r|by rewrite andb_true_r].
  - rewrite (testbit_high x i 32) by done. by destruct (i =? n).
Qed.

(** The same for 64 bits, with hexadecimal digits and modulo 255. *)
Lemma nibble_split ds :
  Forall (digit 4) ds ->
  let mask n := value 4 (map (fun _ => n) ds) in
  value 4 ds - Z.land (Z.shiftr (value 4 ds) 1) (mask 7) - Z.land (Z.shiftr (value 4 ds) 2) (mask 3)
    - Z.land (Z.shiftr (value 4 ds) 3) (mask 1) = value 4 (map (ones 4) ds).
Proof.
  intros Hd mask. unfold mask. rewrite !Z.shiftr_div_pow2 by lia.
  change (2 ^ 1) with (2 ^ Z.of_nat 1). change (2 ^ 2) with (2 ^ Z.of_nat 2). change (2 ^ 3) with (2 ^ Z.of_nat 3).
  rewrite (land_shifted 4 1 7), (land_shifted 4 2 3), (land_shifted 4 3 1) by (done || lia).
  rewrite value_sub, !value_map_sub. f_equal. apply map_ext_Forall.
  eapply Forall_impl; [exact Hd|]. intros d H. by apply nibble_digit in H as (H & _).
Qed.

Lemma sum_nibbles ps : length ps = 16%nat -> Forall (fun p => 0 <= p <= 4) ps ->
  0 <= value 4 ps < 2 ^ 64 /\
  Z.land (u64 (value 4 ps + Z.shiftr (value 4 ps) 4)) 0x0F0F0F0F0F0F0F0F mod 255 = foldr Z.add 0 ps.
Proof.
  intros Hl Hps.
  destruct ps as [|p0 [|p1 [|p2 [|p3 [|p4 [|p5 [|p6 [|p7 [|p8 [|p9 [|p10 [|p11 [|p12 [|p13 [|p14 [|p15 [|? ?]]]]]]]]]]]]]]]]];
    try discriminate Hl.
  repeat (apply Forall_cons in Hps as (? & Hps)). clear Hl Hps.
  assert (E : value 4 [p0; p1; p2; p3; p4; p5; p6; p7; p8; p9; p10; p11; p12; p13; p14; p15] / 16 = value 4 [p1; p2; p3; p4; p5; p6; p7; p8; p9; p10; p11; p12; p13; p14; p15]).
  { cbn [value]. change (2 ^ Z.of_nat 4) with 16. symmetry. apply Z.div_unique with p0; lia. }
  rewrite Z.shiftr_div_pow2 by lia. change (2 ^ 4) with 16. rewrite E.
  assert (E2 : value 4 [p0; p1; p2; p3; p4; p5; p6; p7; p8; p9; p10; p11; p12; p13; p14; p15] + value 4 [p1; p2; p3; p4; p5; p6; p7; p8; p9; p10; p11; p12; p13; p14; p15] =
    value 4 [p0 + p1; p1 + p2; p2 + p3; p3 + p4; p4 + p5; p5 + p6; p6 + p7; p7 + p8; p8 + p9; p9 + p10; p10 + p11; p11 + p12; p12 + p13; p13 + p14; p14 + p15; p15])
    by (cbn [value]; lia).
  split; [cbn [value]; change (2 ^ Z.of_nat 4) with 16; lia|].
  rewrite E2, u64_small by (cbn [value]; change (2 ^ Z.of_nat 4) with 16; lia).
  change 0x0F0F0F0F0F0F0F0F with (value 4 [15; 0; 15; 0; 15; 0; 15; 0; 15; 0; 15; 0; 15; 0; 15; 0]).
  cbn [value]. rewrite !land_digits by (unfold digit; change (2 ^ Z.of_nat 4) with 16; lia).
  rewrite !Z.land_0_r, !land_15 by lia. change (2 ^ Z.of_nat 4) with 16.
  cbn [foldr]. Z.div_mod_to_equations. lia.
Qed.

Lemma count_1s_64_ones x : 0 <= x < 2 ^ 64 -> count_1s_64 x = ones 64 x.
Proof.
  intros Hx. set (ds := digits_of 4 16 x).
  assert (Hl : length ds = 16%nat) by apply digits_length.
  assert (Hd : Forall (digit 4) ds) by apply digits_ok.
  assert (Hv : value 4 ds = x) by (apply value_digits; change ((2 ^ Z.of_nat 4) ^ Z.of_nat 16) with (2 ^ 64); lia).
  assert (Hps : Forall (fun p => 0 <= p <= 4) (map (ones 4) ds)).
  { apply Forall_map. eapply Forall_impl; [exact Hd|]. intros d H. by apply nibble_digit in H as (_ & H). }
  assert (Hmask : value 4 (map (fun _ => 7) ds) = 0x7777777777777777 /\
    value 4 (map (fun _ => 3) ds) = 0x3333333333333333 /\ value 4 (map (fun _ => 1) ds) = 0x1111111111111111).
  { clearbody ds. clear -Hl. by do 16 (destruct ds as [|? ds]; [discriminate Hl|]); destruct ds. }
  destruct Hmask as (H7 & H3 & H1). clearbody ds.
  destruct (sum_nibbles (map (ones 4) ds)) as (Hb & Hs); [by rewrite length_map|done|].
  unfold count_1s_64. rewrite <- H7, <- H3, <- H1, <- Hv, nibble_split by done.
  rewrite (u64_small (value _ _)) by done. rewrite Hs, <- (ones_value 4 ds Hd), Hl, Hv. reflexivity.
Qed.

(** The population counts of bithacks.h, which add the bits up in octal and
    hexadecimal digits, return the number of bits set, for every 32-bit and
    every 64-bit word. *)
Lemma count_1s_correct x :
  (is_u32 x -> count_1s x = ones 32 x) /\ (0 <= x < 2 ^ 64 -> count_1s_64 x = ones 64 x).
Proof. split; [apply count_1s_ones|apply count_1s_64_ones]. Qed.

(** ** Powers of two *)

(** After [smear] has spread the top bit over [j] positions, [j] doubles. *)
Definition spread (l j x : Z) : Prop :=
  0 <= x /\ (forall i, l < i -> Z.testbit x i = false) /\
  forall i, 0 <= i -> l - j < i <= l -> Z.testbit x i = true.

Lemma spread_step l j x : 0 <= j -> spread l j x -> spread l (2 * j) (Z.lor x (Z.shiftr x j)).
Proof.
  intros Hj (H0 & Hhi & Hlo). split; [|split].
  - apply Z.lor_nonneg. split; [done|]. by apply Z.shiftr_nonneg.
  - intros i Hi. destruct (Z.ltb_spec i 0); [by apply Z.testbit_neg_r|].
    rewrite Z.lor_spec, Z.shiftr_spec, !Hhi by lia. done.
  - intros i Hi0 Hi. rewrite Z.lor_spec, Z.shiftr_spec by lia.
    destruct (Z.ltb_spec (l - j) i); [by rewrite Hlo by lia|].
    rewrite (Hlo (i + j)) by lia. by rewrite orb_true_r.
Qed.

Lemma smear_ones x : 0 < x < 2 ^ 32 -> smear x = Z.ones (Z.log2 x + 1).
Proof.
  intros Hx. set (l := Z.log2 x). pose proof (Z.log2_nonneg x) as Hl.
  assert (Hl2 : l < 32) by (apply Z.log2_lt_pow2; lia).
  assert (H : spread l 1 x).
  { split; [lia|]. split; [intros i Hi; apply Z.bits_above_log2; lia|].
    intros i _ Hi. replace i with l by lia. apply Z.bit_log2. lia. }
  do 5 (apply spread_step in H; [|lia]). cbn in H. destruct H as (_ & Hhi & Hlo).
  apply Z.bits_inj'. intros i Hi. unfold smear. rewrite Z.testbit_ones_nonneg by lia.
  destruct (Z.ltb_spec i (l + 1)); [apply Hlo; lia|apply Hhi; lia].
Qed.

(** [pow2rounddown] gives the largest power of two that is not above [x], and
    [pow2roundup] the smallest that is not below it. *)
Lemma pow2rounddown_spec x : 0 < x < 2 ^ 31 -> pow2rounddown x = 2 ^ Z.log2 x.
Proof.
  intros Hx. unfold pow2rounddown. destruct (Z.leb_spec x 0); [lia|]. rewrite smear_ones by lia.
  pose proof (Z.log2_nonneg x). rewrite Z.shiftr_div_pow2, Z.ones_equiv, Z.pow_add_r by lia.
  change (2 ^ 1) with 2. Z.div_mod_to_equations. lia.
Qed.

Lemma pow2roundup_spec x : 0 < x <= 2 ^ 30 -> pow2roundup x = 2 ^ Z.log2_up x.
Proof.
  intros Hx. unfold pow2roundup. destruct (Z.leb_spec x 0); [lia|].
  destruct (Z.eq_dec x 1) as [->|]; [done|]. rewrite smear_ones by lia.
  rewrite Z.log2_up_eqn, Z.ones_equiv by lia. rewrite <- Z.add_1_r. replace (Z.pred x) with (x - 1) by lia.
  assert (Z.log2 (x - 1) < 30) by (apply Z.log2_lt_pow2; lia).
  pose proof (Z.log2_nonneg (x - 1)). pose proof (Z.pow_le_mono_r 2 (Z.log2 (x - 1) + 1) 30).
  rewrite s32_small by lia. lia.
Qed.

End Bits.
