(* ===== verification/Tls.v ===== *)
(** The thread-local areas of the loader, [src/src/core/loader/tls.c]: a bitmap
    of slots, an LDT entry and pages for every thread.

    The descriptor of an area is at the end of its pages; [descs] is the memory
    the descriptors are in, by address, and [tls_list] the list threaded
    through them. The operations run with [tls_lock] held; that it excludes
    other threads is the mutex's promise ([Mutex.xmutex_exclusion]). *)
From S2P Require Import Prelude Kernel LzoDecompress Compression Mm ArchCheckpoint Bits.
Import Mm Bits.

(** ** The LDT *)

(** modify_ldt(2) with [WRITE_LDT]. *)
Class KernelLdt (K : Type) := { modify_ldt : K -> user_desc -> Z * K }.

Definition LDT_ENTRIES : Z := 8192.

(** The descriptor that clears an entry. *)
Definition LDT_empty (d : user_desc) : bool :=
  (base_addr d =? 0) && (limit d =? 0) && (desc_flags d =? 0x28).

(** What modify_ldt(2) promises about the table, and that the calls about
    pages leave the table alone and it leaves the pages alone. *)
Class KernelLdtLaws (K : Type) `{Kernel K} `{KernelPagesLaws K} `{KernelLdt K} := {
  ldt : K -> Z -> option user_desc;
  ldt_write : forall k d k', modify_ldt k d = (0, k') ->
    forall e, ldt k' e = if decide (e = entry_number d)
                         then (if LDT_empty d then None else Some d) else ldt k e;
  ldt_up : forall k d, 0 <= entry_number d < LDT_ENTRIES -> (modify_ldt k d).1 = 0;
  ldt_mapped : forall k d, mapped (modify_ldt k d).2 = mapped k;
  ldt_mmap : forall k n prot e, ldt (sys_uniform_mmap k n prot).2 e = ldt k e;
  ldt_munmap : forall k p n e, ldt (sys_munmap k p n).2 e = ldt k e;
  ldt_mprotect : forall k p n prot e, ldt (sys_mprotect k p n prot).2 e = ldt k e;
  mapped_mprotect : forall k p n prot, mapped (sys_mprotect k p n prot).2 = mapped k
}.

Module Tls.

(** ** State *)

(** bigbuffer.h: room for the big buffer, for its compressed form and for the
    working memory of the compressor. *)
Definition LZO1X_1_MEM_COMPRESS : Z := 16384 * 4.
Definition BIGBUFFER_PAGES : Z := (BIGBUFFER_SZ + PAGE_SIZE - 1) / PAGE_SIZE.
Definition BIGBUFFER_EXTRA_SZ : Z := Lzo.lzo1x_worst_compress BIGBUFFER_SZ + LZO1X_1_MEM_COMPRESS.
Definition BIGBUFFER_EXTRA_PAGES : Z := (BIGBUFFER_EXTRA_SZ + (PAGE_SIZE - 1)) / PAGE_SIZE.
Definition NR_TLS_PAGES : Z := BIGBUFFER_PAGES + BIGBUFFER_EXTRA_PAGES + 4.
Definition TLS_AREA_SIZE : Z := NR_TLS_PAGES * PAGE_SIZE.
Definition PROT_NONE : Z := 0.

Definition MAX_THREADS : Z := LDT_ENTRIES.
(** The number of words of the map: [sizeof(uint32_t)] is 4, not 32. *)
Definition SZ_MAP : Z := MAX_THREADS / 4.

Definition sizeof_tls_desc : Z := 24.

Record tls_desc := Td { fs_val : Z; nr : Z; start_addr : Z; size : Z }.

Record tls_state := Tlsst {
  tls_locked : bool;
  thread_map : list Z;
  tls_list : list Z;
  descs : gmap Z tls_desc
}.

Definition get_tls_desc (a : Z) : Z := a + TLS_AREA_SIZE - sizeof_tls_desc.

(** ** Slots *)

(** The loop of [find_set_free_slot] from word [i] on: the slot and the map
    behind [i] with its bit set. *)
Fixpoint slot_loop (i : Z) (map : list Z) : result (Z * list Z) :=
  match map with
  | [] => Fatal
  | w :: map =>
      if negb (w =? 0xffffffff) then Ok (i * 32 + last_0_pos w, set_last_0 w :: map)
      else '(n, map) ← slot_loop (i + 1) map; Ok (n, w :: map)
  end.

Definition find_set_free_slot (st : tls_state) : result (Z * list Z) :=
  _ ← assert (tls_locked st);
  slot_loop 0 (thread_map st).

Definition clear_slot (map : list Z) (tnr : Z) : result (list Z) :=
  let nr := tnr / 32 in
  let n := tnr mod 32 in
  w ← rd map nr;
  Ok (<[Z.to_nat nr := unset_bit_n w n]> map).

(** ** Areas *)

Section tls.
Context {K : Type} `{Kernel K} `{KernelPages K} `{KernelLdt K}.

Definition write_ldt (k : K) (d : user_desc) : result K :=
  let '(err, k) := modify_ldt k d in
  _ ← assert (err =? 0);
  Ok k.

(** The flags are those of the bit fields: [seg_32bit], [limit_in_pages] and
    [useable] are set. *)
Definition tls_user_desc (nr start : Z) : user_desc := Desc nr start NR_TLS_PAGES 0x51.

Definition setup_ldt (k : K) (start sz nr : Z) : result (tls_desc * K) :=
  k ← write_ldt k (tls_user_desc nr start);
  Ok (Td (u16 (nr * 8 + 4 + 3)) nr start sz, k).

(** [read_exec_only] and [seg_not_present] are set. *)
Definition clear_ldt (k : K) (td : tls_desc) : result K :=
  _ ← assert (nr td * 8 + 4 + 3 =? fs_val td);
  write_ldt k (Desc (nr td) 0 0 0x28).

(** The status of the [mprotect] of the low page is not looked at. *)
Definition alloc_tls_area (k : K) (st : tls_state) : result (Z * K * tls_state) :=
  let st := Tlsst true (thread_map st) (tls_list st) (descs st) in
  '(pages, k) ← xalloc_pages k TLS_AREA_SIZE false;
  let '(_, k) := sys_mprotect k pages PAGE_SIZE PROT_NONE in
  let td := get_tls_desc pages in
  '(n, map) ← find_set_free_slot st;
  '(d, k) ← setup_ldt k pages TLS_AREA_SIZE n;
  Ok (td, k, Tlsst false map (td :: tls_list st) (<[td := d]> (descs st))).

Definition dealloc_tls_area_nolock (k : K) (st : tls_state) (td : Z) : result (K * tls_state) :=
  d ← (match descs st !! td with Some d => Ok d | None => Stray Rd end);
  _ ← assert (get_tls_desc (start_addr d) =? td);
  _ ← assert (size d =? TLS_AREA_SIZE);
  let list := filter (fun a => a <> td) (tls_list st) in
  k ← clear_ldt k d;
  map ← clear_slot (thread_map st) (nr d);
  k ← xdealloc_pages k (start_addr d) (size d);
  Ok (k, Tlsst (tls_locked st) map list (delete td (descs st))).

Definition dealloc_tls_area (k : K) (st : tls_state) (td : Z) : result (K * tls_state) :=
  '(k, st) ← dealloc_tls_area_nolock k (Tlsst true (thread_map st) (tls_list st) (descs st)) td;
  Ok (k, Tlsst false (thread_map st) (tls_list st) (descs st)).

End tls.

(** ** Facts about the slots *)

(** Slot [n] is taken. *)
Definition slot (map : list Z) (n : Z) : bool :=
  match map !! Z.to_nat (n / 32) with
  | Some w => Z.testbit w (n mod 32)
  | None => false
  end.

Lemma slot_cons w map n : 0 <= n ->
  slot (w :: map) n = if n <? 32 then Z.testbit w n else slot map (n - 32).
Proof.
  intros Hn. unfold slot. destruct (Z.ltb_spec n 32).
  - rewrite Z.div_small, Z.mod_small by lia. done.
  - replace (n / 32) with ((n - 32) / 32 + 1) by (Z.div_mod_to_equations; lia).
    replace ((n - 32) mod 32) with (n mod 32) by (Z.div_mod_to_equations; lia).
    rewrite Z2Nat.inj_add, Nat.add_1_r by (try lia; apply Z.div_pos; lia). done.
Qed.

(** The loop takes the lowest free slot. *)
Lemma slot_loop_spec map i n0 :
  Forall is_u32 map -> 0 <= n0 < 32 * zlen map -> slot map n0 = false ->
  exists n map', slot_loop i map = Ok (i * 32 + n, map') /\ length map' = length map /\ Forall is_u32 map' /\
    0 <= n <= n0 /\ slot map n = false /\ (forall j, 0 <= j < n -> slot map j = true) /\
    forall j, 0 <= j -> slot map' j = if j =? n then true else slot map j.
Proof.
  intros Hmap. revert i n0. induction Hmap as [|w map Hw Hmap IH]; intros i n0 Hn Hfree.
  { change (zlen (@nil Z)) with 0 in Hn. lia. }
  rewrite zlen_cons in Hn. rewrite slot_cons in Hfree by lia. cbn [slot_loop]. unfold is_u32 in Hw.
  destruct (Z.eqb_spec w 0xffffffff) as [->|Hne]; cbn [negb].
  - assert (Hn0 : 32 <= n0).
    { destruct (Z.ltb_spec n0 32); [|done]. change 0xffffffff with (Z.ones 32) in Hfree.
      rewrite Z.testbit_ones_nonneg in Hfree by lia. apply Z.ltb_ge in Hfree. lia. }
    destruct (Z.ltb_spec n0 32); [lia|].
    destruct (IH (i + 1) (n0 - 32)) as (n & map' & E & Hl & Hok & Hle & Hf & Hlow & Hset); [lia|done|].
    exists (n + 32), (0xffffffff :: map'). rewrite E, bind_Ok. cbn [length].
    assert (Hones : forall j, 0 <= j < 32 -> Z.testbit 0xffffffff j = true).
    { intros j Hj. change 0xffffffff with (Z.ones 32). rewrite Z.testbit_ones_nonneg by lia. apply Z.ltb_lt. lia. }
    split; [do 2 f_equal; lia|]. split; [by rewrite Hl|]. split; [by constructor|]. split; [lia|].
    split; [|split].
    + rewrite slot_cons by lia. destruct (Z.ltb_spec (n + 32) 32); [lia|]. by replace (n + 32 - 32) with n by lia.
    + intros j Hj. rewrite slot_cons by lia. destruct (Z.ltb_spec j 32); [apply Hones; lia|apply Hlow; lia].
    + intros j Hj. rewrite !slot_cons by lia. destruct (Z.ltb_spec j 32).
      * destruct (Z.eqb_spec j (n + 32)); [lia|done].
      * rewrite Hset by lia. destruct (Z.eqb_spec (j - 32) n), (Z.eqb_spec j (n + 32)); lia || done.
  - destruct (last_0_spec w) as (Hr & (_ & Hb & Hlow) & Hset); [lia|]. set (n := last_0_pos w) in *.
    exists n, (set_last_0 w :: map). cbn [length]. split; [done|]. split; [done|]. split.
    { constructor; [|done]. rewrite Hset. unfold is_u32. rewrite Z.setbit_spec'. split.
      - apply Z.lor_nonneg. split; [lia|]. apply Z.pow_nonneg. lia.
      - apply Z.log2_lt_cancel. rewrite Z.log2_lor, (Z.log2_pow2 32), Z.log2_pow2 by (try lia; apply Z.pow_nonneg; lia).
        apply Z.max_lub_lt; [|lia]. destruct (Z.eq_dec w 0) as [->|]; [cbn; lia|]. apply Z.log2_lt_pow2; lia. }
    assert (Hle : n <= n0).
    { destruct (Z.ltb_spec n0 32); [|lia]. destruct (Z.leb_spec n n0); [done|]. rewrite Hlow in Hfree by lia. done. }
    split; [lia|]. rewrite slot_cons by lia. destruct (Z.ltb_spec n 32); [|lia]. split; [done|]. split.
    + intros j Hj. rewrite slot_cons by lia. destruct (Z.ltb_spec j 32); [apply Hlow; lia|lia].
    + intros j Hj. rewrite !slot_cons by lia. rewrite Hset. destruct (Z.ltb_spec j 32).
      * rewrite Z.setbit_eqb by lia. rewrite (Z.eqb_sym n j). by destruct (j =? n).
      * destruct (Z.eqb_spec j n); [lia|done].
Qed.

Lemma clear_slot_spec map n :
  Forall is_u32 map -> 0 <= n < 32 * zlen map ->
  exists map', clear_slot map n = Ok map' /\ length map' = length map /\ Forall is_u32 map' /\
    forall j, 0 <= j -> slot map' j = if j =? n then false else slot map j.
Proof.
  intros Hmap Hn. unfold clear_slot.
  destruct (rd_in_range map (n / 32)) as (w & Hw); [Z.div_mod_to_equations; lia|].
  rewrite Hw, bind_Ok. eexists. split; [done|]. split; [apply length_insert|].
  pose proof (Forall_rd _ _ _ _ Hmap Hw) as Hwu. apply rd_Ok_iff in Hw as (Hn0 & Hw).
  assert (Hm : 0 <= n mod 32 < 32) by (apply Z.mod_pos_bound; lia). split.
  - apply Forall_insert; [done|]. unfold is_u32, unset_bit_n in *. split; [apply Z.land_nonneg; lia|].
    apply (Z.le_lt_trans _ w); [|lia]. apply Z.ldiff_le; [lia|]. apply Z.bits_inj'. intros i Hi.
    rewrite Z.ldiff_spec, Z.land_spec, Z.bits_0. by destruct (Z.testbit w i), (Z.testbit _ i).
  - intros j Hj. unfold slot. destruct (decide (Z.to_nat (j / 32) = Z.to_nat (n / 32))) as [E|E].
    + rewrite E, list_lookup_insert_eq, Hw by (by eapply lookup_lt_Some).
      assert (Hj' : 0 <= j mod 32 < 32) by (apply Z.mod_pos_bound; lia).
      rewrite unset_bit_spec by (done || lia). apply Z2Nat.inj in E; [|apply Z.div_pos; lia|done].
      destruct (Z.eqb_spec (j mod 32) (n mod 32)), (Z.eqb_spec j n); try done; Z.div_mod_to_equations; lia.
    + rewrite list_lookup_insert_ne by done. destruct (Z.eqb_spec j n) as [->|]; [done|done].
Qed.

End Tls.
