(* ===== verification/TlsFacts.v ===== *)
(** The thread-local areas: every area has a slot of its own, whose LDT entry
    is the segment of its pages, and a slot is taken exactly as long as its
    area exists. *)
From S2P Require Import Prelude Kernel Mm ArchCheckpoint Bits Tls.
Import Mm Bits Tls.

Module TlsFacts.

Section facts.
Context {K : Type} {KF : Kernel K} {KP : KernelPages K} {KL : KernelPagesLaws K} {KU : KernelPagesUp K}.
Context {KD : KernelLdt K} {KDL : KernelLdtLaws K}.

(** ** The invariant *)

(** The area of the descriptor [d] at [a]. *)
Record area_ok (k : K) (map : list Z) (a : Z) (d : tls_desc) : Prop := {
  a_addr : a = get_tls_desc (start_addr d);
  a_size : size d = TLS_AREA_SIZE;
  a_fs : fs_val d = nr d * 8 + 4 + 3;
  a_nr : 0 <= nr d < LDT_ENTRIES;
  a_slot : slot map (nr d) = true;
  a_ldt : ldt k (nr d) = Some (tls_user_desc (nr d) (start_addr d));
  a_page : start_addr d mod PAGE_SIZE = 0;
  a_range : 0 < start_addr d /\ start_addr d + TLS_AREA_SIZE <= 2 ^ 32 - 4096;
  a_mapped : In (start_addr d, TLS_AREA_SIZE) (mapped k)
}.

Record tls_ok (k : K) (st : tls_state) : Prop := {
  t_unlocked : tls_locked st = false;
  t_length : zlen (thread_map st) = SZ_MAP;
  t_words : Forall is_u32 (thread_map st);
  t_nodup : NoDup (tls_list st);
  t_area : forall a, a ∈ tls_list st -> exists d, descs st !! a = Some d /\ area_ok k (thread_map st) a d;
  t_inj : forall a b da db, a ∈ tls_list st -> b ∈ tls_list st ->
    descs st !! a = Some da -> descs st !! b = Some db -> nr da = nr db -> a = b;
  t_used : forall n, 0 <= n -> slot (thread_map st) n = true ->
    exists a d, a ∈ tls_list st /\ descs st !! a = Some d /\ nr d = n
}.

(** ** A free slot *)

(** The slots of the areas, in the order of the list. *)
Definition slots (st : tls_state) : list Z :=
  map (fun a => match descs st !! a with Some d => nr d | None => -1 end) (tls_list st).

(** With fewer areas than entries one of the slots is free. *)
Lemma slot_free k st :
  tls_ok k st -> zlen (tls_list st) < LDT_ENTRIES ->
  exists n, 0 <= n < LDT_ENTRIES /\ slot (thread_map st) n = false.
Proof.
  intros [_ _ _ _ _ _ Hused] Hlen.
  destruct (decide (Forall (fun n => slot (thread_map st) n = true) (seqZ 0 LDT_ENTRIES))) as [Hall|Hsome].
  - exfalso. assert (Hsub : seqZ 0 LDT_ENTRIES ⊆ slots st).
    { intros n Hn. rewrite Forall_forall in Hall. specialize (Hall n Hn). apply elem_of_seqZ in Hn.
      destruct (Hused n) as (a & d & Ha & Hd & <-); [lia|done|]. unfold slots.
      apply list_elem_of_fmap. exists a. by rewrite Hd. }
    assert (Hle : (length (seqZ 0 LDT_ENTRIES) <= length (slots st))%nat).
    { apply submseteq_length, NoDup_submseteq; [apply NoDup_seqZ|done]. }
    rewrite length_seqZ in Hle. unfold slots in Hle. rewrite length_map in Hle. unfold zlen, LDT_ENTRIES in *. lia.
  - apply not_Forall_Exists in Hsome; [|apply _]. apply Exists_exists in Hsome as (n & Hn & Hf).
    apply elem_of_seqZ in Hn. exists n. split; [lia|]. by apply not_true_is_false.
Qed.

(** ** The calls *)

Lemma xalloc_ldt k sz ex p k' e : xalloc_pages k sz ex = Ok (p, k') -> ldt k' e = ldt k e.
Proof.
  unfold xalloc_pages. intros H. inv_bind H. destruct (sys_uniform_mmap k _ _) as [q k2] eqn:Em. inv_bind H.
  injection H as -> <-. apply (f_equal snd) in Em. cbn [snd] in Em. rewrite <- Em. apply ldt_mmap.
Qed.

Lemma xdealloc_up k p n :
  p mod PAGE_SIZE = 0 -> 0 < p -> 0 < n <= 2 ^ 26 -> n mod PAGE_SIZE = 0 -> p + n <= 2 ^ 32 - 4096 ->
  In (p, n) (mapped k) ->
  exists k', xdealloc_pages k p n = Ok k' /\ mapped k ≡ₚ (p, n) :: mapped k' /\ forall e, ldt k' e = ldt k e.
Proof.
  intros Hp Hp0 Hn Hal Hr Hin. unfold xdealloc_pages. rewrite is_valid_page_spec, Hp. cbn [Z.eqb assert]. rewrite bind_Ok.
  unfold PAGE_SIZE in *. rewrite align_up_aligned by (done || lia).
  pose proof (munmap_up k p n Hp ltac:(lia) ltac:(lia) ltac:(lia)) as Hu.
  destruct (sys_munmap k p n) as [err k'] eqn:E. cbn in Hu. subst err. cbn [Z.eqb assert]. rewrite bind_Ok.
  exists k'. split; [done|]. split; [by eapply munmap_ok|]. intros e. by rewrite <- (ldt_munmap k p n), E.
Qed.

Lemma write_ldt_up k d :
  0 <= entry_number d < LDT_ENTRIES ->
  exists k', write_ldt k d = Ok k' /\ mapped k' = mapped k /\
    forall e, ldt k' e = if decide (e = entry_number d) then (if LDT_empty d then None else Some d) else ldt k e.
Proof.
  intros Hd. unfold write_ldt. pose proof (ldt_up k d Hd) as Hu. pose proof (ldt_mapped k d) as Hm.
  destruct (modify_ldt k d) as [err k'] eqn:E. cbn in Hu, Hm. subst err. cbn [Z.eqb assert]. rewrite bind_Ok.
  exists k'. split; [done|]. split; [done|]. by apply ldt_write.
Qed.

Lemma area_size : TLS_AREA_SIZE = 4411392.
Proof. reflexivity. Qed.

(** An area stays well-formed when its slot, its entry and its pages do. *)
Lemma area_ok_mono k k' map map' a d :
  area_ok k map a d -> slot map' (nr d) = true -> ldt k' (nr d) = ldt k (nr d) ->
  In (start_addr d, TLS_AREA_SIZE) (mapped k') -> area_ok k' map' a d.
Proof. intros [? ? ? ? ? ? ? ? ?] Hs Hl Hm. constructor; try done. by rewrite Hl. Qed.

(** ** Allocation *)

Lemma selector_u16 n : 0 <= n < LDT_ENTRIES -> u16 (n * 8 + 4 + 3) = n * 8 + 4 + 3.
Proof. intros. apply u16_small. unfold LDT_ENTRIES in *. lia. Qed.

(** The selector of slot [n]: index, table indicator and privilege level. *)
Lemma selector_fields n : 0 <= n ->
  Z.shiftr (n * 8 + 4 + 3) 3 = n /\ Z.testbit (n * 8 + 4 + 3) 2 = true /\ Z.land (n * 8 + 4 + 3) 3 = 3.
Proof.
  intros Hn. split; [|split].
  - rewrite Z.shiftr_div_pow2 by lia. change (2 ^ 3) with 8. Z.div_mod_to_equations. lia.
  - apply Z.testbit_true; [lia|]. change (2 ^ 2) with 4. Z.div_mod_to_equations. lia.
  - change 3 with (2 ^ 2 - 1) at 2. rewrite land_mask by lia. change (2 ^ 2) with 4. Z.div_mod_to_equations. lia.
Qed.

Lemma tls_desc_used n p : LDT_empty (tls_user_desc n p) = false.
Proof. unfold LDT_empty, tls_user_desc. cbn [desc_flags]. by rewrite andb_false_r. Qed.

(** The state after an area at [p] with the slot [n] was added. *)
Lemma tls_ok_add k k' st p n map' :
  tls_ok k st -> 0 <= n < LDT_ENTRIES -> slot (thread_map st) n = false ->
  zlen map' = SZ_MAP -> Forall is_u32 map' ->
  (forall j, 0 <= j -> slot map' j = if j =? n then true else slot (thread_map st) j) ->
  p mod PAGE_SIZE = 0 -> 0 < p -> p + TLS_AREA_SIZE <= 2 ^ 32 - 4096 ->
  Forall (fun r => apart p TLS_AREA_SIZE r.1 r.2) (mapped k) -> mapped k' = (p, TLS_AREA_SIZE) :: mapped k ->
  (forall e, ldt k' e = if decide (e = n) then Some (tls_user_desc n p) else ldt k e) ->
  let td := get_tls_desc p in
  (td ∉ tls_list st) /\
  tls_ok k' (Tlsst false map' (td :: tls_list st) (<[td := Td (n * 8 + 4 + 3) n p TLS_AREA_SIZE]> (descs st))).
Proof.
  intros [_ Hlen Hw Hnd Harea Hinj Hused] Hn Hfree Hlen' Hw' Hset Hp Hp0 Hr Hap Hmap Hldt td.
  assert (Hne : forall a d, a ∈ tls_list st -> descs st !! a = Some d -> a <> td /\ nr d <> n).
  { intros a d Ha Hd. destruct (Harea a Ha) as (d' & Hd' & [Ea _ _ _ Hslot _ _ _ Hm]).
    assert (d' = d) as -> by congruence. split; [|congruence]. intros ->.
    rewrite Forall_forall in Hap. apply list_elem_of_In in Hm. specialize (Hap _ Hm). unfold apart in Hap. cbn in Hap.
    unfold td, get_tls_desc in Ea. rewrite area_size in *. lia. }
  assert (Hnew : td ∉ tls_list st).
  { intros Hin. destruct (Harea td Hin) as (d & Hd & _). by destruct (Hne td d Hin Hd). }
  split; [done|]. constructor; cbn [tls_locked thread_map tls_list descs]; try done.
  - by constructor.
  - intros a [->|Ha]%elem_of_cons.
    + eexists. rewrite lookup_insert_eq. split; [done|]. constructor; cbn [start_addr size fs_val nr]; try done.
      * rewrite Hset by lia. by rewrite Z.eqb_refl.
      * by rewrite Hldt, decide_True.
      * rewrite Hmap. by left.
    + destruct (Harea a Ha) as (d & Hd & Hok). destruct (Hne a d Ha Hd) as (Hna & Hnn). exists d.
      rewrite lookup_insert_ne by done. split; [done|]. pose proof Hok as [_ _ _ Hnr Hslot _ _ _ Hm].
      eapply area_ok_mono; [exact Hok|..].
      * rewrite Hset by lia. by destruct (nr d =? n).
      * by rewrite Hldt, decide_False.
      * rewrite Hmap. by right.
  - intros a b da db [->|Ha]%elem_of_cons [->|Hb]%elem_of_cons; [done|..];
      rewrite ?lookup_insert_eq, ?lookup_insert_ne by (intros <-; done); try rewrite lookup_insert_ne by (intros <-; done).
    + intros [= <-] Hdb E. cbn in E. destruct (Hne b db Hb Hdb). congruence.
    + intros Hda [= <-] E. cbn in E. destruct (Hne a da Ha Hda). congruence.
    + by apply Hinj.
  - intros j Hj. rewrite Hset by done. destruct (Z.eqb_spec j n) as [->|].
    + intros _. eexists td, _. rewrite lookup_insert_eq. split; [by left|]. done.
    + intros Hs. destruct (Hused j Hj Hs) as (a & d & Ha & Hd & E). exists a, d.
      destruct (Hne a d Ha Hd). rewrite lookup_insert_ne by done. split; [by right|done].
Qed.

Lemma alloc_tls_area_spec k st :
  tls_ok k st -> has_room k -> zlen (tls_list st) < LDT_ENTRIES ->
  exists td d k' st', alloc_tls_area k st = Ok (td, k', st') /\ tls_ok k' st' /\
    (td ∉ tls_list st) /\ tls_list st' = td :: tls_list st /\ descs st' = <[td := d]> (descs st) /\
    slot (thread_map st) (nr d) = false /\
    (forall j, 0 <= j < nr d -> slot (thread_map st) j = true) /\
    Z.shiftr (fs_val d) 3 = nr d /\ Z.testbit (fs_val d) 2 = true /\ Z.land (fs_val d) 3 = 3 /\
    forall e, e <> nr d -> ldt k' e = ldt k e.
Proof.
  intros Hok Hroom Hlen. destruct (slot_free k st Hok Hlen) as (n0 & Hn0 & Hf0).
  pose proof Hok as [_ Hl Hw _ _ _ _].
  destruct (slot_loop_spec (thread_map st) 0 n0) as (n & map' & Es & Hl' & Hw' & Hn & Hf & Hlow & Hset);
    [done|rewrite Hl; change SZ_MAP with 2048; unfold LDT_ENTRIES in *; lia|done|].
  destruct (xalloc_pages_up k TLS_AREA_SIZE false) as (p & k1 & Ep & Hp & Hp0 & Hr & Hap & Hm);
    [done|by vm_compute|by vm_compute|].
  unfold alloc_tls_area. rewrite Ep, bind_Ok. cbn beta zeta iota.
  pose proof (ldt_mprotect k1 p PAGE_SIZE PROT_NONE) as Hl2. pose proof (mapped_mprotect k1 p PAGE_SIZE PROT_NONE) as Hm2.
  destruct (sys_mprotect k1 p PAGE_SIZE PROT_NONE) as [err k2]. cbn [snd] in Hl2, Hm2.
  unfold find_set_free_slot. cbn [tls_locked thread_map tls_list descs assert]. rewrite bind_Ok, Es, bind_Ok.
  change (0 * 32 + n) with n. assert (Hnr : 0 <= n < LDT_ENTRIES) by lia. unfold setup_ldt.
  destruct (write_ldt_up k2 (tls_user_desc n p)) as (k3 & -> & Hm3 & Hl3); [done|]. rewrite bind_Ok, bind_Ok.
  rewrite selector_u16 by done.
  assert (Hldt : forall e, ldt k3 e = if decide (e = n) then Some (tls_user_desc n p) else ldt k e).
  { intros e. rewrite Hl3. cbn [tls_user_desc entry_number]. case_decide; [by rewrite tls_desc_used|].
    by rewrite Hl2, (xalloc_ldt _ _ _ _ _ _ Ep). }
  destruct (tls_ok_add k k3 st p n map') as (Hnew & Hok');
    try done; [by unfold zlen in *; rewrite Hl'|unfold PAGE_SIZE in *; lia|by rewrite Hm3, Hm2, Hm|].
  exists (get_tls_desc p), (Td (n * 8 + 4 + 3) n p TLS_AREA_SIZE), k3. eexists. split; [done|]. split; [done|].
  cbn [tls_list descs nr fs_val].
  split; [done|]. split; [done|]. split; [done|]. split; [done|]. split; [done|].
  destruct (selector_fields n) as (-> & -> & ->); [lia|]. repeat (split; [done|]).
  intros e He. by rewrite Hldt, decide_False.
Qed.

(** C34: with fewer than 8192 areas and pages left, [alloc_tls_area] returns a
    new area with the lowest free slot: its selector refers to the user-mode
    LDT entry of that slot, the entry is the segment of the area's own pages,
    and the slots, entries and pages of the other areas are untouched. The
    areas are consistent at the start. *)
Theorem alloc_tls_area_fresh k st :
  tls_ok k st -> has_room k -> zlen (tls_list st) < LDT_ENTRIES ->
  exists td d k' st', alloc_tls_area k st = Ok (td, k', st') /\ tls_ok k' st' /\
    (td ∉ tls_list st) /\ tls_list st' = td :: tls_list st /\ descs st' = <[td := d]> (descs st) /\
    slot (thread_map st) (nr d) = false /\
    (forall j, 0 <= j < nr d -> slot (thread_map st) j = true) /\
    Z.shiftr (fs_val d) 3 = nr d /\ Z.testbit (fs_val d) 2 = true /\ Z.land (fs_val d) 3 = 3 /\
    forall e, e <> nr d -> ldt k' e = ldt k e.
Proof. apply alloc_tls_area_spec. Qed.

(** ** Deallocation *)

Lemma tls_ok_remove k k' st td d map' :
  tls_ok k st -> td ∈ tls_list st -> descs st !! td = Some d ->
  zlen map' = SZ_MAP -> Forall is_u32 map' ->
  (forall j, 0 <= j -> slot map' j = if j =? nr d then false else slot (thread_map st) j) ->
  mapped k ≡ₚ (start_addr d, TLS_AREA_SIZE) :: mapped k' ->
  (forall e, e <> nr d -> ldt k' e = ldt k e) ->
  tls_ok k' (Tlsst false map' (filter (fun a => a <> td) (tls_list st)) (delete td (descs st))).
Proof.
  intros [_ Hlen Hw Hnd Harea Hinj Hused] Htd Hd Hlen' Hw' Hset Hmap Hldt.
  assert (Hothers : forall a d', a ∈ tls_list st -> a <> td -> descs st !! a = Some d' -> nr d' <> nr d)
    by (intros a d' Ha Hne Hd' E; apply Hne; eapply Hinj; eauto).
  constructor; cbn [tls_locked thread_map tls_list descs]; try done.
  - by apply NoDup_filter.
  - intros a (Hne & Ha)%list_elem_of_filter. destruct (Harea a Ha) as (d' & Hd' & Hok).
    exists d'. rewrite lookup_delete_ne by done. split; [done|]. pose proof (Hothers a d' Ha Hne Hd') as Hnn.
    pose proof Hok as [Ea _ _ Hnr Hslot _ _ _ Hm].
    eapply area_ok_mono; [exact Hok| |by apply Hldt|].
    + rewrite Hset by lia. by destruct (Z.eqb_spec (nr d') (nr d)).
    + apply list_elem_of_In. apply list_elem_of_In in Hm. rewrite Hmap in Hm. apply elem_of_cons in Hm as [E|]; [|done].
      injection E as E. destruct (Harea td Htd) as (d2 & Hd2 & [Etd _ _ _ _ _ _ _ _]).
      assert (d2 = d) as -> by congruence. destruct Hne. by rewrite Ea, E, Etd.
  - intros a b da db (Hna & Ha)%list_elem_of_filter (Hnb & Hb)%list_elem_of_filter.
    rewrite !lookup_delete_ne by done. by apply Hinj.
  - intros j Hj. rewrite Hset by done. destruct (Z.eqb_spec j (nr d)) as [|Hne]; [done|]. intros Hs.
    destruct (Hused j Hj Hs) as (a & d' & Ha & Hd' & E). exists a, d'.
    assert (a <> td) by (intros ->; congruence). rewrite lookup_delete_ne by done.
    split; [by apply list_elem_of_filter|done].
Qed.

(** C35: [dealloc_tls_area] of a live area always succeeds: it clears the
    area's LDT entry and its slot, unmaps exactly its pages and leaves the
    other areas as they were. The areas are consistent at the start. *)
Theorem dealloc_tls_area_frees k st td :
  tls_ok k st -> td ∈ tls_list st ->
  exists d k' st', descs st !! td = Some d /\ dealloc_tls_area k st td = Ok (k', st') /\ tls_ok k' st' /\
    tls_list st' = filter (fun a => a <> td) (tls_list st) /\
    slot (thread_map st') (nr d) = false /\ ldt k' (nr d) = None /\
    mapped k ≡ₚ (start_addr d, TLS_AREA_SIZE) :: mapped k'.
Proof.
  intros Hok Htd. pose proof Hok as [_ Hlen Hw _ Harea _ _]. destruct (Harea td Htd) as (d & Hd & Ha).
  pose proof Ha as [Etd Esz Efs Hnr Hslot Hl Hp (Hp0 & Hr) Hm]. exists d.
  unfold dealloc_tls_area, dealloc_tls_area_nolock, clear_ldt. cbn [descs thread_map tls_list tls_locked].
  rewrite Hd, bind_Ok, <- Etd, Z.eqb_refl. cbn [assert]. rewrite bind_Ok, Esz, Z.eqb_refl. cbn [assert].
  rewrite bind_Ok, Efs, Z.eqb_refl. cbn [assert]. rewrite bind_Ok.
  destruct (write_ldt_up k (Desc (nr d) 0 0 0x28)) as (k1 & -> & Hm1 & Hl1); [exact Hnr|]. rewrite bind_Ok.
  destruct (clear_slot_spec (thread_map st) (nr d)) as (map' & -> & Hl' & Hw' & Hset);
    [done|rewrite Hlen; change SZ_MAP with 2048; unfold LDT_ENTRIES in *; lia|]. rewrite bind_Ok.
  destruct (xdealloc_up k1 (start_addr d) TLS_AREA_SIZE) as (k2 & -> & Hm2 & Hl2);
    [done|done|by vm_compute|by vm_compute|done|by rewrite Hm1|]. rewrite bind_Ok, bind_Ok.
  eexists k2, _. split; [done|]. split; [done|]. cbn [thread_map tls_list descs]. rewrite Hm1 in Hm2.
  split; [|split; [done|split; [|split; [|done]]]].
  - apply (tls_ok_remove k k2 st td d); try done; [by unfold zlen in *; rewrite Hl'|].
    intros e He. by rewrite Hl2, Hl1, decide_False.
  - rewrite Hset by lia. by rewrite Z.eqb_refl.
  - by rewrite Hl2, Hl1, decide_True.
Qed.

Lemma tls_init_ok k : tls_ok k (Tlsst false (replicate (Z.to_nat SZ_MAP) 0) [] ∅).
Proof.
  assert (Hs : forall n, slot (replicate (Z.to_nat SZ_MAP) 0) n = false).
  { intros n. unfold slot. destruct (replicate _ _ !! _) eqn:E; [|done].
    apply lookup_replicate in E as (-> & _). by rewrite Z.testbit_0_l. }
  constructor; cbn [tls_locked thread_map tls_list descs].
  - done.
  - by vm_compute.
  - apply Forall_replicate. by unfold is_u32.
  - constructor.
  - intros a Ha. by apply not_elem_of_nil in Ha.
  - intros a b da db Ha. by apply not_elem_of_nil in Ha.
  - intros n _. by rewrite Hs.
Qed.

End facts.

(** ** A kernel with files, pages and an LDT *)

Module Machine.

Record machine := Mach { ram : Ram.ram; pages : Pages.pages; table : gmap Z user_desc }.

Definition on_ram {A} (k : machine) (r : A * Ram.ram) : A * machine := (r.1, Mach r.2 (pages k) (table k)).
Definition on_pages {A} (k : machine) (r : A * Pages.pages) : A * machine := (r.1, Mach (ram k) r.2 (table k)).

#[global] Instance machine_kernel : Kernel machine := {
  sys_write k fd l := on_ram k (sys_write (ram k) fd l);
  sys_open k fn flags mode := on_ram k (sys_open (ram k) fn flags mode);
  sys_close k fd := on_ram k (sys_close (ram k) fd);
  sys_read k fd n := on_ram k (sys_read (ram k) fd n);
  sys_stat64 k fn := on_ram k (sys_stat64 (ram k) fn);
  sys_mprotect k p n prot := on_ram k (sys_mprotect (ram k) p n prot);
  sys_brk k p := on_ram k (sys_brk (ram k) p)
}.

#[global] Instance machine_pages : KernelPages machine := {
  sys_uniform_mmap k n prot := on_pages k (sys_uniform_mmap (pages k) n prot);
  sys_munmap k p n := on_pages k (sys_munmap (pages k) p n)
}.

#[global] Program Instance machine_pages_laws : KernelPagesLaws machine := { mapped k := mapped (pages k) }.
Next Obligation.
  intros k n prot p k' Hn Hal. cbn [sys_uniform_mmap machine_pages]. unfold on_pages.
  destruct (sys_uniform_mmap (pages k) n prot) as [q pk] eqn:E. intros [= <- <-]. by eapply mmap_ok.
Qed.
Next Obligation.
  intros k p n k' Hin. cbn [sys_munmap machine_pages]. unfold on_pages.
  destruct (sys_munmap (pages k) p n) as [q pk] eqn:E. intros [= -> <-]. by eapply munmap_ok.
Qed.

#[global] Program Instance machine_pages_up : KernelPagesUp machine := { has_room k := has_room (pages k) }.
Next Obligation. intros k n prot Hr Hn. exact (mmap_up (pages k) n prot Hr Hn). Qed.
Next Obligation. intros k p n H1 H2 H3 H4. exact (munmap_up (pages k) p n H1 H2 H3 H4). Qed.

#[global] Instance machine_ldt : KernelLdt machine := {
  modify_ldt k d :=
    if decide (0 <= entry_number d < LDT_ENTRIES) then
      (0, Mach (ram k) (pages k)
            (if LDT_empty d then delete (entry_number d) (table k) else <[entry_number d := d]> (table k)))
    else (-22, k)
}.

#[global] Program Instance machine_ldt_laws : KernelLdtLaws machine := { ldt k e := table k !! e }.
Next Obligation.
  intros k d k' E e. cbn in E. destruct (decide (0 <= entry_number d < LDT_ENTRIES)); [|done].
  injection E as <-. cbn. destruct (LDT_empty d), (decide (e = entry_number d)) as [->|];
    by rewrite ?lookup_insert_eq, ?lookup_delete_eq, ?lookup_insert_ne, ?lookup_delete_ne by done.
Qed.
Next Obligation. intros k d Hd. cbn. by rewrite decide_True. Qed.
Next Obligation. intros k d. cbn. by destruct (decide _). Qed.
Next Obligation. done. Qed.
Next Obligation. done. Qed.
Next Obligation. done. Qed.
Next Obligation. done. Qed.

Definition start : machine := Mach Ram.empty (Pages.Pagesk []) ∅.

End Machine.

Definition no_areas : tls_state := Tlsst false (replicate (Z.to_nat SZ_MAP) 0) [] ∅.

Lemma alloc_tls_area_fresh_witness :
  exists td d k' st', alloc_tls_area Machine.start no_areas = Ok (td, k', st') /\ tls_ok k' st' /\
    tls_list st' = [td] /\ descs st' = {[ td := d ]} /\ Z.shiftr (fs_val d) 3 = nr d.
Proof.
  destruct (alloc_tls_area_fresh Machine.start no_areas) as (td & d & k' & st' & E & Hok & _ & El & Ed & _ & _ & Ef & _).
  - apply tls_init_ok.
  - by vm_compute.
  - by vm_compute.
  - exists td, d, k', st'. exact (conj E (conj Hok (conj El (conj Ed Ef)))).
Defined.

(** An area was allocated. *)
Definition one_area : Z * Machine.machine * tls_state :=
  match alloc_tls_area Machine.start no_areas with
  | Ok r => r
  | _ => (0, Machine.start, no_areas)
  end.

Lemma one_area_ok : tls_ok one_area.1.2 one_area.2 /\ one_area.1.1 ∈ tls_list one_area.2.
Proof.
  destruct (alloc_tls_area_spec Machine.start no_areas) as (td & d & k' & st' & E & Hok & _ & El & _);
    [apply tls_init_ok|by vm_compute|by vm_compute|].
  unfold one_area. rewrite E. cbn [fst snd]. split; [exact Hok|]. rewrite El. apply elem_of_cons. by left.
Qed.

Lemma dealloc_tls_area_frees_witness :
  exists d k' st', descs one_area.2 !! one_area.1.1 = Some d /\
    dealloc_tls_area one_area.1.2 one_area.2 one_area.1.1 = Ok (k', st') /\ tls_ok k' st' /\
    slot (thread_map st') (nr d) = false /\ ldt k' (nr d) = None.
Proof.
  destruct one_area_ok as (Hok & Hin).
  destruct (dealloc_tls_area_frees one_area.1.2 one_area.2 one_area.1.1 Hok Hin)
    as (d & k' & st' & Hd & E & Hok' & _ & Hs & Hl & _).
  exists d, k', st'. exact (conj Hd (conj E (conj Hok' (conj Hs Hl)))).
Defined.

End TlsFacts.
