(* ===== verification/Checkpoint.v ===== *)
(** Checkpoints, [src/src/core/loader/checkpoint.c]: the file a process writes
    its command line, registers, thread-local segments and memory to.

    The memory of the process is the flat list [mem]; the pages the text of
    /proc/self/maps is read into are a list of their own, and a pointer into
    them is an offset from [procmap_ptr]. [COMPRESS_CKPT] is not defined in the
    build, so [writeto] writes to the file at once and the big buffer, which
    [do_checkpoint] resets and flushes, stays empty. *)
From S2P Require Import Prelude Kernel CString Proc Mm ArchCheckpoint Compression Bigbuffer Startup.
Import Str Proc Mm Arch Compr Big Startup.

Module Ckpt.

(** [enum ckpt_mark] *)
Definition CKPT_SECT_END_MARK : Z := 0.
Definition CKPT_SECT_EXEC_MARK : Z := 1.
Definition CKPT_SECT_ARGS_MARK : Z := 2.
Definition CKPT_SECT_ENVS_MARK : Z := 3.
Definition CKPT_SECT_CPU_MARK : Z := 4.
Definition CKPT_SECT_TLS_MARK : Z := 5.
Definition CKPT_SECT_MEMSEG_MARK : Z := 6.
Definition CKPT_SUBSECT_FN_MARK : Z := 7.
Definition CKPT_SUBSECT_FINFO_MARK : Z := 8.
Definition CKPT_SUBSECT_FDATA_MARK : Z := 9.

Definition CKPT_VERSION_STRING : list Z := literal "SNITCHASER-CKPT87".
Definition PROCMAP_GUARD : Z := 1 * PAGE_SIZE.

(** [struct map_file_info], as it is laid out on i386 (28 bytes). *)
Record map_file_info := Finfo {
  f_prot : Z; f_offset : Z; f_space_sz : Z; f_ckpt_sz : Z; f_start : Z; f_end : Z
}.

Definition finfo_bytes (f : map_file_info) : list Z :=
  le32 (f_prot f) ++ le64 (f_offset f) ++ le32 (f_space_sz f) ++ le32 (f_ckpt_sz f) ++
  le32 (f_start f) ++ le32 (f_end f).

(** [struct checkpoint_head]: the string with its NUL, two bytes of padding
    (zeroed like the rest) and six words. *)
Definition head_bytes (pid tid tls_start tls_size brk stack_top : Z) : list Z :=
  CKPT_VERSION_STRING ++ [0; 0] ++ le32 pid ++ le32 tid ++ le32 tls_start ++ le32 tls_size ++
  le32 brk ++ le32 stack_top.

(** [struct sg], with the bytes [ptr] and [length] refer to when the section is
    written. *)
Record sg := Sg { have_imark : bool; imark : Z; sg_bytes : list Z }.

Definition setup_sglist (haveim : bool) (im : Z) (bytes : list Z) : sg := Sg haveim im bytes.

Section ckpt.
Context {K : Type} `{Kernel K} `{KernelPages K} `{KernelTls K} `{LzoApi} (stack : K -> Z -> Z).
Variable mem : list Z.

(** [fn] is the name without its NUL. The size that is left of the file is
    computed and not used. *)
Definition get_aval_size (k : K) (fn : list Z) (offset desire_size : Z) : Z * K :=
  let desire_size := ALIGN_UP desire_size PAGE_SIZE in
  match fn with
  | [] => (desire_size, k)
  | c :: _ =>
      if c =? 91 then (desire_size, k)
      else
        let '(err, st_size, k) := sys_stat64 k fn in
        if negb (err =? 0) then (desire_size, k)
        else
          let retval := if u64 st_size <? u64 (offset + desire_size)
                        then ALIGN_UP (st_size - offset) PAGE_SIZE else desire_size in
          (desire_size, k)
  end.

Definition writeto (k : K) (fd : Z) (buffer : list Z) : result K :=
  if zlen buffer =? 0 then Ok k
  else
    let '(err, k) := sys_write k fd buffer in
    _ ← assert (u32 err =? zlen buffer);
    Ok k.

(** The size field of a section, a [size_t]. *)
Fixpoint sg_size (sglist : list sg) (sz : Z) : Z :=
  match sglist with
  | [] => sz
  | s :: sglist =>
      let sz := if have_imark s then u32 (sz + (4 + 4)) else sz in
      sg_size sglist (u32 (sz + zlen (sg_bytes s)))
  end.

Fixpoint write_sgs (k : K) (fd : Z) (sglist : list sg) : result K :=
  match sglist with
  | [] => Ok k
  | s :: sglist =>
      k ← (if have_imark s then
             k ← writeto k fd (le32 (imark s));
             writeto k fd (le32 (zlen (sg_bytes s)))
           else Ok k);
      k ← writeto k fd (sg_bytes s);
      write_sgs k fd sglist
  end.

Definition write_section_sg (k : K) (fd mark : Z) (sglist : list sg) : result K :=
  let sz := sg_size sglist 0 in
  k ← writeto k fd (le32 mark);
  k ← writeto k fd (le32 sz);
  write_sgs k fd sglist.

Definition write_section (k : K) (fd mark : Z) (bytes : list Z) : result K :=
  write_section_sg k fd mark [Sg false 0 bytes].

Definition ckpt_baseinfo (k : K) (fd : Z) (info : startup_stack_info) : result K :=
  _ ← assert (negb (bottom_exec_fn info =? 0));
  n ← strlen mem (bottom_exec_fn info);
  exe ← mem_read mem (bottom_exec_fn info) (n + 1);
  k ← write_section k fd CKPT_SECT_EXEC_MARK exe;
  _ ← assert (negb (cmdline_argbegin info =? 0));
  _ ← assert (negb (cmdline_argend info =? 0));
  _ ← assert (cmdline_argbegin info <? cmdline_argend info);
  args ← mem_read mem (cmdline_argbegin info) (cmdline_argend info - cmdline_argbegin info);
  k ← write_section k fd CKPT_SECT_ARGS_MARK args;
  _ ← assert (negb (envbegin info =? 0));
  _ ← assert (negb (envend info =? 0));
  _ ← assert (envbegin info <? envend info);
  envs ← mem_read mem (envbegin info) (envend info - envbegin info);
  write_section k fd CKPT_SECT_ENVS_MARK envs.

(** [pad] is what the buffer on the stack had in the padding of the structure. *)
Definition ckpt_archinfo (k : K) (fd : Z) (c : cpu) (pad : list Z) (regs : pusha_regs) (pc : Z) : result K :=
  b ← get_ckpt_cpuinfo c pad 1024 regs pc;
  k ← write_section k fd CKPT_SECT_CPU_MARK b;
  b ← get_tls_info k b 1024;
  write_section k fd CKPT_SECT_TLS_MARK b.

(** The list of a segment. It holds a pointer to [finfo], so what is written is
    its value at the time of the write, with the size of the data in it. *)
Definition memseg_list (r : proc_maps_entry_t) (name : list Z) (ckpt_sz : Z) (data : list Z) : list sg :=
  let finfo := Finfo (prot r) (offset r) (u32 (end_ r - start r)) ckpt_sz (start r) (end_ r) in
  [setup_sglist true CKPT_SUBSECT_FN_MARK (name ++ [0]);
   setup_sglist true CKPT_SUBSECT_FINFO_MARK (finfo_bytes finfo);
   setup_sglist true CKPT_SUBSECT_FDATA_MARK data].

(** [if (!(r.prot & PROT_READ)) ... sys_mprotect(.., prot)], before and after
    the write. *)
Definition reprotect (k : K) (r : proc_maps_entry_t) (pr : Z) : result K :=
  if Z.land (prot r) PROT_READ =? 0 then
    let '(err, k) := sys_mprotect k (start r) (u32 (end_ r - start r)) pr in
    _ ← assert (err =? 0);
    Ok k
  else Ok k.

(** How much of a mapping is saved; [buf] is the memory [r.fn] points into. *)
Definition memseg_size (k : K) (buf : list Z) (name : list Z) (r : proc_maps_entry_t) : result (Z * K) :=
  let space_sz := u32 (end_ r - start r) in
  match fn r with
  | None => Ok (space_sz, k)
  | Some p =>
      c ← rd buf p;
      if c =? 91 then Ok (space_sz, k)
      else
        let '(aval_sz, k) := get_aval_size k name (offset r) space_sz in
        _ ← assert (aval_sz mod PAGE_SIZE =? 0);
        Ok (aval_sz, k)
  end.

(** [memcmp(r.fn, "/dev", 4) == 0] *)
Definition is_dev_file (buf : list Z) (r : proc_maps_entry_t) : result bool :=
  match fn r with
  | Some p => c ← memcmp (buf ++ codes "/dev") p (zlen buf) 4; Ok (c =? 0)
  | None => Ok false
  end.

Definition ckpt_memseg (k : K) (fd : Z) (buf : list Z) (r : proc_maps_entry_t) : result K :=
  _ ← assert (valid r);
  name ← (match fn r with Some p => mem_read buf p (fn_len r) | None => Ok [] end);
  dev ← is_dev_file buf r;
  if (dev : bool) then write_section_sg k fd CKPT_SECT_MEMSEG_MARK (memseg_list r name 0 [])
  else
    k ← reprotect k r (Z.lor (prot r) PROT_READ);
    '(ckpt_sz, k) ← memseg_size k buf name r;
    data ← mem_read mem (start r) ckpt_sz;
    k ← write_section_sg k fd CKPT_SECT_MEMSEG_MARK (memseg_list r name ckpt_sz data);
    reprotect k r (prot r).

(** The [while (r.valid)] of [ckpt_meminfo]. *)
Fixpoint memseg_loop (fuel : nat) (k : K) (fd : Z) (buf : list Z) (procmap_ptr : Z)
    (r : proc_maps_entry_t) (h : proc_mem_handler_t) : result K :=
  if valid r then
    match fuel with
    | O => NoFuel
    | S fuel =>
        k ← (if start r =? procmap_ptr then Ok k else ckpt_memseg k fd buf r);
        '(r, h) ← read_maps_line buf h;
        memseg_loop fuel k fd buf procmap_ptr r h
    end
  else Ok k.

Definition ckpt_meminfo (k : K) (fd : Z) : result K :=
  '(g1, k) ← xalloc_pages k (MAX_PROC_MAPS_FILE_SIZE + 2 * PROCMAP_GUARD) false;
  _ ← assert (negb (g1 =? 0));
  let procmap_ptr := g1 + PROCMAP_GUARD in
  let g2 := procmap_ptr + MAX_PROC_MAPS_FILE_SIZE in
  k ← xdealloc_pages k g1 PROCMAP_GUARD;
  k ← xdealloc_pages k g2 PROCMAP_GUARD;
  let buf := replicate (Z.to_nat MAX_PROC_MAPS_FILE_SIZE) 0 in
  '(k, buf, h) ← read_self_procmap k buf 0;
  '(r, h) ← read_maps_line buf h;
  k ← memseg_loop (find_fuel h) k fd buf procmap_ptr r h;
  k ← xdealloc_pages k procmap_ptr MAX_PROC_MAPS_FILE_SIZE;
  k ← writeto k fd (le32 CKPT_SECT_END_MARK);
  writeto k fd (le32 0).

Definition do_checkpoint (k : K) (info : startup_stack_info) (c : cpu) (pad : list Z) (regs : pusha_regs)
    (pc stack_top : Z) (fn : fname) (pid tid tls_start tls_size : Z) (bb : bigbuffer) :
    result (K * bigbuffer) :=
  let bb := init_bigbuffer bb in
  let '(fd, k) := sys_open k fn (Z.lor (Z.lor O_WRONLY O_CREAT) O_TRUNC) 0x1b4 in
  _ ← assert (0 <=? fd);
  let '(brk, k) := sys_brk k 0 in
  k ← writeto k fd (head_bytes pid tid tls_start tls_size brk stack_top);
  k ← ckpt_baseinfo k fd info;
  k ← ckpt_archinfo k fd c pad regs pc;
  k ← ckpt_meminfo k fd;
  '(k, bb) ← flush_bigbuffer stack k fd bb;
  let '(_, k) := sys_close k fd in
  Ok (k, bb).

End ckpt.

(** ** Reading a checkpoint *)

(** The format as a reader takes it apart: a mark, a length and that many
    bytes. *)
Definition read_tlv (b : list Z) : option (Z * list Z * list Z) :=
  if 8 <=? zlen b then
    let n := word_at b 4 in
    if 8 + n <=? zlen b then Some (word_at b 0, zslice b 8 n, drop (Z.to_nat (8 + n)) b) else None
  else None.

(** Sections up to the end mark, and the parts of a section up to its end. *)
Fixpoint read_sections (fuel : nat) (b : list Z) : option (list (Z * list Z)) :=
  match fuel with
  | O => None
  | S fuel =>
      '(mark, d, b) ← read_tlv b;
      if mark =? CKPT_SECT_END_MARK then Some []
      else l ← read_sections fuel b; Some ((mark, d) :: l)
  end.

Fixpoint read_parts (fuel : nat) (b : list Z) : option (list (Z * list Z)) :=
  match fuel with
  | O => None
  | S fuel =>
      match b with
      | [] => Some []
      | _ => '(mark, d, b) ← read_tlv b; l ← read_parts fuel b; Some ((mark, d) :: l)
      end
  end.

(** A memory segment: the name, the description and the data. *)
Record segment := Segment { s_name : list Z; s_finfo : map_file_info; s_data : list Z }.

Definition finfo_of (b : list Z) : map_file_info :=
  Finfo (word_at b 0) (of_le (zslice b 4 8)) (word_at b 12) (word_at b 16) (word_at b 20) (word_at b 24).

Definition read_segment (s : Z * list Z) : option segment :=
  if s.1 =? CKPT_SECT_MEMSEG_MARK then
    l ← read_parts 4 s.2;
    match l with
    | [(m1, n); (m2, f); (m3, d)] =>
        if (m1 =? CKPT_SUBSECT_FN_MARK) && (m2 =? CKPT_SUBSECT_FINFO_MARK) && (m3 =? CKPT_SUBSECT_FDATA_MARK)
        then Some (Segment (removelast n) (finfo_of f) d) else None
    | _ => None
    end
  else None.

End Ckpt.
