(* ===== verification/CheckpointFacts.v ===== *)
(** A checkpoint holds what the process was: on a kernel whose calls succeed the
    file written by [do_checkpoint] is taken apart by a reader into the command
    line, the environment, the processor state, the thread-local segments and
    exactly the memory mappings of the process with their contents. *)
From S2P Require Import Prelude Kernel CString CStringFacts Proc ProcFacts Mm ArchCheckpoint.
From S2P Require Import Compression Bigbuffer Startup StartupFacts Checkpoint.
Import Str StrFacts Proc ProcFacts Mm Arch Compr Big Startup StartupFacts Ckpt.

(** ** What the kernel promises *)

(** The files and descriptors are as before. *)
Definition quiet {K} `{KernelFiles K} (k k' : K) : Prop :=
  (forall fd, fd_file k' fd = fd_file k fd) /\ forall fn, file_bytes k' fn = file_bytes k fn.

Definition maps_file : fname := codes "/proc/self/maps".

(** [vmas] are the mappings of the process, see proc(5). Calls about memory do
    not touch files, calls about files do not touch mappings or segments. Pages
    between two unmapped pages are a mapping of their own below the stack, and
    mapping them leaves the others alone. The maps file is handed out by one
    read when it fits. *)
Class KernelMaps (K : Type) `{KernelFiles K} `{KernelPages K} `{KernelTlsLaws K} := {
  vmas : K -> list vma;
  write_vmas : forall k fd l, vmas (sys_write k fd l).2 = vmas k;
  write_areas : forall k fd l e, areas (sys_write k fd l).2 e = areas k e;
  open_vmas : forall k fn flags mode, vmas (sys_open k fn flags mode).2 = vmas k;
  open_areas : forall k fn flags mode e, areas (sys_open k fn flags mode).2 e = areas k e;
  brk_quiet : forall k p, quiet k (sys_brk k p).2;
  brk_vmas : forall k, vmas (sys_brk k 0).2 = vmas k;
  brk_areas : forall k p e, areas (sys_brk k p).2 e = areas k e;
  stat_quiet : forall k fn, quiet k (sys_stat64 k fn).2;
  mprotect_quiet : forall k p n prot, quiet k (sys_mprotect k p n prot).2;
  mmap_quiet : forall k n prot, quiet k (sys_uniform_mmap k n prot).2;
  munmap_quiet : forall k p n, quiet k (sys_munmap k p n).2;
  close_fds : forall k fd fd', fd' <> fd -> fd_file (sys_close k fd).2 fd' = fd_file k fd';
  maps_open : forall k fd k', sys_open k maps_file O_RDONLY 0 = (fd, k') -> 0 <= fd ->
    fd_file k fd = None /\ (forall fd', fd' <> fd -> fd_file k' fd' = fd_file k fd') /\
    forall fn, file_bytes k' fn = file_bytes k fn;
  maps_read : forall k fd k1 n err data k2,
    sys_open k maps_file O_RDONLY 0 = (fd, k1) -> 0 <= fd -> zlen (maps_text (vmas k)) < n ->
    sys_read k1 fd n = (err, data, k2) ->
    data = maps_text (vmas k) /\ err = zlen data /\ quiet k1 k2;
  guarded : forall k n prot p k1 k2 k3,
    0 < n -> n mod PAGE_SIZE = 0 ->
    sys_uniform_mmap k (n + 2 * PAGE_SIZE) prot = (p, k1) -> p mod PAGE_SIZE = 0 ->
    sys_munmap k1 p PAGE_SIZE = (0, k2) -> sys_munmap k2 (p + PAGE_SIZE + n) PAGE_SIZE = (0, k3) ->
    exists v l1 l2, vmas k = l1 ++ l2 /\ vmas k3 = l1 ++ v :: l2 /\ last (vmas k3) = last (vmas k) /\
      v_start v = p + PAGE_SIZE /\ vma_ok v /\ zlen (maps_line v) < 100 /\ no_nul (maps_line v) /\
      Forall (fun v' => v_start v' <> p + PAGE_SIZE) (vmas k)
}.

(** mprotect(2) succeeds on the mappings of the process, and calls about files
    do not use up the pages the kernel has. *)
Class KernelMapsUp (K : Type) `{Kernel K} `{KernelPagesUp K} : Prop := {
  mprotect_up : forall k p n prot, (sys_mprotect k p n prot).1 = 0;
  room_write : forall k fd l, has_room k -> has_room (sys_write k fd l).2;
  room_open : forall k fn flags mode, has_room k -> has_room (sys_open k fn flags mode).2;
  room_brk : forall k, has_room k -> has_room (sys_brk k 0).2
}.

Module CkptFacts.

(** ** The file as bytes *)

Definition tlv (mark : Z) (b : list Z) : list Z := le32 mark ++ le32 (zlen b) ++ b.

(** The name of a device, whose data is not saved. *)
Definition is_dev (name : option (list Z)) : bool :=
  match name with Some n => bool_decide (codes "/dev" `prefix_of` n) | None => false end.

(** The description and the data a mapping is saved with. *)
Definition segment_of (mem : list Z) (v : vma) : segment :=
  let sz := v_end v - v_start v in
  let dev := is_dev (v_name v) in
  Segment (default [] (v_name v))
    (Finfo (prot_of (v_perms v)) (v_offset v) sz (if dev then 0 else sz) (v_start v) (v_end v))
    (if dev then [] else zslice mem (v_start v) sz).

Definition segment_bytes (s : segment) : list Z :=
  tlv CKPT_SUBSECT_FN_MARK (s_name s ++ [0]) ++ tlv CKPT_SUBSECT_FINFO_MARK (finfo_bytes (s_finfo s)) ++
  tlv CKPT_SUBSECT_FDATA_MARK (s_data s).

(** The sections of a checkpoint up to the end mark. *)
Definition file_of (secs : list (Z * list Z)) : list Z :=
  concat (map (fun s => tlv s.1 s.2) secs) ++ le32 CKPT_SECT_END_MARK ++ le32 0.

(** ** The reader undoes the format *)

Lemma zlen_tlv mark b : zlen (tlv mark b) = 8 + zlen b.
Proof. unfold tlv, le32. rewrite !zlen_app, !zlen_le. lia. Qed.

Lemma word_at_skip a b i : zlen a = i -> word_at (a ++ b) i = word_at b 0.
Proof.
  intros <-. unfold word_at, zslice. f_equal. f_equal.
  by rewrite drop_app_length' by (unfold zlen; lia).
Qed.

Lemma word_at_le z b : is_u32 z -> word_at (le32 z ++ b) 0 = z.
Proof.
  intros Hz. unfold word_at. change (zslice (le32 z ++ b) 0 4) with (take 4 (le32 z ++ b)).
  rewrite (take_app_length' (le32 z)); [by apply of_le32|by unfold le32; rewrite length_le].
Qed.

Lemma word_tlv mark b rest :
  is_u32 mark -> zlen b < 2 ^ 32 ->
  word_at (tlv mark b ++ rest) 0 = mark /\ word_at (tlv mark b ++ rest) 4 = zlen b.
Proof.
  intros Hm Hb. pose proof (zlen_nonneg b). unfold tlv. rewrite <- !app_assoc.
  rewrite (word_at_skip (le32 mark) _ 4) by (unfold le32; by rewrite zlen_le).
  rewrite !word_at_le by (done || unfold is_u32; lia). done.
Qed.

Lemma read_tlv_spec mark b rest :
  is_u32 mark -> zlen b < 2 ^ 32 -> read_tlv (tlv mark b ++ rest) = Some (mark, b, rest).
Proof.
  intros Hm Hb. destruct (word_tlv mark b rest Hm Hb) as (E0 & E4). unfold read_tlv. rewrite E0, E4.
  pose proof (zlen_nonneg b). pose proof (zlen_nonneg rest). rewrite zlen_app, zlen_tlv.
  destruct (Z.leb_spec 8 (8 + zlen b + zlen rest)), (Z.leb_spec (8 + zlen b) (8 + zlen b + zlen rest)); try lia.
  assert (E8 : tlv mark b = (le32 mark ++ le32 (zlen b)) ++ b) by (unfold tlv; by rewrite app_assoc).
  do 2 f_equal; [f_equal|].
  - unfold zslice. rewrite E8, <- app_assoc, drop_app_length' by (rewrite length_app; unfold le32; by rewrite !length_le).
    apply take_app_length'. unfold zlen. lia.
  - apply drop_app_length'. pose proof (zlen_tlv mark b) as Hz. unfold zlen in *. lia.
Qed.

Definition section_ok (s : Z * list Z) : Prop := 0 < s.1 < 2 ^ 32 /\ zlen s.2 < 2 ^ 32.

Lemma read_sections_spec secs fuel :
  Forall section_ok secs -> (length secs < fuel)%nat -> read_sections fuel (file_of secs) = Some secs.
Proof.
  intros Hs. revert fuel. induction Hs as [|[mark b] secs (Hm & Hb) Hs IH]; intros [|fuel] Hf; cbn in Hf; try lia.
  - done.
  - cbn [fst snd] in *. unfold file_of. cbn [map concat fst snd]. rewrite <- app_assoc. cbn [read_sections].
    rewrite read_tlv_spec by (done || unfold is_u32; lia). cbn [mbind option_bind].
    destruct (Z.eqb_spec mark CKPT_SECT_END_MARK); [unfold CKPT_SECT_END_MARK in *; lia|].
    change (concat _ ++ _) with (file_of secs). rewrite IH by lia. done.
Qed.

Definition finfo_ok (f : map_file_info) : Prop :=
  is_u32 (f_prot f) /\ 0 <= f_offset f < 2 ^ 64 /\ is_u32 (f_space_sz f) /\ is_u32 (f_ckpt_sz f) /\
  is_u32 (f_start f) /\ is_u32 (f_end f).

Lemma finfo_of_bytes f : finfo_ok f -> finfo_of (finfo_bytes f) = f.
Proof.
  intros (H1 & H2 & H3 & H4 & H5 & H6). destruct f as [p o sp c s e].
  cbn [f_prot f_offset f_space_sz f_ckpt_sz f_start f_end] in *.
  set (B := finfo_bytes _). change (finfo_of B) with
    (Finfo (word_at B 0) (of_le (zslice B 4 8)) (word_at B 12) (word_at B 16) (word_at B 20) (word_at B 24)).
  assert (EB : B = le32 p ++ le64 o ++ le32 sp ++ le32 c ++ le32 s ++ le32 e) by reflexivity. clearbody B. subst B.
  assert (Eo : of_le (zslice (le32 p ++ le64 o ++ le32 sp ++ le32 c ++ le32 s ++ le32 e) 4 8) = o).
  { unfold zslice. rewrite (drop_app_length' (le32 p)) by (unfold le32; by rewrite length_le).
    rewrite take_app_length' by (unfold le64; by rewrite length_le). unfold le64. rewrite of_le_le. by apply Z.mod_small. }
  assert (Hl : forall z, zlen (le32 z) = 4) by (intros; apply zlen_le).
  assert (Hl8 : forall z, zlen (le64 z) = 8) by (intros; apply zlen_le).
  rewrite Eo, word_at_le by done. rewrite (app_assoc (le32 p)).
  rewrite (word_at_skip (le32 p ++ le64 o) _ 12), word_at_le by (done || by rewrite zlen_app, Hl, Hl8).
  rewrite (app_assoc _ (le32 sp)), (word_at_skip ((le32 p ++ le64 o) ++ le32 sp) _ 16), word_at_le
    by (done || by rewrite !zlen_app, !Hl, Hl8).
  rewrite (app_assoc _ (le32 c)), (word_at_skip (((le32 p ++ le64 o) ++ le32 sp) ++ le32 c) _ 20), word_at_le
    by (done || by rewrite !zlen_app, !Hl, Hl8).
  rewrite (app_assoc _ (le32 s)), (word_at_skip ((((le32 p ++ le64 o) ++ le32 sp) ++ le32 c) ++ le32 s) _ 24)
    by (by rewrite !zlen_app, !Hl, Hl8).
  rewrite <- (app_nil_r (le32 e)). by rewrite word_at_le.
Qed.

Lemma zlen_finfo f : zlen (finfo_bytes f) = 28.
Proof. unfold finfo_bytes, le32, le64. rewrite !zlen_app, !zlen_le. done. Qed.

Lemma read_segment_spec s :
  zlen (s_name s) < 2 ^ 31 -> finfo_ok (s_finfo s) -> zlen (s_data s) < 2 ^ 31 ->
  read_segment (CKPT_SECT_MEMSEG_MARK, segment_bytes s) = Some s.
Proof.
  intros Hn Hf Hd. unfold read_segment, segment_bytes. cbn [fst snd].
  change (CKPT_SECT_MEMSEG_MARK =? CKPT_SECT_MEMSEG_MARK) with true. cbn iota.
  assert (Hne : forall m b r, tlv m b ++ r <> []) by (intros m b r; unfold tlv; by cbn).
  assert (Hrp : forall fuel m b r, is_u32 m -> zlen b < 2 ^ 32 ->
    read_parts (S fuel) (tlv m b ++ r) = (l ← read_parts fuel r; Some ((m, b) :: l))).
  { intros fuel m b r Hm Hb. cbn [read_parts]. destruct (tlv m b ++ r) eqn:E; [by apply Hne in E|].
    rewrite <- E, read_tlv_spec by done. done. }
  assert (Hmarks : forall m, 0 <= m < 10 -> is_u32 m) by (intros; unfold is_u32; lia).
  rewrite Hrp; [|by apply Hmarks|rewrite zlen_app; change (zlen [0]) with 1; lia].
  rewrite Hrp; [|by apply Hmarks|rewrite zlen_finfo; lia].
  rewrite <- (app_nil_r (tlv CKPT_SUBSECT_FDATA_MARK _)), Hrp; [|by apply Hmarks|lia].
  change (read_parts 1 []) with (Some (@nil (Z * list Z))). cbn [mbind option_bind].
  rewrite !Z.eqb_refl. cbn [andb]. rewrite removelast_last, finfo_of_bytes by done. by destruct s.
Qed.

(** ** Writing *)

Section ckpt.
Context {K : Type} {KK : Kernel K} {KF : KernelFiles K} {KUp : KernelUp K}.
Context {KP : KernelPages K} {KPL : KernelPagesLaws K} {KPU : KernelPagesUp K}.
Context {KT : KernelTls K} {KTL : KernelTlsLaws K} {KM : KernelMaps K} {KMU : KernelMapsUp K}.
Context {LA : LzoApi} (stack : K -> Z -> Z).

(** The bytes [l] were appended to the file [fn], which [fd] is open on. *)
Definition wrote (k : K) (fd : Z) (fn : fname) (l : list Z) (k' : K) : Prop :=
  fd_file k' fd = Some fn /\ file_bytes k' fn = file_bytes k fn ++ l.

(** The mappings and segments are as before, and pages are still left. *)
Definition same_process (k k' : K) : Prop :=
  vmas k' = vmas k /\ (forall e, areas k' e = areas k e) /\ (has_room k -> has_room k').

Lemma wrote_nil k fd fn : fd_file k fd = Some fn -> wrote k fd fn [] k.
Proof. intros. split; [done|]. by rewrite app_nil_r. Qed.

Lemma wrote_app k1 k2 k3 fd fn a b : wrote k1 fd fn a k2 -> wrote k2 fd fn b k3 -> wrote k1 fd fn (a ++ b) k3.
Proof. intros (_ & E1) (H & E2). split; [done|]. by rewrite E2, E1, app_assoc. Qed.

Lemma wrote_quiet k1 k2 k3 fd fn l : wrote k1 fd fn l k2 -> quiet k2 k3 -> wrote k1 fd fn l k3.
Proof. intros (Hf & E) (Hq1 & Hq2). split; [by rewrite Hq1|by rewrite Hq2]. Qed.

Lemma quiet_wrote k1 k2 k3 fd fn l : quiet k1 k2 -> wrote k2 fd fn l k3 -> wrote k1 fd fn l k3.
Proof. intros (_ & Hq2) (Hf & E). split; [done|]. by rewrite E, Hq2. Qed.

Lemma same_refl k : same_process k k.
Proof. done. Qed.
Lemma same_trans k1 k2 k3 : same_process k1 k2 -> same_process k2 k3 -> same_process k1 k3.
Proof. intros (E1 & H1 & R1) (E2 & H2 & R2). split; [congruence|]. split; [|auto]. intros e. by rewrite H2. Qed.

Lemma writeto_spec k fd fn l :
  fd_file k fd = Some fn -> zlen l < 2 ^ 31 ->
  exists k', writeto k fd l = Ok k' /\ wrote k fd fn l k' /\ same_process k k'.
Proof.
  intros Hfd Hl. unfold writeto. pose proof (zlen_nonneg l). destruct (Z.eqb_spec (zlen l) 0) as [E|E].
  - assert (l = []) as -> by (destruct l; [done|rewrite zlen_cons in E; pose proof (zlen_nonneg l); lia]).
    exists k. split; [done|]. split; [by apply wrote_nil|done].
  - pose proof (write_up k fd fn l Hfd) as Hu. pose proof (write_vmas k fd l) as Hv.
    pose proof (write_areas k fd l) as Ha. pose proof (room_write k fd l) as Hr. destruct (sys_write k fd l) as [err k'] eqn:Ew. cbn in Hu, Hv, Ha, Hr. subst err.
    rewrite u32_small, Z.eqb_refl by lia. cbn [assert]. rewrite bind_Ok. exists k'. split; [done|].
    split; [by apply (write_ok k fd)|done].
Qed.

(** What an element of a section list contributes. *)
Definition sg_out (s : sg) : list Z := if have_imark s then tlv (imark s) (sg_bytes s) else sg_bytes s.

Lemma zlen_sg_out s : zlen (sg_out s) = (if have_imark s then 8 else 0) + zlen (sg_bytes s).
Proof. unfold sg_out. destruct (have_imark s); [apply zlen_tlv|lia]. Qed.

Lemma sg_size_spec sgs sz :
  0 <= sz -> sz + zlen (concat (map sg_out sgs)) < 2 ^ 32 -> sg_size sgs sz = sz + zlen (concat (map sg_out sgs)).
Proof.
  revert sz. induction sgs as [|s sgs IH]; intros sz H0 Hz; cbn [sg_size map concat] in *.
  - change (zlen (@nil Z)) with 0. lia.
  - rewrite zlen_app, zlen_sg_out in *. pose proof (zlen_nonneg (sg_bytes s)).
    pose proof (zlen_nonneg (concat (map sg_out sgs))).
    assert (E : u32 ((if have_imark s then u32 (sz + (4 + 4)) else sz) + zlen (sg_bytes s)) =
                sz + (if have_imark s then 8 else 0) + zlen (sg_bytes s)).
    { destruct (have_imark s); [rewrite (u32_small (sz + (4 + 4))) by lia|]; rewrite u32_small; lia. }
    rewrite E, IH; destruct (have_imark s); lia.
Qed.

Lemma write_sgs_spec fd fn sgs : forall k,
  fd_file k fd = Some fn -> Forall (fun s => zlen (sg_bytes s) < 2 ^ 31) sgs ->
  exists k', write_sgs k fd sgs = Ok k' /\ wrote k fd fn (concat (map sg_out sgs)) k' /\ same_process k k'.
Proof.
  assert (H4 : forall z, zlen (le32 z) < 2 ^ 31) by (intros; unfold le32; rewrite zlen_le; lia).
  induction sgs as [|s sgs IH]; intros k Hfd Hs; cbn [write_sgs map concat].
  - exists k. split; [done|]. split; [by apply wrote_nil|done].
  - apply Forall_cons in Hs as (Hl & Hs).
    assert (Hhead : exists k1, (if have_imark s then k ← writeto k fd (le32 (imark s));
        writeto k fd (le32 (zlen (sg_bytes s))) else Ok k) = Ok k1 /\
        wrote k fd fn (if have_imark s then le32 (imark s) ++ le32 (zlen (sg_bytes s)) else []) k1 /\ same_process k k1).
    { destruct (have_imark s); [|exists k; split; [done|]; split; [by apply wrote_nil|done]].
      destruct (writeto_spec k fd fn (le32 (imark s)) Hfd) as (k1 & -> & W1 & S1); [done|]. rewrite bind_Ok.
      destruct (writeto_spec k1 fd fn (le32 (zlen (sg_bytes s))) (proj1 W1)) as (k2 & -> & W2 & S2); [done|].
      exists k2. split; [done|]. split; [by eapply wrote_app|by eapply same_trans]. }
    destruct Hhead as (k1 & -> & W1 & S1). rewrite bind_Ok.
    destruct (writeto_spec k1 fd fn (sg_bytes s) (proj1 W1) Hl) as (k2 & -> & W2 & S2). rewrite bind_Ok.
    destruct (IH k2 (proj1 W2) Hs) as (k3 & -> & W3 & S3). exists k3. split; [done|].
    split; [|by eapply same_trans; [eapply same_trans|]]. eapply wrote_app; [|exact W3].
    pose proof (wrote_app _ _ _ _ _ _ _ W1 W2) as W. unfold sg_out, tlv.
    destruct (have_imark s); [by rewrite <- app_assoc in W|done].
Qed.

Lemma write_section_sg_spec k fd fn mark sgs :
  fd_file k fd = Some fn -> Forall (fun s => zlen (sg_bytes s) < 2 ^ 31) sgs ->
  zlen (concat (map sg_out sgs)) < 2 ^ 32 ->
  exists k', write_section_sg k fd mark sgs = Ok k' /\ wrote k fd fn (tlv mark (concat (map sg_out sgs))) k' /\
    same_process k k'.
Proof.
  intros Hfd Hs Hz. unfold write_section_sg. rewrite sg_size_spec, Z.add_0_l by lia.
  assert (H4 : forall z, zlen (le32 z) < 2 ^ 31) by (intros; unfold le32; rewrite zlen_le; lia).
  destruct (writeto_spec k fd fn (le32 mark) Hfd) as (k1 & -> & W1 & S1); [done|]. rewrite bind_Ok.
  destruct (writeto_spec k1 fd fn (le32 (zlen (concat (map sg_out sgs)))) (proj1 W1)) as (k2 & -> & W2 & S2); [done|].
  rewrite bind_Ok. destruct (write_sgs_spec fd fn sgs k2 (proj1 W2) Hs) as (k3 & -> & W3 & S3).
  exists k3. split; [done|]. split; [|by eapply same_trans; [eapply same_trans|]].
  unfold tlv. eapply wrote_app; [exact W1|]. by eapply wrote_app.
Qed.

Lemma write_section_spec k fd fn mark b :
  fd_file k fd = Some fn -> zlen b < 2 ^ 31 ->
  exists k', write_section k fd mark b = Ok k' /\ wrote k fd fn (tlv mark b) k' /\ same_process k k'.
Proof.
  intros Hfd Hb. destruct (write_section_sg_spec k fd fn mark [Sg false 0 b]) as (k' & E & W & S); [done| | |].
  - by repeat constructor.
  - cbn. rewrite app_nil_r. unfold sg_out. cbn. lia.
  - exists k'. unfold write_section. split; [done|]. cbn in W. by rewrite app_nil_r in W.
Qed.

(** ** The sections before the memory *)

(** The strings of the process that [info] points to. *)
Record info_ok (mem : list Z) (info : startup_stack_info) (exe args envs : list Z) : Prop := {
  io_exe : cstr mem (bottom_exec_fn info) exe;
  io_args : 0 < cmdline_argbegin info < cmdline_argend info /\ cmdline_argend info <= zlen mem /\
    zslice mem (cmdline_argbegin info) (cmdline_argend info - cmdline_argbegin info) = args;
  io_envs : 0 < envbegin info < envend info /\ envend info <= zlen mem /\
    zslice mem (envbegin info) (envend info - envbegin info) = envs;
  io_fn : bottom_exec_fn info <> 0;
  io_size : zlen exe + 1 < 2 ^ 31 /\ zlen args < 2 ^ 31 /\ zlen envs < 2 ^ 31
}.

Lemma ckpt_baseinfo_spec mem info exe args envs k fd fn :
  info_ok mem info exe args envs -> fd_file k fd = Some fn ->
  exists k', ckpt_baseinfo mem k fd info = Ok k' /\ same_process k k' /\
    wrote k fd fn (tlv CKPT_SECT_EXEC_MARK (exe ++ [0]) ++ tlv CKPT_SECT_ARGS_MARK args ++
                   tlv CKPT_SECT_ENVS_MARK envs) k'.
Proof.
  intros [Hexe (Ha & Ha' & Ea) (He & He' & Ee) Hfn (Hlx & Hla & Hle)] Hfd. unfold ckpt_baseinfo.
  pose proof (cstr_range _ _ _ Hexe) as Hr. pose proof (zlen_nonneg exe).
  apply Z.eqb_neq in Hfn as ->. cbn [negb assert]. rewrite bind_Ok, (strlen_spec _ _ _ Hexe), bind_Ok.
  rewrite (mem_read_ok mem (bottom_exec_fn info)) by lia. rewrite bind_Ok, (cstr_slice _ _ _ Hexe).
  destruct (write_section_spec k fd fn CKPT_SECT_EXEC_MARK (exe ++ [0]) Hfd) as (k1 & -> & W1 & S1).
  { rewrite zlen_app. change (zlen [0]) with 1. lia. }
  rewrite bind_Ok. destruct (Z.eqb_spec (cmdline_argbegin info) 0), (Z.eqb_spec (cmdline_argend info) 0),
    (Z.ltb_spec (cmdline_argbegin info) (cmdline_argend info)); try lia. cbn [negb assert]. rewrite !bind_Ok.
  rewrite (mem_read_ok mem (cmdline_argbegin info)) by lia. rewrite bind_Ok, Ea.
  destruct (write_section_spec k1 fd fn CKPT_SECT_ARGS_MARK args (proj1 W1) Hla) as (k2 & -> & W2 & S2).
  rewrite bind_Ok. destruct (Z.eqb_spec (envbegin info) 0), (Z.eqb_spec (envend info) 0),
    (Z.ltb_spec (envbegin info) (envend info)); try lia. cbn [negb assert]. rewrite !bind_Ok.
  rewrite (mem_read_ok mem (envbegin info)) by lia. rewrite bind_Ok, Ee.
  destruct (write_section_spec k2 fd fn CKPT_SECT_ENVS_MARK envs (proj1 W2) Hle) as (k3 & -> & W3 & S3).
  exists k3. split; [done|]. split; [by eapply same_trans; [eapply same_trans|]|].
  eapply wrote_app; [exact W1|]. by eapply wrote_app.
Qed.

Lemma ckpt_archinfo_spec k fd fn c c' pad regs pc k2 min ds ds2 :
  fd_file k fd = Some fn -> regs_ok regs -> is_u32 pc -> zlen pad = 12 -> zlen (fxstate c) = sizeof_fxsave ->
  tls_at k min ds -> Forall desc_ok ds -> tls_at k2 min ds2 ->
  exists k' cpu tls, ckpt_archinfo k fd c pad regs pc = Ok k' /\ same_process k k' /\
    wrote k fd fn (tlv CKPT_SECT_CPU_MARK cpu ++ tlv CKPT_SECT_TLS_MARK tls) k' /\
    zlen cpu < 2 ^ 31 /\ zlen tls < 2 ^ 31 /\
    restore_ckpt_cpuinfo c' cpu =
      Ok (regs, pc, Cpu (s_cs c') (s_ds c') (s_es c') (readsr (s_fs c)) (readsr (s_gs c)) (s_ss c') (fxstate c)) /\
    exists k3, restore_tls_info k2 tls = Ok k3 /\
      forall i d, ds !! i = Some d -> areas k3 (min + Z.of_nat i) = Some d.
Proof.
  intros Hfd Hregs Hpc Hpad Hfx Htls Hds Htls2.
  destruct (cpuinfo_restored c c' pad regs pc Hregs Hpc Hpad Hfx) as (cpu & Ec & Hlc & Hrc).
  unfold ckpt_archinfo. rewrite Ec, bind_Ok.
  destruct (write_section_spec k fd fn CKPT_SECT_CPU_MARK cpu Hfd) as (k1 & -> & W1 & S1).
  { rewrite Hlc. by vm_compute. }
  rewrite bind_Ok. assert (Htls1 : tls_at k1 min ds).
  { destruct Htls as (Hm & Hn & Hl & Ha). destruct S1 as (_ & S1 & _).
    repeat split; [lia|lia| |done|]; intros; rewrite S1; eauto. }
  destruct (tls_info_restored k1 k2 min ds ds2 cpu Htls1 Hds Htls2) as (tls & k3 & -> & Hlt & Hrt & Ha).
  rewrite bind_Ok. destruct (write_section_spec k1 fd fn CKPT_SECT_TLS_MARK tls (proj1 W1)) as (k4 & -> & W2 & S2).
  { rewrite Hlt. by vm_compute. }
  exists k4, cpu, tls. split; [done|]. split; [by eapply same_trans|]. split; [by eapply wrote_app|].
  rewrite Hlc, Hlt. split; [by vm_compute|]. split; [by vm_compute|]. split; [done|]. eauto.
Qed.

(** ** A memory segment *)

(** The name up to the end of its line is at [p]. *)
Definition name_at (m : list Z) (p : Z) (name : list Z) : Prop :=
  forall i c, (name ++ [10]) !! i = Some c -> rd m (p + Z.of_nat i) = Ok c.

Lemma memcmp_key mm key : forall p q name,
  name_at mm p name -> (forall i c, key !! i = Some c -> rd mm (q + Z.of_nat i) = Ok c) ->
  Forall (fun c => c <> 10) key ->
  exists c, memcmp_loop (length key) mm p q = Ok c /\ (c = 0 <-> key `prefix_of` name).
Proof.
  induction key as [|x key IH]; intros p q name Hp Hq Hk; cbn [length memcmp_loop].
  - exists 0. split; [done|]. split; [intros _; apply prefix_nil|done].
  - apply Forall_cons in Hk as (Hx & Hk). pose proof (Hq 0%nat x eq_refl) as Hq0. rewrite Z.add_0_r in Hq0.
    assert (Hb : exists b, rd mm p = Ok b /\ (name ++ [10]) !! 0%nat = Some b).
    { destruct name as [|b name]; eexists; (split; [|done]);
        by rewrite <- (Hp 0%nat _ eq_refl), Z.add_0_r. }
    destruct Hb as (b & Hb & Hb0). rewrite Hb, bind_Ok, Hq0, bind_Ok.
    destruct (Z.eqb_spec (b - x) 0) as [E|E]; cbn [negb].
    + assert (b = x) as -> by lia. destruct name as [|d name]; cbn in Hb0; injection Hb0 as Hb0; [done|]. subst d.
      destruct (IH (p + 1) (q + 1) name) as (c & -> & Hc); [| |done|].
      * intros i c Hi. replace (p + 1 + Z.of_nat i) with (p + Z.of_nat (S i)) by lia. by apply Hp.
      * intros i c Hi. replace (q + 1 + Z.of_nat i) with (q + Z.of_nat (S i)) by lia. by apply Hq.
      * exists c. split; [done|]. rewrite Hc. split; [apply prefix_cons|apply prefix_cons_inv_2].
    + eexists. split; [done|]. split; [done|]. intros Hpre. destruct name as [|d name].
      * by apply prefix_nil_not in Hpre.
      * apply prefix_cons_inv_1 in Hpre as <-. cbn in Hb0. injection Hb0 as ->. lia.
Qed.

Lemma dev_check buf p name :
  name_at buf p name ->
  exists c, memcmp (buf ++ codes "/dev") p (zlen buf) 4 = Ok c /\ (c =? 0) = is_dev (Some name).
Proof.
  intros Hp. destruct (memcmp_key (buf ++ codes "/dev") (codes "/dev") p (zlen buf) name) as (c & E & Hc).
  - intros i c Hi. apply Hp in Hi. rewrite rd_app_l; [done|by eapply rd_range].
  - intros i c Hi. rewrite rd_app_r by lia. replace (zlen buf + Z.of_nat i - zlen buf) with (Z.of_nat i) by lia.
    apply rd_Ok_iff. split; [lia|]. by rewrite Nat2Z.id.
  - apply (bool_decide_unpack _). by vm_compute.
  - exists c. split; [done|]. cbn [is_dev]. destruct (Z.eqb_spec c 0); case_bool_decide; tauto.
Qed.

Lemma name_read buf p name : 0 < zlen name -> name_at buf p name -> mem_read buf p (zlen name) = Ok name.
Proof.
  intros Hpos Hp. assert (Hr : 0 <= p).
  { destruct name as [|c name]; [done|]. pose proof (Hp 0%nat c eq_refl) as H%rd_range. lia. }
  assert (Hl : p + zlen name < zlen buf).
  { pose proof (Hp (length name) 10) as H. rewrite lookup_app_r, Nat.sub_diag in H by done.
    specialize (H eq_refl). apply rd_range in H. unfold zlen in *. lia. }
  rewrite mem_read_ok by lia. f_equal. apply list_eq_same_length with (length name); [done| |].
  - pose proof (zlen_zslice buf p (zlen name)). unfold zlen in *. lia.
  - intros i x y Hi Hx Hy. unfold zslice in Hx. apply lookup_take_Some in Hx as (Hx & _). rewrite lookup_drop in Hx.
    pose proof (Hp i y ltac:(by apply lookup_app_l_Some)) as (_ & H)%rd_Ok_iff.
    rewrite Z2Nat.inj_add, Nat2Z.id in H by lia. congruence.
Qed.

Lemma get_aval_size_spec k name offset sz :
  0 <= sz <= 2 ^ 32 - 4096 -> sz mod PAGE_SIZE = 0 ->
  exists k', get_aval_size k name offset sz = (sz, k') /\ quiet k k'.
Proof.
  intros Hsz Hal. unfold get_aval_size. unfold PAGE_SIZE in *. rewrite align_up_aligned by done.
  destruct name as [|c name]; [by exists k|]. destruct (c =? 91); [by exists k|].
  pose proof (stat_quiet k (c :: name)) as Hq. destruct (sys_stat64 k (c :: name)) as [[err st] k'].
  exists k'. by destruct (negb (err =? 0)).
Qed.

Lemma mprotect_spec k p n prot :
  exists k', sys_mprotect k p n prot = (0, k') /\ quiet k k'.
Proof.
  pose proof (mprotect_up k p n prot) as Hu. pose proof (mprotect_quiet k p n prot) as Hq.
  destruct (sys_mprotect k p n prot) as [err k']. cbn in Hu, Hq. subst err. by exists k'.
Qed.

(** A mapping whose pages are in the memory of the process. *)
Record vma_mapped (mem : list Z) (v : vma) : Prop := {
  vm_order : v_start v < v_end v;
  vm_page : (v_end v - v_start v) mod PAGE_SIZE = 0;
  vm_mem : v_end v <= zlen mem;
  vm_size : v_end v - v_start v < 2 ^ 31;
  vm_name : zlen (default [] (v_name v)) < 2 ^ 20
}.

(** Writing the list of a mapping writes its segment. *)
Lemma write_segment mem k fd fn buf v e :
  fd_file k fd = Some fn -> entry_of buf v e -> vma_ok v -> vma_mapped mem v ->
  let s := segment_of mem v in
  exists k', write_section_sg k fd CKPT_SECT_MEMSEG_MARK
      (memseg_list e (s_name s) (f_ckpt_sz (s_finfo s)) (s_data s)) = Ok k' /\
    wrote k fd fn (tlv CKPT_SECT_MEMSEG_MARK (segment_bytes s)) k'.
Proof.
  intros Hfd (_ & Hst & Hen & Hpr & Hof & _) [Hs1 He1 _ _ _ _ _] [Hord _ Hmem Hsz Hn] s.
  assert (Ef : Finfo (prot e) (offset e) (u32 (end_ e - start e)) (f_ckpt_sz (s_finfo s)) (start e) (end_ e)
               = s_finfo s) by (rewrite Hst, Hen, Hpr, Hof, u32_small by lia; reflexivity).
  pose proof (zlen_finfo (s_finfo s)) as Hf. change (default [] (v_name v)) with (s_name s) in Hn.
  assert (Hn' : zlen (s_name s ++ [0]) = zlen (s_name s) + 1) by (rewrite zlen_app; done).
  assert (Hd : zlen (s_data s) < 2 ^ 31).
  { unfold s, segment_of. cbn [s_data]. destruct (is_dev _); [by vm_compute|]. rewrite zlen_zslice; lia. }
  unfold memseg_list. rewrite Ef. clearbody s. clear Ef. set (sgs := [_; _; _]).
  assert (Eout : concat (map sg_out sgs) = segment_bytes s).
  { unfold sgs, setup_sglist, sg_out. cbn [map concat have_imark imark sg_bytes]. by rewrite app_nil_r. }
  destruct (write_section_sg_spec k fd fn CKPT_SECT_MEMSEG_MARK sgs) as (k' & E & W & _); [done| | |].
  - unfold sgs. repeat apply Forall_cons_2; cbn [sg_bytes setup_sglist]; [lia..|constructor].
  - rewrite Eout. unfold segment_bytes. rewrite !zlen_app, !zlen_tlv, zlen_app. change (zlen [0]) with 1. lia.
  - exists k'. by rewrite Eout in W.
Qed.

Lemma reprotect_spec k e pr : exists k', reprotect k e pr = Ok k' /\ quiet k k'.
Proof.
  unfold reprotect. destruct (_ =? 0); [|by exists k].
  destruct (mprotect_spec k (start e) (u32 (end_ e - start e)) pr) as (k1 & -> & Q). by exists k1.
Qed.

Lemma memseg_size_spec mem k buf v e :
  entry_of buf v e -> vma_ok v -> vma_mapped mem v ->
  exists k', memseg_size k buf (default [] (v_name v)) e = Ok (v_end v - v_start v, k') /\ quiet k k'.
Proof.
  intros (_ & Hst & Hen & _ & _ & Hname) [Hs1 He1 _ _ _ _ Hnm] [Hord Hpage _ _ _].
  unfold memseg_size. rewrite Hst, Hen. rewrite u32_small by lia. destruct (v_name v) as [name|].
  - destruct Hname as (p & -> & _ & Hp). destruct Hnm as ((s & Hn) & _). change (default [] (Some name)) with name.
    assert (Hc : exists c, rd buf p = Ok c).
    { destruct name as [|c name]; [by destruct Hn|]. exists c. by rewrite <- (Hp 0%nat c eq_refl), Z.add_0_r. }
    destruct Hc as (c & ->). rewrite bind_Ok. destruct (c =? 91); [by exists k|].
    destruct (get_aval_size_spec k name (offset e) (v_end v - v_start v)) as (k' & -> & Q);
      [unfold PAGE_SIZE in *; Z.div_mod_to_equations; lia|done|].
    rewrite Hpage. cbn [Z.eqb assert]. rewrite bind_Ok. by exists k'.
  - destruct Hname as (-> & _). by exists k.
Qed.

Lemma ckpt_memseg_spec mem k fd fn buf v e :
  fd_file k fd = Some fn -> entry_of buf v e -> vma_ok v -> vma_mapped mem v ->
  exists k', ckpt_memseg mem k fd buf e = Ok k' /\
    wrote k fd fn (tlv CKPT_SECT_MEMSEG_MARK (segment_bytes (segment_of mem v))) k'.
Proof.
  intros Hfd He Hok Hm. pose proof He as (Hval & Hst & _ & _ & _ & Hname).
  pose proof (fun k Hfd => write_segment mem k fd fn buf v e Hfd He Hok Hm) as Hw. cbn zeta in Hw.
  unfold ckpt_memseg. rewrite Hval. cbn [assert]. rewrite bind_Ok.
  assert (Hn : (match Proc.fn e with Some p => mem_read buf p (fn_len e) | None => Ok [] end)
               = Ok (default [] (v_name v)) /\ is_dev_file buf e = Ok (is_dev (v_name v))).
  { unfold is_dev_file. pose proof Hok as [_ _ _ _ _ _ Hnm]. destruct (v_name v) as [name|].
    - destruct Hname as (p & -> & -> & Hp). destruct Hnm as ((s & Hn) & _).
      assert (Hpos : 0 < zlen name) by (destruct Hn as [-> | ->]; rewrite zlen_cons; pose proof (zlen_nonneg s); lia).
      split; [by apply name_read|]. destruct (dev_check buf p name Hp) as (c & -> & <-). done.
    - destruct Hname as (-> & _). done. }
  destruct Hn as (-> & ->). rewrite !bind_Ok. unfold segment_of in *. cbn [s_name s_finfo f_ckpt_sz s_data] in Hw.
  destruct (is_dev (v_name v)); [by apply Hw|].
  destruct (reprotect_spec k e (Z.lor (prot e) PROT_READ)) as (k1 & -> & Q1). rewrite bind_Ok.
  destruct (memseg_size_spec mem k1 buf v e He Hok Hm) as (k2 & -> & Q2). rewrite bind_Ok.
  pose proof Hok as [Hs1 _ _ _ _ _ _]. pose proof Hm as [Hord _ Hmem _ _].
  rewrite Hst, mem_read_ok by lia. rewrite bind_Ok.
  destruct (Hw k2) as (k3 & -> & W); [by rewrite (proj1 Q2), (proj1 Q1)|]. rewrite bind_Ok.
  destruct (reprotect_spec k3 e (prot e)) as (k4 & -> & Q4). exists k4. split; [done|].
  eapply quiet_wrote; [exact Q1|]. eapply quiet_wrote; [exact Q2|]. by eapply wrote_quiet.
Qed.

(** ** The memory *)

(** The file [fn] and the descriptor [fd] are as before. *)
Definition keeps (fd : Z) (fn : fname) (k k' : K) : Prop :=
  fd_file k' fd = fd_file k fd /\ file_bytes k' fn = file_bytes k fn.

Lemma quiet_keeps fd fn k k' : quiet k k' -> keeps fd fn k k'.
Proof. intros (H1 & H2). by split. Qed.
Lemma keeps_trans fd fn k1 k2 k3 : keeps fd fn k1 k2 -> keeps fd fn k2 k3 -> keeps fd fn k1 k3.
Proof. intros (E1 & E2) (E3 & E4). split; congruence. Qed.
Lemma keeps_wrote k1 k2 k3 fd fn l : keeps fd fn k1 k2 -> wrote k2 fd fn l k3 -> wrote k1 fd fn l k3.
Proof. intros (_ & Hq2) (Hf & E). split; [done|]. by rewrite E, Hq2. Qed.
Lemma wrote_keeps k1 k2 k3 fd fn l : wrote k1 fd fn l k2 -> keeps fd fn k2 k3 -> wrote k1 fd fn l k3.
Proof. intros (Hf & E) (Hq1 & Hq2). split; [by rewrite Hq1|by rewrite Hq2]. Qed.

(** The segments of the mappings [vs], without the one at [ptr]. *)
Definition segments (mem : list Z) (ptr : Z) (vs : list vma) : list Z :=
  concat (map (fun v => tlv CKPT_SECT_MEMSEG_MARK (segment_bytes (segment_of mem v)))
              (filter (fun v => v_start v <> ptr) vs)).

Lemma memseg_loop_spec mem fd fn buf ptr : forall vs fuel k h r h',
  fd_file k fd = Some fn -> reading buf vs h ->
  Forall (fun v => v_start v <> ptr -> vma_mapped mem v) vs ->
  read_maps_line buf h = Ok (r, h') -> (length vs <= fuel)%nat ->
  exists k', memseg_loop mem fuel k fd buf ptr r h' = Ok k' /\ wrote k fd fn (segments mem ptr vs) k'.
Proof.
  induction vs as [|v vs IH]; intros fuel k h r h' Hfd Hr Hm E Hf.
  - rewrite (read_maps_line_end _ _ Hr) in E. injection E as <- <-. exists k.
    split; [by destruct fuel|]. by apply wrote_nil.
  - destruct (read_maps_line_spec buf v vs h Hr) as (e & h1 & E1 & He & Hr1 & _). rewrite E1 in E. injection E as <- <-.
    pose proof He as (Hval & Hst & _). destruct fuel as [|fuel]; [cbn in Hf; lia|]. cbn [memseg_loop]. rewrite Hval, Hst.
    apply Forall_cons in Hm as (Hv & Hm). pose proof Hr as ((_ & _ & _ & _ & Hok) & _). apply Forall_cons in Hok as (Hok & _).
    assert (Hseg : exists k1, (if v_start v =? ptr then Ok k else ckpt_memseg mem k fd buf e) = Ok k1 /\
      wrote k fd fn (segments mem ptr [v]) k1).
    { unfold segments. rewrite filter_cons, filter_nil. destruct (Z.eqb_spec (v_start v) ptr) as [Ep|Ep].
      - rewrite decide_False by (intros H; by apply H). exists k. split; [done|]. by apply wrote_nil.
      - rewrite decide_True by done. cbn [map concat]. rewrite app_nil_r.
        destruct (ckpt_memseg_spec mem k fd fn buf v e) as (k1 & -> & W); try done; [by apply Hv|]. by exists k1. }
    destruct Hseg as (k1 & -> & W1). rewrite bind_Ok.
    assert (Hnext : exists r2 h2, read_maps_line buf h1 = Ok (r2, h2)).
    { destruct vs as [|v2 vs]; [eexists _, _; by apply read_maps_line_end|].
      destruct (read_maps_line_spec buf v2 vs h1 Hr1) as (e2 & h2 & -> & _). eauto. }
    destruct Hnext as (r2 & h2 & E2). rewrite E2, bind_Ok.
    destruct (IH fuel k1 h1 r2 h2) as (k2 & -> & W2); try done; [by destruct W1|cbn in Hf; lia|].
    exists k2. split; [done|].
    replace (segments mem ptr (v :: vs)) with (segments mem ptr [v] ++ segments mem ptr vs).
    + by eapply wrote_app.
    + unfold segments. rewrite <- concat_app, <- map_app, <- filter_app. done.
Qed.

Lemma xalloc_eq k sz :
  has_room k -> 0 < sz <= 2 ^ 26 -> sz mod PAGE_SIZE = 0 ->
  exists p k', xalloc_pages k sz false = Ok (p, k') /\
    sys_uniform_mmap k sz (Z.lor PROT_READ PROT_WRITE) = (p, k') /\ p mod PAGE_SIZE = 0 /\
    PAGE_SIZE <= p /\ p + sz <= 2 ^ 32 - 4096.
Proof.
  intros Hroom Hsz Hal. destruct (xalloc_pages_up k sz false Hroom Hsz Hal) as (p & k' & E & Hp & Hp0 & Hr & _).
  exists p, k'. split; [done|]. split; [|done]. unfold xalloc_pages in E.
  destruct (Z.ltb_spec 0 sz); [|lia]. cbn [assert] in E. rewrite bind_Ok in E.
  unfold PAGE_SIZE in *. rewrite align_up_aligned in E by (done || lia).
  destruct (sys_uniform_mmap k sz _) as [q k2]. destruct (is_valid_page q); [|done].
  cbn [assert] in E. rewrite bind_Ok in E. by injection E as -> ->.
Qed.

Lemma xdealloc_eq k p n :
  p mod PAGE_SIZE = 0 -> 0 <= p -> 0 < n -> n mod PAGE_SIZE = 0 -> p + n <= 2 ^ 32 - 4096 ->
  exists k', xdealloc_pages k p n = Ok k' /\ sys_munmap k p n = (0, k') /\ quiet k k'.
Proof.
  intros Hp Hp0 Hn Hal Hr. unfold xdealloc_pages. rewrite is_valid_page_spec, Hp. cbn [Z.eqb assert]. rewrite bind_Ok.
  unfold PAGE_SIZE in *. rewrite align_up_aligned by (done || lia).
  pose proof (munmap_up k p n Hp Hn Hp0 ltac:(lia)) as Hu. pose proof (munmap_quiet k p n) as Hq.
  destruct (sys_munmap k p n) as [err k'] eqn:E. cbn in Hu, Hq. subst err. cbn [Z.eqb assert]. rewrite bind_Ok.
  by exists k'.
Qed.

(** Reading the maps into zeroed pages. *)
Lemma read_self_procmap_spec k vs :
  vmas k = vs -> vs <> [] -> Forall vma_ok vs -> last_named vs ->
  no_nul (maps_text vs) -> zlen (maps_text vs) < MAX_PROC_MAPS_FILE_SIZE ->
  exists k' buf, let h := Handler 0 (0 + zlen (maps_text vs)) 0 in
    read_self_procmap k (replicate (Z.to_nat MAX_PROC_MAPS_FILE_SIZE) 0) 0 = Ok (k', buf, h) /\
    (forall fd fn, fd_file k fd = Some fn -> keeps fd fn k k') /\ reading buf vs h /\ (length vs < find_fuel h)%nat.
Proof.
  intros Ev Hne Hok Hlast Hnul Hlen. unfold read_self_procmap. fold maps_file.
  destruct (sys_open k maps_file O_RDONLY 0) as [fd2 k1] eqn:Eo.
  pose proof (open_up k maps_file O_RDONLY 0) as H0. rewrite Eo in H0. cbn [fst] in H0.
  destruct (Z.leb_spec 0 fd2); [|lia]. cbn [assert]. rewrite bind_Ok.
  destruct (maps_open k fd2 k1 Eo H0) as (Hnone & Hfds & Hbytes).
  destruct (sys_read k1 fd2 MAX_PROC_MAPS_FILE_SIZE) as [[err data] k2] eqn:Er. rewrite <- Ev in Hlen.
  destruct (maps_read _ _ _ _ _ _ _ Eo H0 Hlen Er) as (Ed & -> & Q2). rewrite Ev in *. subst data.
  set (text := maps_text vs) in *. set (zeros := replicate _ 0). pose proof (zlen_nonneg text) as Hz.
  assert (Hzl : zlen zeros = MAX_PROC_MAPS_FILE_SIZE) by (unfold zeros, zlen; rewrite length_replicate; by vm_compute).
  assert (Hzero : Forall (eq 0) zeros) by (by apply Forall_replicate). clearbody zeros.
  assert (Ew : mem_write zeros 0 text = Ok (text ++ drop (Z.to_nat (zlen text)) zeros)).
  { unfold mem_write. rewrite Hzl. destruct (Z.leb_spec 0 0), (Z.leb_spec (0 + zlen text) MAX_PROC_MAPS_FILE_SIZE); try lia.
    done. }
  rewrite Ew, bind_Ok. assert (Hpos : 0 < zlen text).
  { destruct (maps_text_next vs Hne) as (c & s & E & _). unfold text. rewrite E, zlen_cons. pose proof (zlen_nonneg s). lia. }
  destruct (Z.ltb_spec 0 (zlen text)), (Z.ltb_spec (zlen text) MAX_PROC_MAPS_FILE_SIZE); try lia.
  cbn [assert]. rewrite !bind_Ok. destruct (sys_close k2 fd2) as [err k3] eqn:Ec.
  unfold init_map_handler. destruct (Z.ltb_spec 0 (zlen text)); [|lia]. cbn [assert]. rewrite bind_Ok, bind_Ok.
  eexists k3, _. split; [reflexivity|]. split; [intros fd fn Hfd|split].
  - assert (Hne2 : fd <> fd2) by (intros ->; congruence). pose proof (close_fds k2 fd2 fd Hne2) as Hc. rewrite Ec in Hc.
    cbn [snd] in Hc. destruct Q2 as (Q2 & Q2'). split; [by rewrite Hc, Q2, Hfds|].
    by rewrite (close_ok _ _ _ _ fn Ec), Q2', Hbytes.
  - change (reading (text ++ drop (Z.to_nat (zlen text)) zeros) vs (Handler 0 (0 + zlen (maps_text vs)) 0)).
    assert (Hmax : MAX_PROC_MAPS_FILE_SIZE < 2 ^ 31) by (by vm_compute).
    apply reading_init; [|fold text; lia|exact Hne|exact Hok|exact Hlast].
    pose proof (cstr_in (text ++ drop (Z.to_nat (zlen text)) zeros) 0 (text ++ drop (Z.to_nat (zlen text)) zeros) []
      text (tail (drop (Z.to_nat (zlen text)) zeros))) as H'. apply H'; [done|apply zslice_all| |done].
    cbn [app]. f_equal. destruct (drop (Z.to_nat (zlen text)) zeros) as [|z l] eqn:Edr.
    + apply (f_equal zlen) in Edr. rewrite zlen_drop, Hzl in Edr by lia. change (zlen (@nil Z)) with 0 in Edr. lia.
    + cbn [tail app]. f_equal. assert (Hin : (drop (Z.to_nat (zlen text)) zeros) !! 0%nat = Some z) by (by rewrite Edr).
      rewrite lookup_drop in Hin. by rewrite <- (Forall_lookup_1 _ _ _ _ Hzero Hin).
  - unfold find_fuel. cbn [map_end map_data]. pose proof (maps_text_length vs) as Hml.
    fold text in Hml. unfold zlen. lia.
Qed.

(** ** The whole file *)

(** The memory map of the process, as the checkpoint needs it. *)
Record maps_ok (mem : list Z) (vs : list vma) : Prop := {
  mo_ne : vs <> [];
  mo_ok : Forall vma_ok vs;
  mo_mapped : Forall (vma_mapped mem) vs;
  mo_last : last_named vs;
  mo_nul : no_nul (maps_text vs);
  mo_text : zlen (maps_text vs) + 101 < MAX_PROC_MAPS_FILE_SIZE;
  mo_mem : zlen mem <= 2 ^ 32 - 4096
}.

Lemma maps_text_app a b : maps_text (a ++ b) = maps_text a ++ maps_text b.
Proof. unfold maps_text. by rewrite map_app, concat_app. Qed.

(** The map with the pages of its own text. *)
Lemma maps_ok_insert mem v l1 l2 :
  maps_ok mem (l1 ++ l2) -> last (l1 ++ v :: l2) = last (l1 ++ l2) -> vma_ok v ->
  zlen (maps_line v) < 100 -> no_nul (maps_line v) ->
  l1 ++ v :: l2 <> [] /\ Forall vma_ok (l1 ++ v :: l2) /\ last_named (l1 ++ v :: l2) /\
  no_nul (maps_text (l1 ++ v :: l2)) /\ zlen (maps_text (l1 ++ v :: l2)) < MAX_PROC_MAPS_FILE_SIZE.
Proof.
  intros [Hne Hok _ Hlast Hnul Htext _] El Hv Hl Hvn. unfold last_named, no_nul in *. rewrite El.
  rewrite maps_text_app in Hnul, Htext. rewrite maps_text_app, maps_text_cons.
  apply Forall_app in Hok as (Hok1 & Hok2). apply Forall_app in Hnul as (Hn1 & Hn2).
  rewrite !zlen_app, zlen_cons in *.
  split; [by destruct l1|]. split; [by apply Forall_app; split; [|constructor]|]. split; [done|]. split; [|lia].
  apply Forall_app. split; [done|]. apply Forall_app. split; [done|]. by constructor.
Qed.

Lemma segments_insert mem ptr v l1 l2 :
  v_start v = ptr -> Forall (fun v => v_start v <> ptr) (l1 ++ l2) ->
  segments mem ptr (l1 ++ v :: l2) =
  concat (map (fun v => tlv CKPT_SECT_MEMSEG_MARK (segment_bytes (segment_of mem v))) (l1 ++ l2)).
Proof.
  intros Hv Hall. unfold segments. do 2 f_equal. apply Forall_app in Hall as (H1 & H2).
  rewrite filter_app, filter_cons, decide_False by (intros H; by apply H).
  f_equal; by apply filter_all.
Qed.

Lemma ckpt_meminfo_spec mem k fd fn :
  fd_file k fd = Some fn -> maps_ok mem (vmas k) -> has_room k ->
  exists k', ckpt_meminfo mem k fd = Ok k' /\
    wrote k fd fn (concat (map (fun v => tlv CKPT_SECT_MEMSEG_MARK (segment_bytes (segment_of mem v))) (vmas k)) ++
                   le32 CKPT_SECT_END_MARK ++ le32 0) k'.
Proof.
  intros Hfd Hmo Hroom. unfold ckpt_meminfo, PROCMAP_GUARD.
  assert (HM : MAX_PROC_MAPS_FILE_SIZE = 1048576) by reflexivity.
  destruct (xalloc_eq k (MAX_PROC_MAPS_FILE_SIZE + 2 * (1 * PAGE_SIZE)) Hroom) as (p & k1 & -> & Emm & Hp & Hp0 & Hr);
    [by vm_compute|by vm_compute|]. rewrite bind_Ok. unfold PAGE_SIZE in Hp, Hp0, Hr.
  pose proof (mmap_quiet k (MAX_PROC_MAPS_FILE_SIZE + 2 * (1 * PAGE_SIZE)) (Z.lor PROT_READ PROT_WRITE)) as Q1. rewrite Emm in Q1. cbn [snd] in Q1.
  destruct (Z.eqb_spec p 0); [lia|]. cbn [negb assert]. rewrite bind_Ok.
  rewrite Z.mul_1_l in *. change PAGE_SIZE with 4096 in *.
  destruct (xdealloc_eq k1 p 4096) as (k2 & -> & Eu1 & Q2); [done|lia|lia|done|lia|]. rewrite bind_Ok.
  destruct (xdealloc_eq k2 (p + 4096 + MAX_PROC_MAPS_FILE_SIZE) 4096) as (k3 & -> & Eu2 & Q3);
    [unfold PAGE_SIZE; Z.div_mod_to_equations; lia|lia|lia|done|lia|]. rewrite bind_Ok.
  destruct (guarded k MAX_PROC_MAPS_FILE_SIZE (Z.lor PROT_READ PROT_WRITE) p k1 k2 k3) as (v & l1 & l2 & Ev & Ev3 & Elast & Hstart & Hvok & Hvl & Hvn & Hfresh);
    [lia|done|exact Emm|done|done|done|]. change PAGE_SIZE with 4096 in *.
  assert (Hk3 : keeps fd fn k k3)
    by (eapply keeps_trans; [eapply keeps_trans|]; apply quiet_keeps; [exact Q1|exact Q2|exact Q3]).
  pose proof Hmo as [_ _ Hmap _ _ _ _]. rewrite Ev in *. rewrite Ev3 in Elast.
  destruct (maps_ok_insert mem v l1 l2 Hmo Elast Hvok Hvl Hvn) as (Hne & Hok & Hlast & Hnul & Htext).
  destruct (read_self_procmap_spec k3 (l1 ++ v :: l2)) as (k4 & buf & -> & Hkeep & Hread & Hfuel); [done..|].
  pose proof (Hkeep fd fn ltac:(by rewrite (proj1 Hk3))) as Hk4. set (h := Handler _ _ _) in *. rewrite bind_Ok.
  destruct (l1 ++ v :: l2) as [|v0 vs0] eqn:Evs; [done|]. rewrite <- Evs in *.
  pose proof Hread as Hread'. rewrite Evs in Hread'.
  destruct (read_maps_line_spec buf v0 vs0 h Hread') as (e & h1 & Erd & _ & _ & Hmd & Hme). rewrite Erd, bind_Ok.
  destruct (memseg_loop_spec mem fd fn buf (p + 4096) (l1 ++ v :: l2) (find_fuel h1) k4 h e h1) as (k5 & -> & W5);
    [by rewrite (proj1 Hk4), (proj1 Hk3)|done| |done|unfold find_fuel in *; rewrite Hmd, Hme; lia|].
  { apply Forall_app in Hmap as (Hm1 & Hm2). apply Forall_app. split; [eapply Forall_impl; [exact Hm1|done]|].
    constructor; [done|]. eapply Forall_impl; [exact Hm2|done]. }
  rewrite bind_Ok. destruct (xdealloc_eq k5 (p + 4096) MAX_PROC_MAPS_FILE_SIZE) as (k6 & -> & _ & Q6);
    [unfold PAGE_SIZE; Z.div_mod_to_equations; lia|lia|lia|done|lia|]. rewrite bind_Ok.
  assert (W6 : wrote k fd fn (segments mem (p + 4096) (l1 ++ v :: l2)) k6).
  { eapply keeps_wrote; [exact Hk3|]. eapply keeps_wrote; [exact Hk4|]. by eapply wrote_quiet. }
  rewrite (segments_insert mem (p + 4096) v l1 l2 Hstart Hfresh) in W6.
  assert (H4 : forall z, zlen (le32 z) < 2 ^ 31) by (intros; unfold le32; rewrite zlen_le; lia).
  destruct (writeto_spec k6 fd fn (le32 CKPT_SECT_END_MARK) (proj1 W6)) as (k7 & -> & W7 & _); [done|]. rewrite bind_Ok.
  destruct (writeto_spec k7 fd fn (le32 0) (proj1 W7)) as (k8 & -> & W8 & _); [done|].
  exists k8. split; [done|]. eapply wrote_app; [exact W6|]. by eapply wrote_app.
Qed.

(** The first sections and the segments of a checkpoint. *)
Definition ckpt_sections (mem exe args envs cpu tls : list Z) (vs : list vma) : list (Z * list Z) :=
  [(CKPT_SECT_EXEC_MARK, exe ++ [0]); (CKPT_SECT_ARGS_MARK, args); (CKPT_SECT_ENVS_MARK, envs);
   (CKPT_SECT_CPU_MARK, cpu); (CKPT_SECT_TLS_MARK, tls)] ++
  map (fun v => (CKPT_SECT_MEMSEG_MARK, segment_bytes (segment_of mem v))) vs.

Lemma file_of_sections mem exe args envs cpu tls vs :
  file_of (ckpt_sections mem exe args envs cpu tls vs) =
  (tlv CKPT_SECT_EXEC_MARK (exe ++ [0]) ++ tlv CKPT_SECT_ARGS_MARK args ++ tlv CKPT_SECT_ENVS_MARK envs) ++
  (tlv CKPT_SECT_CPU_MARK cpu ++ tlv CKPT_SECT_TLS_MARK tls) ++
  concat (map (fun v => tlv CKPT_SECT_MEMSEG_MARK (segment_bytes (segment_of mem v))) vs) ++
  le32 CKPT_SECT_END_MARK ++ le32 0.
Proof.
  unfold file_of, ckpt_sections. rewrite map_app, concat_app, map_map. cbn [map concat fst snd].
  by rewrite app_nil_r, <- !app_assoc.
Qed.

Lemma zlen_segment mem v : vma_ok v -> vma_mapped mem v ->
  zlen (s_data (segment_of mem v)) < 2 ^ 31 /\ zlen (segment_bytes (segment_of mem v)) < 2 ^ 32.
Proof.
  intros [Hs He _ _ _ _ _] [Hord _ Hm Hsz Hn].
  assert (Hd : zlen (s_data (segment_of mem v)) < 2 ^ 31).
  { unfold segment_of. cbn [s_data]. destruct (is_dev _); [by vm_compute|]. rewrite zlen_zslice; lia. }
  split; [done|]. unfold segment_bytes. rewrite !zlen_app, !zlen_tlv, zlen_finfo, zlen_app.
  change (zlen [0]) with 1. change (zlen (s_name (segment_of mem v))) with (zlen (default [] (v_name v))). lia.
Qed.

Lemma segment_read mem v : vma_ok v -> vma_mapped mem v ->
  read_segment (CKPT_SECT_MEMSEG_MARK, segment_bytes (segment_of mem v)) = Some (segment_of mem v).
Proof.
  intros Hok Hm. destruct (zlen_segment mem v Hok Hm) as (Hd & _).
  destruct Hok as [Hs He Ho _ _ _ _]. destruct Hm as [Hord _ Hmem _ Hn]. apply read_segment_spec; [|split|done].
  - change (s_name (segment_of mem v)) with (default [] (v_name v)). lia.
  - change (f_prot (s_finfo (segment_of mem v))) with (prot_of (v_perms v)). unfold prot_of.
    by destruct (_ =? _), (_ =? _), (_ =? _).
  - cbn [segment_of s_finfo f_offset f_space_sz f_ckpt_sz f_start f_end]. unfold is_u32.
    destruct (is_dev _); lia.
Qed.

Lemma sections_ok mem exe args envs cpu tls vs :
  zlen exe + 1 < 2 ^ 31 -> zlen args < 2 ^ 31 -> zlen envs < 2 ^ 31 -> zlen cpu < 2 ^ 31 -> zlen tls < 2 ^ 31 ->
  maps_ok mem vs -> Forall section_ok (ckpt_sections mem exe args envs cpu tls vs).
Proof.
  intros H1 H2 H3 H4 H5 [_ Hok Hm _ _ _ _]. unfold ckpt_sections, section_ok. apply Forall_app. split.
  - repeat apply Forall_cons_2; cbn [fst snd];
      unfold CKPT_SECT_EXEC_MARK, CKPT_SECT_ARGS_MARK, CKPT_SECT_ENVS_MARK, CKPT_SECT_CPU_MARK, CKPT_SECT_TLS_MARK;
      rewrite ?zlen_app; change (zlen [0]) with 1; [lia..|constructor].
  - apply Forall_map, Forall_forall. intros v Hv. rewrite Forall_forall in Hok, Hm. cbn [fst snd].
    split; [unfold CKPT_SECT_MEMSEG_MARK; lia|]. apply zlen_segment; auto.
Qed.

Lemma concat_length_ge secs : (length secs <= length (file_of secs))%nat.
Proof.
  unfold file_of. rewrite length_app. induction secs as [|s secs IH]; cbn [map concat length]; [lia|].
  rewrite length_app. pose proof (zlen_tlv s.1 s.2) as Hz. pose proof (zlen_nonneg s.2). unfold zlen in *. lia.
Qed.


End ckpt.

End CkptFacts.
