(* ===== verification/CheckpointRun.v ===== *)
(** A kernel with files, mappings and thread-local segments that keeps the
    promises of [KernelMaps], and a checkpoint taken on it. *)
From S2P Require Import Prelude Kernel CString CStringFacts Numbers Vsprintf VsprintfFacts Proc ProcFacts Mm ArchCheckpoint.
From S2P Require Import Compression Bigbuffer Startup StartupFacts Checkpoint CheckpointFacts.
Import Num Str StrFacts Proc ProcFacts Mm Arch Compr Big Startup StartupFacts Ckpt CkptFacts.

(** ** Lines of anonymous mappings *)

Lemma digits_rev_short b n m : forall fuel,
  2 <= b -> 0 <= n < b ^ Z.of_nat (S m) -> (length (digits_rev fuel b n) <= S m)%nat.
Proof.
  revert n. induction m as [|m IH]; intros n fuel Hb Hn; destruct fuel as [|fuel]; cbn [digits_rev length]; [lia| |lia|].
  - change (Z.of_nat 1) with 1 in Hn. rewrite Z.pow_1_r in Hn. rewrite Z.div_small by lia. cbn. lia.
  - apply le_n_S. destruct (n / b =? 0); [cbn; lia|]. apply IH; [done|].
    rewrite Nat2Z.inj_succ, Z.pow_succ_r in Hn by lia. split; [apply Z.div_pos; lia|].
    apply Z.div_lt_upper_bound; lia.
Qed.

Lemma zlen_hex8 n : is_u32 n -> zlen (hex8 n) = 8.
Proof.
  intros Hn. unfold hex8, zlen. rewrite length_map. unfold hex_digits, digits.
  rewrite length_app, length_replicate, length_rev.
  pose proof (digits_rev_short 16 n 7 64 ltac:(lia) Hn). lia.
Qed.

Lemma hex8_no_nul n : no_nul (hex8 n).
Proof.
  unfold no_nul, hex8. apply Forall_map. eapply Forall_impl; [apply hex_digits_range|].
  intros d Hd. cbn beta in *. assert (d = 0 \/ d = 1 \/ d = 2 \/ d = 3 \/ d = 4 \/ d = 5 \/ d = 6 \/ d = 7 \/ d = 8 \/
    d = 9 \/ d = 10 \/ d = 11 \/ d = 12 \/ d = 13 \/ d = 14 \/ d = 15) as Hc by lia.
  by repeat destruct Hc as [->|Hc]; try subst d; vm_compute.
Qed.

(** Private anonymous pages. *)
Definition anon (r : Z * Z) : vma :=
  Vma r.1 (r.1 + r.2) (codes "rw-p") 0 (codes "00:00") (codes "0") 0 None.

Lemma anon_ok p n : is_u32 p -> is_u32 (p + n) ->
  vma_ok (anon (p, n)) /\ zlen (maps_line (anon (p, n))) < 100 /\ no_nul (maps_line (anon (p, n))).
Proof.
  intros Hp Hn. split; [|split].
  - constructor; unfold anon; cbn [v_start v_end v_offset v_perms v_dev v_inode v_name fst snd]; try done;
      (split; [by repeat constructor|by vm_compute]).
  - unfold maps_line, anon. cbn [v_start v_end v_offset v_perms v_dev v_inode name_text v_name fst snd].
    rewrite !zlen_app, !zlen_hex8 by done. by vm_compute.
  - unfold maps_line, anon, no_nul. cbn [v_start v_end v_offset v_perms v_dev v_inode name_text v_name fst snd].
    rewrite !Forall_app. repeat split; try apply hex8_no_nul; by repeat constructor.
Qed.

(** ** The kernel *)

Module Snap.

(** [own] are the ranges mapped by the program and [prots] the ranges whose
    protection was changed, both the newest first; the pages of
    the program and its stack are one mapping that is always there. *)
Record snap := Snapk {
  ram : Ram.ram;
  own : list (Z * Z);
  table : Gdt.gdt;
  prots : list (Z * Z * Z)
}.

Definition stack_vma : vma :=
  Vma 4096 8192 (codes "rwxp") 0 (codes "00:00") (codes "0") 10 (Some (codes "[stack]")).

(** Everything mapped is below. *)
Definition high (l : list (Z * Z)) : Z := foldr (fun r a => Z.max (Z.max r.1 (r.1 + r.2)) a) (2 ^ 20) l.

Definition mmap (k : snap) (n prot : Z) : Z * snap :=
  let p := (high (own k) + 4095) / PAGE_SIZE * PAGE_SIZE in
  if (0 <? n) && (p + n <=? 2 ^ 32 - 4096) then (p, Snapk (ram k) ((p, n) :: own k) (table k) (prots k))
  else (2 ^ 32 - 12, k).

(** What is left of [r] when [p[0 .. n)] goes. *)
Definition cut (p n : Z) (r : Z * Z) : list (Z * Z) :=
  if (p <? r.1 + r.2) && (r.1 <? p + n) then
    (if r.1 <? p then [(r.1, p - r.1)] else []) ++
    (if p + n <? r.1 + r.2 then [(p + n, r.1 + r.2 - (p + n))] else [])
  else [r].

Definition munmap (k : snap) (p n : Z) : Z * snap :=
  (0, Snapk (ram k)
        (if decide ((p, n) ∈ own k) then Pages.remove1 (p, n) (own k) else concat (map (cut p n) (own k)))
        (table k) (prots k)).

Definition on_ram {A} (k : snap) (r : A * Ram.ram) : A * snap := (r.1, Snapk r.2 (own k) (table k) (prots k)).

Definition mappings (k : snap) : list vma := map anon (own k) ++ [stack_vma].

#[global] Instance snap_kernel : Kernel snap := {
  sys_write k fd l := on_ram k (sys_write (ram k) fd l);
  sys_open k fn flags mode := on_ram k (sys_open (ram k) fn flags mode);
  sys_close k fd := on_ram k (sys_close (ram k) fd);
  sys_read k fd n :=
    if decide (Ram.fds (ram k) !! fd = Some maps_file) then
      let d := take (Z.to_nat n) (maps_text (mappings k)) in (zlen d, d, k)
    else on_ram k (sys_read (ram k) fd n);
  sys_stat64 k fn := on_ram k (sys_stat64 (ram k) fn);
  sys_mprotect k p n prot := (0, Snapk (ram k) (own k) (table k) ((p, n, prot) :: prots k));
  sys_brk k p := on_ram k (sys_brk (ram k) p)
}.

#[global] Program Instance snap_files : KernelFiles snap := {
  file_bytes k := file_bytes (ram k);
  fd_file k := fd_file (ram k)
}.
Next Obligation.
  intros k fn flags mode fd k' E. injection E as <- <-. exact (open_ok (ram k) fn flags mode _ _ eq_refl).
Qed.
Next Obligation.
  intros k fn flags mode fd k' fn' E. injection E as <- <-. exact (open_fail (ram k) fn flags mode _ _ fn' eq_refl).
Qed.
Next Obligation.
  intros k fd l n k' E. injection E as <- <-. eapply (write_range (ram k) fd l). apply surjective_pairing.
Qed.
Next Obligation.
  intros k fd fn l k' Hfd E. injection E as E <-. apply (write_ok (ram k) fd fn l); [done|].
  rewrite <- E. apply surjective_pairing.
Qed.
Next Obligation.
  intros k fd n k' fn E. injection E as <- <-. eapply (close_ok (ram k) fd). apply surjective_pairing.
Qed.

#[global] Program Instance snap_up : KernelUp snap.
Next Obligation. intros k fn flags mode. exact (open_up (ram k) fn flags mode). Qed.
Next Obligation. intros k fd fn l Hfd. exact (write_up (ram k) fd fn l Hfd). Qed.
Next Obligation. intros k fd fn Hfd. exact (close_up (ram k) fd fn Hfd). Qed.

#[global] Instance snap_pages : KernelPages snap := { sys_uniform_mmap := mmap; sys_munmap := munmap }.

Lemma high_spec l : 2 ^ 20 <= high l /\ Forall (fun r => r.1 <= high l /\ r.1 + r.2 <= high l) l.
Proof.
  unfold high. induction l as [|r l [IH1 IH2]]; cbn [foldr]; [split; [lia|done]|].
  set (a := foldr _ _ l) in *. split; [lia|]. constructor; [lia|].
  eapply Forall_impl; [exact IH2|]. cbn beta. intros x Hx. lia.
Qed.

Lemma mmap_spec k n prot p k' : mmap k n prot = (p, k') ->
  (p = 2 ^ 32 - 12 /\ k' = k) \/
  (p mod PAGE_SIZE = 0 /\ 2 ^ 20 <= p /\ 0 < n /\ p + n <= 2 ^ 32 - 4096 /\
   Forall (fun r => r.1 <= p /\ r.1 + r.2 <= p) (own k) /\ k' = Snapk (ram k) ((p, n) :: own k) (table k) (prots k)).
Proof.
  unfold mmap, PAGE_SIZE. destruct (high_spec (own k)) as (Hh & Hall). set (q := _ / 4096 * 4096).
  assert (high (own k) <= q /\ q mod 4096 = 0) as (Hq & Hm) by (unfold q; Z.div_mod_to_equations; lia).
  destruct (Z.ltb_spec 0 n), (Z.leb_spec (q + n) (2 ^ 32 - 4096)); cbn [andb]; intros [= <- <-]; auto.
  right. repeat split; try lia. eapply Forall_impl; [exact Hall|]. cbn beta. lia.
Qed.

#[global] Program Instance snap_pages_laws : KernelPagesLaws snap := { mapped := own }.
Next Obligation.
  intros k n prot p k' Hn Hal E. destruct (mmap_spec _ _ _ _ _ E) as [(-> & ->)|(H1 & H2 & _ & H3 & H4 & ->)];
    [left; split; [lia|done]|right]. unfold PAGE_SIZE in *. split; [lia|]. split; [lia|]. split; [lia|]. split; [|done].
  eapply Forall_impl; [exact H4|]. intros r (_ & Hr). by right.
Qed.
Next Obligation.
  intros k p n k' Hin. cbn. unfold munmap. rewrite <- list_elem_of_In in Hin. rewrite decide_True by done.
  intros [= <-]. by apply Pages.remove1_perm.
Qed.

#[global] Program Instance snap_pages_up : KernelPagesUp snap := { has_room k := high (own k) <= 2 ^ 31 }.
Next Obligation.
  intros k n prot Hr Hn. cbn beta in Hr. cbn [sys_uniform_mmap snap_pages]. unfold mmap, PAGE_SIZE.
  set (q := _ / 4096 * 4096). assert (q <= 2 ^ 31 + 4096 /\ q mod 4096 = 0) as (Hq & Hm)
    by (unfold q; Z.div_mod_to_equations; lia).
  destruct (Z.ltb_spec 0 n), (Z.leb_spec (q + n) (2 ^ 32 - 4096)); cbn [andb fst]; lia.
Qed.
Next Obligation. done. Qed.

#[global] Instance snap_tls : KernelTls snap := {
  sys_get_thread_area k d := sys_get_thread_area (table k) d;
  sys_set_thread_area k d :=
    let '(n, t) := sys_set_thread_area (table k) d in (n, Snapk (ram k) (own k) t (prots k))
}.

#[global] Program Instance snap_tls_laws : KernelTlsLaws snap := { areas k := areas (table k) }.
Next Obligation. intros k e d. exact (area_number (table k) e d). Qed.
Next Obligation. intros k d. exact (get_area (table k) d). Qed.
Next Obligation.
  intros k d k' n Ha. cbn [sys_set_thread_area snap_tls].
  destruct (sys_set_thread_area (table k) d) as [m t] eqn:E. intros [= <- <-]. exact (set_area (table k) d t m Ha E).
Qed.

(** ** Its mappings *)

Lemma ram_stat_quiet (r : Ram.ram) fn : (sys_stat64 r fn).2 = r.
Proof. cbn. by destruct (Ram.files r !! fn). Qed.

Lemma ram_close_fds (r : Ram.ram) fd fd' : fd' <> fd -> Ram.fds (sys_close r fd).2 !! fd' = Ram.fds r !! fd'.
Proof. intros Hne. cbn. unfold Ram.close. destruct (Ram.fds r !! fd); [|done]. cbn. by rewrite lookup_delete_ne. Qed.

Lemma ram_open_fresh (r : Ram.ram) fn :
  let '(fd, r') := sys_open r fn O_RDONLY 0 in
  Ram.fds r !! fd = None /\ Ram.fds r' !! fd = Some fn /\
  (forall fd', fd' <> fd -> Ram.fds r' !! fd' = Ram.fds r !! fd') /\ forall fn', Ram.bytes r' fn' = Ram.bytes r fn'.
Proof.
  cbn. destruct (Ram.next_fd_spec r) as (_ & Hnew). split; [|split; [by rewrite lookup_insert_eq|split]].
  - destruct (Ram.fds r !! Ram.next_fd r) eqn:E; [|done]. apply Hnew in E. lia.
  - intros fd' Hne. by rewrite lookup_insert_ne.
  - intros fn'. unfold Ram.bytes. cbn. destruct (decide (fn' = fn)) as [->|Hne].
    + by rewrite lookup_insert_eq.
    + by rewrite lookup_insert_ne.
Qed.

Lemma cut_apart p n r : r.1 + r.2 <= p -> cut p n r = [r].
Proof. intros Hr. unfold cut. by destruct (Z.ltb_spec p (r.1 + r.2)); [lia|]. Qed.

Lemma cut_all_apart p n l : Forall (fun r => r.1 + r.2 <= p) l -> concat (map (cut p n) l) = l.
Proof. induction 1 as [|r l Hr _ IH]; [done|]. cbn. by rewrite cut_apart, IH. Qed.

(** Unmapping a part of the newest range. *)
Lemma munmap_newest k p n q m r :
  own k = (q, m) :: r -> (q, m) <> (p, n) -> 0 < n -> Forall (fun x => x.1 + x.2 <= p) r ->
  own (munmap k p n).2 = cut p n (q, m) ++ r.
Proof.
  intros Ho Hne Hn Hr. unfold munmap. cbn [snd own]. rewrite Ho, decide_False.
  - cbn [map concat]. by rewrite cut_all_apart.
  - intros [?|Hin]%elem_of_cons; [congruence|]. rewrite Forall_forall in Hr. apply Hr in Hin. cbn in Hin. lia.
Qed.

(** Unmapping the first and the last page of fresh pages leaves those between. *)
Lemma guard_pages k n prot p k1 :
  0 < n -> mmap k (n + 2 * PAGE_SIZE) prot = (p, k1) -> p mod PAGE_SIZE = 0 ->
  2 ^ 20 <= p /\ p + n + 2 * PAGE_SIZE <= 2 ^ 32 - 4096 /\ Forall (fun r => r.1 <= p) (own k) /\
  own (munmap (munmap k1 p PAGE_SIZE).2 (p + PAGE_SIZE + n) PAGE_SIZE).2 = (p + PAGE_SIZE, n) :: own k.
Proof.
  intros Hn E Hp. destruct (mmap_spec _ _ _ _ _ E) as [(-> & _)|(_ & H1 & _ & H2 & Hall & ->)]; [done|].
  unfold PAGE_SIZE in *. split; [done|]. split; [lia|].
  split; [eapply Forall_impl; [exact Hall|]; cbn; lia|]. rewrite (munmap_newest _ _ _ (p + 4096) (n + 4096) (own k)).
  - unfold cut. cbn [fst snd].
    destruct (Z.ltb_spec (p + 4096 + n) (p + 4096 + (n + 4096))), (Z.ltb_spec (p + 4096) (p + 4096 + n + 4096)),
      (Z.ltb_spec (p + 4096) (p + 4096 + n)), (Z.ltb_spec (p + 4096 + n + 4096) (p + 4096 + (n + 4096))); try lia.
    cbn [andb app]. do 2 f_equal. lia.
  - rewrite (munmap_newest _ _ _ p (n + 2 * 4096) (own k)); [|done|intros [=]; lia|lia|].
    + unfold cut. cbn [fst snd].
      destruct (Z.ltb_spec p (p + (n + 2 * 4096))), (Z.ltb_spec p (p + 4096)), (Z.ltb_spec p p),
        (Z.ltb_spec (p + 4096) (p + (n + 2 * 4096))); try lia. cbn [andb app]. do 2 f_equal. lia.
    + eapply Forall_impl; [exact Hall|]; cbn; lia.
  - intros [=]; lia.
  - lia.
  - eapply Forall_impl; [exact Hall|]; cbn; lia.
Qed.

#[global] Program Instance snap_maps : KernelMaps snap := { vmas := mappings }.
Next Obligation. done. Qed.
Next Obligation. done. Qed.
Next Obligation. done. Qed.
Next Obligation. done. Qed.
Next Obligation. done. Qed.
Next Obligation. done. Qed.
Next Obligation. done. Qed.
Next Obligation. intros k fn. unfold quiet. cbn [fd_file file_bytes snap_files sys_stat64 snap_kernel on_ram snd ram]. by rewrite ram_stat_quiet. Qed.
Next Obligation. done. Qed.
Next Obligation.
  intros k n prot. destruct (sys_uniform_mmap k n prot) as [p k'] eqn:E.
  by destruct (mmap_spec _ _ _ _ _ E) as [(_ & ->)|(_ & _ & _ & _ & _ & ->)].
Qed.
Next Obligation. done. Qed.
Next Obligation. intros k fd fd' Hne. exact (ram_close_fds (ram k) fd fd' Hne). Qed.
Next Obligation.
  intros k fd k' E _. pose proof (ram_open_fresh (ram k) maps_file) as Hr.
  change (on_ram k (sys_open (ram k) maps_file O_RDONLY 0) = (fd, k')) in E.
  destruct (sys_open (ram k) maps_file O_RDONLY 0) as [fd0 r']. injection E as <- <-.
  by destruct Hr as (H1 & _ & H2 & H3).
Qed.
Next Obligation.
  intros k fd k1 n err data k2 E _ Hn. pose proof (ram_open_fresh (ram k) maps_file) as Hr.
  change (on_ram k (sys_open (ram k) maps_file O_RDONLY 0) = (fd, k1)) in E.
  destruct (sys_open (ram k) maps_file O_RDONLY 0) as [fd0 r']. injection E as <- <-. destruct Hr as (_ & H2 & _).
  cbn [sys_read snap_kernel ram]. rewrite decide_True by done. intros [= <- <- <-].
  change (mappings (Snapk r' (own k) (table k) (prots k))) with (mappings k).
  rewrite take_ge by (unfold zlen in Hn; lia). done.
Qed.
Next Obligation.
  intros k n prot p k1 k2 k3 Hn _ E Hp E2 E3. destruct (guard_pages k n prot p k1 Hn E Hp) as (H1 & H2 & Hs & Ho).
  injection E2 as E2. injection E3 as E3. assert (Eo : own k3 = (p + PAGE_SIZE, n) :: own k).
  { rewrite <- Ho, <- E3, <- E2. done. }
  unfold PAGE_SIZE in *. exists (anon (p + 4096, n)), [], (mappings k). unfold mappings. rewrite Eo.
  split; [done|]. split; [done|]. split; [by rewrite !last_snoc|]. split; [done|].
  destruct (anon_ok (p + 4096) n) as (A1 & A2 & A3); [unfold is_u32; lia..|].
  split; [done|]. split; [done|]. split; [done|]. apply Forall_app. split; [|repeat constructor; cbn; lia].
  apply Forall_map. eapply Forall_impl; [exact Hs|]. intros r Hr. cbn in *. lia.
Qed.

#[global] Program Instance snap_maps_up : KernelMapsUp snap.
Next Obligation. done. Qed.
Next Obligation. done. Qed.
Next Obligation. done. Qed.
Next Obligation. done. Qed.

Definition start : snap := Snapk Ram.empty [] gdt1 [].

End Snap.

(** ** A checkpoint *)

(** The arguments, the environment and the name of the executable, in the only
    page of the process. *)
Definition mem1 : list Z :=
  let l := replicate 4096 0 ++ codes "true" ++ [0] ++ codes "A=b" ++ [0] ++ codes "/bin/true" in
  l ++ replicate (Z.to_nat (8192 - zlen l)) 0.

Definition info1 : startup_stack_info := Stack 0 0 0 0 4096 4101 4101 4105 4105 no_auxv.

Lemma info1_ok : info_ok mem1 info1 (codes "/bin/true") (codes "true" ++ [0]) (codes "A=b" ++ [0]).
Proof.
  constructor; cbn [info1 bottom_exec_fn cmdline_argbegin cmdline_argend envbegin envend].
  - set (m := mem1). repeat (split; [by vm_compute|split; [done|]]). by vm_compute.
  - split; [lia|]. split; by vm_compute.
  - split; [lia|]. split; by vm_compute.
  - done.
  - by vm_compute.
Qed.

Lemma start_maps_ok mem : zlen mem = 8192 -> maps_ok mem (vmas Snap.start).
Proof.
  intros Hmem.
  change (vmas Snap.start) with [Snap.stack_vma]. constructor.
  - done.
  - apply Forall_singleton. constructor; cbn; try done; [by repeat constructor..|].
    split; [by eexists; right|by repeat constructor].
  - apply Forall_singleton. constructor; [done|done|by rewrite Hmem|done|done].
  - by intros v [= <-].
  - unfold no_nul. apply (bool_decide_unpack _). by vm_compute.
  - by vm_compute.
  - by rewrite Hmem.
Qed.

Lemma gdt1_at : tls_at Snap.start 6 gdt1.
Proof.
  split; [lia|]. split; [intros e He; cbn; unfold Gdt.area; by rewrite decide_False by lia|]. split; [done|].
  intros [|[|[|i]]] d; cbn; by intros [= <-].
Qed.

