(* ===== verification/UserEntry.v ===== *)
(** The patch of the entry point, [src/src/core/loader/user_entry.c] and
    arch_user_entry.c: the first bytes of the program are replaced by a jump
    into the loader, which puts them back when the program gets there.

    [mem] is the memory of the process; the text of /proc/self/maps is read
    into fresh (zeroed) pages of its own, and a pointer into them is an offset.
    The static variables of arch_user_entry.c are the record [patch]. *)
From S2P Require Import Prelude Kernel CString Proc Mm Startup.
Import Proc Mm Startup.

Module UEntry.

Definition PATCH_SZ : Z := 5.

Record patch := Patch {
  reprotect_addr_start : Z;
  reprotect_sz : Z;
  old_prot : Z;
  patch_begin : Z;
  saved_patch_bytes : list Z
}.

Definition no_patch : patch := Patch 0 0 0 0 [0; 0; 0; 0; 0].

(** [jmp rel32], relative to the end of the instruction. *)
Definition do_patch (mem : list Z) (inst target : Z) : result (list Z) :=
  let diff := u32 (target - (inst + PATCH_SZ)) in
  mem ← mem_write mem inst [0xe9];
  mem_write mem (inst + 1) (le32 diff).

(** [target] is the address of [arch_user_entry_e]. *)
Definition arch_patch_user_entry (target : Z) (mem : list Z) (uentry rep_start rep_sz prot : Z) :
    result (list Z * patch) :=
  saved ← mem_read mem uentry PATCH_SZ;
  mem ← do_patch mem uentry target;
  Ok (mem, Patch rep_start rep_sz prot uentry saved).

Section uentry.
Context {K : Type} `{Kernel K} `{KernelPages K}.

(** [err = sys_mprotect(..); assert(err == 0)] *)
Definition protect (k : K) (p n prot : Z) : result K :=
  let '(err, k) := sys_mprotect k p n prot in
  _ ← assert (err =? 0);
  Ok k.

Definition unpatch_user_entry (k : K) (mem : list Z) (st : patch) : result (K * list Z) :=
  _ ← assert (negb (patch_begin st =? 0));
  _ ← assert (negb (reprotect_addr_start st =? 0));
  k ← protect k (reprotect_addr_start st) (reprotect_sz st) (Z.lor Mm.PROT_READ Mm.PROT_WRITE);
  mem ← mem_write mem (patch_begin st) (saved_patch_bytes st);
  k ← protect k (reprotect_addr_start st) (reprotect_sz st) (old_prot st);
  Ok (k, mem).

Definition patch_user_entry (target : Z) (k : K) (mem : list Z) (info : startup_stack_info) :
    result (K * list Z * patch) :=
  uentry ← (if p_user_entry (auxv_info info) =? 0 then Stray Rd else ld32 mem (p_user_entry (auxv_info info)));
  '(mapdata, k) ← xalloc_pages k MAX_PROC_MAPS_FILE_SIZE false;
  _ ← assert (negb (mapdata =? 0));
  '(k, buf, h) ← read_self_procmap k (replicate (Z.to_nat MAX_PROC_MAPS_FILE_SIZE) 0) 0;
  '(r, _) ← find_in_map_by_addr buf h uentry;
  _ ← assert (start r <=? uentry);
  _ ← assert (uentry <? end_ r);
  if end_ r <=? u32 (uentry + PATCH_SZ) then Fatal
  else
    let sz := u32 (end_ r - start r) in
    k ← xdealloc_pages k mapdata MAX_PROC_MAPS_FILE_SIZE;
    k ← protect k (start r) sz (Z.lor Mm.PROT_READ Mm.PROT_WRITE);
    '(mem, st) ← arch_patch_user_entry target mem uentry (start r) sz (prot r);
    k ← protect k (start r) sz (prot r);
    Ok (k, mem, st).

End uentry.

End UEntry.
