(* ===== verification/UserEntryFacts.v ===== *)
(** The patched entry point: the jump reaches the loader, and removing the patch
    gives back the bytes and the protection of the program. *)
From S2P Require Import Prelude Kernel CString CStringFacts Proc ProcFacts Mm ArchCheckpoint Startup.
From S2P Require Import StartupFacts CheckpointFacts CheckpointRun UserEntry.
Import Str StrFacts Proc ProcFacts Mm Startup StartupFacts CkptFacts UEntry.

(** ** What the kernel promises *)

(** A fresh anonymous mapping [v] between [l1] and [l2]; the stack is above. *)
Record anon_line (l1 : list vma) (v : vma) (l2 : list vma) : Prop := {
  al_name : v_name v = None;
  al_ok : vma_ok v;
  al_text : zlen (maps_line v) < 100 /\ no_nul (maps_line v);
  al_below : l2 <> [];
  al_apart : Forall (fun w => v_end w <= v_start v \/ v_end v <= v_start w) (l1 ++ l2)
}.

(** Mapping anonymous pages adds a line to the maps of the process or makes an
    unnamed one longer. *)
Inductive grown : list vma -> list vma -> Prop :=
| grown_new l1 v l2 : anon_line l1 v l2 -> grown (l1 ++ l2) (l1 ++ v :: l2)
| grown_merge l1 u v l2 : v_name u = None -> anon_line l1 v l2 -> grown (l1 ++ u :: l2) (l1 ++ v :: l2).

(** mmap(2) as above, and mprotect(2): [page_prot k a] is the protection of the
    page at [a]. *)
Class KernelProt (K : Type) `{KernelMaps K} := {
  mmap_grown : forall k n prot p k',
    0 < n -> sys_uniform_mmap k n prot = (p, k') -> p mod PAGE_SIZE = 0 -> grown (vmas k) (vmas k');
  page_prot : K -> Z -> Z;
  mprotect_prot : forall k p n prot k', sys_mprotect k p n prot = (0, k') ->
    forall a, p <= a < p + n -> page_prot k' a = prot
}.

Module UEntryFacts.

(** ** Maps that have grown *)

Lemma line_replaced l1 v l2 rest :
  anon_line l1 v l2 ->
  l1 ++ rest <> [] -> Forall vma_ok (l1 ++ l2) -> (forall w, last l2 = Some w -> v_name w <> None) ->
  no_nul (maps_text l1) -> no_nul (maps_text l2) ->
  zlen (maps_text l1) + zlen (maps_text l2) + 101 < MAX_PROC_MAPS_FILE_SIZE ->
  l1 ++ v :: l2 <> [] /\ Forall vma_ok (l1 ++ v :: l2) /\ last_named (l1 ++ v :: l2) /\
  no_nul (maps_text (l1 ++ v :: l2)) /\ zlen (maps_text (l1 ++ v :: l2)) < MAX_PROC_MAPS_FILE_SIZE.
Proof.
  intros [_ Hv (Hl & Hn) Hne _] _ (H1 & H2)%Forall_app Hlast Hn1 Hn2 Htext. unfold no_nul in *.
  rewrite maps_text_app, maps_text_cons, !zlen_app, zlen_cons.
  split; [by destruct l1|]. split; [by apply Forall_app; split; [|constructor]|]. split; [|split; [|lia]].
  - intros w Hw. apply Hlast. rewrite last_app, last_cons in Hw.
    destruct (last l2) eqn:E; [done|]. by apply last_None in E.
  - apply Forall_app. split; [done|]. apply Forall_app. split; [done|]. by constructor.
Qed.

Lemma last_tail (l1 : list vma) x l2 w : l2 <> [] -> last l2 = Some w -> last (l1 ++ x :: l2) = Some w.
Proof. intros _ Hw. by rewrite last_app, last_cons, Hw. Qed.

Lemma grown_ok mem vs vs' :
  grown vs vs' -> maps_ok mem vs ->
  vs' <> [] /\ Forall vma_ok vs' /\ last_named vs' /\ no_nul (maps_text vs') /\
  zlen (maps_text vs') < MAX_PROC_MAPS_FILE_SIZE.
Proof.
  intros [l1 v l2 Ha|l1 u v l2 _ Ha] [Hne Hok _ Hlast Hnul Htext _];
    rewrite maps_text_app, ?maps_text_cons in Hnul, Htext; unfold no_nul in *; apply Forall_app in Hnul as (Hn1 & Hn2).
  - rewrite zlen_app in Htext. apply (line_replaced l1 v l2 l2); try (done || lia).
    intros w Hw. apply (Hlast w). by rewrite last_app, Hw.
  - apply Forall_app in Hn2 as (_ & Hn2). apply Forall_cons in Hn2 as (_ & Hn2).
    rewrite !zlen_app, zlen_cons in Htext. pose proof (zlen_nonneg (maps_line u)).
    apply (line_replaced l1 v l2 (u :: l2)); try (done || lia).
    + apply Forall_app in Hok as (Hok1 & Hok2). apply Forall_cons in Hok2 as (_ & Hok2). by apply Forall_app.
    + intros w Hw. apply (Hlast w). destruct Ha. by apply last_tail.
Qed.

(** The only mapping of [a] is [v]. *)
Definition only (a : Z) (v : vma) (vs : list vma) : Prop :=
  v ∈ vs /\ Forall (fun w => contains a w -> w = v) vs.

Lemma grown_only a v vs vs' :
  grown vs vs' -> contains a v -> v_name v <> None -> only a v vs -> only a v vs'.
Proof.
  intros Hg Hc Hname (Hin & Hall).
  assert (Hv : forall l1 x l2, anon_line l1 x l2 -> v ∈ l1 ++ l2 -> contains a x -> x = v).
  { intros l1 x l2 [_ _ _ _ Hap] Hin' Hx. rewrite Forall_forall in Hap. apply Hap in Hin'.
    unfold contains in *. lia. }
  destruct Hg as [l1 x l2 Ha|l1 u x l2 Hu Ha].
  - split; [by rewrite elem_of_app, elem_of_cons in *; tauto|].
    rewrite Forall_app, Forall_cons in *. destruct Hall. eauto.
  - assert (Hin' : v ∈ l1 ++ l2) by (rewrite elem_of_app, elem_of_cons in *; destruct Hin as [?|[->|?]]; tauto).
    split; [by rewrite elem_of_app, elem_of_cons in *; tauto|].
    rewrite Forall_app, !Forall_cons in *. destruct Hall as (? & _ & ?). eauto.
Qed.

Lemma only_find a v vs : contains a v -> only a v vs -> exists i, list_find (contains a) vs = Some (i, v).
Proof.
  intros Hc (Hin & Hall). destruct (list_find_elem_of (contains a) vs v Hin Hc) as ((i & w) & E). exists i.
  apply list_find_Some in E as Ew. destruct Ew as (Hw & Hcw & _). rewrite E. do 2 f_equal.
  rewrite Forall_forall in Hall. apply Hall; [by eapply list_elem_of_lookup_2|done].
Qed.

(** ** Patching *)

(** The jump at [inst]. *)
Definition jump (inst target : Z) : list Z := 0xe9 :: le32 (u32 (target - (inst + PATCH_SZ))).

Lemma zlen_jump inst target : zlen (jump inst target) = 5.
Proof. unfold jump, le32. by rewrite zlen_cons, zlen_le. Qed.

Lemma do_patch_spec mem inst target :
  0 <= inst -> inst + PATCH_SZ <= zlen mem -> do_patch mem inst target = Ok (poke mem inst (jump inst target)).
Proof.
  intros Hi Hl. unfold do_patch, PATCH_SZ in *. rewrite mem_write_poke by (change (zlen [0xe9]) with 1; lia).
  rewrite bind_Ok. set (d := le32 _). assert (Hd : zlen d = 4) by (unfold d, le32; by rewrite zlen_le).
  rewrite mem_write_poke by (rewrite ?zlen_poke; change (zlen [0xe9]) with 1; lia).
  change 1 with (zlen [0xe9]). rewrite poke_poke; [done|lia|]. change (zlen [0xe9]) with 1. lia.
Qed.

(** The processor adds the operand to the address behind the instruction. *)
Definition jump_target (bs : list Z) (inst : Z) : option Z :=
  match bs with
  | op :: rel => if op =? 0xe9 then Some (u32 (inst + PATCH_SZ + of_le rel)) else None
  | [] => None
  end.

Lemma jump_reaches inst target : is_u32 target -> jump_target (jump inst target) inst = Some target.
Proof.
  intros Ht. unfold jump_target, jump. cbn [Z.eqb Pos.eqb]. f_equal. rewrite of_le32 by apply u32_range.
  unfold u32, is_u32 in *. rewrite Zplus_mod_idemp_r.
  replace (inst + PATCH_SZ + (target - (inst + PATCH_SZ))) with target by lia. by apply Z.mod_small.
Qed.

(** ** The whole round *)

Section facts.
Context {K : Type} {KK : Kernel K} {KF : KernelFiles K} {KUp : KernelUp K}.
Context {KP : KernelPages K} {KPL : KernelPagesLaws K} {KPU : KernelPagesUp K}.
Context {KT : KernelTls K} {KTL : KernelTlsLaws K} {KM : KernelMaps K} {KMU : KernelMapsUp K} {KPr : KernelProt K}.

Lemma protect_spec (k : K) p n prot :
  exists k', protect k p n prot = Ok k' /\ forall a, p <= a < p + n -> page_prot k' a = prot.
Proof.
  unfold protect. pose proof (mprotect_up k p n prot) as Hu.
  destruct (sys_mprotect k p n prot) as [err k'] eqn:E. cbn in Hu. subst err. exists k'.
  split; [done|]. by eapply mprotect_prot.
Qed.

Lemma unpatch_spec (k : K) mem st :
  patch_begin st <> 0 -> reprotect_addr_start st <> 0 ->
  0 <= patch_begin st -> patch_begin st + zlen (saved_patch_bytes st) <= zlen mem ->
  exists k', unpatch_user_entry k mem st = Ok (k', poke mem (patch_begin st) (saved_patch_bytes st)) /\
    forall a, reprotect_addr_start st <= a < reprotect_addr_start st + reprotect_sz st -> page_prot k' a = old_prot st.
Proof.
  intros Hp%Z.eqb_neq Hr%Z.eqb_neq Hp0 Hl. unfold unpatch_user_entry. rewrite Hp, Hr. cbn [negb assert]. rewrite !bind_Ok.
  destruct (protect_spec k (reprotect_addr_start st) (reprotect_sz st) (Z.lor Mm.PROT_READ Mm.PROT_WRITE)) as (k1 & -> & _).
  rewrite bind_Ok, mem_write_poke, bind_Ok by done.
  destruct (protect_spec k1 (reprotect_addr_start st) (reprotect_sz st) (old_prot st)) as (k2 & -> & Hk2).
  by exists k2.
Qed.

(** The mapping of the entry point is found in the maps of the process. *)
Lemma entry_found mem (k : K) uentry v :
  maps_ok mem (vmas k) -> has_room k -> contains uentry v -> v_name v <> None -> only uentry v (vmas k) ->
  exists p k1 k2 k3 buf h r h',
    xalloc_pages k MAX_PROC_MAPS_FILE_SIZE false = Ok (p, k1) /\ p <> 0 /\
    read_self_procmap k1 (replicate (Z.to_nat MAX_PROC_MAPS_FILE_SIZE) 0) 0 = Ok (k2, buf, h) /\
    find_in_map_by_addr buf h uentry = Ok (r, h') /\ entry_of buf v r /\
    xdealloc_pages k2 p MAX_PROC_MAPS_FILE_SIZE = Ok k3.
Proof.
  intros Hmo Hroom Hc Hname Honly.
  destruct (xalloc_eq k MAX_PROC_MAPS_FILE_SIZE Hroom) as (p & k1 & E1 & Emm & Hp & Hp0 & Hr); [done..|].
  pose proof (mmap_grown k MAX_PROC_MAPS_FILE_SIZE _ p k1 ltac:(done) Emm Hp) as Hg.
  destruct (grown_ok mem _ _ Hg Hmo) as (Hne & Hok & Hlast & Hnul & Htext).
  destruct (read_self_procmap_spec k1 (vmas k1) eq_refl Hne Hok Hlast Hnul Htext) as (k2 & buf & E2 & _ & Hread & _).
  destruct (find_by_addr_spec buf 0 (vmas k1) uentry 0) as (r & h' & E3 & Hr'); try done.
  { apply Hread. }
  { assert (MAX_PROC_MAPS_FILE_SIZE = 1048576) by reflexivity. lia. }
  destruct (only_find uentry v (vmas k1) Hc (grown_only _ _ _ _ Hg Hc Hname Honly)) as (i & Ei).
  unfold first_entry in Hr'. rewrite Ei in Hr'. unfold PAGE_SIZE in Hp0.
  destruct (xdealloc_eq k2 p MAX_PROC_MAPS_FILE_SIZE) as (k3 & E4 & _); [done|lia|done|done|lia|].
  exists p, k1, k2, k3, buf, (Handler 0 (0 + zlen (maps_text (vmas k1))) 0), r, h'. repeat split; try done; [lia|apply Hr'..].
Qed.


End facts.

(** ** A patch *)

(** The protection set last. *)
Definition last_prot (l : list (Z * Z * Z)) (a : Z) : Z :=
  match list_find (fun r => r.1.1 <= a < r.1.1 + r.1.2) l with Some (_, r) => r.2 | None => 0 end.

#[global] Program Instance snap_prot : KernelProt Snap.snap := { page_prot k := last_prot (Snap.prots k) }.
Next Obligation.
  intros k n prot p k' Hn E Hp. destruct (Snap.mmap_spec _ _ _ _ _ E) as [(-> & _)|(_ & H1 & _ & H2 & Hall & ->)]; [done|].
  change (grown ([] ++ Snap.mappings k) ([] ++ anon (p, n) :: Snap.mappings k)). constructor.
  destruct (anon_ok p n) as (A1 & A2 & A3); [unfold is_u32; lia..|]. constructor; try done.
  - unfold Snap.mappings. by destruct (Snap.own k).
  - cbn [app]. apply Forall_app. split; [|repeat constructor; cbn; lia]. apply Forall_map.
    eapply Forall_impl; [exact Hall|]. intros r (_ & Hr). left. cbn in *. lia.
Qed.
Next Obligation.
  intros k p n prot k' E a Ha. injection E as <-. unfold last_prot. cbn. by rewrite decide_True.
Qed.

(** The memory of the checkpoint run with the entry point 4200 in the auxiliary
    vector, at 4160. *)
Definition mem2 : list Z := poke mem1 4160 (le32 4200).

Definition info2 : startup_stack_info := Stack 0 0 0 0 4096 4101 4101 4105 4105 (Auxv 4160 0 0 0 0 0 0).


End UEntryFacts.
