(* ===== verification/Elf.v ===== *)
(** ELF images, [src/src/core/loader/elf.c]: mapping the segments of an
    executable or a library, and the relocation of the loader itself.

    [load_elf] works on the address space of the process, which the kernel
    keeps: mmap2(2) and munmap(2) change it and [store] is a store of the
    program into it. [relocate_interp] runs before that, on the memory of the
    loader. *)
From S2P Require Import Prelude Kernel CString Mm Startup.
Import Mm Startup.

(** linux/mman.h, on i386 *)
Definition MAP_PRIVATE : Z := 0x02.
Definition MAP_FIXED : Z := 0x10.
Definition MAP_ANONYMOUS : Z := 0x20.
Definition MAP_DENYWRITE : Z := 0x0800.

(** The calls of the loader that [Kernel] and [KernelPages] do not have:
    [sys_lseek k fd offset origin], [sys_mmap2 k addr length prot flags fd
    pgoffset]; and stores to the address space, [Stray Wr] when one faults. *)
Class KernelImages (K : Type) := {
  sys_lseek : K -> Z -> Z -> Z -> Z * K;
  sys_mmap2 : K -> Z -> Z -> Z -> Z -> Z -> Z -> Z * K;
  store : K -> Z -> list Z -> result K
}.

Module Elf.

(** ** The headers *)

Definition ET_EXEC : Z := 2.
Definition ET_DYN : Z := 3.
Definition EM_386 : Z := 3.
Definition ELFMAG : list Z := [0x7f; 69; 76; 70].
Definition PT_LOAD : Z := 1.
Definition PT_INTERP : Z := 3.
Definition PF_R : Z := 4.
Definition PF_W : Z := 2.
Definition PF_X : Z := 1.

(** The fields of [struct elf32_hdr] the loader uses, by their offsets. *)
Record elfhdr := Ehdr {
  e_ident : list Z;
  e_type : Z;
  e_machine : Z;
  e_entry : Z;
  e_phoff : Z;
  e_phnum : Z
}.

Definition sizeof_elfhdr : Z := 52.

Definition half (b : list Z) (i : Z) : Z := of_le (zslice b i 2).
Definition full (b : list Z) (i : Z) : Z := of_le (zslice b i 4).

Definition elfhdr_of (b : list Z) : elfhdr :=
  Ehdr (zslice b 0 16) (half b 16) (half b 18) (full b 24) (full b 28) (half b 44).

(** [struct elf32_phdr] *)
Record elf_phdr := Phdr {
  p_type : Z;
  p_offset : Z;
  p_vaddr : Z;
  p_filesz : Z;
  p_memsz : Z;
  p_flags : Z;
  p_align : Z
}.

Definition sizeof_elf_phdr : Z := 32.

Definition elf_phdr_of (b : list Z) : elf_phdr :=
  Phdr (full b 0) (full b 4) (full b 8) (full b 16) (full b 20) (full b 24) (full b 28).

(** The [n] headers in [b]. *)
Fixpoint elf_phdrs_of (n : nat) (b : list Z) : list elf_phdr :=
  match n with
  | O => []
  | S n => elf_phdr_of b :: elf_phdrs_of n (drop 32 b)
  end.

(** ** Loading *)

Section elf.
Context {K : Type} `{Kernel K} `{KernelPages K} `{KernelImages K}.

(** include/syscall.h: the offset goes to the kernel in pages. *)
Definition uniform_mmap (k : K) (addr length prot flags fd offset : Z) : Z * K :=
  sys_mmap2 k addr length prot flags fd (Z.shiftr offset 12).

Definition open_elf_file (k : K) (fn : fname) : result (Z * elfhdr * K) :=
  let '(fd, k) := sys_open k fn O_RDONLY 0 in
  _ ← assert (0 <=? fd);
  let '(err, b, k) := sys_read k fd sizeof_elfhdr in
  _ ← assert (err =? sizeof_elfhdr);
  let hdr := elfhdr_of b in
  _ ← assert (bool_decide (take 4 (e_ident hdr) = ELFMAG));
  _ ← assert ((e_type hdr =? ET_DYN) || (e_type hdr =? ET_EXEC));
  _ ← assert (e_machine hdr =? EM_386);
  Ok (fd, hdr, k).

Definition load_phdrs (k : K) (fd : Z) (h : elfhdr) : result (list elf_phdr * K) :=
  let '(err, k) := sys_lseek k fd (e_phoff h) 0 in
  _ ← assert (0 <=? err);
  let '(err, b, k) := sys_read k fd (sizeof_elf_phdr * e_phnum h) in
  _ ← assert (err =? sizeof_elf_phdr * e_phnum h);
  Ok (elf_phdrs_of (Z.to_nat (e_phnum h)) b, k).

(** The loop of [get_total_map_sz] from header [i] on; a zero alignment makes
    the processor trap, which ends the process. *)
Fixpoint total_loop (i : Z) (phdrs : list elf_phdr) (start end_ first : Z) : result (Z * Z * Z) :=
  match phdrs with
  | [] => Ok (start, end_, first)
  | p :: phdrs =>
      if negb (p_type p =? PT_LOAD) then total_loop (i + 1) phdrs start end_ first
      else
        let '(start, first) := if p_vaddr p <? start then (p_vaddr p, i) else (start, first) in
        let p_end := u32 (p_vaddr p + p_memsz p) in
        let end_ := if end_ <? p_end then p_end else end_ in
        _ ← assert (negb (p_align p =? 0));
        _ ← assert (u32 (p_vaddr p - p_offset p) mod p_align p =? 0);
        total_loop (i + 1) phdrs start end_ first
  end.

(** The size and the index of the first header. *)
Definition get_total_map_sz (phdrs : list elf_phdr) (first : Z) : result (Z * Z) :=
  '(start, end_, first) ← total_loop 0 phdrs (2 ^ 32 - 1) 0 first;
  let start := ALIGN_DOWN start 0x1000 in
  let end_ := ALIGN_UP end_ 0x1000 in
  _ ← assert (0 <? u32 (end_ - start));
  Ok (u32 (end_ - start), first).

Definition get_map_prot (f : Z) : Z :=
  Z.lor (Z.lor (if negb (Z.land f PF_R =? 0) then PROT_READ else 0)
               (if negb (Z.land f PF_W =? 0) then PROT_WRITE else 0))
        (if negb (Z.land f PF_X =? 0) then PROT_EXEC else 0).

(** Returns [start_addr] and the load bias. The result of mmap is not checked. *)
Definition map_first (k : K) (fd : Z) (ph : elf_phdr) (total_map_sz : Z) (fixed : bool) : result (Z * Z * K) :=
  let start_addr := p_vaddr ph in
  let end_addr := u32 (start_addr + total_map_sz) in
  let start_addr := ALIGN_DOWN start_addr 0x1000 in
  let end_addr := ALIGN_UP end_addr 0x1000 in
  let total_map_sz := u32 (end_addr - start_addr) in
  let map_type := if fixed then Z.lor MAP_PRIVATE MAP_FIXED else MAP_PRIVATE in
  _ ← assert (p_offset ph =? 0);
  let prot := get_map_prot (p_flags ph) in
  let '(map_addr, k) :=
    uniform_mmap k (if fixed then start_addr else 0) total_map_sz prot map_type fd (p_offset ph) in
  let load_bias := if fixed then 0 else u32 (map_addr - p_vaddr ph) in
  let start_addr := if fixed then start_addr else u32 (load_bias + start_addr) in
  let end_addr := if fixed then end_addr else u32 (load_bias + end_addr) in
  let unmap_start := ALIGN_UP (u32 (start_addr + p_memsz ph)) 4096 in
  let unmap_end := ALIGN_UP end_addr 4096 in
  let k := if unmap_start <? unmap_end then (sys_munmap k unmap_start (unmap_end - unmap_start)).2 else k in
  k ← (if (p_filesz ph <? p_memsz ph) && negb (Z.land (p_flags ph) PF_W =? 0)
       then store k (u32 (start_addr + p_filesz ph)) (replicate (Z.to_nat (p_memsz ph - p_filesz ph)) 0)
       else Ok k);
  Ok (start_addr, load_bias, k).

Definition map_region (k : K) (fd : Z) (ph : elf_phdr) (load_bias : Z) : result K :=
  let start := u32 (load_bias + p_vaddr ph) in
  let f_end := u32 (start + p_filesz ph) in
  let m_end := u32 (start + p_memsz ph) in
  let start_al := ALIGN_DOWN start 0x1000 in
  let f_end_al := ALIGN_UP f_end 0x1000 in
  let m_end_al := ALIGN_UP m_end 0x1000 in
  let port := get_map_prot (p_flags ph) in
  let '(addr, k) := uniform_mmap k start_al (u32 (f_end_al - start_al)) port
    (Z.lor MAP_PRIVATE MAP_FIXED) fd (p_offset ph) in
  _ ← assert (addr =? start_al);
  k ← (if f_end_al <? m_end_al then
         let '(addr, k) := uniform_mmap k f_end_al (u32 (m_end_al - f_end_al)) port
           (Z.lor (Z.lor (Z.lor MAP_PRIVATE MAP_ANONYMOUS) MAP_DENYWRITE) MAP_FIXED) 0 0 in
         _ ← assert (addr =? f_end_al);
         Ok k
       else Ok k);
  store k f_end (replicate (Z.to_nat (u32 (m_end_al - f_end))) 0).

(** The loop over the headers, from header [i] on. *)
Fixpoint load_loop (k : K) (fd : Z) (first : Z) (load_bias : Z) (i : Z) (phdrs : list elf_phdr) (need_interp : bool) :
    result (bool * K) :=
  match phdrs with
  | [] => Ok (need_interp, k)
  | p :: phdrs =>
      let need_interp := if p_type p =? PT_INTERP then true else need_interp in
      k ← (if (i =? first) || negb (p_type p =? PT_LOAD) then Ok k else map_region k fd p load_bias);
      load_loop k fd first load_bias (i + 1) phdrs need_interp
  end.

(** What [load_elf] returns and stores through its pointer arguments. *)
Record load_result := Loaded {
  l_entry : Z;
  l_load_bias : Z;
  l_phdrs : Z;
  l_nr_phdrs : Z;
  l_need_interp : bool
}.

Definition load_elf (k : K) (fn : fname) : result (load_result * K) :=
  '(fd, hdr, k) ← open_elf_file k fn;
  '(phdrs, k) ← load_phdrs k fd hdr;
  '(total_map_sz, first) ← get_total_map_sz phdrs 0;
  ph ← rd phdrs first;
  '(map_addr, load_bias, k) ← map_first k fd ph total_map_sz (e_type hdr =? ET_EXEC);
  '(need_interp, k) ← load_loop k fd first load_bias 0 phdrs false;
  let '(_, k) := sys_close k fd in
  Ok (Loaded (u32 (load_bias + e_entry hdr)) load_bias (u32 (map_addr + e_phoff hdr)) (e_phnum hdr) need_interp, k).

End elf.

(** ** Relocation of the loader *)

Definition DT_NULL : Z := 0.
Definition DT_SYMTAB : Z := 6.
Definition DT_RELA : Z := 7.
Definition DT_REL : Z := 17.
Definition DT_RELSZ : Z := 18.
Definition DT_RELENT : Z := 19.
Definition R_386_GLOB_DAT : Z := 6.
Definition R_386_RELATIVE : Z := 8.

Record dyn_info := Dyn { reltab : Z; symtab : Z; relsz : Z; relent : Z }.

(** One entry of the dynamic section; [breakpoint()] ends the process. *)
Definition dyn_entry (load_bias tag val : Z) (d : dyn_info) : result dyn_info :=
  let '(Dyn r s sz ent) := d in
  if tag =? DT_RELSZ then Ok (Dyn r s (s32 val) ent)
  else if tag =? DT_REL then Ok (Dyn (u32 (val + load_bias)) s sz ent)
  else if tag =? DT_RELENT then Ok (Dyn r s sz (s32 val))
  else if tag =? DT_SYMTAB then Ok (Dyn r (u32 (val + load_bias)) sz ent)
  else if tag =? DT_RELA then Fatal
  else Ok d.

Fixpoint dyn_loop (m : list Z) (fuel : nat) (load_bias dyn : Z) (d : dyn_info) : result dyn_info :=
  match fuel with
  | O => NoFuel
  | S fuel =>
      tag ← ld32 m dyn;
      if tag =? DT_NULL then Ok d
      else
        val ← ld32 m (dyn + 4);
        d ← dyn_entry load_bias tag val d;
        dyn_loop m fuel load_bias (dyn + 8) d
  end.

(** The value of a relocation. *)
Definition rel_value (m : list Z) (load_bias symtab address info : Z) : result Z :=
  let type := Z.land info 0xff in
  if type =? R_386_RELATIVE then
    old_val ← ld32 m address;
    Ok (u32 (old_val + load_bias))
  else if type =? R_386_GLOB_DAT then
    _ ← assert (negb (symtab =? 0));
    sym_val ← ld32 m (symtab + 16 * Z.shiftr info 8 + 4);
    Ok (u32 (sym_val + load_bias))
  else Fatal.

(** The relocations from [i] on, [n] of them. *)
Fixpoint rel_loop (n : nat) (m : list Z) (load_bias : Z) (d : dyn_info) (i : Z) : result (list Z) :=
  match n with
  | O => Ok m
  | S n =>
      r_offset ← ld32 m (reltab d + 8 * i);
      info ← ld32 m (reltab d + 8 * i + 4);
      let address := u32 (r_offset + load_bias) in
      real_val ← rel_value m load_bias (symtab d) address info;
      m ← mem_write m address (le32 real_val);
      rel_loop n m load_bias d (i + 1)
  end.

(** [dynamic] and [got] are the addresses of [_DYNAMIC] and
    [_GLOBAL_OFFSET_TABLE_]. *)
Definition relocate_interp (m : list Z) (dynamic got : Z) : result (list Z) :=
  link_dynamic ← ld32 m got;
  let load_bias := u32 (dynamic - link_dynamic) in
  d ← dyn_loop m (stack_rounds m) load_bias dynamic (Dyn 0 0 0 0);
  if reltab d =? 0 then Ok m
  else
    _ ← assert (negb (relsz d =? 0));
    _ ← assert (negb (relent d =? 0));
    let nr_rels := Z.quot (relsz d) (relent d) in
    rel_loop (Z.to_nat nr_rels) m load_bias d 0.

End Elf.
