(* ===== verification/RelocFacts.v ===== *)
(** The relocation of the loader: every word its relocation table names gets the
    value the i386 ABI prescribes, and no other byte changes. *)
From S2P Require Import Prelude Kernel CString CStringFacts Mm Startup Elf.
Import Mm Startup Elf.

Module RelocFacts.

(** ** Words in memory *)

Definition word (m : list Z) (p : Z) : Z := of_le (zslice m p 4).

Lemma ld32_iff m p v : ld32 m p = Ok v <-> 0 <= p /\ p + 4 <= zlen m /\ v = word m p.
Proof.
  unfold ld32, mem_read. destruct (Z.leb_spec 0 p), (Z.leb_spec (p + 4) (zlen m)); cbn [andb Z.leb Z.compare mbind result_bind];
    split; try (by intros [=]); try (intros (? & ? & _); lia). by intros (_ & _ & ->).
Qed.

Lemma ld32_poke_apart m a b p :
  0 <= a -> a + zlen b <= zlen m -> apart p 4 a (zlen b) -> ld32 (poke m a b) p = ld32 m p.
Proof.
  intros Ha Hl Hap. unfold ld32, mem_read. rewrite zlen_poke by done.
  destruct (Z.leb_spec 0 p); [|done]. by rewrite zslice_poke_apart.
Qed.

Lemma ld32_poke m a v : 0 <= a -> a + 4 <= zlen m -> is_u32 v -> ld32 (poke m a (le32 v)) a = Ok v.
Proof.
  intros Ha Hl Hv. assert (H4 : zlen (le32 v) = 4) by apply zlen_le. apply ld32_iff. rewrite zlen_poke by lia.
  split; [done|]. split; [done|]. unfold word. rewrite <- H4, zslice_poke by lia. by rewrite of_le32.
Qed.

(** ** The dynamic section *)

(** The entries at [p], up to the one that ends them. *)
Fixpoint dyn_at (m : list Z) (p : Z) (dyns : list (Z * Z)) : Prop :=
  match dyns with
  | [] => ld32 m p = Ok DT_NULL
  | (t, v) :: dyns => t <> DT_NULL /\ ld32 m p = Ok t /\ ld32 m (p + 4) = Ok v /\ dyn_at m (p + 8) dyns
  end.

(** The value of the last entry tagged [t]. *)
Fixpoint tagged (t : Z) (dyns : list (Z * Z)) (old : Z) : Z :=
  match dyns with
  | [] => old
  | (t', v) :: dyns => tagged t dyns (if t' =? t then v else old)
  end.

(** What the entries say, with the pointers moved by the bias. *)
Definition dyn_of (bias : Z) (dyns : list (Z * Z)) (d : dyn_info) : dyn_info :=
  let moved := map (fun e => (e.1, u32 (e.2 + bias))) dyns in
  let ints := map (fun e => (e.1, s32 e.2)) dyns in
  Dyn (tagged DT_REL moved (reltab d)) (tagged DT_SYMTAB moved (symtab d))
      (tagged DT_RELSZ ints (relsz d)) (tagged DT_RELENT ints (relent d)).

Lemma dyn_entry_spec bias t v d :
  t <> DT_RELA -> exists d', dyn_entry bias t v d = Ok d' /\ dyn_of bias [(t, v)] d = d'.
Proof.
  intros Ht. destruct d as [r s sz ent]. unfold dyn_entry, dyn_of. cbn [map tagged fst snd reltab symtab relsz relent].
  destruct (Z.eqb_spec t DT_RELSZ) as [->|]; [by eexists|]. destruct (Z.eqb_spec t DT_REL) as [->|]; [by eexists|].
  destruct (Z.eqb_spec t DT_RELENT) as [->|]; [by eexists|]. destruct (Z.eqb_spec t DT_SYMTAB) as [->|]; [by eexists|].
  destruct (Z.eqb_spec t DT_RELA); [done|]. by eexists.
Qed.

Lemma dyn_loop_spec m bias : forall dyns fuel p d,
  dyn_at m p dyns -> Forall (fun e => e.1 <> DT_RELA) dyns -> (length dyns < fuel)%nat ->
  dyn_loop m fuel bias p d = Ok (dyn_of bias dyns d).
Proof.
  induction dyns as [|(t & v) dyns IH]; intros fuel p d Hd Hr Hf; (destruct fuel as [|fuel]; [cbn in Hf; lia|]);
    cbn [dyn_loop]; cbn [dyn_at] in Hd.
  - rewrite Hd, bind_Ok. by destruct d.
  - destruct Hd as (Hne%Z.eqb_neq & -> & Ev & Hd). rewrite bind_Ok, Hne, Ev, bind_Ok. apply Forall_cons in Hr as (Hr0 & Hr).
    destruct (dyn_entry_spec bias t v d Hr0) as (d' & -> & <-). rewrite bind_Ok, IH by (done || cbn in Hf; lia). done.
Qed.

Lemma dyn_at_length m : forall dyns p, dyn_at m p dyns -> 0 <= p /\ p + 8 * zlen dyns + 4 <= zlen m.
Proof.
  induction dyns as [|(t & v) dyns IH]; intros p Hd; cbn [dyn_at] in Hd.
  - apply ld32_iff in Hd. change (zlen (@nil (Z * Z))) with 0. lia.
  - destruct Hd as (_ & (Hp & _)%ld32_iff & _ & Hd). apply IH in Hd. rewrite zlen_cons. lia.
Qed.

(** ** The relocations *)

(** The address a relocation changes, and the word its value comes from. *)
Definition target (bias : Z) (r : Z * Z) : Z := u32 (r.1 + bias).
Definition source (bias symtab : Z) (r : Z * Z) : Z :=
  if Z.land r.2 0xff =? R_386_RELATIVE then target bias r else symtab + 16 * Z.shiftr r.2 8 + 4.

(** The relocations [rels] are at [tab], of the two types the loader has, and
    their words are in memory. *)
Record rels_ok (m : list Z) (bias symtab tab : Z) (rels : list (Z * Z)) : Prop := {
  ro_table : forall i r, rels !! i = Some r ->
    ld32 m (tab + 8 * Z.of_nat i) = Ok r.1 /\ ld32 m (tab + 8 * Z.of_nat i + 4) = Ok r.2;
  ro_type : Forall (fun r => Z.land r.2 0xff = R_386_RELATIVE \/ Z.land r.2 0xff = R_386_GLOB_DAT /\ symtab <> 0) rels;
  ro_word : Forall (fun r => target bias r + 4 <= zlen m /\ 0 <= source bias symtab r /\ source bias symtab r + 4 <= zlen m) rels;
  (** no relocation changes the table, a word another one reads or writes *)
  ro_tab_apart : forall i j r r', rels !! i = Some r -> rels !! j = Some r' ->
    apart (tab + 8 * Z.of_nat j) 8 (target bias r) 4;
  ro_apart : forall i j r r', i <> j -> rels !! i = Some r -> rels !! j = Some r' ->
    apart (source bias symtab r') 4 (target bias r) 4 /\ apart (target bias r') 4 (target bias r) 4
}.

Lemma rel_value_spec m bias symtab r :
  Z.land r.2 0xff = R_386_RELATIVE \/ Z.land r.2 0xff = R_386_GLOB_DAT /\ symtab <> 0 ->
  0 <= source bias symtab r -> source bias symtab r + 4 <= zlen m ->
  rel_value m bias symtab (target bias r) r.2 = Ok (u32 (word m (source bias symtab r) + bias)).
Proof.
  unfold rel_value, source. intros [Ht|(Ht & Hs%Z.eqb_neq)] H0 Hl; rewrite Ht in *.
  - cbn [Z.eqb R_386_RELATIVE Pos.eqb] in *. by rewrite (proj2 (ld32_iff m _ _) (conj H0 (conj Hl eq_refl))), bind_Ok.
  - cbn [Z.eqb R_386_RELATIVE R_386_GLOB_DAT Pos.eqb] in *. rewrite Hs. cbn [negb assert]. rewrite bind_Ok.
    by rewrite (proj2 (ld32_iff m _ _) (conj H0 (conj Hl eq_refl))), bind_Ok.
Qed.

Lemma target_nonneg bias r : 0 <= target bias r.
Proof. apply u32_range. Qed.

Lemma word_poke_apart m a b p :
  0 <= a -> a + zlen b <= zlen m -> 0 <= p -> apart p 4 a (zlen b) -> word (poke m a b) p = word m p.
Proof. intros Ha Hl Hp Hap. unfold word. by rewrite zslice_poke_apart. Qed.

(** The other relocations are as before when the first was applied. *)
Lemma rels_ok_tail m bias symtab tab r rels v :
  rels_ok m bias symtab tab (r :: rels) ->
  rels_ok (poke m (target bias r) (le32 v)) bias symtab (tab + 8) rels.
Proof.
  intros [Ht Hty Hw Htab Hap]. apply Forall_cons in Hty as (_ & Hty). apply Forall_cons in Hw as ((Hr & _) & Hw).
  pose proof (target_nonneg bias r) as H0. assert (H4 : zlen (le32 v) = 4) by apply zlen_le.
  constructor.
  - intros i r' Hi. destruct (Ht (S i) r' Hi) as (E1 & E2).
    replace (tab + 8 * Z.of_nat (S i)) with (tab + 8 + 8 * Z.of_nat i) in * by lia.
    pose proof (Htab 0%nat (S i) r r' eq_refl Hi) as Ha. unfold apart in Ha.
    split; rewrite ld32_poke_apart; try done; try lia; unfold apart; lia.
  - done.
  - eapply Forall_impl; [exact Hw|]. intros r' Hr'. rewrite zlen_poke by lia. done.
  - intros i j r1 r2 H1 H2. pose proof (Htab (S i) (S j) r1 r2 H1 H2) as Ha.
    replace (tab + 8 + 8 * Z.of_nat j) with (tab + 8 * Z.of_nat (S j)) by lia. done.
  - intros i j r1 r2 Hne H1 H2. by apply (Hap (S i) (S j)); [lia|..].
Qed.

Lemma rel_loop_spec bias symtab tab sz ent : forall rels m i,
  rels_ok m bias symtab (tab + 8 * i) rels ->
  exists m', rel_loop (length rels) m bias (Dyn tab symtab sz ent) i = Ok m' /\ zlen m' = zlen m /\
    Forall (fun r => word m' (target bias r) = u32 (word m (source bias symtab r) + bias)) rels /\
    forall a, Forall (fun r => apart (Z.of_nat a) 1 (target bias r) 4) rels -> m' !! a = m !! a.
Proof.
  induction rels as [|r rels IH]; intros m i Hok; cbn [length rel_loop]; [by exists m|].
  pose proof Hok as [Ht Hty Hw Htab Hap]. destruct (Ht 0%nat r eq_refl) as (E1 & E2).
  rewrite Z.mul_0_r, Z.add_0_r in E1, E2. cbn [Elf.reltab Elf.symtab]. rewrite E1, bind_Ok, E2, bind_Ok.
  apply Forall_cons in Hty as (Hty & _). apply Forall_cons in Hw as ((Hr & Hs0 & Hs) & Hw).
  fold (target bias r). rewrite rel_value_spec, bind_Ok by done. set (v := u32 (word m (source bias symtab r) + bias)).
  pose proof (target_nonneg bias r) as H0. assert (H4 : zlen (le32 v) = 4) by apply zlen_le.
  rewrite mem_write_poke, bind_Ok by lia.
  pose proof (rels_ok_tail m bias symtab _ r rels v Hok) as Hok'.
  replace (tab + 8 * i + 8) with (tab + 8 * (i + 1)) in Hok' by lia.
  destruct (IH _ _ Hok') as (m' & -> & Hl & Hv & Hrest). exists m'. rewrite zlen_poke in Hl by lia.
  assert (Hoth : forall j r', rels !! j = Some r' -> apart (source bias symtab r') 4 (target bias r) 4 /\
    apart (target bias r') 4 (target bias r) 4) by (intros j r' Hj; by apply (Hap 0%nat (S j))).
  split; [done|]. split; [done|]. split.
  - constructor.
    + pose proof (ld32_poke m (target bias r) v H0 Hr (u32_range _)) as Hld. apply ld32_iff in Hld as (_ & _ & Hword).
      transitivity v; [|done]. rewrite Hword. unfold word. apply (f_equal of_le), zslice_ext; [lia|lia|].
      intros x Hx. apply Hrest, Forall_lookup. intros j r' Hj. destruct (Hoth j r' Hj) as (_ & Ha). unfold apart in *. lia.
    + apply Forall_lookup. intros j r' Hj. rewrite (Forall_lookup_1 _ _ _ _ Hv Hj). do 2 f_equal.
      destruct (Hoth j r' Hj) as (Ha & _). destruct (Forall_lookup_1 _ _ _ _ Hw Hj) as (_ & Hs0' & _).
      apply word_poke_apart; try lia. by rewrite H4.
  - intros a Ha. apply Forall_cons in Ha as (Ha0 & Ha). rewrite Hrest by done. apply lookup_poke; [lia|lia|].
    unfold apart in Ha0. rewrite H4. lia.
Qed.

(** C21: [relocate_interp] applies the relocation table of the dynamic section:
    a relative relocation adds the load bias to its word, a symbol relocation
    stores the biased value of its symbol, both read from the memory as it was;
    every other byte keeps its value. Without a table nothing changes. The
    section has no table with addends; entries have 8 bytes and one of the two
    types, the words are in the memory, and no relocation changes the table or
    a word another one reads or writes. *)
Theorem relocate_interp_correct m dynamic got link dyns rels :
  ld32 m got = Ok link -> dyn_at m dynamic dyns -> Forall (fun e => e.1 <> DT_RELA) dyns ->
  let bias := u32 (dynamic - link) in
  let d := dyn_of bias dyns (Dyn 0 0 0 0) in
  (reltab d = 0 -> relocate_interp m dynamic got = Ok m) /\
  (reltab d <> 0 -> relsz d = 8 * zlen rels -> rels <> [] -> relent d = 8 ->
   rels_ok m bias (symtab d) (reltab d) rels ->
   exists m', relocate_interp m dynamic got = Ok m' /\ zlen m' = zlen m /\
     Forall (fun r => word m' (target bias r) = u32 (word m (source bias (symtab d) r) + bias)) rels /\
     forall a, Forall (fun r => apart (Z.of_nat a) 1 (target bias r) 4) rels -> m' !! a = m !! a).
Proof.
  intros Hgot Hdyn Hrela bias d. unfold relocate_interp. rewrite Hgot, bind_Ok. fold bias.
  pose proof (dyn_at_length m dyns dynamic Hdyn) as (Hd0 & Hd1). unfold stack_rounds.
  rewrite (dyn_loop_spec m bias dyns) by (done || unfold zlen in *; lia). rewrite bind_Ok. fold d.
  destruct (Z.eqb_spec (reltab d) 0) as [Hz|Hz]; split; intros Hz'; try done. intros Hsz Hne Hent Hok.
  assert (Hpos : 0 < zlen rels) by (destruct rels; [done|rewrite zlen_cons; pose proof (zlen_nonneg rels); lia]).
  rewrite Hsz, Hent. destruct (Z.eqb_spec (8 * zlen rels) 0); [lia|]. cbn [negb assert Z.eqb]. rewrite !bind_Ok.
  rewrite Z.mul_comm, Z.quot_mul by lia. unfold zlen at 1. rewrite Nat2Z.id.
  destruct d as [tab sym sz ent]. cbn [reltab symtab] in *. apply rel_loop_spec. by rewrite Z.mul_0_r, Z.add_0_r.
Qed.

(** ** A relocation *)

(** A loader linked at 0 with the dynamic section at 4 and loaded at 16: the
    global offset table at 16, the dynamic section behind it, two relocations,
    a symbol and the words at 108 and 112 that are relocated. *)
Definition image : list Z :=
  replicate 16 0 ++ concat (map le32
    ([4; DT_REL; 44; DT_RELSZ; 16; DT_RELENT; 8; DT_SYMTAB; 60; DT_NULL; 0] ++
     [92; R_386_RELATIVE; 96; Z.lor R_386_GLOB_DAT (Z.shiftl 1 8)] ++ [0; 0; 0; 0] ++ [0; 100; 0; 0] ++ [1000; 0])).

Lemma relocate_interp_correct_witness :
  exists m', relocate_interp image 20 16 = Ok m' /\ word m' 108 = 1016 /\ word m' 112 = 116.
Proof.
  destruct (relocate_interp_correct image 20 16 4 [(DT_REL, 44); (DT_RELSZ, 16); (DT_RELENT, 8); (DT_SYMTAB, 60)]
    [(92, R_386_RELATIVE); (96, Z.lor R_386_GLOB_DAT (Z.shiftl 1 8))]) as (_ & H).
  - by vm_compute.
  - by vm_compute.
  - by repeat constructor.
  - destruct H as (m' & E & _ & Hw & _); try done.
    + constructor.
      * intros [|[|i]] r; cbn; intros [= <-]; by vm_compute.
      * apply Forall_cons_2; [by left|]. apply Forall_cons_2; [by right|constructor].
      * by repeat constructor.
      * intros [|[|i]] [|[|j]] r r'; cbn; intros [= <-] [= <-]; vm_compute;
          (left; discriminate) || (right; discriminate).
      * intros [|[|i]] [|[|j]] r r'; cbn; try done; intros _ [= <-] [= <-]; vm_compute;
          split; (left; discriminate) || (right; discriminate).
    + exists m'. rewrite !Forall_cons in Hw. destruct Hw as (H1 & H2 & _). split; [exact E|]. split; [exact H1|exact H2].
Defined.

End RelocFacts.
