(* ===== verification/ElfFacts.v ===== *)
(** Loading an ELF image: the address space holds every loadable segment, the
    bytes of the file first and zeros behind them, and nothing outside the image
    changes. *)
From S2P Require Import Prelude Kernel Mm Elf.
Import Mm Elf.

Definition TASK_SIZE : Z := 0xc0000000.

Definition page_up (x : Z) : Z := (x + 4095) / 4096 * 4096.

(** ** What the kernel promises *)

(** The byte a mapping shows for the position [pos] of a file: the rest of the
    last page is zero, behind it an access faults. *)
Definition file_byte (d : list Z) (pos : Z) : option Z :=
  if decide (pos < zlen d) then d !! Z.to_nat pos
  else if decide (pos < page_up (zlen d)) then Some 0 else None.

(** The address space and the open files of a process, see open(2), read(2),
    lseek(2), mmap2(2) and munmap(2): [opened k fd] is the contents of the file
    and the offset of the descriptor, [byte_at k a] the byte at the address [a]
    and [can_write k a] whether a store to it does not fault; [fits k n] says
    that there are [n] free bytes in a row. *)
Class AddressSpace (K : Type) := {
  disk : K -> fname -> option (list Z);
  opened : K -> Z -> option (list Z * Z);
  byte_at : K -> Z -> option Z;
  can_write : K -> Z -> bool;
  fits : K -> Z -> Prop
}.

Section relations.
Context {K : Type} `{AddressSpace K}.

Definition same_space (k k' : K) : Prop :=
  (forall a, byte_at k' a = byte_at k a /\ can_write k' a = can_write k a) /\ forall n, fits k n -> fits k' n.

(** The pages of [p[0 .. n)] show [f] and can be written when [w] says so. *)
Definition remapped (k k' : K) (p n : Z) (f : Z -> option Z) (w : bool) : Prop :=
  (forall fd, opened k' fd = opened k fd) /\
  forall a, if decide (p <= a < p + page_up n)
            then byte_at k' a = f (a - p) /\ can_write k' a = w && bool_decide (is_Some (f (a - p)))
            else byte_at k' a = byte_at k a /\ can_write k' a = can_write k a.

(** [bs] was stored at [p]. *)
Definition stored (k k' : K) (p : Z) (bs : list Z) : Prop :=
  (forall fd, opened k' fd = opened k fd) /\
  forall a, can_write k' a = can_write k a /\
    byte_at k' a = if decide (p <= a < p + zlen bs) then bs !! Z.to_nat (a - p) else byte_at k a.

End relations.

Definition writes (prot : Z) : bool := negb (Z.land prot PROT_WRITE =? 0).

Class KernelImagesLaws (K : Type) `{Kernel K} `{KernelPages K} `{KernelImages K} `{AddressSpace K} : Prop := {
  open_image : forall k fn d, disk k fn = Some d ->
    let '(fd, k') := sys_open k fn O_RDONLY 0 in 0 <= fd /\ opened k' fd = Some (d, 0) /\ same_space k k';
  read_image : forall k fd d pos n, opened k fd = Some (d, pos) -> 0 <= pos -> 0 <= n -> pos + n <= zlen d ->
    exists k', sys_read k fd n = (n, zslice d pos n, k') /\ opened k' fd = Some (d, pos + n) /\ same_space k k';
  seek_image : forall k fd d pos off, opened k fd = Some (d, pos) -> 0 <= off < 2 ^ 31 ->
    exists k', sys_lseek k fd off 0 = (off, k') /\ opened k' fd = Some (d, off) /\ same_space k k';
  close_image : forall k fd, same_space k (sys_close k fd).2;
  map_fixed : forall k fd d pos addr n prot pg, opened k fd = Some (d, pos) ->
    0 < n -> 0 <= addr -> addr mod 4096 = 0 -> addr + page_up n <= TASK_SIZE -> 0 <= pg ->
    exists k', sys_mmap2 k addr n prot (Z.lor MAP_PRIVATE MAP_FIXED) fd pg = (addr, k') /\
      remapped k k' addr n (fun i => file_byte d (pg * 4096 + i)) (writes prot);
  map_anywhere : forall k fd d pos n prot pg, opened k fd = Some (d, pos) -> 0 < n -> fits k n -> 0 <= pg ->
    exists p k', sys_mmap2 k 0 n prot MAP_PRIVATE fd pg = (p, k') /\
      0 <= p /\ p mod 4096 = 0 /\ p + page_up n <= TASK_SIZE /\
      (forall a, p <= a < p + page_up n -> byte_at k a = None) /\
      remapped k k' p n (fun i => file_byte d (pg * 4096 + i)) (writes prot);
  map_anonymous : forall k addr n prot,
    0 < n -> 0 <= addr -> addr mod 4096 = 0 -> addr + page_up n <= TASK_SIZE ->
    exists k', sys_mmap2 k addr n prot (Z.lor (Z.lor (Z.lor MAP_PRIVATE MAP_ANONYMOUS) MAP_DENYWRITE) MAP_FIXED) 0 0 =
        (addr, k') /\ remapped k k' addr n (fun _ => Some 0) (writes prot);
  unmap : forall k p n, p mod 4096 = 0 -> 0 < n -> 0 <= p -> p + page_up n <= TASK_SIZE ->
    remapped k (sys_munmap k p n).2 p n (fun _ => None) false;
  store_ok : forall k p bs, (forall a, p <= a < p + zlen bs -> can_write k a = true) ->
    exists k', store k p bs = Ok k' /\ stored k k' p bs;
  store_fault : forall k p bs a, p <= a < p + zlen bs -> can_write k a = false -> store k p bs = Stray Wr
}.

Module ElfFacts.

(** ** Pages *)

Lemma page_up_spec x : x <= page_up x < x + 4096 /\ page_up x mod 4096 = 0.
Proof. unfold page_up. Z.div_mod_to_equations. lia. Qed.

Lemma page_up_aligned x : x mod 4096 = 0 -> page_up x = x.
Proof. unfold page_up. intros Hx. Z.div_mod_to_equations. lia. Qed.

Lemma page_up_le x y : x <= y -> page_up x <= page_up y.
Proof. unfold page_up. intros Hx. Z.div_mod_to_equations. lia. Qed.

Lemma ALIGN_UP_page x : 0 <= x <= TASK_SIZE -> ALIGN_UP x 0x1000 = page_up x.
Proof.
  unfold TASK_SIZE. intros Hx. change 0x1000 with 4096. rewrite align_up_page by lia.
  unfold page_up. Z.div_mod_to_equations. lia.
Qed.

Lemma ALIGN_DOWN_page x : 0 <= x < 2 ^ 32 -> ALIGN_DOWN x 0x1000 = x - x mod 4096.
Proof. intros Hx. change 0x1000 with 4096. by rewrite align_down_page, u32_small. Qed.

Lemma file_byte_in d pos : 0 <= pos < zlen d -> file_byte d pos = d !! Z.to_nat pos /\ is_Some (file_byte d pos).
Proof.
  intros Hp. unfold file_byte. rewrite decide_True by lia. split; [done|]. apply lookup_lt_is_Some.
  unfold zlen in Hp. lia.
Qed.

Lemma file_byte_page d pos : 0 <= pos < page_up (zlen d) -> is_Some (file_byte d pos).
Proof.
  intros Hp. destruct (decide (pos < zlen d)); [apply file_byte_in; lia|].
  unfold file_byte. rewrite decide_False, decide_True by lia. by eexists.
Qed.

Lemma writes_prot f : writes (get_map_prot f) = negb (Z.land f PF_W =? 0).
Proof.
  unfold writes, get_map_prot. by destruct (negb (Z.land f PF_R =? 0)), (negb (Z.land f PF_W =? 0)), (negb (Z.land f PF_X =? 0)).
Qed.

(** ** Segments *)

(** A loadable segment the loader can map: its data is in the file, the file and
    the memory agree on the position in a page, and it can be written when there
    is something to clear behind the data. *)
Record segment_ok (d : list Z) (p : elf_phdr) : Prop := {
  so_type : p_type p = PT_LOAD;
  so_offset : 0 <= p_offset p /\ p_offset p + p_filesz p <= zlen d;
  so_vaddr : 0 <= p_vaddr p /\ p_vaddr p + p_memsz p <= TASK_SIZE;
  so_size : 0 < p_filesz p <= p_memsz p;
  so_align : 0 < p_align p /\ p_align p mod 4096 = 0 /\ u32 (p_vaddr p - p_offset p) mod p_align p = 0
}.

(** [map_region] clears up to the end of the last page. *)
Definition clearable (p : elf_phdr) : Prop :=
  Z.land (p_flags p) PF_W <> 0 \/ (p_memsz p = p_filesz p /\ (p_vaddr p + p_filesz p) mod 4096 = 0).

#[global] Instance clearable_dec p : Decision (clearable p).
Proof. unfold clearable. apply _. Defined.

(** [map_first] clears the memory behind the data, in the pages of the file. *)
Definition clearable_first (d : list Z) (p : elf_phdr) : Prop :=
  p_memsz p = p_filesz p \/ (Z.land (p_flags p) PF_W <> 0 /\ p_memsz p <= zlen d).

Lemma segment_congruent d p : segment_ok d p -> (p_vaddr p - p_offset p) mod 4096 = 0.
Proof.
  intros [_ _ _ _ (Ha & Ha' & Hm)]. unfold u32 in Hm.
  apply Z.mod_divide in Ha', Hm; try lia. apply Z.mod_divide; [lia|].
  assert (H' : (4096 | (p_vaddr p - p_offset p) mod 2 ^ 32)) by (by eapply Z.divide_trans).
  rewrite Z.mod_eq in H' by lia. destruct H' as (q & Hq).
  exists (q + 2 ^ 20 * ((p_vaddr p - p_offset p) / 2 ^ 32)). lia.
Qed.

Section facts.
Context {K : Type} {KK : Kernel K} {KP : KernelPages K} {KI : KernelImages K} {AS : AddressSpace K} {KL : KernelImagesLaws K}.

(** The memory from [a] on is the segment [p] of the file [d]. *)
Definition image_at (k : K) (d : list Z) (a : Z) (p : elf_phdr) : Prop :=
  forall i, 0 <= i < p_memsz p ->
    byte_at k (a + i) = if decide (i < p_filesz p) then d !! Z.to_nat (p_offset p + i) else Some 0.

(** The addresses [lo .. hi) are the only ones that changed. *)
Definition changed (k k' : K) (lo hi : Z) : Prop :=
  forall a, a < lo \/ hi <= a -> byte_at k' a = byte_at k a.

Lemma image_keep k k' d a p lo hi :
  changed k k' lo hi -> a + p_memsz p <= lo \/ hi <= a -> image_at k d a p -> image_at k' d a p.
Proof. intros Hc Ha Hi i Hr. rewrite Hc by lia. by apply Hi. Qed.

Lemma page_up_shift x y n : (x - y) mod 4096 = 0 -> page_up (x + n) - x = page_up (y + n) - y.
Proof. unfold page_up. intros Hx. Z.div_mod_to_equations. lia. Qed.

(** The pages of the file that hold the data of [p], at [a]. *)
Lemma region_file k fd d pos p a w :
  opened k fd = Some (d, pos) -> segment_ok d p -> w = negb (Z.land (p_flags p) PF_W =? 0) ->
  0 <= a -> (a - p_vaddr p) mod 4096 = 0 -> a + p_memsz p <= TASK_SIZE ->
  let lo := a - a mod 4096 in let hi := page_up (a + p_filesz p) in
  exists k', uniform_mmap k lo (hi - lo) (get_map_prot (p_flags p)) (Z.lor MAP_PRIVATE MAP_FIXED) fd (p_offset p) = (lo, k') /\
    (forall fd, opened k' fd = opened k fd) /\ changed k k' lo hi /\
    forall x, lo <= x < hi -> byte_at k' x = file_byte d (p_offset p + (x - a)) /\ can_write k' x = w.
Proof.
  intros Hfd Hok -> Ha0 Hmod Hlim lo hi. pose proof (segment_congruent d p Hok) as Hcong.
  destruct Hok as [_ Hoff Hva Hsize _]. pose proof (page_up_spec (a + p_filesz p)) as (Hf & Hf'). fold hi in Hf, Hf'.
  assert (Hlo : 0 <= lo <= a /\ lo mod 4096 = 0 /\ a - lo = p_offset p mod 4096).
  { unfold lo. Z.div_mod_to_equations. lia. }
  assert (Hn : (hi - lo) mod 4096 = 0) by (rewrite Zminus_mod, Hf', (proj1 (proj2 Hlo)); done).
  assert (Hhi : hi <= TASK_SIZE) by (unfold hi, TASK_SIZE, page_up in *; Z.div_mod_to_equations; lia).
  unfold uniform_mmap. rewrite Z.shiftr_div_pow2 by lia. change (2 ^ 12) with 4096.
  destruct (map_fixed k fd d pos lo (hi - lo) (get_map_prot (p_flags p)) (p_offset p / 4096) Hfd)
    as (k1 & -> & Hop1 & R1); [lia|lia|lia|rewrite page_up_aligned by done; lia|apply Z.div_pos; lia|].
  rewrite page_up_aligned, writes_prot in R1 by done. replace (lo + (hi - lo)) with hi in R1 by lia.
  exists k1. split; [done|]. split; [done|]. split.
  - intros x Hx. specialize (R1 x). rewrite decide_False in R1 by lia. apply R1.
  - intros x Hx. specialize (R1 x). rewrite decide_True in R1 by lia. destruct R1 as (-> & ->).
    assert (E : p_offset p / 4096 * 4096 + (x - lo) = p_offset p + (x - a)) by (Z.div_mod_to_equations; lia).
    rewrite E. split; [done|]. rewrite bool_decide_true; [by rewrite andb_true_r|]. apply file_byte_page.
    assert (Hsh : hi - a = page_up (p_offset p + p_filesz p) - p_offset p).
    { apply page_up_shift. replace (a - p_offset p) with ((a - p_vaddr p) + (p_vaddr p - p_offset p)) by lia.
      by rewrite Zplus_mod, Hmod, Hcong. }
    pose proof (page_up_le (p_offset p + p_filesz p) (zlen d) ltac:(lia)).
    pose proof (Z.mod_pos_bound (p_offset p) 4096 ltac:(lia)). pose proof (Z.mod_le (p_offset p) 4096 ltac:(lia) ltac:(lia)). lia.
Qed.

(** The pages behind the data. *)
Lemma region_anonymous k lo hi flags :
  0 <= lo -> lo mod 4096 = 0 -> hi mod 4096 = 0 -> lo <= hi <= TASK_SIZE ->
  exists k', (if lo <? hi then
      let '(addr, k) := uniform_mmap k lo (u32 (hi - lo)) (get_map_prot flags)
        (Z.lor (Z.lor (Z.lor MAP_PRIVATE MAP_ANONYMOUS) MAP_DENYWRITE) MAP_FIXED) 0 0 in
      _ ← assert (addr =? lo); Ok k
    else Ok k) = Ok k' /\
    (forall fd, opened k' fd = opened k fd) /\
    forall x, if decide (lo <= x < hi) then can_write k' x = negb (Z.land flags PF_W =? 0)
              else byte_at k' x = byte_at k x /\ can_write k' x = can_write k x.
Proof.
  intros H0 Hlo Hhi Hr. destruct (Z.ltb_spec lo hi); unfold TASK_SIZE in *.
  - rewrite u32_small by lia. unfold uniform_mmap. change (Z.shiftr 0 12) with 0.
    assert (Hn : (hi - lo) mod 4096 = 0) by (rewrite Zminus_mod, Hhi, Hlo; done).
    destruct (map_anonymous k lo (hi - lo) (get_map_prot flags)) as (k1 & -> & Hop & R);
      [lia|lia|done|rewrite page_up_aligned by done; unfold TASK_SIZE; lia|].
    rewrite Z.eqb_refl. cbn [assert]. exists k1. split; [done|]. split; [done|]. intros x. specialize (R x).
    rewrite page_up_aligned, writes_prot in R by done. replace (lo + (hi - lo)) with hi in R by lia.
    destruct (decide (lo <= x < hi)); [|done]. by rewrite (proj2 R), bool_decide_true, andb_true_r by (by eexists).
  - exists k. split; [done|]. split; [done|]. intros x. by rewrite decide_False by lia.
Qed.

Lemma map_region_spec k fd d pos p bias a :
  opened k fd = Some (d, pos) -> segment_ok d p -> clearable p ->
  u32 (bias + p_vaddr p) = a -> (a - p_vaddr p) mod 4096 = 0 -> a + p_memsz p <= TASK_SIZE ->
  exists k', map_region k fd p bias = Ok k' /\ opened k' fd = Some (d, pos) /\ image_at k' d a p /\
    changed k k' (a - a mod 4096) (page_up (a + p_memsz p)).
Proof.
  intros Hfd Hok Hclear Ha Hmod Hlim. pose proof Hok as [_ Hoff Hva Hsize _]. unfold map_region. rewrite Ha.
  assert (Ha0 : 0 <= a) by (subst a; apply u32_range).
  rewrite !(u32_small (a + _)) by (unfold TASK_SIZE in *; lia).
  rewrite ALIGN_DOWN_page, !ALIGN_UP_page by (unfold TASK_SIZE in *; lia).
  set (w := negb (Z.land (p_flags p) PF_W =? 0)).
  destruct (region_file k fd d pos p a w Hfd Hok eq_refl Ha0 Hmod Hlim) as (k1 & E1 & Hop1 & Hch1 & R1).
  set (f_end := a + p_filesz p) in *. set (m_end := a + p_memsz p) in *. set (lo := a - a mod 4096) in *.
  pose proof (page_up_spec f_end) as (Hf & Hf'). pose proof (page_up_spec m_end) as (Hm & Hm').
  pose proof (page_up_le f_end m_end ltac:(unfold f_end, m_end; lia)) as Hfm.
  assert (Hlo : 0 <= lo <= a) by (unfold lo; Z.div_mod_to_equations; lia).
  assert (Hlim' : page_up m_end <= TASK_SIZE) by (unfold TASK_SIZE, page_up in *; Z.div_mod_to_equations; lia).
  rewrite (u32_small (page_up f_end - lo)) by (unfold TASK_SIZE, f_end in *; lia).
  rewrite E1, Z.eqb_refl. cbn [assert]. rewrite bind_Ok.
  destruct (region_anonymous k1 (page_up f_end) (page_up m_end) (p_flags p)) as (k2 & -> & Hop2 & R2);
    [unfold f_end in *; lia|done|done|lia|]. rewrite bind_Ok. fold w in R2.
  rewrite (u32_small (page_up m_end - f_end)) by (unfold TASK_SIZE, f_end, m_end in *; lia).
  set (zeros := replicate _ 0). assert (Hz : zlen zeros = page_up m_end - f_end).
  { unfold zeros, zlen. rewrite length_replicate. unfold f_end, m_end in *. lia. }
  destruct (store_ok k2 f_end zeros) as (k3 & -> & Hop3 & R3).
  { intros x Hx. rewrite Hz in Hx. destruct (decide (w = true)) as [Hw|Hw].
    - specialize (R2 x). destruct (decide (page_up f_end <= x < page_up m_end)); [by rewrite R2|].
      rewrite (proj2 R2), (proj2 (R1 x ltac:(unfold f_end in *; lia))). done.
    - exfalso. destruct Hclear as [Hc%Z.eqb_neq|(Hc1 & Hc2)]; [unfold w in Hw; by rewrite Hc in Hw|].
      assert (Hal : m_end mod 4096 = 0).
      { unfold m_end. rewrite Hc1. replace (a + p_filesz p) with ((a - p_vaddr p) + (p_vaddr p + p_filesz p)) by lia.
        by rewrite Zplus_mod, Hmod, Hc2. }
      rewrite (page_up_aligned m_end Hal) in Hx. unfold m_end, f_end in Hx. lia. }
  exists k3. split; [done|]. split; [by rewrite Hop3, Hop2, Hop1|]. split.
  - intros i Hi. rewrite (proj2 (R3 (a + i))), Hz. unfold f_end, m_end in *. destruct (decide (i < p_filesz p)).
    + rewrite decide_False by lia. specialize (R2 (a + i)). rewrite decide_False in R2 by lia.
      rewrite (proj1 R2), (proj1 (R1 (a + i) ltac:(lia))). replace (a + i - a) with i by lia. apply file_byte_in. lia.
    + rewrite decide_True by lia. apply lookup_replicate. split; [done|]. lia.
  - intros x Hx. rewrite (proj2 (R3 x)), Hz, decide_False by (unfold f_end, m_end in *; lia).
    specialize (R2 x). rewrite decide_False in R2 by (unfold f_end, m_end in *; lia). rewrite (proj1 R2).
    apply Hch1. lia.
Qed.

(** [map_region] clears behind the data of every segment, as far as its last
    page: one that must not be written makes it fault. *)
Lemma map_region_faults k fd d pos p bias a :
  opened k fd = Some (d, pos) -> segment_ok d p -> ~ clearable p ->
  u32 (bias + p_vaddr p) = a -> (a - p_vaddr p) mod 4096 = 0 -> a + p_memsz p <= TASK_SIZE ->
  map_region k fd p bias = Stray Wr.
Proof.
  intros Hfd Hok Hclear Ha Hmod Hlim. pose proof Hok as [_ Hoff Hva Hsize _]. unfold map_region. rewrite Ha.
  assert (Ha0 : 0 <= a) by (subst a; apply u32_range).
  assert (Hw : negb (Z.land (p_flags p) PF_W =? 0) = false).
  { destruct (Z.eqb_spec (Z.land (p_flags p) PF_W) 0); [done|]. destruct Hclear. by left. }
  rewrite !(u32_small (a + _)) by (unfold TASK_SIZE in *; lia).
  rewrite ALIGN_DOWN_page, !ALIGN_UP_page by (unfold TASK_SIZE in *; lia).
  destruct (region_file k fd d pos p a false Hfd Hok) as (k1 & E1 & _ & _ & R1); [by rewrite Hw|done|done|done|].
  set (f_end := a + p_filesz p) in *. set (m_end := a + p_memsz p) in *. set (lo := a - a mod 4096) in *.
  pose proof (page_up_spec f_end) as (Hf & Hf'). pose proof (page_up_spec m_end) as (Hm & Hm').
  pose proof (page_up_le f_end m_end ltac:(unfold f_end, m_end; lia)) as Hfm.
  assert (Hlo : 0 <= lo <= a) by (unfold lo; Z.div_mod_to_equations; lia).
  assert (Hlim' : page_up m_end <= TASK_SIZE) by (unfold TASK_SIZE, page_up in *; Z.div_mod_to_equations; lia).
  assert (Hbehind : f_end < page_up m_end).
  { destruct (decide (f_end < page_up m_end)); [done|]. destruct Hclear. right. unfold f_end, m_end in *.
    assert (He : p_memsz p = p_filesz p) by lia. split; [done|].
    assert (Hal : (a + p_filesz p) mod 4096 = 0) by (rewrite <- Hm'; f_equal; lia).
    replace (p_vaddr p + p_filesz p) with (a + p_filesz p - (a - p_vaddr p)) by lia. by rewrite Zminus_mod, Hal, Hmod. }
  rewrite (u32_small (page_up f_end - lo)) by (unfold TASK_SIZE, f_end in *; lia).
  rewrite E1, Z.eqb_refl. cbn [assert]. rewrite bind_Ok.
  destruct (region_anonymous k1 (page_up f_end) (page_up m_end) (p_flags p)) as (k2 & -> & _ & R2);
    [unfold f_end in *; lia|done|done|lia|]. rewrite bind_Ok. rewrite Hw in R2.
  rewrite (u32_small (page_up m_end - f_end)) by (unfold TASK_SIZE, f_end, m_end in *; lia).
  apply (store_fault k2 _ _ f_end).
  - unfold zlen. rewrite length_replicate. lia.
  - specialize (R2 f_end). destruct (decide (page_up f_end <= f_end < page_up m_end)); [done|].
    rewrite (proj2 R2). apply R1. unfold f_end in *. lia.
Qed.

(** ** The first segment *)

(** Where the image is put: the mapping of the whole image. *)
Lemma first_mapped k fd d pos p total fixed :
  opened k fd = Some (d, pos) -> segment_ok d p -> p_vaddr p mod 4096 = 0 ->
  0 < total -> total mod 4096 = 0 -> p_vaddr p + total <= TASK_SIZE -> (fixed = false -> fits k total) ->
  exists base k', uniform_mmap k (if fixed then p_vaddr p else 0) total (get_map_prot (p_flags p))
      (if fixed then Z.lor MAP_PRIVATE MAP_FIXED else MAP_PRIVATE) fd 0 = (base, k') /\
    0 <= base /\ base mod 4096 = 0 /\ base + total <= TASK_SIZE /\ (fixed = true -> base = p_vaddr p) /\
    remapped k k' base total (file_byte d) (negb (Z.land (p_flags p) PF_W =? 0)).
Proof.
  intros Hfd [_ _ (Hva & _) _ _] Hal Ht Ht' Hlim Hfits. unfold uniform_mmap. change (Z.shiftr 0 12) with 0.
  assert (Hf : forall k1 base, remapped k k1 base total (fun i => file_byte d (0 * 4096 + i)) (writes (get_map_prot (p_flags p))) ->
    remapped k k1 base total (file_byte d) (negb (Z.land (p_flags p) PF_W =? 0))).
  { intros k1 base. by rewrite writes_prot. }
  destruct fixed.
  - destruct (map_fixed k fd d pos (p_vaddr p) total (get_map_prot (p_flags p)) 0 Hfd) as (k1 & -> & R);
      [done|done|done|by rewrite page_up_aligned|done|]. exists (p_vaddr p), k1. auto 10.
  - destruct (map_anywhere k fd d pos total (get_map_prot (p_flags p)) 0 Hfd Ht (Hfits eq_refl) ltac:(done))
      as (base & k1 & -> & H0 & Hb & Hl & _ & R). rewrite page_up_aligned in Hl by done.
    exists base, k1. split; [done|]. split; [done|]. split; [done|]. split; [done|]. split; [done|]. auto.
Qed.

(** The pages of the image behind the first segment are given back. *)
Lemma first_unmapped k base total memsz :
  0 <= base -> base mod 4096 = 0 -> total mod 4096 = 0 -> base + total <= TASK_SIZE -> 0 < memsz <= total ->
  let from := page_up (base + memsz) in
  let k' := if from <? base + total then (sys_munmap k from (base + total - from)).2 else k in
  (forall fd, opened k' fd = opened k fd) /\
  forall x, x < base + memsz \/ base + total <= x -> byte_at k' x = byte_at k x /\ can_write k' x = can_write k x.
Proof.
  intros H0 Hb Ht Hl Hm from k'. pose proof (page_up_spec (base + memsz)) as (Hf & Hf'). fold from in Hf, Hf'.
  unfold k'. destruct (Z.ltb_spec from (base + total)); [|done].
  assert (Hn : (base + total - from) mod 4096 = 0) by (rewrite Zminus_mod, (Zplus_mod base), Hb, Ht, Hf'; done).
  destruct (unmap k from (base + total - from)) as (Hop & R); [done|lia|lia|rewrite page_up_aligned by done; lia|].
  split; [done|]. intros x Hx. specialize (R x). rewrite page_up_aligned, decide_False in R by (done || lia). done.
Qed.

(** The memory behind the data of the first segment is cleared. *)
Lemma first_cleared k d base p :
  clearable_first d p -> 0 + p_filesz p <= zlen d -> 0 < p_filesz p <= p_memsz p ->
  (forall x, base <= x < base + p_memsz p -> byte_at k x = file_byte d (x - base) /\
    can_write k x = negb (Z.land (p_flags p) PF_W =? 0) && bool_decide (is_Some (file_byte d (x - base)))) ->
  exists k', (if (p_filesz p <? p_memsz p) && negb (Z.land (p_flags p) PF_W =? 0)
      then store k (base + p_filesz p) (replicate (Z.to_nat (p_memsz p - p_filesz p)) 0) else Ok k) = Ok k' /\
    (forall fd, opened k' fd = opened k fd) /\
    forall x, byte_at k' x = if decide (base + p_filesz p <= x < base + p_memsz p) then Some 0 else byte_at k x.
Proof.
  intros Hclear Hfile Hsize Hin. destruct (Z.ltb_spec (p_filesz p) (p_memsz p)).
  - destruct Hclear as [?|(Hw%Z.eqb_neq & Hd)]; [lia|]. rewrite Hw in *. cbn [negb andb] in *. set (zeros := replicate _ 0).
    assert (Hz : zlen zeros = p_memsz p - p_filesz p) by (unfold zeros, zlen; rewrite length_replicate; lia).
    destruct (store_ok k (base + p_filesz p) zeros) as (k3 & -> & Hop3 & R3).
    { intros x Hx. rewrite Hz in Hx. rewrite (proj2 (Hin x ltac:(lia))), bool_decide_true by (apply file_byte_in; lia). done. }
    exists k3. split; [done|]. split; [done|]. intros x. rewrite (proj2 (R3 x)), Hz.
    replace (base + p_filesz p + (p_memsz p - p_filesz p)) with (base + p_memsz p) by lia.
    destruct (decide _); [|done]. apply lookup_replicate. split; [done|lia].
  - exists k. split; [done|]. split; [done|]. intros x. by rewrite decide_False by lia.
Qed.

Lemma map_first_spec k fd d pos p total fixed :
  opened k fd = Some (d, pos) -> segment_ok d p -> p_offset p = 0 -> clearable_first d p ->
  p_memsz p <= total -> total mod 4096 = 0 -> p_vaddr p + total <= TASK_SIZE -> (fixed = false -> fits k total) ->
  exists base k', map_first k fd p total fixed = Ok (base, if fixed then 0 else u32 (base - p_vaddr p), k') /\
    0 <= base /\ base mod 4096 = 0 /\ base + total <= TASK_SIZE /\ (fixed = true -> base = p_vaddr p) /\
    opened k' fd = Some (d, pos) /\ image_at k' d base p /\ changed k k' base (base + total).
Proof.
  intros Hfd Hok Hoff Hclear Hms Ht' Hlim Hfits. pose proof (segment_congruent d p Hok) as Hal.
  rewrite Hoff, Z.sub_0_r in Hal. pose proof Hok as [_ (_ & Hfile) (Hva & _) Hsize _]. rewrite Hoff in Hfile.
  unfold map_first. rewrite (u32_small (p_vaddr p + total)) by (unfold TASK_SIZE in *; lia).
  rewrite ALIGN_DOWN_page, Hal, Z.sub_0_r by (unfold TASK_SIZE in *; lia).
  rewrite ALIGN_UP_page, page_up_aligned by (lia || by rewrite Zplus_mod, Hal, Ht').
  replace (p_vaddr p + total - p_vaddr p) with total by lia. rewrite (u32_small total) by (unfold TASK_SIZE in *; lia).
  rewrite Hoff, Z.eqb_refl. cbn [assert]. rewrite bind_Ok.
  destruct (first_mapped k fd d pos p total fixed Hfd Hok Hal) as (base & k1 & -> & H0 & Hb & Hl & Hbase & Hop1 & R1);
    [lia|done|done|done|]. rewrite page_up_aligned in R1 by done.
  set (bias := if fixed then 0 else _).
  assert (Es : (if fixed then p_vaddr p else u32 (bias + p_vaddr p)) = base).
  { destruct fixed; [by rewrite Hbase|]. unfold bias, u32, TASK_SIZE in *. rewrite Zplus_mod_idemp_l.
    replace (base - p_vaddr p + p_vaddr p) with base by lia. apply Z.mod_small. lia. }
  assert (Ee : (if fixed then p_vaddr p + total else u32 (bias + (p_vaddr p + total))) = base + total).
  { destruct fixed; [by rewrite Hbase|]. unfold bias, u32, TASK_SIZE in *. rewrite Zplus_mod_idemp_l.
    replace (base - p_vaddr p + (p_vaddr p + total)) with (base + total) by lia. apply Z.mod_small. lia. }
  rewrite Es, Ee. rewrite !(u32_small (base + _)) by (unfold TASK_SIZE in *; lia).
  rewrite !(ALIGN_UP_page (base + _)) by lia. rewrite (page_up_aligned (base + total)) by (by rewrite Zplus_mod, Hb, Ht').
  destruct (first_unmapped k1 base total (p_memsz p)) as (Hop2 & R2); try (done || lia). cbv zeta in Hop2, R2.
  set (k2 := if page_up (base + p_memsz p) <? base + total then _ else k1) in *. clearbody k2.
  assert (Hin : forall x, base <= x < base + p_memsz p -> byte_at k2 x = file_byte d (x - base) /\
    can_write k2 x = negb (Z.land (p_flags p) PF_W =? 0) && bool_decide (is_Some (file_byte d (x - base)))).
  { intros x Hx. destruct (R2 x) as (-> & ->); [lia|]. specialize (R1 x). rewrite decide_True in R1 by lia. done. }
  destruct (first_cleared k2 d base p Hclear Hfile Hsize Hin) as (k3 & -> & Hop3 & R3). rewrite bind_Ok.
  exists base, k3. split; [done|]. split; [done|]. split; [done|].
  split; [done|]. split; [done|]. split; [by rewrite Hop3, Hop2, Hop1|]. split.
  - intros i Hi. rewrite R3. destruct (decide (i < p_filesz p)).
    + rewrite decide_False by lia. rewrite (proj1 (Hin (base + i) ltac:(lia))). replace (base + i - base) with i by lia.
      rewrite Hoff. apply file_byte_in. lia.
    + by rewrite decide_True by lia.
  - intros x Hx. rewrite R3, decide_False by lia. destruct (R2 x) as (-> & _); [lia|].
    specialize (R1 x). rewrite decide_False in R1 by lia. apply R1.
Qed.

(** ** The other segments *)

Definition is_load (p : elf_phdr) : Prop := p_type p = PT_LOAD.
#[local] Instance is_load_dec p : Decision (is_load p) := Z.eq_dec _ _.

(** The pages of a segment, from its link address. *)
Definition pages_from (p : elf_phdr) : Z := p_vaddr p - p_vaddr p mod 4096.
Definition pages_to (p : elf_phdr) : Z := page_up (p_vaddr p + p_memsz p).

Definition pages_apart (p q : elf_phdr) : Prop := pages_to p <= pages_from q \/ pages_to q <= pages_from p.

Fixpoint pairwise {A} (R : A -> A -> Prop) (l : list A) : Prop :=
  match l with
  | [] => True
  | x :: l => Forall (R x) l /\ pairwise R l
  end.

Fixpoint map_all (k : K) (fd bias : Z) (l : list elf_phdr) : result K :=
  match l with
  | [] => Ok k
  | p :: l => k ← map_region k fd p bias; map_all k fd bias l
  end.

(** The loop maps the loadable segments but the first. *)
Lemma load_loop_tail k fd first bias : forall l i need,
  first < i ->
  load_loop k fd first bias i l need =
  (k ← map_all k fd bias (filter is_load l); Ok (need || existsb (fun p => p_type p =? PT_INTERP) l, k)).
Proof.
  intros l. revert k. induction l as [|p l IH]; intros k i need Hi; cbn [load_loop]; [by rewrite orb_false_r|].
  destruct (Z.eqb_spec i first); [lia|]. cbn [orb existsb]. rewrite filter_cons. unfold is_load at 1.
  assert (En : (if p_type p =? PT_INTERP then true else need) || existsb (fun p => p_type p =? PT_INTERP) l =
    need || ((p_type p =? PT_INTERP) || existsb (fun p => p_type p =? PT_INTERP) l)).
  { destruct (p_type p =? PT_INTERP), need; done. }
  destruct (Z.eqb_spec (p_type p) PT_LOAD).
  - rewrite decide_True by done. cbn [negb map_all]. rewrite bind_assoc. destruct (map_region k fd p bias); try done.
    cbn [mbind result_bind]. rewrite <- En. apply IH. lia.
  - rewrite decide_False by done. cbn [negb]. rewrite bind_Ok, <- En. apply IH. lia.
Qed.

Lemma load_loop_spec k fd bias p l2 : forall l1 i need,
  p_type p = PT_LOAD ->
  load_loop k fd (i + zlen l1) bias i (l1 ++ p :: l2) need =
  (k ← map_all k fd bias (filter is_load (l1 ++ l2));
   Ok (need || existsb (fun p => p_type p =? PT_INTERP) (l1 ++ l2), k)).
Proof.
  intros l1. revert k. induction l1 as [|q l1 IH]; intros k i need Hp; cbn [app].
  - change (zlen (@nil elf_phdr)) with 0. cbn [load_loop]. rewrite Z.add_0_r, Z.eqb_refl, Hp. cbn [orb].
    change (PT_LOAD =? PT_INTERP) with false. cbn iota. rewrite bind_Ok. apply load_loop_tail. lia.
  - cbn [load_loop existsb]. rewrite zlen_cons, filter_cons. pose proof (zlen_nonneg l1). unfold is_load at 1.
    destruct (Z.eqb_spec i (i + (1 + zlen l1))); [lia|]. cbn [orb].
    assert (En : (if p_type q =? PT_INTERP then true else need) || existsb (fun p => p_type p =? PT_INTERP) (l1 ++ l2) =
      need || ((p_type q =? PT_INTERP) || existsb (fun p => p_type p =? PT_INTERP) (l1 ++ l2))).
    { destruct (p_type q =? PT_INTERP), need; done. }
    replace (i + (1 + zlen l1)) with (i + 1 + zlen l1) by lia. destruct (Z.eqb_spec (p_type q) PT_LOAD).
    + rewrite decide_True by done. cbn [negb map_all]. rewrite bind_assoc. destruct (map_region k fd q bias); try done.
      cbn [mbind result_bind]. rewrite <- En. by apply IH.
    + rewrite decide_False by done. cbn [negb]. rewrite bind_Ok, <- En. by apply IH.
Qed.

(** Mapping segments whose pages are apart gives all their images. *)
Lemma map_all_spec fd d pos bias delta lo hi : forall l k,
  opened k fd = Some (d, pos) -> Forall (segment_ok d) l -> Forall clearable l -> pairwise pages_apart l ->
  delta mod 4096 = 0 ->
  Forall (fun p => u32 (bias + p_vaddr p) = delta + p_vaddr p /\ delta + p_vaddr p + p_memsz p <= TASK_SIZE /\
                   lo <= delta + pages_from p /\ delta + pages_to p <= hi) l ->
  exists k', map_all k fd bias l = Ok k' /\ Forall (fun p => image_at k' d (delta + p_vaddr p) p) l /\
    changed k k' lo hi /\
    forall q, Forall (pages_apart q) l -> forall x, delta + p_vaddr q <= x < delta + p_vaddr q + p_memsz q ->
      byte_at k' x = byte_at k x.
Proof.
  induction l as [|p l IH]; intros k Hfd Hok Hcl Hpw Hdelta Hb; cbn [map_all]; [by exists k|].
  apply Forall_cons in Hok as (Hp & Hok). apply Forall_cons in Hcl as (Hc & Hcl). destruct Hpw as (Hap & Hpw).
  apply Forall_cons in Hb as ((Hu & Hlim & Hlo & Hhi) & Hb).
  assert (Hm : delta + p_vaddr p - (delta + p_vaddr p) mod 4096 = delta + pages_from p).
  { unfold pages_from. rewrite Zplus_mod, Hdelta, Z.add_0_l, Zmod_mod. lia. }
  assert (Hm' : page_up (delta + p_vaddr p + p_memsz p) = delta + pages_to p).
  { unfold pages_to. pose proof (page_up_shift (delta + p_vaddr p) (p_vaddr p) (p_memsz p)) as H'.
    assert ((delta + p_vaddr p - p_vaddr p) mod 4096 = 0) as H1 by (by replace (delta + p_vaddr p - p_vaddr p) with delta by lia).
    specialize (H' H1). lia. }
  destruct (map_region_spec k fd d pos p bias (delta + p_vaddr p)) as (k1 & -> & Hfd1 & Him & Hch); try done.
  { by replace (delta + p_vaddr p - p_vaddr p) with delta by lia. }
  rewrite Hm, Hm' in Hch. rewrite bind_Ok.
  destruct (IH k1 Hfd1 Hok Hcl Hpw Hdelta Hb) as (k' & -> & Hims & Hch' & Hkeep). exists k'. split; [done|]. split; [|split].
  - constructor; [|done]. intros i Hi. rewrite (Hkeep p Hap) by lia. by apply Him.
  - intros x Hx. rewrite Hch' by lia. apply Hch. lia.
  - intros q Hq x Hx. apply Forall_cons in Hq as (Hqp & Hq). rewrite (Hkeep q Hq x Hx). apply Hch.
    unfold pages_apart, pages_from at 1, pages_to at 2 in Hqp. pose proof (page_up_spec (p_vaddr q + p_memsz q)).
    pose proof (Z.mod_pos_bound (p_vaddr q) 4096 ltac:(lia)). unfold pages_to, pages_from in *. lia.
Qed.

(** The first segment that cannot be cleared ends it. *)
Lemma map_all_faults fd d pos bias delta : forall l k,
  opened k fd = Some (d, pos) -> Forall (segment_ok d) l -> ~ Forall clearable l -> delta mod 4096 = 0 ->
  Forall (fun p => u32 (bias + p_vaddr p) = delta + p_vaddr p /\ delta + p_vaddr p + p_memsz p <= TASK_SIZE) l ->
  map_all k fd bias l = Stray Wr.
Proof.
  induction l as [|p l IH]; intros k Hfd Hok Hcl Hdelta Hb; cbn [map_all]; [by destruct Hcl|].
  apply Forall_cons in Hok as (Hp & Hok). apply Forall_cons in Hb as ((Hu & Hlim) & Hb).
  assert (Hm : (delta + p_vaddr p - p_vaddr p) mod 4096 = 0) by (by replace (delta + p_vaddr p - p_vaddr p) with delta by lia).
  destruct (decide (clearable p)) as [Hc|Hc]; [|by rewrite (map_region_faults k fd d pos p bias (delta + p_vaddr p))].
  destruct (map_region_spec k fd d pos p bias (delta + p_vaddr p)) as (k1 & -> & Hfd1 & _); try done.
  rewrite bind_Ok. apply IH; try done. intros H. apply Hcl. by constructor.
Qed.

(** ** The headers *)

Definition ends (l : list elf_phdr) : Z := foldr (fun p e => Z.max (p_vaddr p + p_memsz p) e) 0 (filter is_load l).

Lemma ends_cons p l :
  ends (p :: l) = if decide (is_load p) then Z.max (p_vaddr p + p_memsz p) (ends l) else ends l.
Proof. unfold ends. rewrite filter_cons. by destruct (decide (is_load p)). Qed.

Lemma ends_nonneg l : 0 <= ends l.
Proof. unfold ends. induction (filter is_load l) as [|p r IH]; cbn; lia. Qed.

Lemma ends_spec d l : Forall (segment_ok d) (filter is_load l) ->
  ends l <= TASK_SIZE /\ Forall (fun p => p_vaddr p + p_memsz p <= ends l) (filter is_load l).
Proof.
  unfold ends. induction 1 as [|p r [_ _ Hp _ _] _ [IH1 IH2]]; cbn [foldr]; [by split|].
  set (e := foldr _ 0 r) in *. split; [lia|]. constructor; [lia|]. eapply Forall_impl; [exact IH2|]. cbn beta. lia.
Qed.

(** The bounds of a segment that is looked at, and its alignment. *)
Lemma total_step d p : segment_ok d p ->
  p_type p = PT_LOAD /\ u32 (p_vaddr p + p_memsz p) = p_vaddr p + p_memsz p /\
  (p_align p =? 0) = false /\ (u32 (p_vaddr p - p_offset p) mod p_align p =? 0) = true.
Proof.
  intros [Ht _ Hv Hs (Ha & _ & Hm)]. unfold TASK_SIZE in Hv. rewrite u32_small by lia.
  split; [done|]. split; [done|]. split; [by apply Z.eqb_neq; lia|by apply Z.eqb_eq].
Qed.

Lemma total_loop_tail d start first : forall l i e,
  Forall (segment_ok d) (filter is_load l) -> Forall (fun p => start <= p_vaddr p) (filter is_load l) -> 0 <= e ->
  total_loop i l start e first = Ok (start, Z.max e (ends l), first).
Proof.
  induction l as [|p l IH]; intros i e Hok Hv He; cbn [total_loop].
  - unfold ends. cbn. by rewrite Z.max_l.
  - rewrite filter_cons in Hok, Hv. rewrite ends_cons.
    destruct (decide (is_load p)) as [Hl|Hl].
    + apply Forall_cons in Hok as (Hp & Hok). apply Forall_cons in Hv as (Hpv & Hv).
      destruct (total_step d p Hp) as (-> & -> & -> & ->). cbn [Z.eqb PT_LOAD Pos.eqb negb assert].
      destruct (Z.ltb_spec (p_vaddr p) start); [lia|]. rewrite !bind_Ok.
      destruct (Z.ltb_spec e (p_vaddr p + p_memsz p)); rewrite IH by (done || lia); do 3 f_equal; lia.
    + apply Z.eqb_neq in Hl as ->. cbn [negb]. by apply IH.
Qed.

Lemma total_loop_spec d p l2 : forall l1 i start e f0,
  segment_ok d p -> Forall (segment_ok d) (filter is_load (l1 ++ l2)) ->
  Forall (fun q => p_vaddr p < p_vaddr q) (filter is_load (l1 ++ l2)) -> p_vaddr p < start -> 0 <= e ->
  total_loop i (l1 ++ p :: l2) start e f0 = Ok (p_vaddr p, Z.max e (ends (l1 ++ p :: l2)), i + zlen l1).
Proof.
  induction l1 as [|q l1 IH]; intros i start e f0 Hp Hok Hv Hs He; cbn [app total_loop].
  - destruct (total_step d p Hp) as (Ht & -> & -> & ->). rewrite ends_cons, decide_True by exact Ht. rewrite Ht.
    cbn [Z.eqb PT_LOAD Pos.eqb negb assert]. destruct (Z.ltb_spec (p_vaddr p) start); [|lia]. rewrite !bind_Ok.
    assert (Hv' : Forall (fun q => p_vaddr p <= p_vaddr q) (filter is_load l2)) by (eapply Forall_impl; [exact Hv|]; cbn; lia).
    destruct Hp as [_ _ Hva Hsz _]. change (zlen (@nil elf_phdr)) with 0.
    destruct (Z.ltb_spec e (p_vaddr p + p_memsz p)); rewrite (total_loop_tail d) by (done || lia); do 3 f_equal; lia.
  - cbn [app] in Hok, Hv. rewrite filter_cons in Hok, Hv. rewrite ends_cons, zlen_cons.
    replace (i + (1 + zlen l1)) with (i + 1 + zlen l1) by lia.
    destruct (decide (is_load q)) as [Hl|Hl].
    + apply Forall_cons in Hok as (Hq & Hok). apply Forall_cons in Hv as (Hqv & Hv).
      destruct (total_step d q Hq) as (-> & -> & -> & ->). cbn [Z.eqb PT_LOAD Pos.eqb negb assert].
      destruct (Z.ltb_spec (p_vaddr q) start); rewrite !bind_Ok;
        destruct (Z.ltb_spec e (p_vaddr q + p_memsz q)); rewrite IH by (done || lia); do 3 f_equal; lia.
    + apply Z.eqb_neq in Hl as ->. cbn [negb]. by apply IH.
Qed.

Lemma get_total_map_sz_spec d p l1 l2 :
  segment_ok d p -> p_vaddr p mod 4096 = 0 -> Forall (segment_ok d) (filter is_load (l1 ++ l2)) ->
  Forall (fun q => p_vaddr p < p_vaddr q) (filter is_load (l1 ++ l2)) ->
  p_vaddr p + p_memsz p <= ends (l1 ++ p :: l2) <= TASK_SIZE ->
  get_total_map_sz (l1 ++ p :: l2) 0 = Ok (page_up (ends (l1 ++ p :: l2)) - p_vaddr p, zlen l1).
Proof.
  intros Hp Hal Hok Hv He. unfold get_total_map_sz. pose proof Hp as [_ _ Hva Hsz _].
  rewrite (total_loop_spec d) by (done || unfold TASK_SIZE in *; lia). rewrite bind_Ok.
  rewrite Z.max_r by (unfold TASK_SIZE in *; lia). rewrite ALIGN_DOWN_page, Hal, Z.sub_0_r by (unfold TASK_SIZE in *; lia).
  rewrite ALIGN_UP_page by lia. pose proof (page_up_spec (ends (l1 ++ p :: l2))) as (Hu & _).
  rewrite u32_small by (unfold TASK_SIZE in *; lia). destruct (Z.ltb_spec 0 (page_up (ends (l1 ++ p :: l2)) - p_vaddr p)); [|lia].
  done.
Qed.

(** An image the loader can load: an executable or a library for the i386 whose
    headers are in the file; [first] is the loadable segment with the lowest
    address and starts the file. *)
Record elf_ok (d : list Z) (hdr : elfhdr) (l1 : list elf_phdr) (first : elf_phdr) (l2 : list elf_phdr) : Prop := {
  eo_hdr : sizeof_elfhdr <= zlen d /\ elfhdr_of (zslice d 0 sizeof_elfhdr) = hdr;
  eo_magic : take 4 (e_ident hdr) = ELFMAG;
  eo_type : e_type hdr = ET_DYN \/ e_type hdr = ET_EXEC;
  eo_machine : e_machine hdr = EM_386;
  eo_phoff : 0 <= e_phoff hdr < 2 ^ 31 /\ 0 <= e_phnum hdr /\ e_phoff hdr + sizeof_elf_phdr * e_phnum hdr <= zlen d;
  eo_phdrs : elf_phdrs_of (Z.to_nat (e_phnum hdr)) (zslice d (e_phoff hdr) (sizeof_elf_phdr * e_phnum hdr)) =
    l1 ++ first :: l2;
  eo_first : segment_ok d first /\ p_offset first = 0 /\ clearable_first d first;
  eo_others : Forall (fun p => segment_ok d p /\ pages_apart first p /\ p_vaddr first < p_vaddr p)
    (filter is_load (l1 ++ l2));
  eo_apart : pairwise pages_apart (filter is_load (l1 ++ l2))
}.

Lemma same_space_trans k1 k2 k3 : same_space k1 k2 -> same_space k2 k3 -> same_space k1 k3.
Proof.
  intros (H1 & F1) (H2 & F2). split; [|auto]. intros a. destruct (H1 a) as (<- & <-). apply H2.
Qed.

(** Reading the headers leaves the address space alone. *)
Lemma headers_spec k fn d hdr l1 first l2 :
  disk k fn = Some d -> elf_ok d hdr l1 first l2 ->
  exists fd k1 k2 pos, open_elf_file k fn = Ok (fd, hdr, k1) /\ load_phdrs k1 fd hdr = Ok (l1 ++ first :: l2, k2) /\
    opened k2 fd = Some (d, pos) /\ same_space k k2.
Proof.
  intros Hd [(Hsz & Hhdr) Hmag Hty Hmach (Hoff & Hnum & Hlen) Hph _ _ _].
  unfold open_elf_file. pose proof (open_image k fn d Hd) as Ho.
  destruct (sys_open k fn O_RDONLY 0) as [fd k0]. destruct Ho as (Hfd & Hop & S0).
  destruct (Z.leb_spec 0 fd); [|lia]. cbn [assert]. rewrite bind_Ok.
  destruct (read_image k0 fd d 0 sizeof_elfhdr Hop) as (k1 & -> & Hop1 & S1); [done|done|done|].
  rewrite Z.eqb_refl. cbn [assert]. rewrite bind_Ok, Hhdr, bool_decide_true by done. cbn [assert]. rewrite bind_Ok.
  assert ((e_type hdr =? ET_DYN) || (e_type hdr =? ET_EXEC) = true) as -> by (by destruct Hty as [-> | ->]).
  rewrite Hmach. cbn [assert Z.eqb EM_386 Pos.eqb]. rewrite !bind_Ok.
  destruct (seek_image k1 fd d _ (e_phoff hdr) Hop1 Hoff) as (k2 & E2 & Hop2 & S2).
  destruct (read_image k2 fd d (e_phoff hdr) (sizeof_elf_phdr * e_phnum hdr) Hop2) as (k3 & E3 & Hop3 & S3);
    [lia|unfold sizeof_elf_phdr; lia|done|].
  eexists fd, k1, k3, _. split; [done|]. split; [|split; [exact Hop3|]].
  - unfold load_phdrs. rewrite E2. destruct (Z.leb_spec 0 (e_phoff hdr)); [|lia]. cbn [assert]. rewrite bind_Ok, E3.
    rewrite Z.eqb_refl. cbn [assert]. by rewrite bind_Ok, Hph.
  - eapply same_space_trans; [exact S0|]. eapply same_space_trans; [exact S1|]. by eapply same_space_trans.
Qed.

(** The extent of the image. *)
Lemma elf_extent d hdr l1 first l2 :
  elf_ok d hdr l1 first l2 ->
  let phdrs := l1 ++ first :: l2 in
  Forall (segment_ok d) (filter is_load (l1 ++ l2)) /\ p_vaddr first mod 4096 = 0 /\
  p_vaddr first + p_memsz first <= ends phdrs /\ page_up (ends phdrs) <= TASK_SIZE /\ ends phdrs <= TASK_SIZE /\
  Forall (fun p => p_vaddr p + p_memsz p <= ends phdrs) (filter is_load (l1 ++ l2)).
Proof.
  intros [_ _ _ _ _ _ (Hf & Hf0 & _) Hoth _] phdrs. pose proof (segment_congruent d first Hf) as Hal.
  rewrite Hf0, Z.sub_0_r in Hal. pose proof Hf as [Hft _ _ _ _].
  assert (Hsegs : Forall (segment_ok d) (filter is_load (l1 ++ l2))) by (eapply Forall_impl; [exact Hoth|]; cbn; tauto).
  assert (Ef : filter is_load phdrs = filter is_load l1 ++ first :: filter is_load l2).
  { unfold phdrs. by rewrite filter_app, filter_cons, decide_True by exact Hft. }
  destruct (ends_spec d phdrs) as (Hlim & Hends).
  { rewrite Ef. rewrite filter_app in Hsegs. apply Forall_app in Hsegs as (? & ?). apply Forall_app. split; [done|by constructor]. }
  rewrite Ef in Hends. apply Forall_app in Hends as (He1 & He2). apply Forall_cons in He2 as (Hef & He2).
  split; [done|]. split; [done|]. split; [done|]. split; [|split; [done|]].
  - unfold TASK_SIZE, page_up in *. Z.div_mod_to_equations. lia.
  - rewrite filter_app. by apply Forall_app.
Qed.

(** Where the other segments go when the first is at [base]. *)
Lemma others_placed d hdr l1 first l2 base :
  elf_ok d hdr l1 first l2 ->
  let total := page_up (ends (l1 ++ first :: l2)) - p_vaddr first in
  let delta := base - p_vaddr first in
  0 <= base -> base + total <= TASK_SIZE ->
  Forall (fun p => u32 (u32 delta + p_vaddr p) = delta + p_vaddr p /\ delta + p_vaddr p + p_memsz p <= TASK_SIZE /\
                   base <= delta + pages_from p /\ delta + pages_to p <= base + total) (filter is_load (l1 ++ l2)).
Proof.
  intros Hok total delta H0 Hbl. destruct (elf_extent _ _ _ _ _ Hok) as (_ & Hal & _ & _ & _ & Hends).
  pose proof Hok as [_ _ _ _ _ _ _ Hoth _]. apply Forall_forall. intros p Hp. rewrite Forall_forall in Hoth, Hends.
  destruct (Hoth p Hp) as ([_ _ Hpv Hps _] & _ & Hlt). pose proof (Hends p Hp) as Hpe. pose proof (page_up_le _ _ Hpe).
  pose proof (page_up_spec (p_vaddr p + p_memsz p)). unfold u32.
  rewrite Zplus_mod_idemp_l, Z.mod_small by (unfold delta, total, TASK_SIZE in *; lia).
  unfold pages_from, pages_to, delta, total in *. split; [done|]. split; [lia|]. split; [|lia]. Z.div_mod_to_equations. lia.
Qed.

(** The first segment is in place, and the others can be mapped. *)
Lemma load_elf_first k fn d hdr l1 first l2 :
  disk k fn = Some d -> elf_ok d hdr l1 first l2 ->
  let phdrs := l1 ++ first :: l2 in
  let total := page_up (ends phdrs) - p_vaddr first in
  (e_type hdr = ET_DYN -> fits k total) ->
  exists fd pos base k3, let delta := base - p_vaddr first in
    load_elf k fn =
      (k4 ← map_all k3 fd (u32 delta) (filter is_load (l1 ++ l2));
       Ok (Loaded (u32 (delta + e_entry hdr)) (u32 delta) (u32 (base + e_phoff hdr)) (e_phnum hdr)
                  (existsb (fun p => p_type p =? PT_INTERP) phdrs), (sys_close k4 fd).2)) /\
    opened k3 fd = Some (d, pos) /\ delta mod 4096 = 0 /\ base mod 4096 = 0 /\
    (e_type hdr = ET_EXEC -> base = p_vaddr first) /\
    Forall (fun p => u32 (u32 delta + p_vaddr p) = delta + p_vaddr p /\ delta + p_vaddr p + p_memsz p <= TASK_SIZE /\
                     base <= delta + pages_from p /\ delta + pages_to p <= base + total) (filter is_load (l1 ++ l2)) /\
    image_at k3 d base first /\ changed k k3 base (base + total).
Proof.
  intros Hd Hok phdrs total Hfits. pose proof Hok as [_ _ Hty _ _ _ (Hf & Hf0 & Hfc) Hoth Hpw].
  destruct (headers_spec k fn d hdr l1 first l2 Hd Hok) as (fd & k1 & k2 & pos & E1 & E2 & Hop & Hsame & Hfit).
  destruct (elf_extent d hdr l1 first l2 Hok) as (Hsegs & Hal & Hfe & Hpt & Hlim & _). fold phdrs in E2, Hfe, Hpt, Hlim.
  unfold load_elf. rewrite E1, bind_Ok, E2, bind_Ok. pose proof Hf as [Hft _ Hfv Hfs _].
  assert (Etot : get_total_map_sz phdrs 0 = Ok (total, zlen l1)).
  { apply (get_total_map_sz_spec d); try done. eapply Forall_impl; [exact Hoth|]; cbn; tauto. }
  assert (Erd : rd phdrs (zlen l1) = Ok first).
  { apply rd_Ok_iff. split; [apply zlen_nonneg|]. unfold zlen, phdrs. rewrite Nat2Z.id. by apply list_lookup_middle. }
  rewrite Etot, bind_Ok, Erd, bind_Ok. pose proof (page_up_spec (ends phdrs)) as (Hpu & Hpu').
  destruct (map_first_spec k2 fd d pos first total (e_type hdr =? ET_EXEC)) as (base & k3 & -> & H0 & Hb & Hbl & Hbase & Hop3 & Him & Hch);
    try done; [unfold total; lia|unfold total; by rewrite Zminus_mod, Hpu', Hal|unfold total; lia|..].
  { intros Hne%Z.eqb_neq. apply Hfit, Hfits. tauto. }
  rewrite bind_Ok. set (delta := base - p_vaddr first).
  assert (Ebias : (if e_type hdr =? ET_EXEC then 0 else u32 delta) = u32 delta).
  { destruct (e_type hdr =? ET_EXEC); [|done]. unfold delta. rewrite Hbase, Z.sub_diag; done. }
  rewrite Ebias. pose proof (load_loop_spec k3 fd (u32 delta) first l2 l1 0 false Hft) as Eloop.
  rewrite Z.add_0_l in Eloop. fold phdrs in Eloop. rewrite Eloop.
  exists fd, pos, base, k3. cbv zeta. fold delta. split; [|split; [done|split; [|split; [done|split; [|split; [|split; [done|]]]]]]].
  - rewrite bind_assoc. destruct (map_all k3 fd (u32 delta) _) as [k4| | |]; try done. rewrite !bind_Ok.
    destruct (sys_close k4 fd) as [err k5]. cbn [snd]. do 3 f_equal.
    + unfold u32. by rewrite Zplus_mod_idemp_l.
    + unfold phdrs. rewrite !existsb_app. cbn [existsb]. by rewrite Hft.
  - unfold delta. by rewrite Zminus_mod, Hb, Hal.
  - intros He. apply Hbase. by rewrite He.
  - by apply (others_placed d hdr).
  - intros x Hx. rewrite Hch by done. apply Hsame.
Qed.

(** The image of a well-formed file is mapped; the theorem below says it in full. *)
Lemma load_elf_spec k fn d hdr l1 first l2 :
  disk k fn = Some d -> elf_ok d hdr l1 first l2 -> Forall clearable (filter is_load (l1 ++ l2)) ->
  let phdrs := l1 ++ first :: l2 in
  let total := page_up (ends phdrs) - p_vaddr first in
  (e_type hdr = ET_DYN -> fits k total) ->
  exists base k',
    load_elf k fn = Ok (Loaded (u32 (base - p_vaddr first + e_entry hdr)) (u32 (base - p_vaddr first))
                               (u32 (base + e_phoff hdr)) (e_phnum hdr)
                               (existsb (fun p => p_type p =? PT_INTERP) phdrs), k') /\
    base mod 4096 = 0 /\ (e_type hdr = ET_EXEC -> base = p_vaddr first) /\
    Forall (fun p => image_at k' d (base - p_vaddr first + p_vaddr p) p) (filter is_load phdrs) /\
    changed k k' base (base + total).
Proof.
  intros Hd Hok Hcl phdrs total Hfits. pose proof Hok as [_ _ _ _ _ _ (Hf & _) Hoth Hpw]. pose proof Hf as [Hft _ _ _ _].
  destruct (load_elf_first k fn d hdr l1 first l2 Hd Hok Hfits) as (fd & pos & base & k3 & -> & Hop3 & Hdelta & Hb & Hbase & Hpl & Him & Hch).
  fold phdrs. fold phdrs total in Hpl, Hch. set (delta := base - p_vaddr first) in *.
  destruct (map_all_spec fd d pos (u32 delta) delta base (base + total) (filter is_load (l1 ++ l2)) k3)
    as (k4 & -> & Hims & Hch4 & Hkeep); try done; [eapply Forall_impl; [exact Hoth|]; cbn; tauto|].
  rewrite bind_Ok. pose proof (close_image k4 fd) as (Hcl5 & _). set (k5 := (sys_close k4 fd).2) in *.
  exists base, k5. split; [done|]. split; [done|]. split; [done|]. split.
  - assert (Hc5 : forall p, image_at k4 d (delta + p_vaddr p) p -> image_at k5 d (delta + p_vaddr p) p).
    { intros p Hp i Hi. rewrite (proj1 (Hcl5 _)). by apply Hp. }
    assert (Hfirst : image_at k4 d (delta + p_vaddr first) first).
    { intros i Hi. rewrite (Hkeep first) by (lia || (eapply Forall_impl; [exact Hoth|]; cbn; tauto)).
      replace (delta + p_vaddr first) with base by (unfold delta; lia). by apply Him. }
    unfold phdrs. rewrite filter_app, filter_cons, decide_True by exact Hft. rewrite filter_app in Hims.
    apply Forall_app in Hims as (Hi1 & Hi2). apply Forall_app. split; [|constructor]; eauto using Forall_impl.
  - intros x Hx. by rewrite (proj1 (Hcl5 x)), Hch4, Hch.
Qed.

(** C6: [load_elf] puts the image at a page boundary, an executable at its link
    address, and returns the entry point and the address of the program headers
    there and whether an interpreter is asked for. Afterwards every loadable
    segment is in memory, its bytes of the file followed by zeros, and nothing
    outside the image has changed. This is so when every segment after the first
    may be written or has data up to the end of a page and no memory behind it;
    when one does not, the loader faults. The file has valid headers, its
    loadable segments have data in the file, agree with it on the position in a
    page and share no page; the one with the lowest address starts the file, and
    has no memory behind its data unless it may be written and the file is as
    long; for a library there is room. *)
Theorem load_elf_correct k fn d hdr l1 first l2 :
  disk k fn = Some d -> elf_ok d hdr l1 first l2 ->
  let phdrs := l1 ++ first :: l2 in
  let total := page_up (ends phdrs) - p_vaddr first in
  (e_type hdr = ET_DYN -> fits k total) ->
  if decide (Forall clearable (filter is_load (l1 ++ l2))) then
    exists base k',
      load_elf k fn = Ok (Loaded (u32 (base - p_vaddr first + e_entry hdr)) (u32 (base - p_vaddr first))
                                 (u32 (base + e_phoff hdr)) (e_phnum hdr)
                                 (existsb (fun p => p_type p =? PT_INTERP) phdrs), k') /\
      base mod 4096 = 0 /\ (e_type hdr = ET_EXEC -> base = p_vaddr first) /\
      Forall (fun p => image_at k' d (base - p_vaddr first + p_vaddr p) p) (filter is_load phdrs) /\
      changed k k' base (base + total)
  else load_elf k fn = Stray Wr.
Proof.
  intros Hd Hok phdrs total Hfits. destruct (decide _) as [Hcl|Hcl];
    [by apply (load_elf_spec k fn d hdr l1 first l2)|].
  destruct (load_elf_first k fn d hdr l1 first l2 Hd Hok Hfits) as (fd & pos & base & k3 & -> & Hop3 & Hdelta & _ & _ & Hpl & _).
  pose proof Hok as [_ _ _ _ _ _ _ Hoth _].
  rewrite (map_all_faults fd d pos _ (base - p_vaddr first)); [done|done| |done|done|].
  - eapply Forall_impl; [exact Hoth|]; cbn; tauto.
  - eapply Forall_impl; [exact Hpl|]; cbn; tauto.
Qed.

End facts.

(** ** A kernel with an address space *)

Module Vm.

Record vmk := Vmk {
  files : gmap fname (list Z);
  fdt : gmap Z (list Z * Z);
  space : Z -> option Z;
  wr : Z -> bool
}.

Definition set_fd (k : vmk) (fd : Z) (v : list Z * Z) : vmk := Vmk (files k) (<[fd := v]> (fdt k)) (space k) (wr k).

#[global] Instance vm_kernel : Kernel vmk := {
  sys_write k _ _ := (-9, k);
  sys_open k fn _ _ := match files k !! fn with Some d => (3, set_fd k 3 (d, 0)) | None => (-2, k) end;
  sys_close k _ := (0, k);
  sys_read k fd n :=
    match fdt k !! fd with
    | Some (d, pos) => let r := zslice d pos n in (zlen r, r, set_fd k fd (d, pos + zlen r))
    | None => (-9, [], k)
    end;
  sys_stat64 k _ := (-2, 0, k);
  sys_mprotect k _ _ _ := (0, k);
  sys_brk k _ := (0, k)
}.

Definition remap (k : vmk) (p n : Z) (f : Z -> option Z) (w : bool) : vmk :=
  Vmk (files k) (fdt k)
    (fun a => if decide (p <= a < p + page_up n) then f (a - p) else space k a)
    (fun a => if decide (p <= a < p + page_up n) then w && bool_decide (is_Some (f (a - p))) else wr k a).

(** Images without an address go to [free]. *)
Definition free : Z := 0x40000000.

#[global] Instance vm_pages : KernelPages vmk := {
  sys_uniform_mmap k n prot := (free, remap k free n (fun _ => Some 0) (writes prot));
  sys_munmap k p n := (0, remap k p n (fun _ => None) false)
}.

#[global] Instance vm_images : KernelImages vmk := {
  sys_lseek k fd off _ :=
    match fdt k !! fd with Some (d, _) => (off, set_fd k fd (d, off)) | None => (-9, k) end;
  sys_mmap2 k addr n prot flags fd pg :=
    let p := if has_flag flags MAP_FIXED then addr else free in
    let f := if has_flag flags MAP_ANONYMOUS then fun _ => Some 0
             else match fdt k !! fd with Some (d, _) => fun i => file_byte d (pg * 4096 + i) | None => fun _ => None end in
    (p, remap k p n f (writes prot));
  store k p bs :=
    if decide (Forall (fun i => wr k (p + i) = true) (seqZ 0 (zlen bs))) then
      Ok (Vmk (files k) (fdt k) (fun a => if decide (p <= a < p + zlen bs) then bs !! Z.to_nat (a - p) else space k a) (wr k))
    else Stray Wr
}.

#[global] Instance vm_space : AddressSpace vmk := {
  disk k fn := files k !! fn;
  opened k fd := fdt k !! fd;
  byte_at := space;
  can_write := wr;
  fits k n := page_up n <= 2 ^ 28 /\ forall a, free <= a < free + page_up n -> space k a = None
}.

Lemma remap_remapped k p n f w : remapped k (remap k p n f w) p n f w.
Proof. split; [done|]. intros a. cbn. by destruct (decide (p <= a < p + page_up n)). Qed.

Lemma set_fd_same k fd v : same_space k (set_fd k fd v).
Proof. done. Qed.

#[global] Instance vm_laws : KernelImagesLaws vmk.
Proof.
  constructor.
  - intros k fn d Hd. cbn in *. rewrite Hd. split; [done|]. split; [by cbn; rewrite lookup_insert_eq|done].
  - intros k fd d pos n Hop Hp Hn Hl. cbn in *. rewrite Hop. rewrite zlen_zslice by done. eexists. split; [done|].
    split; [by cbn; rewrite lookup_insert_eq|done].
  - intros k fd d pos off Hop Ho. cbn in *. rewrite Hop. eexists. split; [done|]. split; [by cbn; rewrite lookup_insert_eq|done].
  - done.
  - intros k fd d pos addr n prot pg Hop _ _ _ _ _. cbn in *. rewrite Hop. eexists. split; [done|]. apply remap_remapped.
  - intros k fd d pos n prot pg Hop Hn (Hfit & Hfree) _. cbn in *. rewrite Hop. exists free. eexists. split; [done|].
    split; [done|]. split; [done|]. split; [unfold free, TASK_SIZE; lia|]. split; [exact Hfree|]. apply remap_remapped.
  - intros k addr n prot _ _ _ _. eexists. split; [done|]. apply remap_remapped.
  - intros k p n _ _ _ _. apply remap_remapped.
  - intros k p bs Hw. cbn in *. rewrite decide_True.
    + eexists. split; [done|]. split; [done|]. by intros a.
    + apply Forall_seqZ. intros i Hi. apply Hw. lia.
  - intros k p bs a Ha Hw. cbn in *. rewrite decide_False; [done|]. intros Hf. rewrite Forall_seqZ in Hf.
    specialize (Hf (a - p) ltac:(lia)). replace (p + (a - p)) with a in Hf by lia. congruence.
Qed.

End Vm.

(** An executable of two segments: the headers and some code, and four bytes of
    data followed by sixteen zeros. *)
Definition exe_first : elf_phdr := Phdr PT_LOAD 0 0x8048000 120 120 5 4096.
Definition exe_data : elf_phdr := Phdr PT_LOAD 120 0x8049078 4 20 6 4096.

Definition phdr_bytes (p : elf_phdr) : list Z :=
  le32 (p_type p) ++ le32 (p_offset p) ++ le32 (p_vaddr p) ++ le32 0 ++ le32 (p_filesz p) ++ le32 (p_memsz p) ++
  le32 (p_flags p) ++ le32 (p_align p).

Definition exe : list Z :=
  ELFMAG ++ [1; 1; 1] ++ replicate 9 0 ++ [2; 0; 3; 0] ++ le32 1 ++ le32 0x8048074 ++ le32 52 ++ le32 0 ++ le32 0 ++
  [52; 0; 32; 0; 2; 0; 0; 0; 0; 0; 0; 0] ++ phdr_bytes exe_first ++ phdr_bytes exe_data ++ [0x31; 0xc0; 0xcd; 0x80] ++
  [1; 2; 3; 4].

Definition vm1 : Vm.vmk := Vm.Vmk {[ codes "/a.out" := exe ]} ∅ (fun _ => None) (fun _ => false).

Lemma exe_ok : elf_ok exe (elfhdr_of (zslice exe 0 52)) [] exe_first [exe_data].
Proof.
  assert (H1 : segment_ok exe exe_first) by (by constructor).
  assert (H2 : segment_ok exe exe_data) by (by constructor).
  constructor; try done.
  - by right.
  - split; [done|]. split; [done|by left].
  - apply Forall_cons_2; [|constructor]. split; [done|]. by split; [left|].
Qed.

Lemma exe_clearable : Forall clearable (filter is_load ([] ++ [exe_data])).
Proof. apply (bool_decide_unpack _). by vm_compute. Qed.

Lemma load_elf_correct_witness :
  exists k', load_elf vm1 (codes "/a.out") = Ok (Loaded 0x8048074 0 0x8048034 2 false, k') /\
    byte_at k' 0x8049079 = Some 2 /\ byte_at k' 0x804908b = Some 0.
Proof.
  pose proof (load_elf_correct vm1 (codes "/a.out") exe (elfhdr_of (zslice exe 0 52)) [] exe_first [exe_data]) as H.
  cbv zeta in H. rewrite decide_True in H by exact exe_clearable.
  destruct H as (base & k' & E & _ & Hb & Him & _).
  - done.
  - exact exe_ok.
  - done.
  - specialize (Hb eq_refl). subst base. exists k'. split; [exact E|]. rewrite Forall_forall in Him.
    assert (Hin : exe_data ∈ filter is_load ([] ++ exe_first :: [exe_data])).
    { apply list_elem_of_filter. split; [done|]. apply elem_of_cons. right. apply elem_of_cons. by left. }
    assert (R1 : 0 <= 1 < p_memsz exe_data) by (cbn; lia). assert (R19 : 0 <= 19 < p_memsz exe_data) by (cbn; lia).
    pose proof (Him _ Hin 1 R1) as H1. pose proof (Him _ Hin 19 R19) as H19.
    vm_compute in H1, H19. exact (conj H1 H19).
Defined.

End ElfFacts.
