(* ===== verification/Interp.v ===== *)
(** The entry of the loader, [src/src/core/loader/interp_main.c]: from the
    initial stack to the program that is started.

    [xmain] composes the components: it relocates the loader (Elf.v), scans the
    stack and reads the options (Startup.v), puts the recorder's entry
    (SyscallLog.v) in the auxiliary vector, and loads the program or its
    interpreter (Elf.v). The stack is the flat memory [m] of Startup.v, the
    loader's own image is [lm], and the images it maps are the kernel's. *)
From S2P Require Import Prelude Kernel CString Mm Startup Elf.
Import Str Startup Elf.

(** personality(2) and execve(2); an execve that succeeds does not return. *)
Class KernelExec (K : Type) := {
  sys_personality : K -> Z -> Z * K;
  sys_execve : K -> Z -> Z -> Z -> option (Z * K)
}.

Module Interp.

Definition ADDR_NO_RANDOMIZE : Z := 0x0040000.
Definition INTERP_RET_UNSELECTED : Z := 0.
Definition INTERP_RET_SNITCHASER : Z := 1.
Definition REAL_INTERPRETER_FILE : list Z := codes "/lib/ld-linux.so.2".

(** A store of a word through a pointer that may be [NULL]. *)
Definition st32 (m : list Z) (p v : Z) : result (list Z) :=
  if p =? 0 then Stray Wr else mem_write m p (le32 v).

(** The string at [p], without its NUL. *)
Definition c_string (m : list Z) (p : Z) : result (list Z) := n ← strlen m p; mem_read m p n.

(** ** The entry for system calls in the auxiliary vector *)

(** [while ( *envp++ != NULL)]: the auxiliary vector. *)
Definition find_auxv (m : list Z) (envp : Z) : result Z :=
  p ← skip_pointers m (stack_rounds m) envp;
  Ok (p + 4).

Fixpoint set_vsyscall_loop (fuel : nat) (m : list Z) (auxv new_entry : Z) : result (list Z) :=
  match fuel with
  | O => NoFuel
  | S fuel =>
      t ← ld32 m auxv;
      if t =? AT_NULL then Ok m
      else
        m ← (if t =? AT_SYSINFO then st32 m (auxv + 4) new_entry else Ok m);
        set_vsyscall_loop fuel m (auxv + 8) new_entry
  end.

Definition set_vsyscall_entry (m : list Z) (envp new_entry : Z) : result (list Z) :=
  auxv ← find_auxv m envp;
  set_vsyscall_loop (stack_rounds m) m auxv new_entry.

(** Without an entry the process exits. *)
Fixpoint get_vsyscall_loop (fuel : nat) (m : list Z) (auxv : Z) : result Z :=
  match fuel with
  | O => NoFuel
  | S fuel =>
      t ← ld32 m auxv;
      if t =? AT_NULL then Fatal
      else if t =? AT_SYSINFO then ld32 m (auxv + 4)
      else get_vsyscall_loop fuel m (auxv + 8)
  end.

Definition get_vsyscall_entry (m : list Z) (envp : Z) : result Z :=
  auxv ← find_auxv m envp;
  get_vsyscall_loop (stack_rounds m) m auxv.

(** ** Starting again without address randomisation *)

Section interp.
Context {K : Type} `{Kernel K} `{KernelPages K} `{KernelImages K} `{KernelExec K}.

(** [None]: the process runs a new image. *)
Definition reexec (k : K) (m : list Z) (info : startup_stack_info) : result (option K) :=
  let '(err, k) := sys_personality k 0xffffffff in
  _ ← assert (0 <=? err);
  if has_flag err ADDR_NO_RANDOMIZE then Ok (Some k)
  else
    let persona := Z.lor err ADDR_NO_RANDOMIZE in
    let '(err, k) := sys_personality k persona in
    _ ← assert (0 <=? err);
    argv0 ← ld32 m (p_args info);
    match sys_execve k argv0 (p_args info) (p_envs info) with
    | Some _ => Fatal
    | None => Ok None
    end.

(** ** Loading *)

(** [STACK_INFO(p_argc)] and [STACK_INFO(p_args)] are set. *)
Definition set_args (info : startup_stack_info) (argc args : Z) : startup_stack_info :=
  Stack argc args (p_envs info) (p_auxvs info) (cmdline_argbegin info) (cmdline_argend info)
    (envbegin info) (envend info) (bottom_exec_fn info) (auxv_info info).

(** What [load_exec] returns and changes: whether the interpreter is needed,
    [*p_entry], the memory, the globals and [startup_stack->stack_top]. *)
Record loaded_exec := LoadedExec {
  x_need_interp : bool;
  x_entry : Z;
  x_mem : list Z;
  x_info : startup_stack_info;
  x_stack_top : Z
}.

Variable _start : Z.

Definition load_exec (k : K) (m : list Z) (info : startup_stack_info) (stack_top : Z) :
    result (loaded_exec * K) :=
  let a := auxv_info info in
  _ ← assert (negb (pp_user_phdrs a =? 0));
  _ ← assert (negb (p_nr_user_phdrs a =? 0));
  _ ← assert (negb (p_user_entry a =? 0));
  user_entry ← ld32 m (p_user_entry a);
  if negb (_start =? user_entry) then Ok (LoadedExec true user_entry m info stack_top, k)
  else
    fn ← ld32 m (p_args info + 4);
    if fn =? 0 then Fatal
    else
      name ← c_string m fn;
      '(l, k) ← load_elf k name;
      m ← st32 m (pp_user_phdrs a) (l_phdrs l);
      m ← st32 m (p_nr_user_phdrs a) (l_nr_phdrs l);
      let entry := l_entry l in
      _ ← assert (negb (entry =? 0));
      m ← st32 m (p_execfn a) fn;
      m ← st32 m (p_user_entry a) entry;
      argc ← ld32 m (p_argc info);
      let argc := s32 argc in
      _ ← assert (2 <=? argc);
      let info := set_args info (p_args info) (p_args info + 4) in
      m ← st32 m (p_argc info) (argc - 1);
      Ok (LoadedExec (l_need_interp l) entry m info (p_argc info), k).

Definition load_real_interp (k : K) : result (Z * K) :=
  '(l, k) ← load_elf k REAL_INTERPRETER_FILE;
  _ ← assert (negb (l_entry l =? 0));
  Ok (l_entry l, k).

(** [random] is the value of [random32()], a [uint32_t]. *)
Definition sampling_ (random : Z) (c : env_conf) : Z :=
  let selection := random mod 1000 in
  let selected := (sampling c <? 0) || (selection <? sampling c) in
  if negb selected then INTERP_RET_UNSELECTED
  else if use_rebranch c then INTERP_RET_SNITCHASER
  else INTERP_RET_UNSELECTED.

(** ** The composition *)

(** What is left behind: the value returned to the assembly, the memory of the
    stack and of the loader, the value of [vsyscall_entry] and the top of the
    stack the program is started on. *)
Record started := Started {
  s_ret : Z;
  s_mem : list Z;
  s_loader : list Z;
  s_vsyscall : Z;
  s_stack_top : Z
}.

Variables (dynamic got wrapped_syscall_entry : Z).

(** [None] when the process was replaced by [reexec]. *)
Definition xmain (k : K) (m lm : list Z) (random stack_top : Z) : result (option (started * K)) :=
  lm ← relocate_interp lm dynamic got;
  info ← scan_startup_stack m stack_top;
  vsyscall_entry ← get_vsyscall_entry m (p_envs info);
  m ← set_vsyscall_entry m (p_envs info) wrapped_syscall_entry;
  r ← reexec k m info;
  match r with
  | None => Ok None
  | Some k =>
      '(x, k) ← load_exec k m info stack_top;
      '(entry_addr, k) ← (if x_need_interp x then load_real_interp k else Ok (x_entry x, k));
      m ← st32 (x_mem x) (x_stack_top x - 4) entry_addr;
      c ← read_env_conf m (x_info x);
      Ok (Some (Started (sampling_ random c) m lm vsyscall_entry (x_stack_top x), k))
  end.

(** [unselect_start]: the program starts at the word below the top of its stack,
    with the stack pointer at the top. *)
Definition unselect_start (s : started) : result (Z * Z) :=
  let esp := s_stack_top s + -4 in
  eip ← ld32 (s_mem s) esp;
  Ok (eip, esp + 4).

End interp.

End Interp.
