(* ===== verification/InterpFacts.v ===== *)
(** The loader starts the program on a stack the kernel could have built.

    Started by hand, with the program as its first argument, the loader removes
    its own name from the arguments and rewrites the auxiliary vector; what the
    program (or its interpreter) finds is the layout of execve(2) again, so
    every theorem about the initial stack applies to it. *)
From S2P Require Import Prelude Kernel CString CStringFacts Mm Startup StartupFacts EnvConfFacts Elf RelocFacts ElfFacts Interp.
Import Str StrFacts Startup StartupFacts EnvFacts Elf RelocFacts ElfFacts Interp.

Module InterpFacts.

(** ** Stores to words *)

(** [m'] is [m] but for the bytes [lo .. hi). *)
Definition kept (m m' : list Z) (lo hi : Z) : Prop :=
  zlen m' = zlen m /\
  forall i n, 0 <= i -> 0 <= n -> i + n <= lo \/ hi <= i -> zslice m' i n = zslice m i n.

Lemma kept_refl m lo hi : kept m m lo hi.
Proof. done. Qed.

Lemma kept_trans m1 m2 m3 lo hi : kept m1 m2 lo hi -> kept m2 m3 lo hi -> kept m1 m3 lo hi.
Proof. intros [L1 S1] [L2 S2]. split; [congruence|]. intros i n Hi Hn Ha. by rewrite S2, S1. Qed.

Lemma kept_widen m m' lo hi lo' hi' : lo' <= lo -> hi <= hi' -> kept m m' lo hi -> kept m m' lo' hi'.
Proof. intros Hl Hh [L S]. split; [done|]. intros i n Hi Hn Ha. apply S; lia. Qed.

Lemma ld32_kept m m' lo hi p : kept m m' lo hi -> p + 4 <= lo \/ hi <= p -> ld32 m' p = ld32 m p.
Proof.
  intros [L S] Ha. unfold ld32, mem_read. rewrite L. destruct (Z.leb_spec 0 p); [|done]. by rewrite S by lia.
Qed.

Lemma words_at_kept m m' lo hi p ws :
  kept m m' lo hi -> p + 4 * zlen ws <= lo \/ hi <= p -> words_at m p ws -> words_at m' p ws.
Proof.
  intros K. revert p. induction ws as [|w ws IH]; intros p Ha; [done|]. rewrite zlen_cons in Ha.
  pose proof (zlen_nonneg ws). intros [Hw Hws]. split; [by rewrite (ld32_kept _ _ _ _ _ K) by lia|].
  apply IH; [lia|done].
Qed.

Lemma st32_ok m p v : 0 < p -> p + 4 <= zlen m ->
  exists m', st32 m p v = Ok m' /\ kept m m' p (p + 4) /\ ld32 m' p = Ok (u32 v).
Proof.
  intros Hp Hl. unfold st32. destruct (Z.eqb_spec p 0); [lia|].
  assert (H4 : zlen (le32 v) = 4) by apply zlen_le. rewrite mem_write_poke by lia. eexists. split; [done|]. split.
  - split; [apply zlen_poke; lia|]. intros i c Hi Hc Ha. apply zslice_poke_apart; lia.
  - assert (E : le32 v = le32 (u32 v)) by (symmetry; apply (le_mod 4)). rewrite E. apply ld32_poke; [lia|lia|].
    exact (u32_range v).
Qed.

(** A store to one of the words at [p]. *)
Lemma st32_words m p ws (j : nat) v :
  0 < p -> words_at m p ws -> (j < length ws)%nat ->
  exists m', st32 m (p + 4 * Z.of_nat j) v = Ok m' /\ words_at m' p (<[j := u32 v]> ws) /\
    kept m m' p (p + 4 * zlen ws).
Proof.
  intros Hp Hw Hj.
  assert (Hr : 0 <= p /\ p + 4 * zlen ws <= zlen m) by (apply words_at_range; [by destruct ws; [cbn in Hj; lia|]|done]).
  destruct (lookup_lt_is_Some_2 ws j Hj) as [w Hjw]. apply list_elem_of_split_length in Hjw as (a & b & -> & ->).
  apply words_at_app in Hw as (Ha & _ & Hb). rewrite zlen_app, zlen_cons in Hr.
  pose proof (zlen_nonneg a). pose proof (zlen_nonneg b).
  destruct (st32_ok m (p + 4 * Z.of_nat (length a)) v) as (m' & E & K & L); [lia|unfold zlen in *; lia|].
  exists m'. split; [done|]. split.
  - rewrite insert_app_r_alt by lia. rewrite Nat.sub_diag. cbn [insert list_insert].
    apply words_at_app. split; [|split].
    + eapply words_at_kept; [exact K|unfold zlen; lia|done].
    + exact L.
    + eapply words_at_kept; [exact K|unfold zlen; lia|done].
  - rewrite zlen_app, zlen_cons. eapply kept_widen; [| |exact K]; unfold zlen in *; lia.
Qed.

(** ** The auxiliary vector *)

(** The index of the last entry of type [t]. *)
Fixpoint last_of (t : Z) (types : list Z) : option nat :=
  match types with
  | [] => None
  | t' :: types =>
      match last_of t types with
      | Some j => Some (S j)
      | None => if t' =? t then Some O else None
      end
  end.

(** The last entry of type [t] gets the value [v]. *)
Definition aux_set (t v : Z) (aux : list (Z * Z)) : list (Z * Z) :=
  match last_of t (map fst aux) with
  | Some j => <[j := (t, v)]> aux
  | None => aux
  end.

(** Every entry of type [t] does. *)
Definition aux_set_all (t v : Z) (aux : list (Z * Z)) : list (Z * Z) :=
  map (fun e => if e.1 =? t then (t, v) else e) aux.

(** The address of the value of the last entry, or [q]. *)
Definition slot (t p : Z) (types : list Z) (q : Z) : Z :=
  match last_of t types with
  | Some j => p + 8 * Z.of_nat j + 4
  | None => q
  end.

Lemma last_of_lookup t types j : last_of t types = Some j -> types !! j = Some t.
Proof.
  revert j. induction types as [|t' types IH]; intros j; cbn [last_of]; [done|].
  destruct (last_of t types) as [i|].
  - intros [= <-]. by apply IH.
  - destruct (Z.eqb_spec t' t); [|done]. by intros [= <-]; subst.
Qed.

Lemma aux_slot_cons t p t' types q : slot t p (t' :: types) q = slot t (p + 8) types (if t' =? t then p + 4 else q).
Proof.
  unfold slot. cbn [last_of]. destruct (last_of t types) as [j|]; [lia|]. destruct (t' =? t); [lia|done].
Qed.

Lemma aux_value_last t aux :
  aux_value t aux = (j ← last_of t (map fst aux); snd <$> aux !! j).
Proof.
  unfold aux_value. induction aux as [|[t' v] aux IH]; [done|]. cbn [map fst last_of].
  rewrite filter_cons. cbn [fst]. destruct (last_of t (map fst aux)) as [j|] eqn:E; cbn [mbind option_bind] in *.
  - case_decide; [|done]. rewrite last_cons.
    destruct (last (filter _ aux)) as [e|] eqn:El; [done|]. cbn in IH.
    apply last_of_lookup in E. rewrite list_lookup_fmap in E. by destruct (aux !! j).
  - assert (El : last (filter (fun tv : Z * Z => tv.1 = t) aux) = None)
      by (by destruct (last (filter _ aux))).
    destruct (Z.eqb_spec t' t), (decide (t' = t)); try done. by rewrite last_cons, El.
Qed.

Lemma aux_set_types t v aux : map fst (aux_set t v aux) = map fst aux.
Proof.
  unfold aux_set. destruct (last_of t (map fst aux)) as [j|] eqn:E; [|done].
  apply last_of_lookup in E. change (fst <$> <[j := (t, v)]> aux = fst <$> aux).
  rewrite list_fmap_insert. by apply list_insert_id.
Qed.

(** The pointers [init_auxv_info] finds are the places of the last entries. *)
Lemma auxv_loop_slots m fuel p a a' aux :
  words_at m p (pairs aux ++ [AT_NULL]) -> Forall (fun tv => tv.1 <> AT_NULL) aux ->
  auxv_loop m fuel p a = Ok a' ->
  let types := map fst aux in
  p_user_entry a' = slot AT_ENTRY p types (p_user_entry a) /\
  pp_user_phdrs a' = slot AT_PHDR p types (pp_user_phdrs a) /\
  p_nr_user_phdrs a' = slot AT_PHNUM p types (p_nr_user_phdrs a) /\
  p_execfn a' = slot AT_EXECFN p types (p_execfn a).
Proof.
  intros Hw Hn. revert fuel p a Hw. induction Hn as [|[t v] aux Ht Hn IH]; intros [|fuel] p a Hw; cbn [auxv_loop]; try done.
  - destruct Hw as (-> & _). rewrite bind_Ok. by intros [= <-].
  - destruct Hw as (-> & Hv & Hw). rewrite bind_Ok. cbn [fst snd] in *. destruct (Z.eqb_spec t AT_NULL); [done|].
    intros Hl. apply bind_Ok_inv in Hl as (u & _ & Hl). replace (p + 4 + 4) with (p + 8) in Hw by lia.
    destruct (IH _ _ _ Hw Hl) as (E1 & E2 & E3 & E4). cbn [map fst]. rewrite !aux_slot_cons.
    destruct (set_auxvinfo_fields t (p + 4) a) as (F1 & F2 & F3 & F4 & F5 & _).
    rewrite E1, E2, E3, E4, F1, F2, F3, F5. auto.
Qed.

(** ** Stacks *)

Definition stack_pre (strs : Z) (args envs : list (list Z)) : list Z :=
  zlen args :: pointers strs args ++ [0] ++ pointers (strs + zlen (packed args)) envs ++ [0].

Definition stack_words (strs : Z) (args envs : list (list Z)) (aux : list (Z * Z)) : list Z :=
  stack_pre strs args envs ++ pairs aux ++ [AT_NULL].

(** The stack of execve(2), the strings above the words. *)
Definition laid_out (m : list Z) (top strs : Z) (args envs : list (list Z)) (aux : list (Z * Z))
    (exe : list Z) (gap : nat) : Prop :=
  exec_stack m top strs args envs aux exe gap /\ top + 4 * zlen (stack_words strs args envs aux) <= strs.

Definition aux_ok (aux : list (Z * Z)) : Prop :=
  Forall (fun tv => tv.1 <> AT_NULL /\ (tv.1 = AT_PHENT -> tv.2 = sizeof_elf_phdr)) aux.

Lemma stack_words_eq strs args envs aux :
  zlen args :: pointers strs args ++ [0] ++ pointers (strs + zlen (packed args)) envs ++ [0] ++
    concat (map (fun tv => [tv.1; tv.2]) aux) ++ [AT_NULL] = stack_words strs args envs aux.
Proof. unfold stack_words, stack_pre. cbn [app]. rewrite <- app_assoc. cbn [app]. by rewrite <- app_assoc. Qed.

Lemma zlen_stack_pre strs args envs : zlen (stack_pre strs args envs) = 3 + zlen args + zlen envs.
Proof.
  unfold stack_pre. rewrite zlen_cons, !zlen_app, !zlen_pointers. change (zlen [0]) with 1. lia.
Qed.

Lemma zlen_stack_words strs args envs aux :
  zlen (stack_words strs args envs aux) = 4 + zlen args + zlen envs + 2 * zlen aux.
Proof.
  unfold stack_words. rewrite !zlen_app, zlen_stack_pre, zlen_pairs. change (zlen [AT_NULL]) with 1. lia.
Qed.

Lemma pairs_insert aux (j : nat) t v w :
  aux !! j = Some (t, w) -> <[(2 * j + 1)%nat := v]> (pairs aux) = pairs (<[j := (t, v)]> aux).
Proof.
  revert j. induction aux as [|[t' w'] aux IH]; intros [|j]; try done.
  - by intros [= -> ->].
  - intros Hj. replace (2 * S j + 1)%nat with (S (S (2 * j + 1))) by lia.
    change (t' :: w' :: <[(2 * j + 1)%nat := v]> (pairs aux) = t' :: w' :: pairs (<[j := (t, v)]> aux)).
    by rewrite IH.
Qed.

Lemma zlen_insert {A} (l : list A) (j : nat) x : zlen (<[j := x]> l) = zlen l.
Proof. unfold zlen. by rewrite length_insert. Qed.

Lemma zlen_aux_set t v aux : zlen (aux_set t v aux) = zlen aux.
Proof. unfold aux_set. destruct (last_of _ _); [apply zlen_insert|done]. Qed.

Lemma aux_set_ok t v aux : t <> AT_NULL -> t <> AT_PHENT -> aux_ok aux -> aux_ok (aux_set t v aux).
Proof.
  intros Hn Hp Ha. unfold aux_set. destruct (last_of _ _); [|done].
  apply Forall_insert; [done|]. by split.
Qed.

(** New words, the same strings. *)
Lemma laid_out_words m m' top strs args envs aux aux' exe gap lo hi :
  laid_out m top strs args envs aux exe gap ->
  kept m m' lo hi -> hi <= strs -> words_at m' top (stack_words strs args envs aux') ->
  aux_ok aux' -> zlen aux' = zlen aux -> laid_out m' top strs args envs aux' exe gap.
Proof.
  intros [[Ht Hs Hw Hb Hn Hx Hax Hsz] Hord] [KL KS] Hhi Hw' Hax' Hl.
  split; [|by rewrite zlen_stack_words, Hl, <- (zlen_stack_words strs)].
  split; try done.
  - by rewrite stack_words_eq.
  - rewrite KS; [done|lia|apply zlen_nonneg|lia].
  - by rewrite KL.
Qed.

(** Stores below the stack. *)
Lemma laid_out_kept m m' top strs args envs aux exe gap lo hi :
  laid_out m top strs args envs aux exe gap -> kept m m' lo hi -> hi <= top ->
  laid_out m' top strs args envs aux exe gap.
Proof.
  intros Hl K Hhi. pose proof Hl as [[Ht Hs Hw _ _ _ Hax _] Hord].
  rewrite stack_words_eq in Hw. pose proof (zlen_nonneg (stack_words strs args envs aux)).
  eapply laid_out_words; [exact Hl|exact K|lia| |done|done].
  eapply words_at_kept; [exact K|lia|done].
Qed.

(** A store to a value of the auxiliary vector. *)
Lemma aux_store m top strs args envs aux exe gap (j : nat) t w v :
  laid_out m top strs args envs aux exe gap -> aux !! j = Some (t, w) -> t <> AT_PHENT ->
  exists m', st32 m (top + 4 * zlen (stack_pre strs args envs) + 8 * Z.of_nat j + 4) v = Ok m' /\
    laid_out m' top strs args envs (<[j := (t, u32 v)]> aux) exe gap /\ kept m m' top strs.
Proof.
  intros Hl Hj Hp. pose proof Hl as [[Ht Hs Hw _ _ _ Hax _] Hord]. rewrite stack_words_eq in Hw.
  assert (Hjl : (j < length aux)%nat) by (by apply lookup_lt_Some in Hj).
  set (i := (length (stack_pre strs args envs) + (2 * j + 1))%nat).
  destruct (st32_words m top (stack_words strs args envs aux) i v) as (m' & E & Hw' & K); [done|done| |].
  { pose proof (zlen_stack_words strs args envs aux) as Hz. pose proof (zlen_stack_pre strs args envs) as Hz'.
    unfold i, zlen in *. lia. }
  exists m'. split; [|split].
  - rewrite <- E. f_equal. unfold i, zlen. lia.
  - eapply laid_out_words; [exact Hl|exact K|lia| | |apply zlen_insert].
    + revert Hw'. unfold stack_words, i. rewrite insert_app_r. rewrite insert_app_l.
      * by rewrite (pairs_insert aux j t (u32 v) w).
      * pose proof (zlen_pairs aux) as Hz. unfold zlen in Hz. lia.
    + apply Forall_insert; [done|]. rewrite Forall_forall in Hax.
      apply list_elem_of_lookup_2 in Hj. destruct (Hax _ Hj) as [Hn _]. by split.
  - eapply kept_widen; [| |exact K]; lia.
Qed.

Lemma aux_set_store m top strs args envs aux exe gap t v :
  laid_out m top strs args envs aux exe gap -> is_Some (last_of t (map fst aux)) -> t <> AT_PHENT ->
  exists m', st32 m (slot t (top + 4 * zlen (stack_pre strs args envs)) (map fst aux) 0) v = Ok m' /\
    laid_out m' top strs args envs (aux_set t (u32 v) aux) exe gap /\ kept m m' top strs.
Proof.
  intros Hl [j Hj] Hp. unfold slot, aux_set. rewrite Hj. apply last_of_lookup in Hj.
  rewrite list_lookup_fmap in Hj. destruct (aux !! j) as [[t' w]|] eqn:E; [|done].
  cbn in Hj. injection Hj as ->. by apply (aux_store _ _ _ _ _ _ _ _ j t w).
Qed.

(** Without its first argument the stack is one word shorter. *)
Lemma stack_words_tail strs a args envs aux :
  <[1%nat := zlen args]> (stack_words strs (a :: args) envs aux) =
    zlen (a :: args) :: stack_words (strs + zlen a + 1) args envs aux.
Proof.
  unfold stack_words, stack_pre. cbn [pointers]. cbn. do 2 f_equal. unfold packed. cbn [map concat].
  rewrite zlen_app, zlen_app. change (zlen [0]) with 1.
  by replace (strs + (zlen a + 1 + zlen (concat (map (fun s => s ++ [0]) args))))
    with (strs + zlen a + 1 + zlen (concat (map (fun s => s ++ [0]) args))) by lia.
Qed.

Lemma drop_argument m top strs a args envs aux exe gap :
  laid_out m top strs (a :: args) envs aux exe gap ->
  exists m', st32 m (top + 4) (zlen args) = Ok m' /\
    laid_out m' (top + 4) (strs + zlen a + 1) args envs aux exe gap /\ kept m m' top strs.
Proof.
  intros [[Ht Hs Hw Hb Hn Hx Hax Hsz] Hord]. rewrite stack_words_eq in Hw.
  pose proof (zlen_stack_words strs (a :: args) envs aux) as Hz.
  destruct (st32_words m top _ 1 (zlen args) Ht Hw) as (m' & E & Hw' & [KL KS]).
  { unfold zlen in Hz. cbn [length] in Hz. lia. }
  assert (Hal : zlen args < 2 ^ 31).
  { apply words_at_range in Hw; [|done]. rewrite Hz, zlen_cons in Hw. pose proof (zlen_nonneg envs).
    pose proof (zlen_nonneg aux). lia. }
  pose proof (zlen_nonneg args). pose proof (zlen_nonneg a).
  rewrite u32_small in Hw' by lia. rewrite stack_words_tail in Hw'. destruct Hw' as [_ Hw'].
  exists m'. split; [exact E|]. split.
  - split; [|rewrite zlen_stack_words in *; rewrite zlen_cons in *; lia].
    split; try done; try lia; [by rewrite stack_words_eq| |exact (Forall_inv_tail Hn)].
    rewrite KS; [|lia|apply zlen_nonneg|lia].
    replace (strs + zlen a + 1) with (strs + zlen (a ++ [0])) by (rewrite zlen_app; change (zlen [0]) with 1; lia).
    eapply (zslice_in m strs _ (a ++ [0]) _ []); [lia|exact Hb|].
    rewrite app_nil_r. unfold packed. cbn. by rewrite <- !app_assoc.
  - split; [done|]. intros i n Hi Hn' Hap. apply KS; lia.
Qed.

(** ** What the scan found *)

(** The auxiliary vector starts behind the two vectors of pointers. *)
Definition aux_base (top : Z) (args envs : list (list Z)) : Z :=
  top + 4 + 4 * zlen args + 4 + 4 * zlen envs + 4.

Lemma aux_base_eq top strs args envs : aux_base top args envs = top + 4 * zlen (stack_pre strs args envs).
Proof. unfold aux_base. rewrite zlen_stack_pre. lia. Qed.

Record info_at (info : startup_stack_info) (top : Z) (args envs : list (list Z)) (types : list Z) : Prop := {
  ia_argc : p_argc info = top;
  ia_args : p_args info = top + 4;
  ia_envs : p_envs info = top + 4 + 4 * zlen args + 4;
  ia_entry : p_user_entry (auxv_info info) = slot AT_ENTRY (aux_base top args envs) types 0;
  ia_phdrs : pp_user_phdrs (auxv_info info) = slot AT_PHDR (aux_base top args envs) types 0;
  ia_phnum : p_nr_user_phdrs (auxv_info info) = slot AT_PHNUM (aux_base top args envs) types 0;
  ia_execfn : p_execfn (auxv_info info) = slot AT_EXECFN (aux_base top args envs) types 0
}.

Lemma laid_out_aux m top strs args envs aux exe gap :
  laid_out m top strs args envs aux exe gap -> words_at m (aux_base top args envs) (pairs aux ++ [AT_NULL]).
Proof. intros [Hst _]. by destruct (scan_words _ _ _ _ _ _ _ _ Hst) as (_ & _ & _ & H). Qed.

Lemma aux_base_pos m top strs args envs aux exe gap :
  laid_out m top strs args envs aux exe gap -> 0 < aux_base top args envs.
Proof. intros [[] _]. unfold aux_base. pose proof (zlen_nonneg args). pose proof (zlen_nonneg envs). lia. Qed.

Lemma scan_info m top strs args envs aux exe gap :
  laid_out m top strs args envs aux exe gap -> args <> [] -> envs <> [] ->
  exists info, scan_startup_stack m top = Ok info /\ info_at info top args envs (map fst aux).
Proof.
  intros Hl Ha He. pose proof Hl as [Hst _].
  destruct (startup_scan_spec _ _ _ _ _ _ _ _ Hst Ha He) as (info & E & _ & _ & _ & _ & _ & _ & H1 & H2 & H3 & Hi).
  exists info. split; [done|]. unfold init_auxv_info in Hi. pose proof (aux_base_pos _ _ _ _ _ _ _ _ Hl) as Hp.
  fold (aux_base top args envs) in Hi. destruct (Z.eqb_spec (aux_base top args envs) 0); [lia|].
  cbn [negb assert] in Hi. rewrite bind_Ok in Hi.
  assert (Hn : Forall (fun tv => tv.1 <> AT_NULL) aux).
  { eapply Forall_impl; [exact (es_aux _ _ _ _ _ _ _ _ Hst)|]. by intros tv []. }
  destruct (auxv_loop_slots _ _ _ _ _ _ (laid_out_aux _ _ _ _ _ _ _ _ Hl) Hn Hi) as (E1 & E2 & E3 & E4).
  by split.
Qed.

(** The word a pointer of the scan refers to. *)
Lemma slot_value m top strs args envs aux exe gap t v :
  laid_out m top strs args envs aux exe gap -> aux_value t aux = Some v ->
  let q := slot t (aux_base top args envs) (map fst aux) 0 in
  ld32 m q = Ok v /\ q <> 0 /\ is_Some (last_of t (map fst aux)).
Proof.
  intros Hl Hv. pose proof (laid_out_aux _ _ _ _ _ _ _ _ Hl) as Hw. rewrite aux_value_last in Hv.
  pose proof (aux_base_pos _ _ _ _ _ _ _ _ Hl). unfold slot. cbn zeta.
  destruct (last_of t (map fst aux)) as [j|]; [|done]. cbn in Hv.
  destruct (aux !! j) as [[t' v']|] eqn:Ej; [|done]. cbn in Hv. injection Hv as ->.
  split; [|split; [lia|done]]. apply list_elem_of_split_length in Ej as (a & b & -> & ->).
  unfold pairs in Hw. rewrite map_app, concat_app in Hw. fold (pairs a) in Hw. rewrite <- app_assoc in Hw.
  apply words_at_app in Hw as [_ (_ & Hw & _)]. rewrite zlen_pairs in Hw. cbn [snd] in Hw. rewrite <- Hw. f_equal. unfold zlen. lia.
Qed.

(** ** The entry for system calls *)

Lemma find_auxv_spec m top strs args envs aux exe gap :
  laid_out m top strs args envs aux exe gap ->
  find_auxv m (top + 4 + 4 * zlen args + 4) = Ok (aux_base top args envs).
Proof.
  intros [Hst _]. destruct (scan_pointers _ _ _ _ _ _ _ _ Hst) as (_ & E & _).
  unfold find_auxv. rewrite E, bind_Ok. done.
Qed.

Lemma laid_out_fuel m top strs args envs aux exe gap :
  laid_out m top strs args envs aux exe gap -> (length aux < stack_rounds m)%nat.
Proof. intros [Hst _]. by destruct (scan_fuel _ _ _ _ _ _ _ _ Hst) as (_ & _ & H & _). Qed.

Lemma set_vsyscall_loop_spec top strs args envs exe gap new : forall rest old fuel m,
  laid_out m top strs args envs (old ++ rest) exe gap -> (length rest < fuel)%nat ->
  exists m', set_vsyscall_loop fuel m (aux_base top args envs + 8 * zlen old) new = Ok m' /\
    laid_out m' top strs args envs (old ++ aux_set_all AT_SYSINFO (u32 new) rest) exe gap /\
    kept m m' top strs.
Proof.
  induction rest as [|[t v] rest IH]; intros old [|fuel] m Hl Hf; cbn [length] in Hf; try lia;
    pose proof (laid_out_aux _ _ _ _ _ _ _ _ Hl) as Hw; unfold pairs in Hw;
    rewrite map_app, concat_app in Hw; fold (pairs old) in Hw; rewrite <- app_assoc in Hw;
    apply words_at_app in Hw as [_ Hw]; rewrite zlen_pairs in Hw;
    replace (4 * (2 * zlen old)) with (8 * zlen old) in Hw by lia; cbn [set_vsyscall_loop].
  - destruct Hw as (-> & _). rewrite bind_Ok. exists m. split; [done|]. by split.
  - destruct Hw as (-> & _). rewrite bind_Ok. cbn [fst].
    assert (Ht : t <> AT_NULL).
    { destruct Hl as [Hst _]. pose proof (es_aux _ _ _ _ _ _ _ _ Hst) as Ha.
      apply Forall_app in Ha as [_ Ha]. by destruct (Forall_inv Ha). }
    destruct (Z.eqb_spec t AT_NULL); [done|].
    assert (Hs : exists m1, (if t =? AT_SYSINFO then st32 m (aux_base top args envs + 8 * zlen old + 4) new else Ok m) = Ok m1 /\
      laid_out m1 top strs args envs ((old ++ [if t =? AT_SYSINFO then (AT_SYSINFO, u32 new) else (t, v)]) ++ rest) exe gap /\
      kept m m1 top strs).
    { destruct (Z.eqb_spec t AT_SYSINFO) as [->|].
      - destruct (aux_store m top strs args envs (old ++ (AT_SYSINFO, v) :: rest) exe gap (length old) AT_SYSINFO v new)
          as (m1 & E & Hl1 & K); [done|by apply list_lookup_middle|done|].
        exists m1. rewrite (aux_base_eq top strs). split; [exact E|]. split; [|done].
        rewrite insert_app_r_alt, Nat.sub_diag in Hl1 by lia. cbn in Hl1. by rewrite <- app_assoc.
      - exists m. split; [done|]. split; [|done]. by rewrite <- app_assoc. }
    destruct Hs as (m1 & -> & Hl1 & K1). rewrite bind_Ok.
    destruct (IH _ fuel m1 Hl1) as (m' & E & Hl' & K'); [lia|]. exists m'.
    rewrite zlen_app in E. change (zlen [_]) with 1 in E.
    replace (aux_base top args envs + 8 * zlen old + 8) with (aux_base top args envs + 8 * (zlen old + 1)) by lia.
    split; [exact E|]. split; [|by eapply kept_trans].
    rewrite <- app_assoc in Hl'. exact Hl'.
Qed.

Lemma set_vsyscall_entry_spec m top strs args envs aux exe gap new :
  laid_out m top strs args envs aux exe gap ->
  exists m', set_vsyscall_entry m (top + 4 + 4 * zlen args + 4) new = Ok m' /\
    laid_out m' top strs args envs (aux_set_all AT_SYSINFO (u32 new) aux) exe gap /\ kept m m' top strs.
Proof.
  intros Hl. unfold set_vsyscall_entry. rewrite (find_auxv_spec _ _ _ _ _ _ _ _ Hl), bind_Ok.
  destruct (set_vsyscall_loop_spec top strs args envs exe gap new aux [] (stack_rounds m) m Hl) as (m' & E & H');
    [by eapply laid_out_fuel|]. exists m'. split; [|done]. rewrite <- E. f_equal. change (zlen []) with 0. lia.
Qed.

(** The value of the first entry of type [t]. *)
Definition aux_first (t : Z) (aux : list (Z * Z)) : option Z := snd <$> head (filter (fun tv => tv.1 = t) aux).

Lemma get_vsyscall_loop_spec m : forall aux fuel p,
  words_at m p (pairs aux ++ [AT_NULL]) -> Forall (fun tv => tv.1 <> AT_NULL) aux -> (length aux < fuel)%nat ->
  get_vsyscall_loop fuel m p = match aux_first AT_SYSINFO aux with Some v => Ok v | None => Fatal end.
Proof.
  induction aux as [|[t v] aux IH]; intros [|fuel] p Hw Hn Hf; cbn [length] in Hf; try lia; cbn [get_vsyscall_loop].
  - by destruct Hw as (-> & _).
  - destruct Hw as (-> & Hv & Hw). rewrite bind_Ok. apply Forall_cons in Hn as [Ht Hn]. cbn [fst snd] in *.
    destruct (Z.eqb_spec t AT_NULL); [done|]. unfold aux_first. rewrite filter_cons. cbn [fst].
    destruct (Z.eqb_spec t AT_SYSINFO), (decide (t = AT_SYSINFO)); try done.
    replace (p + 4 + 4) with (p + 8) in Hw by lia. apply IH; [done|done|lia].
Qed.

Lemma get_vsyscall_entry_spec m top strs args envs aux exe gap :
  laid_out m top strs args envs aux exe gap ->
  get_vsyscall_entry m (top + 4 + 4 * zlen args + 4) =
    match aux_first AT_SYSINFO aux with Some v => Ok v | None => Fatal end.
Proof.
  intros Hl. unfold get_vsyscall_entry. rewrite (find_auxv_spec _ _ _ _ _ _ _ _ Hl), bind_Ok.
  apply get_vsyscall_loop_spec; [by eapply laid_out_aux| |by eapply laid_out_fuel].
  destruct Hl as [Hst _]. eapply Forall_impl; [exact (es_aux _ _ _ _ _ _ _ _ Hst)|]. by intros tv [].
Qed.

Lemma aux_set_all_types t v aux : map fst (aux_set_all t v aux) = map fst aux.
Proof.
  induction aux as [|[t' v'] aux IH]; [done|]. cbn. f_equal; [|done]. by destruct (Z.eqb_spec t' t).
Qed.

Lemma aux_value_other t v t' aux : t' <> t -> aux_value t' (aux_set_all t v aux) = aux_value t' aux.
Proof.
  intros Hne. rewrite !aux_value_last, aux_set_all_types. destruct (last_of t' (map fst aux)) as [j|] eqn:E; [|done].
  cbn. apply last_of_lookup in E. rewrite list_lookup_fmap in E. unfold aux_set_all. rewrite list_lookup_fmap.
  destruct (aux !! j) as [[t1 v1]|]; [|done]. cbn in *. injection E as ->. by destruct (Z.eqb_spec t' t).
Qed.

(** ** The strings *)

Lemma packed_cstrs m p l : 0 <= p -> zslice m p (zlen l) = l -> forall ss pre post,
  l = pre ++ packed ss ++ post -> Forall no_nul ss -> Forall2 (cstr m) (pointers (p + zlen pre) ss) ss.
Proof.
  intros Hp Hm. induction ss as [|s ss IH]; intros pre post Hl Hn; [constructor|].
  apply Forall_cons in Hn as [Hs Hn]. cbn [pointers]. unfold packed in Hl. cbn [map concat] in Hl.
  rewrite <- !app_assoc in Hl. constructor.
  - by eapply cstr_in.
  - replace (p + zlen pre + zlen s + 1) with (p + zlen (pre ++ s ++ [0]))
      by (rewrite !zlen_app; change (zlen [0]) with 1; lia).
    apply (IH _ post); [|done]. rewrite Hl, <- !app_assoc. done.
Qed.

Lemma laid_out_strings m top strs args envs aux exe gap :
  laid_out m top strs args envs aux exe gap ->
  Forall2 (cstr m) (pointers strs args) args /\
  Forall2 (cstr m) (pointers (strs + zlen (packed args)) envs) envs.
Proof.
  intros [[Ht Hs _ Hb Hn _ _ _] _]. rewrite packed_app, <- app_assoc in Hb. apply Forall_app in Hn as [Ha Hn].
  apply Forall_app in Hn as [He _]. split.
  - pose proof (packed_cstrs m strs _ ltac:(lia) Hb args [] _ eq_refl Ha) as H0.
    change (zlen (@nil Z)) with 0 in H0. by rewrite Z.add_0_r in H0.
  - by eapply (packed_cstrs m strs _ ltac:(lia) Hb envs (packed args)).
Qed.

Lemma c_string_spec m p s : cstr m p s -> c_string m p = Ok s.
Proof.
  intros Hs. pose proof (cstr_range _ _ _ Hs) as Hr. unfold c_string. rewrite (strlen_spec _ _ _ Hs), bind_Ok.
  pose proof (zlen_nonneg s). rewrite mem_read_ok by lia. f_equal.
  unfold zslice, zlen. rewrite Nat2Z.id. apply list_eq_same_length with (length s); [done| |].
  - rewrite length_take, length_drop. unfold zlen in Hr. lia.
  - intros i x y Hi Hx Hy. apply lookup_take_Some in Hx as [Hx _]. rewrite lookup_drop in Hx.
    destruct (cstr_rd _ _ _ _ _ Hs Hy) as [H1 _]. apply rd_Ok_iff in H1 as [_ H1].
    replace (Z.to_nat (p + Z.of_nat i)) with (Z.to_nat p + i)%nat in H1 by lia. congruence.
Qed.

(** The options of the environment, read from such a stack. *)
Lemma laid_out_conf m top strs args envs aux exe gap info :
  laid_out m top strs args envs aux exe gap -> p_envs info = top + 4 + 4 * zlen args + 4 ->
  Forall (Forall is_byte) envs -> read_env_conf m info = Ok (conf_of envs default_conf).
Proof.
  intros Hl He Hb. pose proof Hl as [Hst _]. destruct (scan_words _ _ _ _ _ _ _ _ Hst) as (_ & _ & Hw & _).
  destruct (laid_out_strings _ _ _ _ _ _ _ _ Hl) as [_ Hs].
  destruct (scan_fuel _ _ _ _ _ _ _ _ Hst) as (_ & Hf & _). pose proof (es_strs _ _ _ _ _ _ _ _ Hst).
  pose proof (zlen_nonneg (packed args)). unfold read_env_conf. rewrite He.
  eapply env_loop_spec; [exact Hw| |by rewrite pointers_length].
  pose proof (pointers_pos (strs + zlen (packed args)) envs ltac:(lia)) as Hpos. clear Hw Hf Hl Hst.
  revert Hpos Hb. induction Hs; intros Hpos Hb; constructor.
  - apply Forall_inv in Hpos, Hb. done.
  - apply IHHs; [by apply Forall_inv_tail in Hpos|by apply Forall_inv_tail in Hb].
Qed.

(** ** Loading *)

(** The auxiliary vector after the program was loaded by hand. *)
Definition aux_loaded (l : load_result) (fn : Z) (aux : list (Z * Z)) : list (Z * Z) :=
  aux_set AT_ENTRY (u32 (l_entry l)) (aux_set AT_EXECFN (u32 fn)
    (aux_set AT_PHNUM (u32 (l_nr_phdrs l)) (aux_set AT_PHDR (u32 (l_phdrs l)) aux))).

Section load.
Context {K : Type} `{Kernel K} `{KernelPages K} `{KernelImages K} `{KernelExec K}.
Variable _start : Z.

(** The loader is the interpreter of the program: nothing is loaded yet. *)
Lemma load_exec_interposed k m top strs args envs aux exe gap info stack_top e h n :
  laid_out m top strs args envs aux exe gap -> info_at info top args envs (map fst aux) ->
  aux_value AT_ENTRY aux = Some e -> e <> _start ->
  aux_value AT_PHDR aux = Some h -> aux_value AT_PHNUM aux = Some n ->
  load_exec _start k m info stack_top = Ok (LoadedExec true e m info stack_top, k).
Proof.
  intros Hl Hi He Hne Hh Hn.
  destruct (slot_value _ _ _ _ _ _ _ _ _ _ Hl He) as (Ee & Ne & _).
  destruct (slot_value _ _ _ _ _ _ _ _ _ _ Hl Hh) as (_ & Nh & _).
  destruct (slot_value _ _ _ _ _ _ _ _ _ _ Hl Hn) as (_ & Nn & _).
  unfold load_exec. rewrite (ia_phdrs _ _ _ _ _ Hi), (ia_phnum _ _ _ _ _ Hi), (ia_entry _ _ _ _ _ Hi).
  apply Z.eqb_neq in Ne, Nh, Nn. rewrite Ne, Nh, Nn. cbn [negb assert]. rewrite !bind_Ok, Ee, bind_Ok.
  by destruct (Z.eqb_spec _start e).
Qed.

(** The loader was started by hand: as far as the store of the file name. *)
Lemma load_exec_front k m top strs a0 a1 args envs aux exe gap info stack_top h n l k' :
  laid_out m top strs (a0 :: a1 :: args) envs aux exe gap ->
  info_at info top (a0 :: a1 :: args) envs (map fst aux) ->
  aux_value AT_ENTRY aux = Some _start -> aux_value AT_PHDR aux = Some h -> aux_value AT_PHNUM aux = Some n ->
  load_elf k a1 = Ok (l, k') -> l_entry l <> 0 ->
  let aux2 := aux_set AT_PHNUM (u32 (l_nr_phdrs l)) (aux_set AT_PHDR (u32 (l_phdrs l)) aux) in
  exists m2, laid_out m2 top strs (a0 :: a1 :: args) envs aux2 exe gap /\ kept m m2 top strs /\
    load_exec _start k m info stack_top =
      (let a := auxv_info info in
       m ← st32 m2 (p_execfn a) (strs + zlen a0 + 1);
       m ← st32 m (p_user_entry a) (l_entry l);
       argc ← ld32 m (p_argc info);
       let argc := s32 argc in
       _ ← assert (2 <=? argc);
       let info := set_args info (p_args info) (p_args info + 4) in
       m ← st32 m (p_argc info) (argc - 1);
       Ok (LoadedExec (l_need_interp l) (l_entry l) m info (p_argc info), k')).
Proof.
  intros Hl Hi He Hh Hn Hload Hnz aux2. pose proof Hi as [Iargc Iargs Ienvs Ie Ih In Ix].
  destruct (slot_value _ _ _ _ _ _ _ _ _ _ Hl He) as (Ee & Ne & _).
  destruct (slot_value _ _ _ _ _ _ _ _ _ _ Hl Hh) as (_ & Nh & Lh).
  destruct (slot_value _ _ _ _ _ _ _ _ _ _ Hl Hn) as (_ & Nn & Ln).
  rewrite <- Ie in Ee, Ne. rewrite <- Ih in Nh. rewrite <- In in Nn. apply Z.eqb_neq in Ne, Nh, Nn.
  destruct (laid_out_strings _ _ _ _ _ _ _ _ Hl) as [Hs _]. cbn [pointers] in Hs.
  apply Forall2_cons_1 in Hs as [_ Hs]. apply Forall2_cons_1 in Hs as [Hs _].
  assert (Hfn : ld32 m (p_args info + 4) = Ok (strs + zlen a0 + 1)).
  { pose proof Hl as [Hst _]. destruct (scan_words _ _ _ _ _ _ _ _ Hst) as (_ & Hw & _). cbn [pointers app] in Hw.
    destruct Hw as (_ & Hw & _). rewrite Iargs. exact Hw. }
  unfold load_exec. rewrite Nh, Nn, Ne. cbn [negb assert]. rewrite !bind_Ok, Ee, bind_Ok, Z.eqb_refl. cbn [negb].
  rewrite Hfn, bind_Ok. pose proof Hl as [[_ Hsp _ _ _ _ _ _] _]. pose proof (zlen_nonneg a0).
  destruct (Z.eqb_spec (strs + zlen a0 + 1) 0); [lia|].
  rewrite (c_string_spec _ _ _ Hs), bind_Ok, Hload, bind_Ok. rewrite (aux_base_eq top strs) in Ih, In.
  destruct (aux_set_store _ _ _ _ _ _ _ _ AT_PHDR (l_phdrs l) Hl Lh) as (m1 & E1 & L1 & K1); [done|].
  rewrite Ih, E1, bind_Ok. rewrite <- (aux_set_types AT_PHDR (u32 (l_phdrs l))) in Ln, In.
  destruct (aux_set_store _ _ _ _ _ _ _ _ AT_PHNUM (l_nr_phdrs l) L1 Ln) as (m2 & E2 & L2 & K2); [done|].
  rewrite In, E2, bind_Ok. apply Z.eqb_neq in Hnz as ->. cbn [negb assert]. rewrite bind_Ok.
  exists m2. split; [exact L2|]. split; [by eapply kept_trans|done].
Qed.

(** With a place for the file name. *)
Lemma load_exec_direct k m top strs a0 a1 args envs aux exe gap info stack_top h n x l k' :
  laid_out m top strs (a0 :: a1 :: args) envs aux exe gap ->
  info_at info top (a0 :: a1 :: args) envs (map fst aux) ->
  aux_value AT_ENTRY aux = Some _start -> aux_value AT_PHDR aux = Some h -> aux_value AT_PHNUM aux = Some n ->
  load_elf k a1 = Ok (l, k') -> l_entry l <> 0 -> aux_value AT_EXECFN aux = Some x ->
  exists m', load_exec _start k m info stack_top =
      Ok (LoadedExec (l_need_interp l) (l_entry l) m' (set_args info (top + 4) (top + 8)) (top + 4), k') /\
    laid_out m' (top + 4) (strs + zlen a0 + 1) (a1 :: args) envs (aux_loaded l (strs + zlen a0 + 1) aux) exe gap /\
    kept m m' top strs.
Proof.
  intros Hl Hi He Hh Hn Hload Hnz Hx. pose proof Hi as [Iargc Iargs _ Ie _ _ Ix].
  destruct (load_exec_front _ _ _ _ _ _ _ _ _ _ _ _ stack_top _ _ _ _ Hl Hi He Hh Hn Hload Hnz)
    as (m2 & L2 & K2 & ->). cbv zeta.
  destruct (slot_value _ _ _ _ _ _ _ _ _ _ Hl He) as (_ & _ & Le).
  destruct (slot_value _ _ _ _ _ _ _ _ _ _ Hl Hx) as (_ & _ & Lx). rewrite (aux_base_eq top strs) in Ie, Ix.
  rewrite <- (aux_set_types AT_PHDR (u32 (l_phdrs l))), <- (aux_set_types AT_PHNUM (u32 (l_nr_phdrs l))) in Lx, Le, Ix, Ie.
  destruct (aux_set_store _ _ _ _ _ _ _ _ AT_EXECFN (strs + zlen a0 + 1) L2 Lx) as (m3 & E3 & L3 & K3); [done|].
  rewrite Ix, E3, bind_Ok.
  rewrite <- (aux_set_types AT_EXECFN (u32 (strs + zlen a0 + 1))) in Le, Ie.
  destruct (aux_set_store _ _ _ _ _ _ _ _ AT_ENTRY (l_entry l) L3 Le) as (m4 & E4 & L4 & K4); [done|].
  rewrite Ie, E4, bind_Ok, Iargc.
  pose proof L4 as [Hst4 _]. destruct (scan_words _ _ _ _ _ _ _ _ Hst4) as (Hc4 & _).
  destruct (scan_fuel _ _ _ _ _ _ _ _ Hst4) as (_ & _ & _ & Hal & _).
  pose proof (zlen_nonneg args). rewrite Hc4, bind_Ok. rewrite !zlen_cons in *. rewrite s32_small by lia.
  destruct (Z.leb_spec 2 (1 + (1 + zlen args))); [|lia]. cbn [assert]. rewrite bind_Ok.
  destruct (drop_argument _ _ _ _ _ _ _ _ _ L4) as (m' & E5 & L5 & K5). rewrite zlen_cons in E5.
  cbn [p_argc set_args]. rewrite Iargs.
  replace (1 + (1 + zlen args) - 1) with (1 + zlen args) by lia. rewrite E5, bind_Ok.
  exists m'. split; [by replace (top + 4 + 4) with (top + 8) by lia|]. split; [exact L5|].
  eapply kept_trans; [exact K2|]. eapply kept_trans; [exact K3|]. by eapply kept_trans.
Qed.

(** Without one the store is through the null pointer. *)
Lemma load_exec_no_execfn k m top strs a0 a1 args envs aux exe gap info stack_top h n l k' :
  laid_out m top strs (a0 :: a1 :: args) envs aux exe gap ->
  info_at info top (a0 :: a1 :: args) envs (map fst aux) ->
  aux_value AT_ENTRY aux = Some _start -> aux_value AT_PHDR aux = Some h -> aux_value AT_PHNUM aux = Some n ->
  load_elf k a1 = Ok (l, k') -> l_entry l <> 0 -> aux_value AT_EXECFN aux = None ->
  load_exec _start k m info stack_top = Stray Wr.
Proof.
  intros Hl Hi He Hh Hn Hload Hnz Hx.
  destruct (load_exec_front _ _ _ _ _ _ _ _ _ _ _ _ stack_top _ _ _ _ Hl Hi He Hh Hn Hload Hnz)
    as (m2 & _ & _ & ->). cbv zeta. rewrite (ia_execfn _ _ _ _ _ Hi). unfold slot.
  rewrite aux_value_last in Hx. destruct (last_of AT_EXECFN (map fst aux)) as [i|] eqn:E; [|done].
  cbn in Hx. apply last_of_lookup in E. rewrite list_lookup_fmap in E. by destruct (aux !! i).
Qed.

(** ** The whole entry *)

Variables (dynamic got wrapped_syscall_entry : Z).

(** What personality(2) says, before anything is changed. *)
Definition persona_is (k k0 : K) (p : Z) : Prop := sys_personality k 0xffffffff = (p, k0) /\ 0 <= p.

(** Randomisation is off already. *)
Definition not_random (k k0 : K) : Prop := exists p, persona_is k k0 p /\ has_flag p ADDR_NO_RANDOMIZE = true.

(** Randomisation was on, and could be switched off. *)
Definition random_off (k k1 : K) : Prop := exists p k0 q, persona_is k k0 p /\ has_flag p ADDR_NO_RANDOMIZE = false /\
  sys_personality k0 (Z.lor p ADDR_NO_RANDOMIZE) = (q, k1) /\ 0 <= q.

(** Nothing is executed again. *)
Lemma reexec_skipped k k0 m info : not_random k k0 -> reexec k m info = Ok (Some k0).
Proof.
  intros (p & [E Hp%Z.leb_le] & Hf). unfold reexec. rewrite E, Hp. cbn [assert]. by rewrite bind_Ok, Hf.
Qed.

Lemma reexec_again k k1 m info argv0 : random_off k k1 -> ld32 m (p_args info) = Ok argv0 ->
  reexec k m info = match sys_execve k1 argv0 (p_args info) (p_envs info) with Some _ => Fatal | None => Ok None end.
Proof.
  intros (p & k0 & q & [E Hp%Z.leb_le] & Hf & Eq & Hq%Z.leb_le) Ha.
  unfold reexec. rewrite E, Hp. cbn [assert]. rewrite bind_Ok, Hf, Eq, Hq. cbn [assert]. by rewrite bind_Ok, Ha, bind_Ok.
Qed.

Section entry.
Context (m lm lm' : list Z) (top strs : Z) (args envs : list (list Z)) (aux : list (Z * Z)) (exe : list Z) (gap : nat).
Hypothesis Hl : laid_out m top strs args envs aux exe gap.
Hypothesis Hlm : relocate_interp lm dynamic got = Ok lm'.

Let run k random := xmain _start dynamic got wrapped_syscall_entry k m lm random top.

(** As far as [reexec]. *)
Lemma xmain_scanned k random v : args <> [] -> envs <> [] -> aux_first AT_SYSINFO aux = Some v ->
  exists info m1,
    info_at info top args envs (map fst (aux_set_all AT_SYSINFO (u32 wrapped_syscall_entry) aux)) /\
    laid_out m1 top strs args envs (aux_set_all AT_SYSINFO (u32 wrapped_syscall_entry) aux) exe gap /\
    kept m m1 top strs /\
    run k random =
      (r ← reexec k m1 info;
       match r with
       | None => Ok None
       | Some k =>
           '(x, k) ← load_exec _start k m1 info top;
           '(entry_addr, k) ← (if x_need_interp x then load_real_interp k else Ok (x_entry x, k));
           m ← st32 (x_mem x) (x_stack_top x - 4) entry_addr;
           c ← read_env_conf m (x_info x);
           Ok (Some (Started (sampling_ random c) m lm' v (x_stack_top x), k))
       end).
Proof using Hl Hlm.
  intros Ha He Hv. destruct (scan_info _ _ _ _ _ _ _ _ Hl Ha He) as (info & Es & Hi).
  destruct (set_vsyscall_entry_spec _ _ _ _ _ _ _ _ wrapped_syscall_entry Hl) as (m1 & Ev & L1 & K1).
  exists info, m1. rewrite aux_set_all_types. split; [done|]. split; [done|]. split; [done|].
  unfold run, xmain. rewrite Hlm, bind_Ok, Es, bind_Ok, (ia_envs _ _ _ _ _ Hi).
  by rewrite (get_vsyscall_entry_spec _ _ _ _ _ _ _ _ Hl), Hv, bind_Ok, Ev, bind_Ok.
Qed.

(** From the stack scan to the program: what is common to both ways. *)
Lemma xmain_front k k0 random v :
  args <> [] -> envs <> [] -> aux_first AT_SYSINFO aux = Some v -> not_random k k0 ->
  exists info m1,
    info_at info top args envs (map fst (aux_set_all AT_SYSINFO (u32 wrapped_syscall_entry) aux)) /\
    laid_out m1 top strs args envs (aux_set_all AT_SYSINFO (u32 wrapped_syscall_entry) aux) exe gap /\
    kept m m1 top strs /\
    run k random =
      ('(x, k) ← load_exec _start k0 m1 info top;
       '(entry_addr, k) ← (if x_need_interp x then load_real_interp k else Ok (x_entry x, k));
       m ← st32 (x_mem x) (x_stack_top x - 4) entry_addr;
       c ← read_env_conf m (x_info x);
       Ok (Some (Started (sampling_ random c) m lm' v (x_stack_top x), k))).
Proof using Hl Hlm.
  intros Ha He Hv Hr. destruct (xmain_scanned k random v Ha He Hv) as (info & m1 & Hi & L1 & K1 & ->).
  exists info, m1. by rewrite (reexec_skipped k k0 m1 info Hr), bind_Ok.
Qed.

(** The loader executes itself again. *)
Lemma xmain_again k k1 random v :
  args <> [] -> envs <> [] -> aux_first AT_SYSINFO aux = Some v -> random_off k k1 ->
  run k random = match sys_execve k1 strs (top + 4) (top + 4 + 4 * zlen args + 4) with
                 | Some _ => Fatal
                 | None => Ok None
                 end.
Proof using Hl Hlm.
  intros Ha He Hv Hr. destruct (xmain_scanned k random v Ha He Hv) as (info & m1 & Hi & [L1 _] & K1 & ->).
  destruct (scan_words _ _ _ _ _ _ _ _ L1) as (_ & Hw & _). destruct args as [|a0 args']; [done|].
  destruct Hw as [Hw _]. rewrite <- (ia_args _ _ _ _ _ Hi) in Hw.
  rewrite (reexec_again k k1 m1 info strs Hr Hw), (ia_args _ _ _ _ _ Hi), (ia_envs _ _ _ _ _ Hi).
  by destruct (sys_execve _ _ _ _).
Qed.

(** The stacks it cannot use. *)
Lemma xmain_stray k random : args = [] \/ envs = [] -> run k random = Stray Rd.
Proof using Hl Hlm.
  intros Hor. unfold run, xmain. rewrite Hlm, bind_Ok. by rewrite (startup_empty_env _ _ _ _ _ _ _ _ (proj1 Hl) Hor).
Qed.

Lemma xmain_no_sysinfo k random : args <> [] -> envs <> [] -> aux_first AT_SYSINFO aux = None -> run k random = Fatal.
Proof using Hl Hlm.
  intros Ha He Hv. destruct (scan_info _ _ _ _ _ _ _ _ Hl Ha He) as (info & Es & Hi).
  unfold run, xmain. rewrite Hlm, bind_Ok, Es, bind_Ok, (ia_envs _ _ _ _ _ Hi).
  by rewrite (get_vsyscall_entry_spec _ _ _ _ _ _ _ _ Hl), Hv.
Qed.

End entry.

(** The return address, the options and the choice. *)
Lemma xmain_back m top strs args envs aux exe gap info entry :
  laid_out m top strs args envs aux exe gap -> 4 < top -> p_envs info = top + 4 + 4 * zlen args + 4 ->
  Forall (Forall is_byte) envs ->
  exists m', st32 m (top - 4) entry = Ok m' /\ read_env_conf m' info = Ok (conf_of envs default_conf) /\
    laid_out m' top strs args envs aux exe gap /\ kept m m' (top - 4) top /\
    ld32 m' (top - 4) = Ok (u32 entry).
Proof.
  intros Hl Htop He Hb. pose proof Hl as [[_ _ Hw _ _ _ _ _] _]. rewrite stack_words_eq in Hw.
  apply words_at_range in Hw as Hr; [|done]. pose proof (zlen_stack_words strs args envs aux) as Hz.
  pose proof (zlen_nonneg args). pose proof (zlen_nonneg envs). pose proof (zlen_nonneg aux).
  destruct (st32_ok m (top - 4) entry) as (m' & E & Kp & Ld); [lia|lia|].
  replace (top - 4 + 4) with top in Kp by lia. exists m'. split; [done|].
  pose proof (laid_out_kept _ _ _ _ _ _ _ _ _ _ _ Hl Kp ltac:(lia)) as Hl'.
  split; [by eapply laid_out_conf|]. done.
Qed.

Lemma load_real_interp_ok k l k' :
  load_elf k REAL_INTERPRETER_FILE = Ok (l, k') -> l_entry l <> 0 -> load_real_interp k = Ok (l_entry l, k').
Proof.
  intros E Hn. unfold load_real_interp. rewrite E, bind_Ok. apply Z.eqb_neq in Hn as ->. done.
Qed.

Lemma unselect_start_ok s e :
  ld32 (s_mem s) (s_stack_top s - 4) = Ok e -> unselect_start s = Ok (e, s_stack_top s).
Proof.
  intros E. unfold unselect_start. replace (s_stack_top s + -4) with (s_stack_top s - 4) by lia.
  rewrite E, bind_Ok. do 2 f_equal. lia.
Qed.

End load.



(** ** A start by hand, and one as the interpreter *)

#[local] Instance vm_exec : KernelExec Vm.vmk := {
  sys_personality k _ := (ADDR_NO_RANDOMIZE, k);
  sys_execve k _ _ _ := Some (-2, k)
}.

Definition vm2 : Vm.vmk :=
  Vm.Vmk {[ codes "/a.out" := exe; REAL_INTERPRETER_FILE := exe ]} ∅ (fun _ => None) (fun _ => false).

Definition aux2 : list (Z * Z) :=
  [(AT_SYSINFO, 0xb7fff414); (AT_ENTRY, 0x1000); (AT_PHDR, 0x34); (AT_PHNUM, 7); (AT_EXECFN, 0)].

Definition args2 : list (list Z) := [codes "loader"; codes "/a.out"].
Definition envs2 : list (list Z) := [codes "SNITCHASER_USE=0"].

(** 17 words at 8, the strings behind them. *)
Definition stack2 : list Z :=
  replicate 8 0 ++ concat (map le32 (stack_words 76 args2 envs2 aux2)) ++
  packed (args2 ++ envs2) ++ [0] ++ codes "loader" ++ [0].

Lemma stack2_ok : laid_out stack2 8 76 args2 envs2 aux2 (codes "loader") 1.
Proof.
  split; [|by vm_compute]. constructor; try (by vm_compute).
  - apply (bool_decide_unpack _). by vm_compute.
  - repeat constructor; try done; cbn; discriminate.
Qed.

(** An image of the loader with nothing to relocate. *)
Definition loader2 : list Z := replicate 8 0.

Lemma exe_loads fn : vm2.(Vm.files) !! fn = Some exe ->
  exists k', load_elf vm2 fn = Ok (Loaded 0x8048074 0 0x8048034 2 false, k').
Proof.
  intros Hf.
  destruct (load_elf_spec vm2 fn exe (elfhdr_of (zslice exe 0 52)) [] exe_first [exe_data])
    as (base & k' & E & _ & Hb & _); [exact Hf|exact exe_ok|exact exe_clearable|done|].
  specialize (Hb eq_refl). subst base. exists k'. exact E.
Qed.

Lemma vm2_not_random : not_random vm2 vm2.
Proof.
  exists ADDR_NO_RANDOMIZE. split; [|reflexivity]. split; [reflexivity|unfold ADDR_NO_RANDOMIZE; lia].
Qed.



End InterpFacts.
