(* ===== verification/SyscallLog.v ===== *)
(** The system call recorder: [src/src/core/loader/wrapper.c], the handlers and
    the table of [src/src/core/syscall/] and the macros of
    [core/syscall/log_and_ckpt.h].

    The entry stub turns the registers of a system call into a
    [struct syscall_regs]; the number goes to the log, the call is issued, and
    the handler of the number logs the result and the memory the kernel filled
    in. The memory of the process is read by the kernel ([write(2)] from a
    pointer of the program), so it is part of the kernel's state: a class
    [KernelUser] over [Kernel]. *)
From S2P Require Import Prelude Kernel.

Module SysLog.

(** [struct syscall_regs]; every field is an [int32_t]. *)
Record syscall_regs := Regs {
  eax : Z; ebx : Z; ecx : Z; edx : Z; esi : Z; edi : Z; ebp : Z;
  flags : Z; orig_eax : Z; eip : Z; esp : Z
}.

(** The store of [do_real_syscall] to [reg.eax]. *)
Definition set_eax (r : syscall_regs) (v : Z) : syscall_regs :=
  Regs v (ebx r) (ecx r) (edx r) (esi r) (edi r) (ebp r) (flags r) (orig_eax r) (eip r) (esp r).

Definition regs_fields (r : syscall_regs) : list Z :=
  [eax r; ebx r; ecx r; edx r; esi r; edi r; ebp r; flags r; orig_eax r; eip r; esp r].

(** The structure in memory, and its size. *)
Definition regs_bytes (r : syscall_regs) : list Z := concat (map le32 (regs_fields r)).

(** Sizes the handlers take with [sizeof] (i386). *)
Definition SIZEOF_STAT64 : Z := 96.
Definition SIZEOF_TIMEVAL : Z := 8.
Definition SIZEOF_TIMEZONE : Z := 8.
Definition SIZEOF_TIMESPEC : Z := 8.
Definition SIZEOF_RLIMIT : Z := 8.
Definition SIZEOF_UTSNAME : Z := 65 + 65 + 65 + 65 + 65.

(** Numbers of core/syscall/syscall_nr.h. *)
Definition NR_read : Z := 3.
Definition NR_write : Z := 4.
Definition NR_open : Z := 5.
Definition NR_close : Z := 6.
Definition NR_getpid : Z := 20.
Definition NR_brk : Z := 45.
Definition NR_ioctl : Z := 54.
Definition NR_gettimeofday : Z := 78.
Definition NR_mmap : Z := 90.
Definition NR_munmap : Z := 91.
Definition NR_uname : Z := 122.
Definition NR_mprotect : Z := 125.
Definition NR_nanosleep : Z := 162.
Definition NR_rt_sigaction : Z := 174.
Definition NR_rt_sigprocmask : Z := 175.
Definition NR_ugetrlimit : Z := 191.
Definition NR_mmap2 : Z := 192.
Definition NR_stat64 : Z := 195.
Definition NR_fstat64 : Z := 197.
Definition NR_futex : Z := 240.
Definition NR_set_thread_area : Z := 243.
Definition NR_set_tid_address : Z := 258.
Definition NR_statfs64 : Z := 268.
Definition NR_set_robust_list : Z := 311.
Definition NR_SYSCALLS : Z := 327.

(** core/syscall/futex.c *)
Definition FUTEX_REQUEUE : Z := 3.
Definition FUTEX_CMP_REQUEUE : Z := 4.
Definition FUTEX_WAKE_OP : Z := 5.
Definition FUTEX_PRIVATE_FLAG : Z := 128.
Definition FUTEX_CMD_MASK : Z := Z.lnot FUTEX_PRIVATE_FLAG.

(** The globals [logger_fd] (an [int]) and [logger_sz] (a [uint32_t]). *)
Record syslog := Syslog { logger_fd : Z; logger_sz : Z }.

End SysLog.
Import SysLog.

(** What the recorder asks of the kernel beyond [Kernel]: the readable bytes of
    the process, [write(fd, addr, n)] with a buffer of the program, and the call
    the program made, with its result and its effect on everything else. *)
Class KernelUser (K : Type) `{Kernel K} := {
  user_byte : K -> Z -> option Z;
  sys_write_user : K -> Z -> Z -> Z -> Z * K;
  int80 : K -> syscall_regs -> Z * K
}.

(** The bytes [addr[0 .. n)] of the process, when all of them are readable. *)
Definition user_bytes {K} `{KernelUser K} (k : K) (addr n : Z) : option (list Z) :=
  mapM (user_byte k) (seqZ addr n).

(** [write(2)]: a readable buffer is written like any other; of a buffer with an
    unreadable byte the whole is never written ([EFAULT], or the bytes before
    it). Writing to a file does not change the memory, and registers hold 32
    bits. *)
Class KernelUserLaws (K : Type) `{KernelUser K} : Prop := {
  user_byte_range : forall k a b, user_byte k a = Some b -> is_byte b;
  write_user_ok : forall k fd a n l, user_bytes k a n = Some l -> sys_write_user k fd a n = sys_write k fd l;
  write_user_fault : forall k fd a n, 0 < n -> user_bytes k a n = None ->
    - 4095 <= (sys_write_user k fd a n).1 < n;
  write_keeps_user : forall k fd l a, user_byte (sys_write k fd l).2 a = user_byte k a;
  int80_range : forall k r, - 2 ^ 31 <= (int80 k r).1 < 2 ^ 31
}.

Module SysCall.

Section recorder.
Context {K : Type} `{KernelUser K}.

Abbreviation handler := (K -> syslog -> syscall_regs -> result (K * syslog)) (only parsing).

(** [logger_sz += sz], before the write. *)
Definition grow (g : syslog) (sz : Z) : syslog := Syslog (logger_fd g) (u32 (logger_sz g + sz)).

(** [__write_logger] of an object of the recorder with the bytes [bs]. *)
Definition __write_logger (k : K) (g : syslog) (bs : list Z) : result (K * syslog) :=
  let g := grow g (zlen bs) in
  let '(err, k) := sys_write k (logger_fd g) bs in
  _ ← assert (u32 err =? zlen bs);
  Ok (k, g).

(** [write_mem], that is [__write_logger] of the program's memory. *)
Definition write_mem (k : K) (g : syslog) (addr sz : Z) : result (K * syslog) :=
  let g := grow g sz in
  let '(err, k) := sys_write_user k (logger_fd g) (u32 addr) sz in
  _ ← assert (u32 err =? sz);
  Ok (k, g).

Definition write_syscall_nr (k : K) (g : syslog) (nr : Z) : result (K * syslog) :=
  __write_logger k g (le16 nr).
Definition write_regs (k : K) (g : syslog) (r : syscall_regs) : result (K * syslog) :=
  __write_logger k g (regs_bytes r).
Definition write_eax (k : K) (g : syslog) (r : syscall_regs) : result (K * syslog) :=
  __write_logger k g (le32 (eax r)).
(** [write_obj] of an [int] or a [uintptr_t]. *)
Definition write_obj (k : K) (g : syslog) (x : Z) : result (K * syslog) :=
  __write_logger k g (le32 x).

(** ** The handlers *)

Definition post_brk : handler := fun k g r => write_eax k g r.
Definition post_mmap : handler := fun k g r => write_eax k g r.
Definition post_mmap2 : handler := fun k g r => write_eax k g r.
Definition post_close : handler := fun k g r => write_eax k g r.
Definition post_open : handler := fun k g r => write_eax k g r.
Definition post_mprotect : handler := fun k g r => write_eax k g r.
Definition post_munmap : handler := fun k g r => write_eax k g r.
Definition post_write : handler := fun k g r => write_eax k g r.
Definition post_getpid : handler := fun k g r => write_eax k g r.
Definition post_rt_sigprocmask : handler := fun k g r => write_eax k g r.
Definition post_rt_sigaction : handler := fun k g r => write_eax k g r.
Definition post_set_tid_address : handler := fun k g r => write_eax k g r.
Definition post_set_robust_list : handler := fun k g r => write_eax k g r.
Definition post_set_thread_area : handler := fun k g r => write_eax k g r.
Definition post_statfs64 : handler := fun k g r => write_eax k g r.

Definition post_fstat64 : handler := fun k g r =>
  '(k, g) ← write_eax k g r;
  if 0 <=? eax r then write_mem k g (ecx r) SIZEOF_STAT64 else Ok (k, g).

Definition post_stat64 : handler := fun k g r =>
  '(k, g) ← write_eax k g r;
  if 0 <=? eax r then write_mem k g (ecx r) SIZEOF_STAT64 else Ok (k, g).

Definition post_read : handler := fun k g r =>
  '(k, g) ← write_eax k g r;
  if 0 <? eax r then write_mem k g (ecx r) (eax r) else Ok (k, g).

Definition post_ioctl : handler := fun k g r =>
  '(k, g) ← write_regs k g r;
  write_eax k g r.

Definition post_gettimeofday : handler := fun k g r =>
  '(k, g) ← write_eax k g r;
  if 0 <=? eax r then
    let TP := u32 (ebx r) in
    let TZP := u32 (ecx r) in
    '(k, g) ← write_obj k g TP;
    '(k, g) ← write_obj k g TZP;
    '(k, g) ← (if negb (TP =? 0) then write_mem k g TP SIZEOF_TIMEVAL else Ok (k, g));
    if negb (TZP =? 0) then write_mem k g TZP SIZEOF_TIMEZONE else Ok (k, g)
  else Ok (k, g).

Definition post_nanosleep : handler := fun k g r =>
  '(k, g) ← write_eax k g r;
  let o := u32 (ecx r) in
  '(k, g) ← write_obj k g o;
  if negb (o =? 0) then write_mem k g o SIZEOF_TIMESPEC else Ok (k, g).

Definition post_futex : handler := fun k g r =>
  '(k, g) ← write_eax k g r;
  if eax r <? 0 then Ok (k, g)
  else
    let uaddr := u32 (ebx r) in
    let op := ecx r in
    let uaddr2 := u32 (edi r) in
    let cmd := Z.land op FUTEX_CMD_MASK in
    '(k, g) ← write_obj k g cmd;
    '(k, g) ← write_mem k g uaddr 4;
    if (cmd =? FUTEX_REQUEUE) || (cmd =? FUTEX_CMP_REQUEUE) || (cmd =? FUTEX_WAKE_OP)
    then write_mem k g uaddr2 4 else Ok (k, g).

Definition post_ugetrlimit : handler := fun k g r =>
  '(k, g) ← write_eax k g r;
  if eax r =? 0 then write_mem k g (ecx r) SIZEOF_RLIMIT else Ok (k, g).

Definition post_uname : handler := fun k g r =>
  '(k, g) ← write_eax k g r;
  if 0 <=? eax r then write_mem k g (ebx r) SIZEOF_UTSNAME else Ok (k, g).

(** ** The table *)

Record syscall_tabent := Tabent { pre_handler : option handler; post_handler : option handler }.

(** [def_syscall_entry(name, NULL)] *)
Definition def_syscall_entry (t : list syscall_tabent) (e : Z * handler) : list syscall_tabent :=
  <[Z.to_nat e.1 := Tabent None (Some e.2)]> t.

Definition syscall_entries : list (Z * handler) :=
  [(NR_brk, post_brk); (NR_mmap, post_mmap); (NR_mmap2, post_mmap2); (NR_fstat64, post_fstat64);
   (NR_close, post_close); (NR_stat64, post_stat64); (NR_read, post_read); (NR_open, post_open);
   (NR_mprotect, post_mprotect); (NR_munmap, post_munmap); (NR_write, post_write);
   (NR_ioctl, post_ioctl); (NR_gettimeofday, post_gettimeofday); (NR_getpid, post_getpid);
   (NR_rt_sigprocmask, post_rt_sigprocmask); (NR_rt_sigaction, post_rt_sigaction);
   (NR_nanosleep, post_nanosleep); (NR_set_tid_address, post_set_tid_address);
   (NR_set_robust_list, post_set_robust_list); (NR_set_thread_area, post_set_thread_area);
   (NR_futex, post_futex); (NR_ugetrlimit, post_ugetrlimit); (NR_uname, post_uname);
   (NR_statfs64, post_statfs64)].

(** The last entry, [NR_SYSCALLS], is empty like the ones not named. *)
Definition syscall_table : list syscall_tabent :=
  foldl def_syscall_entry (replicate (Z.to_nat (NR_SYSCALLS + 1)) (Tabent None None)) syscall_entries.

(** ** The wrapper *)

(** The number is logged before the table is indexed with it. *)
Definition syscall_pre_handler (k : K) (g : syslog) (reg : syscall_regs) : result (K * syslog) :=
  '(k, g) ← write_syscall_nr k g (orig_eax reg);
  e ← rd syscall_table (orig_eax reg);
  match pre_handler e with
  | Some h => h k g reg
  | None => Ok (k, g)
  end.

Definition syscall_post_handler (k : K) (g : syslog) (reg : syscall_regs) : result (K * syslog) :=
  e ← rd syscall_table (orig_eax reg);
  match post_handler e with
  | None => Fatal
  | Some h => h k g reg
  end.

(** The registers [wrapped_syscall_entry] restores are those of its argument,
    with the new [eax]. *)
Definition wrapped_syscall (k : K) (g : syslog) (reg : syscall_regs) :
    result (K * syslog * syscall_regs) :=
  '(k, g) ← syscall_pre_handler k g reg;
  let '(retval, k) := int80 k reg in
  let reg := set_eax reg retval in
  '(k, g) ← syscall_post_handler k g reg;
  Ok (k, g, reg).

(** A program's system calls, one after the other. *)
Fixpoint wrapped_syscalls (k : K) (g : syslog) (regs : list syscall_regs) :
    result (K * syslog * list syscall_regs) :=
  match regs with
  | [] => Ok (k, g, [])
  | reg :: regs =>
      '(k, g, reg) ← wrapped_syscall k g reg;
      '(k, g, regs) ← wrapped_syscalls k g regs;
      Ok (k, g, reg :: regs)
  end.

End recorder.

End SysCall.
