(* ===== verification/SyscallLogFacts.v ===== *)
(** What the log of system calls holds and that it can be read back.

    An [event] is one system call: its number, its result and the data a replay
    needs. [event_of] says which event a call is, from the registers and the
    memory after it; the handlers of SyscallLog.v write [encode_event] of it.
    [read_log] reads a log by the format alone. *)
From S2P Require Import Prelude Kernel SyscallLog.

Module SysLogFacts.
Import SysLog SysCall.

(** ** Events *)

Inductive payload :=
| PBytes (bs : list Z)
| PTimes (tp tzp : Z) (tv tz : list Z)
| PSleep (o : Z) (bs : list Z)
| PFutex (cmd : Z) (w w2 : list Z)
| PRegs (r : syscall_regs).

Record event := Event { ev_nr : Z; ev_eax : Z; ev_data : payload }.

(** What is logged of a call: nothing but the result, a block of memory whose
    size depends on the result, or a structure of its own. *)
Inductive shape :=
| Block (ptr : syscall_regs -> Z) (size : Z -> Z)
| Times
| Sleep
| Futex
| AllRegs.

Definition plain : shape := Block ecx (fun _ => 0).
Definition if_done (n e : Z) : Z := if 0 <=? e then n else 0.

Definition plain_calls : list Z :=
  [NR_brk; NR_mmap; NR_mmap2; NR_close; NR_open; NR_mprotect; NR_munmap; NR_write; NR_getpid;
   NR_rt_sigprocmask; NR_rt_sigaction; NR_set_tid_address; NR_set_robust_list; NR_set_thread_area;
   NR_statfs64].

Definition shapes : list (Z * shape) :=
  map (fun n => (n, plain)) plain_calls ++
  [(NR_read, Block ecx (Z.max 0));
   (NR_stat64, Block ecx (if_done 96)); (NR_fstat64, Block ecx (if_done 96));
   (NR_uname, Block ebx (if_done 325));
   (NR_ugetrlimit, Block ecx (fun e => if e =? 0 then 8 else 0));
   (NR_gettimeofday, Times); (NR_nanosleep, Sleep); (NR_futex, Futex); (NR_ioctl, AllRegs)].

(** The calls the recorder supports. *)
Definition shape_of (nr : Z) : option shape :=
  (fun x => x.2.2) <$> list_find (fun e => e.1 = nr) shapes.

(** A structure at an optional pointer. *)
Definition if_ptr {A} (p : Z) (m : option (list A)) : option (list A) :=
  if p =? 0 then Some [] else m.

Definition has_second (cmd : Z) : bool :=
  (cmd =? FUTEX_REQUEUE) || (cmd =? FUTEX_CMP_REQUEUE) || (cmd =? FUTEX_WAKE_OP).

Definition futex_cmd (r : syscall_regs) : Z := Z.land (ecx r) FUTEX_CMD_MASK.

Section events.
Context {K : Type} `{KernelUser K}.

Definition data_of (k : K) (r : syscall_regs) (s : shape) : option payload :=
  match s with
  | Block p size => PBytes <$> user_bytes k (u32 (p r)) (size (eax r))
  | Times =>
      if eax r <? 0 then Some (PBytes []) else
      tv ← if_ptr (u32 (ebx r)) (user_bytes k (u32 (ebx r)) 8);
      tz ← if_ptr (u32 (ecx r)) (user_bytes k (u32 (ecx r)) 8);
      Some (PTimes (u32 (ebx r)) (u32 (ecx r)) tv tz)
  | Sleep =>
      b ← if_ptr (u32 (ecx r)) (user_bytes k (u32 (ecx r)) 8);
      Some (PSleep (u32 (ecx r)) b)
  | Futex =>
      if eax r <? 0 then Some (PBytes []) else
      w ← user_bytes k (u32 (ebx r)) 4;
      w2 ← (if has_second (futex_cmd r) then user_bytes k (u32 (edi r)) 4 else Some []);
      Some (PFutex (futex_cmd r) w w2)
  | AllRegs => Some (PRegs r)
  end.

(** The event of a finished call; none when a pointer of the program cannot be
    read. *)
Definition event_of (k : K) (r : syscall_regs) (s : shape) : option event :=
  Event (orig_eax r) (eax r) <$> data_of k r s.

End events.

(** ** The format *)

Definition payload_bytes (p : payload) : list Z :=
  match p with
  | PBytes bs => bs
  | PTimes tp tzp tv tz => le32 tp ++ le32 tzp ++ tv ++ tz
  | PSleep o bs => le32 o ++ bs
  | PFutex cmd w w2 => le32 cmd ++ w ++ w2
  | PRegs r => []
  end.

(** What follows the number. *)
Definition encode_body (e : Z) (p : payload) : list Z :=
  match p with
  | PRegs r => regs_bytes r ++ le32 e
  | _ => le32 e ++ payload_bytes p
  end.

Definition encode_event (e : event) : list Z :=
  le16 (ev_nr e) ++ encode_body (ev_eax e) (ev_data e).

(** ** A reader *)

Definition get (n : Z) (l : list Z) : option (list Z * list Z) :=
  if zlen l <? n then None else Some (take (Z.to_nat n) l, drop (Z.to_nat n) l).

Definition get_u32 (l : list Z) : option (Z * list Z) :=
  '(b, l) ← get 4 l; Some (of_le b, l).
Definition get_s32 (l : list Z) : option (Z * list Z) :=
  '(b, l) ← get 4 l; Some (s32 (of_le b), l).

Fixpoint get_s32s (n : nat) (l : list Z) : option (list Z * list Z) :=
  match n with
  | O => Some ([], l)
  | S n => '(x, l) ← get_s32 l; '(xs, l) ← get_s32s n l; Some (x :: xs, l)
  end.

Definition regs_of (xs : list Z) : option syscall_regs :=
  match xs with
  | [a; b; c; d; s; t; p; f; o; i; q] => Some (Regs a b c d s t p f o i q)
  | _ => None
  end.

Definition opt_size (p n : Z) : Z := if p =? 0 then 0 else n.

Definition read_payload (s : shape) (e : Z) (l : list Z) : option (payload * list Z) :=
  match s with
  | Block _ size => '(b, l) ← get (size e) l; Some (PBytes b, l)
  | Times =>
      if e <? 0 then Some (PBytes [], l) else
      '(tp, l) ← get_u32 l;
      '(tzp, l) ← get_u32 l;
      '(tv, l) ← get (opt_size tp 8) l;
      '(tz, l) ← get (opt_size tzp 8) l;
      Some (PTimes tp tzp tv tz, l)
  | Sleep =>
      '(o, l) ← get_u32 l;
      '(b, l) ← get (opt_size o 8) l;
      Some (PSleep o b, l)
  | Futex =>
      if e <? 0 then Some (PBytes [], l) else
      '(cmd, l) ← get_s32 l;
      '(w, l) ← get 4 l;
      '(w2, l) ← get (if has_second cmd then 4 else 0) l;
      Some (PFutex cmd w w2, l)
  | AllRegs => None
  end.

Definition read_event (l : list Z) : option (event * list Z) :=
  '(b, l) ← get 2 l;
  let nr := of_le b in
  s ← shape_of nr;
  match s with
  | AllRegs =>
      '(xs, l) ← get_s32s 11 l;
      r ← regs_of xs;
      '(e, l) ← get_s32 l;
      Some (Event nr e (PRegs r), l)
  | _ =>
      '(e, l) ← get_s32 l;
      '(p, l) ← read_payload s e l;
      Some (Event nr e p, l)
  end.

Fixpoint read_events (fuel : nat) (l : list Z) : option (list event) :=
  match l, fuel with
  | [], _ => Some []
  | _, O => None
  | _, S fuel => '(e, l) ← read_event l; es ← read_events fuel l; Some (e :: es)
  end.

(** Every event takes bytes, so the length of the log is fuel enough. *)
Definition read_log (l : list Z) : option (list event) := read_events (length l) l.

(** ** Events are read as they were written *)

Definition is_s32 (z : Z) : Prop := - 2 ^ 31 <= z < 2 ^ 31.
Definition regs_ok (r : syscall_regs) : Prop := Forall is_s32 (regs_fields r).

Lemma get_app n a l : zlen a = n -> get n (a ++ l) = Some (a, l).
Proof.
  intros <-. unfold get. rewrite zlen_app. pose proof (zlen_nonneg l).
  destruct (Z.ltb_spec (zlen a + zlen l) (zlen a)); [lia|].
  unfold zlen. by rewrite Nat2Z.id, take_app_length, drop_app_length.
Qed.

Lemma get_u32_app x l : is_u32 x -> get_u32 (le32 x ++ l) = Some (x, l).
Proof. intros Hx. unfold get_u32. rewrite get_app by apply zlen_le. cbn [mbind option_bind]. by rewrite of_le32. Qed.

Lemma s32_of_le x : is_s32 x -> s32 (of_le (le32 x)) = x.
Proof.
  intros Hx. unfold le32. rewrite of_le_le. change (2 ^ (8 * Z.of_nat 4)) with (2 ^ 32).
  unfold s32, swrap, is_s32 in *. change (2 ^ (32 - 1)) with (2 ^ 31). Z.div_mod_to_equations. lia.
Qed.

Lemma get_s32_app x l : is_s32 x -> get_s32 (le32 x ++ l) = Some (x, l).
Proof. intros Hx. unfold get_s32. rewrite get_app by apply zlen_le. cbn [mbind option_bind]. by rewrite s32_of_le. Qed.

Lemma get_s32s_app xs l : Forall is_s32 xs -> get_s32s (length xs) (concat (map le32 xs) ++ l) = Some (xs, l).
Proof.
  induction 1 as [|x xs Hx _ IH]; [done|]. cbn [length get_s32s map concat].
  rewrite <- app_assoc, get_s32_app by done. cbn [mbind option_bind]. by rewrite IH.
Qed.

(** The events the format can express. *)
Definition payload_ok (s : shape) (e : Z) (p : payload) : Prop :=
  match s, p with
  | Block _ size, PBytes b => zlen b = size e
  | Times, PBytes b => e < 0 /\ b = []
  | Times, PTimes tp tzp tv tz =>
      0 <= e /\ is_u32 tp /\ is_u32 tzp /\ zlen tv = opt_size tp 8 /\ zlen tz = opt_size tzp 8
  | Sleep, PSleep o b => is_u32 o /\ zlen b = opt_size o 8
  | Futex, PBytes b => e < 0 /\ b = []
  | Futex, PFutex cmd w w2 =>
      0 <= e /\ is_s32 cmd /\ zlen w = 4 /\ zlen w2 = if has_second cmd then 4 else 0
  | AllRegs, PRegs r => regs_ok r
  | _, _ => False
  end.

Definition event_ok (v : event) : Prop :=
  is_s32 (ev_eax v) /\ exists s, shape_of (ev_nr v) = Some s /\ payload_ok s (ev_eax v) (ev_data v).

Lemma read_payload_encode s e p l :
  payload_ok s e p -> s <> AllRegs -> read_payload s e (payload_bytes p ++ l) = Some (p, l).
Proof.
  destruct s, p; cbn [payload_ok read_payload payload_bytes]; try (by intros []); rewrite <- ?app_assoc.
  - intros Hb _. by rewrite get_app.
  - intros [He ->] _. by destruct (Z.ltb_spec e 0); [|lia].
  - intros (He & Htp & Htzp & Htv & Htz) _. destruct (Z.ltb_spec e 0); [lia|].
    rewrite get_u32_app by done. cbn [mbind option_bind].
    rewrite get_u32_app by done. cbn [mbind option_bind].
    rewrite get_app by done. cbn [mbind option_bind]. by rewrite get_app.
  - intros [Ho Hb] _. rewrite get_u32_app by done. cbn [mbind option_bind]. by rewrite get_app.
  - intros [He ->] _. by destruct (Z.ltb_spec e 0); [|lia].
  - intros (He & Hc & Hw & Hw2) _. destruct (Z.ltb_spec e 0); [lia|].
    rewrite get_s32_app by done. cbn [mbind option_bind].
    rewrite get_app by done. cbn [mbind option_bind]. by rewrite get_app.
Qed.

(** The calls the recorder supports, as a list to compute with. *)
Lemma shape_of_numbers nr s : shape_of nr = Some s -> In (nr, s) shapes.
Proof.
  unfold shape_of. destruct (list_find _ shapes) as [[i [n s']]|] eqn:E; [|done].
  intros [= <-]. apply list_find_Some in E as (E & Hn & _). cbn in Hn. subst n.
  by apply list_elem_of_lookup_2, list_elem_of_In in E.
Qed.

Lemma shape_of_range nr s : shape_of nr = Some s -> 0 <= nr < NR_SYSCALLS.
Proof.
  intros H%shape_of_numbers. revert H. unfold shapes, plain_calls. cbn.
  intros H. repeat (destruct H as [[= <- _]|H]; [done|]). done.
Qed.

Lemma payload_regs s e p : s <> AllRegs -> payload_ok s e p -> encode_body e p = le32 e ++ payload_bytes p.
Proof. destruct p; [done..|]. by destruct s. Qed.

Lemma read_event_encode v l : event_ok v -> read_event (encode_event v ++ l) = Some (v, l).
Proof.
  destruct v as [nr e p]. intros (He & s & Hs & Hp). cbn [ev_nr ev_eax ev_data] in *.
  pose proof (shape_of_range _ _ Hs) as Hr. unfold read_event, encode_event. cbn [ev_nr ev_eax ev_data].
  rewrite <- app_assoc, get_app by apply zlen_le. cbn [mbind option_bind].
  assert (En : of_le (le16 nr) = nr).
  { unfold le16. rewrite of_le_le. apply Z.mod_small. unfold NR_SYSCALLS in Hr. lia. }
  rewrite En, Hs. cbn [mbind option_bind]. assert (Hk : s = AllRegs \/ s <> AllRegs) by (destruct s; auto).
  destruct Hk as [->|Hne].
  - destruct p as [| | | |r]; try done. cbn [encode_body]. rewrite <- app_assoc.
    unfold regs_bytes. rewrite (get_s32s_app (regs_fields r)) by done. cbn [mbind option_bind].
    unfold regs_fields at 1. cbn [regs_of mbind option_bind]. rewrite get_s32_app by done.
    by destruct r.
  - rewrite (payload_regs s) by done. rewrite <- app_assoc, get_s32_app by done.
    cbn [mbind option_bind]. rewrite (read_payload_encode s) by done. by destruct s.
Qed.

Lemma encode_event_length v : (0 < length (encode_event v))%nat.
Proof. unfold encode_event, le16. rewrite length_app, length_le. lia. Qed.

(** The format is uniquely readable. *)
Lemma read_log_encode vs : Forall event_ok vs -> read_log (concat (map encode_event vs)) = Some vs.
Proof.
  intros Hv. unfold read_log.
  assert (Hf : (length vs <= length (concat (map encode_event vs)))%nat).
  { clear. induction vs as [|v vs IH]; [done|]. cbn [map concat length]. rewrite length_app.
    pose proof (encode_event_length v). lia. }
  revert Hf. generalize (length (concat (map encode_event vs))) as n.
  induction Hv as [|v vs Hv _ IH]; intros n Hn; [by destruct n|].
  destruct n as [|n]; cbn [length] in Hn; [lia|]. cbn [map concat].
  destruct (encode_event v ++ concat (map encode_event vs)) as [|c t] eqn:E.
  { pose proof (encode_event_length v) as Hl. apply app_nil in E as [E _]. rewrite E in Hl. simpl in Hl. lia. }
  cbn [read_events]. rewrite <- E, read_event_encode by done. cbn [mbind option_bind].
  rewrite IH by lia. done.
Qed.

(** ** The handlers write the events *)

Section handlers.
Context {K : Type} {KK : Kernel K} {KF : KernelFiles K} {UP : KernelUp K} {KU : KernelUser K} {KL : KernelUserLaws K}.
Variable fn : fname.

(** [bs] went to the log; the memory is as it was. *)
Record grew (fd : Z) (k k' : K) (bs : list Z) : Prop := {
  gr_fd : fd_file k' fd = Some fn;
  gr_file : file_bytes k' fn = file_bytes k fn ++ bs;
  gr_user : forall a, user_byte k' a = user_byte k a
}.

Lemma grew_trans fd k1 k2 k3 b c : grew fd k1 k2 b -> grew fd k2 k3 c -> grew fd k1 k3 (b ++ c).
Proof.
  intros [_ F1 U1] [D2 F2 U2]. split; [done|by rewrite F2, F1, app_assoc|].
  intros a. by rewrite U2, U1.
Qed.

Lemma grow_grow g a b : grow (grow g a) b = grow g (a + b).
Proof. unfold grow. cbn. f_equal. unfold u32. rewrite Zplus_mod_idemp_l. f_equal. lia. Qed.

(** The step [m] logs [o], or ends the process when there is nothing to log. *)
Definition logs (m : result (K * syslog)) (k : K) (g : syslog) (o : option (list Z)) : Prop :=
  match o with
  | Some bs => exists k', m = Ok (k', grow g (zlen bs)) /\ grew (logger_fd g) k k' bs
  | None => m = Fatal
  end.

Definition app_opt (o o' : option (list Z)) : option (list Z) := b ← o; c ← o'; Some (b ++ c).

Lemma logs_bind m f k g o o' :
  logs m k g o ->
  (forall k' b, o = Some b -> grew (logger_fd g) k k' b -> logs (f (k', grow g (zlen b))) k' (grow g (zlen b)) o') ->
  logs (m ≫= f) k g (app_opt o o').
Proof.
  destruct o as [b|]; [|by intros -> _]. intros (k' & -> & G) Hf. rewrite bind_Ok.
  specialize (Hf k' b eq_refl G). destruct o' as [c|]; [|done].
  destruct Hf as (k2 & Hm & G2). exists k2. rewrite Hm, grow_grow, zlen_app. split; [done|].
  by eapply grew_trans.
Qed.

Lemma logs_nil k g : is_u32 (logger_sz g) -> fd_file k (logger_fd g) = Some fn -> logs (Ok (k, g)) k g (Some []).
Proof.
  intros Hg Hfd. exists k. split.
  - destruct g as [d z]. unfold grow. cbn in *. rewrite Z.add_0_r, u32_small; [done|]. unfold is_u32 in Hg. lia.
  - split; [done|by rewrite app_nil_r|done].
Qed.

Lemma logs_write k g bs :
  fd_file k (logger_fd g) = Some fn -> zlen bs < 2 ^ 31 -> logs (__write_logger k g bs) k g (Some bs).
Proof.
  intros Hfd Hl. unfold __write_logger. cbn [logger_fd grow].
  pose proof (write_up k (logger_fd g) fn bs Hfd) as Hw.
  pose proof (write_keeps_user k (logger_fd g) bs) as Hu.
  destruct (sys_write k (logger_fd g) bs) as [err k'] eqn:E. cbn [fst snd] in *. subst err.
  pose proof (zlen_nonneg bs). rewrite u32_small, Z.eqb_refl by lia. cbn [assert]. rewrite bind_Ok.
  exists k'. split; [done|]. destruct (write_ok _ _ _ _ _ Hfd E). by split.
Qed.

Lemma user_bytes_length (k : K) a n l : user_bytes k a n = Some l -> zlen l = Z.max 0 n.
Proof.
  unfold user_bytes, zlen. intros Hl%mapM_Some%Forall2_length. rewrite length_seqZ in Hl. lia.
Qed.

Lemma logs_mem k g a n :
  fd_file k (logger_fd g) = Some fn -> 0 < n < 2 ^ 31 ->
  logs (write_mem k g a n) k g (user_bytes k (u32 a) n).
Proof.
  intros Hfd Hn. destruct (user_bytes k (u32 a) n) as [l|] eqn:El.
  - pose proof (user_bytes_length _ _ _ _ El) as Hl. rewrite Z.max_r in Hl by lia.
    unfold write_mem. rewrite (write_user_ok _ _ _ _ _ El), <- Hl.
    apply logs_write; [done|lia].
  - unfold logs, write_mem. cbn [logger_fd grow].
    pose proof (write_user_fault k (logger_fd g) _ n ltac:(lia) El) as Hw.
    destruct (sys_write_user k _ _ n) as [err k']. cbn [fst] in Hw.
    destruct (Z.eqb_spec (u32 err) n) as [E|E]; [|done]. unfold u32 in E. Z.div_mod_to_equations. lia.
Qed.

Lemma user_bytes_keep (k k' : K) a n :
  (forall x, user_byte k' x = user_byte k x) -> user_bytes k' a n = user_bytes k a n.
Proof.
  intros Hk. unfold user_bytes. induction (seqZ a n) as [|x l IH]; [done|]. cbn. by rewrite Hk, IH.
Qed.

(** What a handler does: it logs the body of the event. *)
Definition records (h : K -> syslog -> syscall_regs -> result (K * syslog)) (s : shape) : Prop :=
  forall k g r, fd_file k (logger_fd g) = Some fn -> is_s32 (eax r) ->
    logs (h k g r) k g (encode_body (eax r) <$> data_of k r s).

Lemma logs_eq m k g o o' : logs m k g o -> o = o' -> logs m k g o'.
Proof. by intros H <-. Qed.

Lemma grow_u32 g n : is_u32 (logger_sz (grow g n)).
Proof. apply u32_range. Qed.

Lemma zlen_le32 x : zlen (le32 x) = 4.
Proof. apply zlen_le. Qed.

Lemma logs_word k g x : fd_file k (logger_fd g) = Some fn -> logs (__write_logger k g (le32 x)) k g (Some (le32 x)).
Proof. intros Hfd. apply logs_write; [done|by rewrite zlen_le32]. Qed.

(** Results and blocks. *)
Lemma records_block h p size :
  (forall k g r, h k g r = '(k, g) ← write_eax k g r;
     if 0 <? size (eax r) then write_mem k g (p r) (size (eax r)) else Ok (k, g)) ->
  (forall e, is_s32 e -> 0 <= size e < 2 ^ 31) ->
  records h (Block p size).
Proof.
  intros Hh Hs k g r Hfd He. rewrite Hh. specialize (Hs _ He).
  apply (logs_eq _ _ _ (app_opt (Some (le32 (eax r))) (user_bytes k (u32 (p r)) (size (eax r))))).
  - apply logs_bind; [by apply logs_word|]. intros k' b [= <-] G.
    rewrite <- (user_bytes_keep k k') by apply G. destruct (Z.ltb_spec 0 (size (eax r))).
    + apply logs_mem; [apply G|lia].
    + replace (size (eax r)) with 0 by lia. apply logs_nil; [apply grow_u32|apply G].
  - cbn [data_of]. by destruct (user_bytes k (u32 (p r)) (size (eax r))).
Qed.

Lemma records_plain h : (forall k g r, h k g r = write_eax k g r) -> records h plain.
Proof.
  intros Hh k g r Hfd He. rewrite Hh. unfold plain. cbn [data_of].
  change (user_bytes k (u32 (ecx r)) 0) with (Some (@nil Z)).
  apply (logs_eq _ _ _ (Some (le32 (eax r)))); [by apply logs_word|].
  cbn [fmap option_fmap option_map encode_body payload_bytes]. by rewrite app_nil_r.
Qed.

(** A structure behind a pointer that may be null. *)
Lemma logs_ptr k g p n :
  fd_file k (logger_fd g) = Some fn -> is_u32 (logger_sz g) -> is_u32 p -> 0 < n < 2 ^ 31 ->
  logs (if negb (p =? 0) then write_mem k g p n else Ok (k, g)) k g (if_ptr p (user_bytes k p n)).
Proof.
  intros Hfd Hg Hp Hn. unfold if_ptr. destruct (Z.eqb_spec p 0); cbn [negb].
  - by apply logs_nil.
  - rewrite <- (u32_small p) at 2 by (unfold is_u32 in Hp; lia). by apply logs_mem.
Qed.

Lemma records_times : records post_gettimeofday Times.
Proof.
  intros k g r Hfd He. unfold post_gettimeofday.
  set (tv := if_ptr (u32 (ebx r)) (user_bytes k (u32 (ebx r)) 8)).
  set (tz := if_ptr (u32 (ecx r)) (user_bytes k (u32 (ecx r)) 8)).
  apply (logs_eq _ _ _ (app_opt (Some (le32 (eax r)))
    (if 0 <=? eax r then app_opt (Some (le32 (u32 (ebx r)))) (app_opt (Some (le32 (u32 (ecx r))))
       (app_opt tv tz)) else Some []))).
  - apply logs_bind; [by apply logs_word|]. intros k1 b1 _ G1.
    destruct (Z.leb_spec 0 (eax r)); [|apply logs_nil; [apply grow_u32|apply G1]].
    apply logs_bind; [apply logs_word, G1|]. intros k2 b2 _ G2.
    apply logs_bind; [apply logs_word, G2|]. intros k3 b3 _ G3.
    pose proof (grew_trans _ _ _ _ _ _ (grew_trans _ _ _ _ _ _ G1 G2) G3) as G.
    unfold tv, tz. rewrite <- !(user_bytes_keep k k3) by apply G.
    apply logs_bind; [apply logs_ptr; [apply G3|apply grow_u32|exact (u32_range _)|done]|]. intros k4 b4 _ G4.
    rewrite <- !(user_bytes_keep k3 k4) by apply G4. apply logs_ptr; [apply G4|apply grow_u32|exact (u32_range _)|done].
  - cbn [data_of]. fold tv tz. rewrite Z.leb_antisym.
    destruct (eax r <? 0); [done|]. cbn [negb]. by destruct tv, tz.
Qed.

Lemma records_sleep : records post_nanosleep Sleep.
Proof.
  intros k g r Hfd He. unfold post_nanosleep.
  set (o := if_ptr (u32 (ecx r)) (user_bytes k (u32 (ecx r)) 8)).
  apply (logs_eq _ _ _ (app_opt (Some (le32 (eax r))) (app_opt (Some (le32 (u32 (ecx r)))) o))).
  - apply logs_bind; [by apply logs_word|]. intros k1 b1 _ G1.
    apply logs_bind; [apply logs_word, G1|]. intros k2 b2 _ G2.
    unfold o. rewrite <- (user_bytes_keep k k1), <- (user_bytes_keep k1 k2) by (apply G1 || apply G2).
    apply logs_ptr; [apply G2|apply grow_u32|exact (u32_range _)|done].
  - cbn [data_of]. fold o. by destruct o.
Qed.

Lemma records_futex : records post_futex Futex.
Proof.
  intros k g r Hfd He. unfold post_futex.
  set (w := user_bytes k (u32 (ebx r)) 4). set (w2 := user_bytes k (u32 (edi r)) 4).
  fold (futex_cmd r) (has_second (futex_cmd r)).
  apply (logs_eq _ _ _ (app_opt (Some (le32 (eax r)))
    (if eax r <? 0 then Some [] else app_opt (Some (le32 (futex_cmd r)))
       (app_opt w (if has_second (futex_cmd r) then w2 else Some []))))).
  - apply logs_bind; [by apply logs_word|]. intros k1 b1 _ G1.
    destruct (eax r <? 0); [apply logs_nil; [apply grow_u32|apply G1]|].
    apply logs_bind; [apply logs_word, G1|]. intros k2 b2 _ G2.
    unfold w, w2. rewrite <- !(user_bytes_keep k k1), <- !(user_bytes_keep k1 k2) by (apply G1 || apply G2).
    rewrite <- (u32_small (u32 (ebx r))) at 2 by apply u32_range.
    apply logs_bind; [by apply logs_mem; [apply G2|]|]. intros k3 b3 _ G3.
    destruct (has_second _); [|apply logs_nil; [apply grow_u32|apply G3]].
    rewrite <- (user_bytes_keep k2 k3) by apply G3.
    rewrite <- (u32_small (u32 (edi r))) at 2 by apply u32_range.
    apply logs_mem; [apply G3|lia].
  - cbn [data_of]. fold w w2. destruct (eax r <? 0); [done|].
    destruct w; [|done]. destruct (has_second _); [|done]. by destruct w2.
Qed.

Lemma zlen_regs_bytes r : zlen (regs_bytes r) = 44.
Proof. unfold regs_bytes, regs_fields. cbn [map concat]. rewrite !zlen_app, !zlen_le32. done. Qed.

Lemma records_ioctl : records post_ioctl AllRegs.
Proof.
  intros k g r Hfd He. unfold post_ioctl.
  apply (logs_eq _ _ _ (app_opt (Some (regs_bytes r)) (Some (le32 (eax r))))); [|done].
  apply logs_bind; [apply logs_write; [done|by rewrite zlen_regs_bytes]|].
  intros k1 b1 _ G1. apply logs_word, G1.
Qed.

(** ** The table *)

Lemma size_if_done n : 0 <= n < 2 ^ 31 -> forall e, is_s32 e -> 0 <= if_done n e < 2 ^ 31.
Proof. intros Hn e _. unfold if_done. destruct (0 <=? e); lia. Qed.

Lemma table_supported nr s :
  shape_of nr = Some s -> exists h, rd syscall_table nr = Ok (Tabent None (Some h)) /\ records h s.
Proof.
  intros Hs%shape_of_numbers. unfold shapes, plain_calls in Hs. cbn [map app In] in Hs.
  repeat (destruct Hs as [[= <- <-]|Hs];
    [eexists; (split; [reflexivity|]); cbn [snd];
     first [by apply records_plain|exact records_times|exact records_sleep|exact records_futex|
            exact records_ioctl|idtac]|]);
    [| | | | |destruct Hs].
  - apply records_block; [|unfold is_s32; lia]. intros k g r.
    unfold post_read. destruct (Z.le_gt_cases 0 (eax r)); [by rewrite Z.max_r by lia|].
    destruct (Z.ltb_spec 0 (eax r)); [lia|]. by rewrite Z.max_l by lia.
  - apply records_block; [|by apply size_if_done]. intros k g r. unfold post_stat64, if_done.
    by destruct (0 <=? eax r).
  - apply records_block; [|by apply size_if_done]. intros k g r. unfold post_fstat64, if_done.
    by destruct (0 <=? eax r).
  - apply records_block; [|by apply size_if_done]. intros k g r. unfold post_uname, if_done.
    by destruct (0 <=? eax r).
  - apply records_block; [|intros e _; destruct (e =? 0); lia]. intros k g r.
    unfold post_ugetrlimit. by destruct (eax r =? 0).
Qed.

Lemma table_rest :
  forallb (fun nr => match rd syscall_table nr, shape_of nr with
    | Ok (Tabent None (Some _)), Some _ | Ok (Tabent None None), None => true
    | _, _ => false end) (seqZ 0 (NR_SYSCALLS + 1)) = true.
Proof. by vm_compute. Qed.

Lemma table_unsupported nr :
  shape_of nr = None -> 0 <= nr <= NR_SYSCALLS -> rd syscall_table nr = Ok (Tabent None None).
Proof.
  intros Hs Hr. pose proof table_rest as Ht. rewrite forallb_forall in Ht.
  specialize (Ht nr). rewrite Hs in Ht.
  assert (Hin : In nr (seqZ 0 (NR_SYSCALLS + 1))) by (apply list_elem_of_In, elem_of_seqZ; lia).
  specialize (Ht Hin). destruct (rd syscall_table nr) as [[[?|] [?|]]| | |]; done.
Qed.

Lemma table_outside nr : nr < 0 \/ NR_SYSCALLS < nr -> rd syscall_table nr = Stray (if nr <? 0 then Back else Rd).
Proof.
  intros Hr. unfold rd. destruct (Z.ltb_spec nr 0); [done|].
  rewrite lookup_ge_None_2; [done|].
  change (length syscall_table) with (Z.to_nat (NR_SYSCALLS + 1)). lia.
Qed.

(** ** The wrapper *)

Lemma table_pre nr : 0 <= nr <= NR_SYSCALLS ->
  exists h, rd syscall_table nr = Ok (Tabent None h) /\ (h = None <-> shape_of nr = None).
Proof.
  intros Hr. destruct (shape_of nr) as [s|] eqn:Hs.
  - destruct (table_supported _ _ Hs) as (h & -> & _). by exists (Some h).
  - exists None. by rewrite table_unsupported.
Qed.

Lemma pre_logs k g r :
  fd_file k (logger_fd g) = Some fn ->
  logs (write_syscall_nr k g (orig_eax r)) k g (Some (le16 (orig_eax r))).
Proof. intros Hfd. apply logs_write; [done|]. unfold le16. by rewrite zlen_le. Qed.

Lemma pre_spec k g r :
  fd_file k (logger_fd g) = Some fn -> 0 <= orig_eax r <= NR_SYSCALLS ->
  exists k1, syscall_pre_handler k g r = Ok (k1, grow g 2) /\ grew (logger_fd g) k k1 (le16 (orig_eax r)).
Proof.
  intros Hfd Hr. destruct (pre_logs k g r Hfd) as (k1 & Hw & G). exists k1. split; [|done].
  unfold syscall_pre_handler. rewrite Hw, bind_Ok.
  by destruct (table_pre _ Hr) as (h & -> & _).
Qed.

(** Everything the recorder relies on during a call: its log is not touched. *)
Definition apart (fd : Z) (k k' : K) : Prop :=
  fd_file k' fd = fd_file k fd /\ file_bytes k' fn = file_bytes k fn.

Lemma post_spec k g r s :
  fd_file k (logger_fd g) = Some fn -> is_s32 (eax r) -> shape_of (orig_eax r) = Some s ->
  logs (syscall_post_handler k g r) k g (encode_body (eax r) <$> data_of k r s).
Proof.
  intros Hfd He Hs. unfold syscall_post_handler.
  destruct (table_supported _ _ Hs) as (h & -> & Hh). rewrite bind_Ok. by apply Hh.
Qed.

(** One call, whatever its number. *)
Lemma wrapped_syscall_spec k g r :
  fd_file k (logger_fd g) = Some fn -> 0 <= orig_eax r <= NR_SYSCALLS ->
  exists k1, grew (logger_fd g) k k1 (le16 (orig_eax r)) /\
    let '(ret, k2) := int80 k1 r in
    match shape_of (orig_eax r) with
    | None => wrapped_syscall k g r = Fatal
    | Some s => apart (logger_fd g) k1 k2 ->
        match event_of k2 (set_eax r ret) s with
        | None => wrapped_syscall k g r = Fatal
        | Some v => exists k3,
            wrapped_syscall k g r = Ok (k3, grow g (zlen (encode_event v)), set_eax r ret) /\
            grew (logger_fd g) k2 k3 (encode_body ret (ev_data v)) /\
            file_bytes k3 fn = file_bytes k fn ++ encode_event v
        end
    end.
Proof.
  intros Hfd Hr. destruct (pre_spec k g r Hfd Hr) as (k1 & Hpre & G1). exists k1. split; [done|].
  pose proof (int80_range k1 r) as Hret. unfold wrapped_syscall. rewrite Hpre, bind_Ok.
  destruct (int80 k1 r) as [ret k2]. cbn [fst] in Hret.
  destruct (shape_of (orig_eax r)) as [s|] eqn:Hs.
  - intros [Hd Hf]. rewrite (gr_fd _ _ _ _ G1) in Hd.
    pose proof (post_spec k2 (grow g 2) (set_eax r ret) s Hd Hret Hs) as Hp.
    unfold event_of. destruct (data_of k2 (set_eax r ret) s) as [p|]; cbn [fmap option_fmap option_map] in *.
    + destruct Hp as (k3 & -> & G3). exists k3. rewrite bind_Ok. cbn [ev_data].
      unfold encode_event. cbn [ev_nr ev_eax ev_data orig_eax eax set_eax] in *.
      rewrite grow_grow, zlen_app. split; [done|]. split; [done|].
      by rewrite (gr_file _ _ _ _ G3), Hf, (gr_file _ _ _ _ G1), app_assoc.
    + unfold logs in Hp. by rewrite Hp.
  - unfold syscall_post_handler. cbn [orig_eax set_eax]. by rewrite (table_unsupported (orig_eax r)).
Qed.

Lemma user_bytes_size (k : K) a n l : 0 <= n -> user_bytes k a n = Some l -> zlen l = n.
Proof. intros Hn Hl. rewrite (user_bytes_length _ _ _ _ Hl). lia. Qed.

Lemma if_ptr_size (k : K) p n l :
  0 <= n -> if_ptr p (user_bytes k p n) = Some l -> zlen l = opt_size p n.
Proof.
  intros Hn. unfold if_ptr, opt_size. destruct (p =? 0); [by intros [= <-]|].
  by apply user_bytes_size.
Qed.

Lemma futex_cmd_s32 r : is_s32 (ecx r) -> is_s32 (futex_cmd r).
Proof.
  intros Hc. unfold futex_cmd, FUTEX_CMD_MASK, FUTEX_PRIVATE_FLAG, is_s32 in *. rewrite <- Z.ldiff_land.
  assert (E : Z.ldiff (ecx r) 128 + Z.land (ecx r) (2 ^ 7) = ecx r).
  { change (2 ^ 7) with 128. rewrite Z.add_nocarry_lor; [apply Z.lor_ldiff_and|].
    apply Z.bits_inj'. intros n Hn. rewrite !Z.land_spec, Z.ldiff_spec, Z.bits_0.
    by destruct (Z.testbit (ecx r) n), (Z.testbit 128 n). }
  rewrite land_bit in E by lia. change (2 ^ 7) with 128 in E. Z.div_mod_to_equations. lia.
Qed.

Lemma data_of_ok (k : K) r s p :
  shape_of (orig_eax r) = Some s -> regs_ok r -> data_of k r s = Some p -> payload_ok s (eax r) p.
Proof.
  intros Hs Hr. destruct s as [ptr size| | | |]; cbn [data_of].
  - destruct (user_bytes k _ _) as [b|] eqn:E; [|done]. intros [= <-]. cbn [payload_ok].
    apply user_bytes_size in E; [done|]. apply shape_of_numbers in Hs. revert Hs. clear.
    unfold shapes, plain_calls. cbn [map app In]. unfold plain, if_done. intros Hs.
    repeat (destruct Hs as [Hs|Hs]; [first [discriminate Hs|injection Hs; intros; subst; repeat case_match; lia]|]).
    done.
  - destruct (Z.ltb_spec (eax r) 0); [by intros [= <-]|].
    destruct (if_ptr (u32 (ebx r)) _) as [tv|] eqn:E1; [|done]. cbn [mbind option_bind].
    destruct (if_ptr (u32 (ecx r)) _) as [tz|] eqn:E2; [|done]. cbn [mbind option_bind]. intros [= <-].
    apply if_ptr_size in E1; [|done]. apply if_ptr_size in E2; [|done]. cbn [payload_ok].
    split; [done|]. split; [exact (u32_range _)|]. by split; [exact (u32_range _)|].
  - destruct (if_ptr (u32 (ecx r)) _) as [b|] eqn:E1; [|done]. cbn [mbind option_bind]. intros [= <-].
    apply if_ptr_size in E1; [|done]. by split; [exact (u32_range _)|].
  - destruct (Z.ltb_spec (eax r) 0); [by intros [= <-]|].
    destruct (user_bytes k (u32 (ebx r)) 4) as [w|] eqn:E1; [|done]. cbn [mbind option_bind].
    destruct (if has_second (futex_cmd r) then _ else _) as [w2|] eqn:E2; [|done].
    cbn [mbind option_bind]. intros [= <-]. apply user_bytes_size in E1; [|done]. cbn [payload_ok].
    split; [done|]. split; [|split; [done|]].
    + apply futex_cmd_s32. unfold regs_ok, regs_fields in Hr. rewrite !Forall_cons in Hr. tauto.
    + destruct (has_second _); [|by injection E2 as <-]. by apply user_bytes_size in E2.
  - by intros [= <-].
Qed.

(** What the environment does for a list of calls: every number is one the
    recorder supports, the real calls leave the log alone, and the memory that
    is logged can be read. [k1] is the state after the number was logged, [k3]
    the one after the event was. *)
Fixpoint served (fd : Z) (k : K) (rs : list syscall_regs) : Prop :=
  match rs with
  | [] => True
  | r :: rs =>
      regs_ok r /\ exists s, shape_of (orig_eax r) = Some s /\
      forall k1, grew fd k k1 (le16 (orig_eax r)) ->
        let '(ret, k2) := int80 k1 r in
        apart fd k1 k2 /\ is_Some (data_of k2 (set_eax r ret) s) /\
        forall k3 b, grew fd k2 k3 b -> served fd k3 rs
  end.

(** [v] is what the call [r] did, in some state. *)
Definition event_from (r : syscall_regs) (v : event) : Prop :=
  exists k1 k2 s, int80 k1 r = (ev_eax v, k2) /\ shape_of (orig_eax r) = Some s /\
    event_of k2 (set_eax r (ev_eax v)) s = Some v.

Lemma set_eax_ok r v : regs_ok r -> is_s32 v -> regs_ok (set_eax r v).
Proof. unfold regs_ok, regs_fields. rewrite !Forall_cons. cbn. tauto. Qed.

Lemma wrapped_syscalls_spec k g rs :
  fd_file k (logger_fd g) = Some fn -> is_u32 (logger_sz g) -> served (logger_fd g) k rs ->
  exists vs k', wrapped_syscalls k g rs =
      Ok (k', grow g (zlen (concat (map encode_event vs))), zip_with (fun r v => set_eax r (ev_eax v)) rs vs) /\
    file_bytes k' fn = file_bytes k fn ++ concat (map encode_event vs) /\
    Forall event_ok vs /\ Forall2 event_from rs vs.
Proof.
  revert k g. induction rs as [|r rs IH]; intros k g Hfd Hg Hsv.
  { exists [], k. cbn [wrapped_syscalls map concat zip_with]. rewrite app_nil_r. split; [|done].
    change (zlen (@nil Z)) with 0. destruct g as [d z]. unfold grow. cbn in *.
    rewrite Z.add_0_r, u32_small; [done|]. unfold is_u32 in Hg. lia. }
  destruct Hsv as (Hr & s & Hs & Hsv). pose proof (shape_of_range _ _ Hs) as Hn.
  destruct (wrapped_syscall_spec k g r Hfd ltac:(lia)) as (k1 & G1 & Hw).
  specialize (Hsv k1 G1). pose proof (int80_range k1 r) as Hret.
  destruct (int80 k1 r) as [ret k2] eqn:E. cbn [fst] in Hret. rewrite Hs in Hw.
  destruct Hsv as (Ha & [p Hp] & Hsv). specialize (Hw Ha). unfold event_of in Hw. rewrite Hp in Hw.
  cbn [fmap option_fmap option_map] in Hw. destruct Hw as (k3 & Hw & G3 & Hf).
  set (v := Event _ _ p) in *.
  destruct (IH k3 (grow g (zlen (encode_event v)))) as (vs & k' & Hrun & Hf' & Hok & Hev);
    [apply G3|apply grow_u32|by eapply Hsv|].
  exists (v :: vs), k'. cbn [wrapped_syscalls]. rewrite Hw, bind_Ok, Hrun, bind_Ok.
  cbn [map concat zip_with]. rewrite grow_grow, zlen_app. split; [done|].
  rewrite Hf', Hf, app_assoc. split; [done|]. split.
  - constructor; [|done]. split; [done|]. exists s. split; [done|].
    by apply (data_of_ok k2); [|apply set_eax_ok|].
  - constructor; [|done]. exists k1, k2, s. split; [done|]. split; [done|].
    unfold event_of. change (ev_eax v) with ret. by rewrite Hp.
Qed.

End handlers.

(** C13: one recorded call, for every number a register can hold: a number
    outside the table is logged and then the code reads outside it; otherwise
    the call is made, after its number was logged; an unsupported one ends the
    process then, with its effects done; of a supported one the log gets
    exactly the event, nothing of the program changes but what the call
    changed, and its registers are returned with the result; and when memory to
    log cannot be read the process ends. The log is open and the kernel's
    writes to it are complete; for what a supported call leaves in the log, the
    call itself left the log and its descriptor alone. *)
Theorem wrapped_syscall_correct {K} `{KernelUp K} {KU : KernelUser K} {KL : KernelUserLaws K}
    fn (k : K) g r :
  fd_file k (logger_fd g) = Some fn ->
  if decide (0 <= orig_eax r <= NR_SYSCALLS) then
    exists k1, grew fn (logger_fd g) k k1 (le16 (orig_eax r)) /\
    let '(ret, k2) := int80 k1 r in
    match shape_of (orig_eax r) with
    | None => wrapped_syscall k g r = Fatal
    | Some s => apart fn (logger_fd g) k1 k2 ->
        match event_of k2 (set_eax r ret) s with
        | None => wrapped_syscall k g r = Fatal
        | Some v => exists k3,
            wrapped_syscall k g r = Ok (k3, grow g (zlen (encode_event v)), set_eax r ret) /\
            file_bytes k3 fn = file_bytes k fn ++ encode_event v /\
            forall a, user_byte k3 a = user_byte k2 a
        end
    end
  else wrapped_syscall k g r = Stray (if orig_eax r <? 0 then Back else Rd).
Proof.
  intros Hfd. destruct (decide _) as [Hr|Hr].
  - destruct (wrapped_syscall_spec fn k g r Hfd Hr) as (k1 & G & Hw). exists k1. split; [done|].
    destruct (int80 k1 r) as [ret k2]. destruct (shape_of (orig_eax r)) as [s|]; [|done].
    intros Ha. specialize (Hw Ha). destruct (event_of k2 (set_eax r ret) s) as [v|]; [|done].
    destruct Hw as (k3 & Hw & G3 & Hf). exists k3. split; [done|]. split; [done|]. apply G3.
  - unfold wrapped_syscall, syscall_pre_handler. destruct (pre_logs fn k g r Hfd) as (k1 & -> & _).
    rewrite bind_Ok, table_outside by lia. done.
Qed.

(** C2: the log determines what the recorder saved: for any list of supported
    calls the recorder returns, the log has grown by bytes from which a reader
    of the format gets back one event for each call, in order, with its number,
    its result and what its handler saves ([data_of]): the bytes a [read]
    returned, the structures of [stat64], [fstat64], [uname], [ugetrlimit],
    [gettimeofday] and [nanosleep], the words of a futex and the registers of an
    [ioctl]. The program got the results the events say, and [logger_sz] counts
    the bytes. Of [statfs64], [rt_sigaction], [rt_sigprocmask] and [ioctl] no
    memory is saved, although the kernel fills some in. The registers are words,
    the calls leave the log and its descriptor alone, and the memory to save can
    be read ([served]); [wrapped_syscall_correct] says what happens otherwise. *)
Theorem syscall_log_roundtrip {K} `{KernelUp K} {KU : KernelUser K} {KL : KernelUserLaws K}
    fn (k : K) g rs :
  fd_file k (logger_fd g) = Some fn -> is_u32 (logger_sz g) -> served fn (logger_fd g) k rs ->
  exists log k' vs,
    wrapped_syscalls k g rs =
      Ok (k', Syslog (logger_fd g) (u32 (logger_sz g + zlen log)),
          zip_with (fun r v => set_eax r (ev_eax v)) rs vs) /\
    file_bytes k' fn = file_bytes k fn ++ log /\
    read_log log = Some vs /\ Forall2 event_from rs vs.
Proof.
  intros Hfd Hg Hs. destruct (wrapped_syscalls_spec fn k g rs Hfd Hg Hs) as (vs & k' & Hw & Hf & Hok & Hv).
  exists (concat (map encode_event vs)), k', vs. split; [done|]. split; [done|].
  split; [by apply read_log_encode|done].
Qed.

(** ** A machine to run on: the files of [Ram] and some memory *)

Module Desk.

Record desk := Deskk { disk : Ram.ram; cells : gmap Z Z }.

Definition lift {A} (d : desk) (x : A * Ram.ram) : A * desk := (x.1, Deskk x.2 (cells d)).

#[global] Instance desk_kernel : Kernel desk := {
  sys_write d fd l := lift d (Ram.write (disk d) fd l);
  sys_open d fn flags mode := lift d (Ram.open (disk d) fn flags mode);
  sys_close d fd := lift d (Ram.close (disk d) fd);
  sys_read d fd n := let '(r, b, k) := sys_read (disk d) fd n in (r, b, Deskk k (cells d));
  sys_stat64 d fn := let '(r, b, k) := sys_stat64 (disk d) fn in (r, b, Deskk k (cells d));
  sys_mprotect d _ _ _ := (0, d);
  sys_brk d _ := (0x8100000, d)
}.

#[global] Program Instance desk_files : KernelFiles desk := {
  file_bytes d := file_bytes (disk d);
  fd_file d := fd_file (disk d)
}.
Next Obligation. intros d fn flags mode fd d' [= <- <-]. by apply (open_ok (disk d) fn flags mode). Qed.
Next Obligation. intros d fn flags mode fd d' fn' [= <- <-]. by apply (open_fail (disk d) fn flags mode). Qed.
Next Obligation. intros d fd l n d' [= <- <-]. eapply (write_range (disk d)), surjective_pairing. Qed.
Next Obligation.
  intros d fd fn l d' Hfd E. injection E as E1 E2. subst d'.
  apply (write_ok (disk d)); [done|]. rewrite <- E1. apply surjective_pairing.
Qed.
Next Obligation. intros d fd n d' fn [= <- <-]. eapply (close_ok (disk d)), surjective_pairing. Qed.

#[global] Program Instance desk_up : KernelUp desk.
Next Obligation. intros d fn flags mode. exact (open_up (disk d) fn flags mode). Qed.
Next Obligation. intros d fd fn l Hfd. exact (write_up (disk d) fd fn l Hfd). Qed.
Next Obligation. intros d fd fn Hfd. exact (close_up (disk d) fd fn Hfd). Qed.

(** [read] finds two bytes, [getpid] is 42, the rest does nothing. *)
#[global] Instance desk_user : KernelUser desk := {
  user_byte d a := x ← cells d !! a; if decide (is_byte x) then Some x else None;
  sys_write_user d fd a n :=
    match mapM (fun a => x ← cells d !! a; if decide (is_byte x) then Some x else None) (seqZ a n) with
    | Some l => lift d (Ram.write (disk d) fd l)
    | None => (-14, d)
    end;
  int80 d r :=
    if orig_eax r =? NR_read then
      (2, Deskk (disk d) (<[u32 (ecx r) := 104]> (<[u32 (ecx r) + 1 := 105]> (cells d))))
    else if orig_eax r =? NR_getpid then (42, d) else (0, d)
}.

#[global] Instance desk_laws : KernelUserLaws desk.
Proof.
  split.
  - intros d a b. cbn. destruct (cells d !! a); [|done]. cbn. case_decide; [|done]. by intros [= <-].
  - intros d fd a n l. unfold user_bytes. cbn. by intros ->.
  - intros d fd a n Hn. unfold user_bytes. cbn. intros ->. cbn. lia.
  - done.
  - intros d r. cbn. destruct (_ =? _); [cbn; lia|]. destruct (_ =? _); cbn; lia.
Qed.

Definition start : desk := Deskk (Ram.Ramk {[ [108] := [] ]} {[ 5 := [108] ]}) ∅.

Definition call (nr b c : Z) : syscall_regs := Regs nr b c 0 0 0 0 0 nr 0 0.

Lemma call_ok nr b c : 0 <= nr < 2 ^ 31 -> 0 <= b < 2 ^ 31 -> 0 <= c < 2 ^ 31 -> regs_ok (call nr b c).
Proof. intros. unfold regs_ok, regs_fields, call. rewrite !Forall_cons. cbn. unfold is_s32. repeat split; lia || done. Qed.

End Desk.

Lemma wrapped_syscall_correct_witness :
  exists k1, grew [108] 5 Desk.start k1 (le16 NR_getpid) /\
    let '(ret, k2) := int80 k1 (Desk.call NR_getpid 0 0) in
    match shape_of NR_getpid with
    | None => wrapped_syscall Desk.start (Syslog 5 0) (Desk.call NR_getpid 0 0) = Fatal
    | Some s => apart [108] 5 k1 k2 ->
        match event_of k2 (set_eax (Desk.call NR_getpid 0 0) ret) s with
        | None => wrapped_syscall Desk.start (Syslog 5 0) (Desk.call NR_getpid 0 0) = Fatal
        | Some v => exists k3,
            wrapped_syscall Desk.start (Syslog 5 0) (Desk.call NR_getpid 0 0) =
              Ok (k3, grow (Syslog 5 0) (zlen (encode_event v)), set_eax (Desk.call NR_getpid 0 0) ret) /\
            file_bytes k3 [108] = file_bytes Desk.start [108] ++ encode_event v /\
            forall a, user_byte k3 a = user_byte k2 a
        end
    end.
Proof. exact (wrapped_syscall_correct (K := Desk.desk) [108] Desk.start (Syslog 5 0) (Desk.call NR_getpid 0 0) eq_refl). Defined.

Lemma syscall_log_roundtrip_witness :
  exists log k' vs,
    wrapped_syscalls Desk.start (Syslog 5 0) [Desk.call NR_getpid 0 0; Desk.call NR_read 0 4096] =
      Ok (k', Syslog 5 (u32 (0 + zlen log)),
          zip_with (fun r v => set_eax r (ev_eax v)) [Desk.call NR_getpid 0 0; Desk.call NR_read 0 4096] vs) /\
    file_bytes k' [108] = file_bytes Desk.start [108] ++ log /\
    read_log log = Some vs /\
    Forall2 event_from [Desk.call NR_getpid 0 0; Desk.call NR_read 0 4096] vs.
Proof.
  apply (syscall_log_roundtrip (K := Desk.desk) [108] Desk.start (Syslog 5 0)
    [Desk.call NR_getpid 0 0; Desk.call NR_read 0 4096]).
  - reflexivity.
  - split; cbn; lia.
  - split; [by apply Desk.call_ok|]. exists plain. split; [reflexivity|].
    intros k1 _. cbn. split; [done|]. split; [by eexists|]. intros k3 b _.
    split; [by apply Desk.call_ok|]. exists (Block ecx (Z.max 0)). split; [reflexivity|].
    intros k4 _. cbn. split; [done|]. split; [|done].
    change (u32 4096) with 4096. unfold user_bytes. change (seqZ 4096 (0 `max` 2)) with [4096; 4097]. cbn.
    rewrite lookup_insert_eq, lookup_insert_ne, lookup_insert_eq by done. by eexists.
Defined.

End SysLogFacts.
