(* ===== verification/Exceptions.v ===== *)
(** The exceptions of the replayer: [src/src/core/replay/exception.c] and the
    macros of [exception.h].

    A [TRY] puts a [struct catcher_t] on a list, saves the context with
    [sigsetjmp] and runs its body in a loop whose condition is the state
    machine of the catcher; a throw finds the innermost catcher and jumps to its
    saved context, back to the condition of that loop. Code that uses the macros
    is a command of a small language, which is run by an abstract machine with
    an explicit continuation: a [jmp_buf] is a saved continuation, the catchers
    are a store linked by [prev]. *)
From S2P Require Import Prelude.

Module Exc.

(** ** Data of exception.h *)

(** [enum exception_type] counts the entries of exception_types.h. *)
Definition EXP_NO_EXCEPTION : Z := 0.
Definition EXP_UNCATCHABLE : Z := 35.
Definition NR_EXP_TYPES : Z := 36.

(** [enum exception_level] *)
Definition EXP_LV_NONE : Z := 0.
Definition EXP_LV_LOWEST : Z := 1.
Definition EXP_LV_TAINTED : Z := 2.
Definition EXP_LV_FATAL : Z := 3.
Definition EXP_LV_UNCATCHABLE : Z := 4.

Definition EXCEPTION_MSG_LEN_MAX : Z := 512.

(** [struct exception_t] without the fields of the debug build and [timestamp],
    which is never set. *)
Record exception_t := Exp {
  e_type : Z;
  e_msg : list Z;
  e_val : Z;
  throw_time_errno : Z;
  e_level : Z
}.

Definition no_exception : exception_t := Exp EXP_NO_EXCEPTION [] 0 0 EXP_LV_NONE.

Inductive catcher_action := CATCH_ITER_0 | CATCH_FINALLY | CATCH_THROW.
Inductive catcher_state :=
  CATCHER_INIT | CATCHER_EXEC_BODY | CATCHER_WAIT_FINALLY | CATCHER_THROWN.

(** ** Client code *)

(** The exception variables of a client ([define_exp]) are numbered. A throw
    carries its message as it was formatted. *)
Inductive cmd :=
| Skip
| Act (n : Z)
| SetErrno (v : Z)
| Seq (a b : cmd)
| Throw (type val level : Z) (msg : list Z)
| Rethrow (e : nat)
| EatSmallExp (e : nat)
| Try (e : nat) (body fin hnd : cmd)
| Break
| Continue
| Call (body : cmd)
| Return.

(** The text of a [TRY] with the address of its [____catcher]. *)
Record try_block := TryBlock {
  t_addr : nat; t_exp : nat; t_body : cmd; t_fin : cmd; t_hnd : cmd
}.

(** What is left to do when the current command is done: the rest of a
    sequence, the test of the loop, the handler, the caller. *)
Inductive frame :=
| KSeq (b : cmd)
| KBody (t : try_block)
| KFin (t : try_block)
| KCall.

(** A context saved by [sigsetjmp]: it resumes at the condition of the loop. *)
Record jmp_buf := JmpBuf { jb_try : try_block; jb_cont : list frame }.

(** [struct catcher_t] *)
Record catcher_t := Catcher {
  buf : option jmp_buf;
  state : catcher_state;
  curr_exp : nat;
  prev : option nat
}.

(** What the client can see: its exception variables, [errno], and what was
    done so far. *)
Inductive obs :=
| Did (n : Z)
| Printed (type : Z).

Record world := World { exps : nat -> exception_t; errno : Z; trace : list obs }.

Definition set_exp (w : world) (e : nat) (x : exception_t) : world :=
  World (fun i => if decide (i = e) then x else exps w i) (errno w) (trace w).
Definition set_errno (w : world) (v : Z) : world := World (exps w) v (trace w).
Definition observe (w : world) (o : obs) : world := World (exps w) (errno w) (trace w ++ [o]).

(** The catchers on the stack of the process, [curr_catcher_p], and the address
    the next one gets. *)
Record runtime := Runtime {
  the_world : world;
  catchers : gmap nat catcher_t;
  curr_catcher_p : option nat;
  next_addr : nat
}.

Definition set_world (h : runtime) (w : world) : runtime :=
  Runtime w (catchers h) (curr_catcher_p h) (next_addr h).
Definition set_curr (h : runtime) (p : option nat) : runtime :=
  Runtime (the_world h) (catchers h) p (next_addr h).
Definition set_catcher (h : runtime) (a : nat) (c : catcher_t) : runtime :=
  Runtime (the_world h) (<[a := c]> (catchers h)) (curr_catcher_p h) (next_addr h).

Definition with_state (c : catcher_t) (s : catcher_state) : catcher_t :=
  Catcher (buf c) s (curr_exp c) (prev c).
Definition with_prev (c : catcher_t) (p : option nat) : catcher_t :=
  Catcher (buf c) (state c) (curr_exp c) p.
Definition with_buf (c : catcher_t) (b : jmp_buf) : catcher_t :=
  Catcher (Some b) (state c) (curr_exp c) (prev c).

(** [*a], for the catcher at an address; a dead one is a stray access. *)
Definition catcher_at (h : runtime) (a : nat) : result catcher_t :=
  match catchers h !! a with
  | Some c => Ok c
  | None => Stray Rd
  end.

(** [c->state = s] *)
Definition set_state (h : runtime) (a : nat) (s : catcher_state) : result runtime :=
  c ← catcher_at h a;
  Ok (set_catcher h a (with_state c s)).

(** ** exception.c *)

Definition push_catcher (h : runtime) (new_catcher : nat) : result runtime :=
  c ← catcher_at h new_catcher;
  let h := set_catcher h new_catcher (with_prev c (curr_catcher_p h)) in
  Ok (set_curr h (Some new_catcher)).

Definition pop_catcher (h : runtime) : result runtime :=
  match curr_catcher_p h with
  | None => Fatal
  | Some a => c ← catcher_at h a; Ok (set_curr h (prev c))
  end.

(** The [memset] of the catcher clears the saved context. *)
Definition init_set_exception (h : runtime) (c e : nat) : runtime :=
  let h := set_world h (set_exp (the_world h) e no_exception) in
  set_catcher h c (Catcher None CATCHER_INIT e None).

Definition exceptions_state_mc_init (h : runtime) (c e : nat) : result runtime :=
  push_catcher (init_set_exception h c e) c.

Definition exceptions_state_mc (h : runtime) (action : catcher_action) : result (bool * runtime) :=
  match curr_catcher_p h with
  | None => Fatal
  | Some a =>
      c ← catcher_at h a;
      match state c, action with
      | CATCHER_INIT, CATCH_ITER_0 =>
          h ← set_state h a CATCHER_EXEC_BODY; Ok (true, h)
      | CATCHER_EXEC_BODY, CATCH_ITER_0 =>
          h ← set_state h a CATCHER_WAIT_FINALLY; Ok (false, h)
      | CATCHER_EXEC_BODY, CATCH_THROW =>
          h ← set_state h a CATCHER_THROWN; Ok (false, h)
      | CATCHER_EXEC_BODY, CATCH_FINALLY =>
          h ← pop_catcher h; Ok (true, h)
      | CATCHER_WAIT_FINALLY, CATCH_FINALLY =>
          h ← pop_catcher h; Ok (true, h)
      | CATCHER_THROWN, CATCH_ITER_0 =>
          h ← set_state h a CATCHER_WAIT_FINALLY; Ok (false, h)
      | _, _ => Fatal
      end
  end.

(** The lookup of the name of the type is not checked; [errno] is cleared. *)
Definition print_exception (w : world) (x : exception_t) : result world :=
  if (0 <=? e_type x) && (e_type x <? NR_EXP_TYPES)
  then Ok (set_errno (observe w (Printed (e_type x))) 0)
  else Stray Rd.

(** The exception [__throw_exception] builds. *)
Definition make_exception (w : world) (type val level : Z) (msg : list Z) : exception_t :=
  let msg := take (Z.to_nat (EXCEPTION_MSG_LEN_MAX - 1)) msg in
  if EXP_LV_UNCATCHABLE <=? level
  then Exp EXP_UNCATCHABLE msg val (errno w) EXP_LV_UNCATCHABLE
  else Exp type msg val (errno w) level.

(** The rest of [__throw_exception]: without a catcher the process ends; the
    result is the context it jumps to. *)
Definition throw (h : runtime) (x : exception_t) : result (jmp_buf * runtime) :=
  match curr_catcher_p h with
  | None => _ ← print_exception (the_world h) x; Fatal
  | Some a =>
      c ← catcher_at h a;
      let h := set_world h (set_exp (the_world h) (curr_exp c) x) in
      '(_, h) ← exceptions_state_mc h CATCH_THROW;
      c ← catcher_at h a;
      match buf c with
      | Some b => Ok (b, h)
      | None => Stray Rd
      end
  end.

(** ** The machine *)

(** What is executed next: a command, the end of one, the condition of the loop
    of a [TRY], its [FINALLY], a call of [throw_exception], or a jump out of the
    current statement. *)
Inductive focus :=
| FCmd (c : cmd)
| FDone
| FTest (t : try_block)
| FFinal (t : try_block)
| FRaise (x : exception_t)
| FBreak
| FContinue
| FReturn.

Record config := Config { at_ : focus; cont : list frame; rt : runtime }.

(** [RETHROW(e)] *)
Definition rethrow (h : runtime) (x : exception_t) : focus * runtime :=
  let w := set_errno (the_world h) (throw_time_errno x) in
  (FRaise (make_exception w (e_type x) (e_val x) (e_level x) (e_msg x)), set_world h w).

(** [TRY(e)] up to the condition of its loop. *)
Definition enter_try (h : runtime) (k : list frame) (e : nat) (body fin hnd : cmd) :
    result (try_block * runtime) :=
  let a := next_addr h in
  let t := TryBlock a e body fin hnd in
  let h := Runtime (the_world h) (catchers h) (curr_catcher_p h) (S a) in
  h ← exceptions_state_mc_init h a e;
  c ← catcher_at h a;
  Ok (t, set_catcher h a (with_buf c (JmpBuf t k))).

Definition step_cmd (c : cmd) (k : list frame) (h : runtime) : result config :=
  let w := the_world h in
  match c with
  | Skip => Ok (Config FDone k h)
  | Act n => Ok (Config FDone k (set_world h (observe w (Did n))))
  | SetErrno v => Ok (Config FDone k (set_world h (set_errno w v)))
  | Seq a b => Ok (Config (FCmd a) (KSeq b :: k) h)
  | Throw type val level msg => Ok (Config (FRaise (make_exception w type val level msg)) k h)
  | Rethrow e => let '(f, h) := rethrow h (exps w e) in Ok (Config f k h)
  | EatSmallExp e =>
      let x := exps w e in
      if (e_level x =? EXP_LV_LOWEST) || (e_level x =? EXP_LV_TAINTED) then Ok (Config FDone k h)
      else
        w ← print_exception w x;
        let '(f, h) := rethrow (set_world h w) x in
        Ok (Config f k h)
  | Try e body fin hnd =>
      '(t, h) ← enter_try h k e body fin hnd;
      Ok (Config (FTest t) k h)
  | Break => Ok (Config FBreak k h)
  | Continue => Ok (Config FContinue k h)
  | Call body => Ok (Config (FCmd body) (KCall :: k) h)
  | Return => Ok (Config FReturn k h)
  end.

(** The catcher of a body that is left by [return] is dead, and still linked. *)
Definition kill (h : runtime) (a : nat) : runtime :=
  Runtime (the_world h) (delete a (catchers h)) (curr_catcher_p h) (next_addr h).

(** One step; [None] when the program has ended. *)
Definition step (s : config) : option (result config) :=
  let '(Config f k h) := s in
  match f, k with
  | FCmd c, _ => Some (step_cmd c k h)
  | FTest t, _ => Some (
      '(more, h) ← exceptions_state_mc h CATCH_ITER_0;
      if more : bool then Ok (Config (FCmd (t_body t)) (KBody t :: k) h) else Ok (Config (FFinal t) k h))
  | FFinal t, _ => Some (
      '(_, h) ← exceptions_state_mc h CATCH_FINALLY;
      Ok (Config (FCmd (t_fin t)) (KFin t :: k) h))
  | FRaise x, _ => Some (
      '(b, h) ← throw h x;
      Ok (Config (FTest (jb_try b)) (jb_cont b) h))
  | _, [] => None
  | FDone, KSeq b :: k => Some (Ok (Config (FCmd b) k h))
  | FDone, KBody t :: k => Some (Ok (Config (FTest t) k h))
  | FDone, KFin t :: k =>
      if negb (e_type (exps (the_world h) (t_exp t)) =? EXP_NO_EXCEPTION)
      then Some (Ok (Config (FCmd (t_hnd t)) k h))
      else Some (Ok (Config FDone k h))
  | FDone, KCall :: k => Some (Ok (Config FDone k h))
  | FBreak, KBody t :: k => Some (Ok (Config (FFinal t) k h))
  | FContinue, KBody t :: k => Some (Ok (Config (FTest t) k h))
  | FBreak, KCall :: _ | FContinue, KCall :: _ => None
  | FReturn, KBody t :: k => Some (Ok (Config FReturn k (kill h (t_addr t))))
  | FReturn, KCall :: k => Some (Ok (Config FDone k h))
  | _, _ :: k => Some (Ok (Config f k h))
  end.

Fixpoint run_config (fuel : nat) (s : config) : result config :=
  match step s with
  | None => Ok s
  | Some r =>
      match fuel with
      | O => NoFuel
      | S fuel => s ← r; run_config fuel s
      end
  end.

(** A program starts without catchers. *)
Definition start (c : cmd) (w : world) : config := Config (FCmd c) [] (Runtime w ∅ None 0).

(** [NOTHROW(fn, ...)] *)
Definition NOTHROW (e : nat) (fn : cmd) : cmd := Try e (Call fn) Skip (EatSmallExp e).

End Exc.
