(* ===== verification/ExceptionsFacts.v ===== *)
(** The exceptions of the replayer do what their reader expects.

    [exec] is the meaning of a command by recursion on it, without jumps,
    contexts or catchers; the machine of Exceptions.v, which has them, computes
    it for every client that does not return out of the body of a [TRY]. *)
From stdpp Require Import relations.
From S2P Require Import Prelude Exceptions.

Module ExcFacts.
Import Exc.

(** ** The reference *)

Inductive ending :=
| Normal
| Threw (x : exception_t)
| Broke
| Continued
| Returned
| Astray.

Fixpoint exec (c : cmd) (w : world) : ending * world :=
  match c with
  | Skip => (Normal, w)
  | Act n => (Normal, observe w (Did n))
  | SetErrno v => (Normal, set_errno w v)
  | Seq a b => match exec a w with (Normal, w) => exec b w | r => r end
  | Throw type val level msg => (Threw (make_exception w type val level msg), w)
  | Rethrow e =>
      let x := exps w e in
      let w := set_errno w (throw_time_errno x) in
      (Threw (make_exception w (e_type x) (e_val x) (e_level x) (e_msg x)), w)
  | EatSmallExp e =>
      let x := exps w e in
      if (e_level x =? EXP_LV_LOWEST) || (e_level x =? EXP_LV_TAINTED) then (Normal, w)
      else match print_exception w x with
           | Ok w =>
               let w := set_errno w (throw_time_errno x) in
               (Threw (make_exception w (e_type x) (e_val x) (e_level x) (e_msg x)), w)
           | _ => (Astray, w)
           end
  | Try e body fin hnd =>
      let '(o, w) := exec body (set_exp w e no_exception) in
      match o with
      | Returned | Astray => (o, w)
      | _ =>
          let w := match o with Threw x => set_exp w e x | _ => w end in
          match exec fin w with
          | (Normal, w) => if e_type (exps w e) =? EXP_NO_EXCEPTION then (Normal, w) else exec hnd w
          | r => r
          end
      end
  | Break => (Broke, w)
  | Continue => (Continued, w)
  | Call body => match exec body w with (Returned, w) => (Normal, w) | r => r end
  | Return => (Returned, w)
  end.

(** ** Well-formed clients *)

(** [break] and [continue] are inside a [TRY] body of their function ([lp]);
    [return] is not ([bd]). *)
Fixpoint wf (lp bd : bool) (c : cmd) : bool :=
  match c with
  | Seq a b => wf lp bd a && wf lp bd b
  | Try _ body fin hnd => wf true true body && wf lp bd fin && wf lp bd hnd
  | Break | Continue => lp
  | Call body => wf false false body
  | Return => negb bd
  | _ => true
  end.

Definition allowed (lp bd : bool) (o : ending) : Prop :=
  match o with
  | Broke | Continued => lp = true
  | Returned => bd = false
  | _ => True
  end.

Lemma wf_allowed c : forall lp bd w, wf lp bd c = true -> allowed lp bd (exec c w).1.
Proof.
  induction c as [| | |a IHa b IHb| | | |e body IHb fin IHf hnd IHh| | |body IHb|]; intros lp bd w Hw;
    cbn [wf exec] in *; try done.
  - apply andb_true_iff in Hw as [Ha Hb]. specialize (IHa _ _ w Ha).
    destruct (exec a w) as [[] w1]; try done. by apply IHb.
  - cbn. by repeat case_match.
  - apply andb_true_iff in Hw as [[Hb Hf]%andb_true_iff Hh]. specialize (IHb _ _ (set_exp w e no_exception) Hb).
    assert (Hr : forall v, allowed lp bd (match exec fin v with
      | (Normal, w) => if e_type (exps w e) =? EXP_NO_EXCEPTION then (Normal, w) else exec hnd w
      | r => r end).1).
    { intros v. specialize (IHf _ _ v Hf). destruct (exec fin v) as [[] w2]; try exact IHf.
      destruct (e_type _ =? _); [done|by apply IHh]. }
    destruct (exec body _) as [o w1]. destruct o; (apply Hr || done).
  - specialize (IHb _ _ w Hw). by destruct (exec body w) as [[] w1].
  - by apply negb_true_iff.
Qed.

(** ** The catchers of the machine *)

(** The bodies the continuation is inside of, innermost first. *)
Fixpoint bodies (k : list frame) : list (try_block * list frame) :=
  match k with
  | [] => []
  | KBody t :: k => (t, k) :: bodies k
  | _ :: k => bodies k
  end.

(** Their catchers are the list from [p], all executing their body. *)
Fixpoint linked (m : gmap nat catcher_t) (n : nat) (p : option nat) (bs : list (try_block * list frame)) : Prop :=
  match bs with
  | [] => p = None
  | (t, k) :: bs => p = Some (t_addr t) /\ (t_addr t < n)%nat /\
      exists q, m !! t_addr t = Some (Catcher (Some (JmpBuf t k)) CATCHER_EXEC_BODY (t_exp t) q) /\
        linked m (t_addr t) q bs
  end.

Definition good (h : runtime) (bs : list (try_block * list frame)) : Prop :=
  linked (catchers h) (next_addr h) (curr_catcher_p h) bs.

Lemma linked_mono m n n' p bs : (n <= n')%nat -> linked m n p bs -> linked m n' p bs.
Proof. destruct bs as [|[t k] bs]; [done|]. intros Hn (-> & Ha & q & Hq & Hl). repeat split; [lia|]. by exists q. Qed.

Lemma linked_insert m n p bs a c : (n <= a)%nat -> linked m n p bs -> linked (<[a := c]> m) n p bs.
Proof.
  revert n p. induction bs as [|[t k] bs IH]; intros n p Ha; [done|].
  intros (-> & Hn & q & Hq & Hl). repeat split; [done|]. exists q.
  rewrite lookup_insert_ne by lia. split; [done|]. apply IH; [lia|done].
Qed.

Lemma good_world h w bs : good h bs -> good (set_world h w) bs.
Proof. done. Qed.

(** ** Steps *)

Definition steps : config -> config -> Prop := rtc (fun s s' => step s = Some (Ok s')).

Lemma steps_one s s' : step s = Some (Ok s') -> steps s s'.
Proof. intros Hs. by apply rtc_once. Qed.

Lemma steps_then s s1 s' : steps s s1 -> steps s1 s' -> steps s s'.
Proof. intros H1 H2. by transitivity s1. Qed.

Lemma run_steps s s' : steps s s' -> forall r n, run_config n s' = r -> r <> NoFuel -> exists n', run_config n' s = r.
Proof.
  induction 1 as [s|s s1 s' Hs _ IH]; intros r n Hr Hn; [by exists n|].
  destruct (IH r n Hr Hn) as [n' Hn']. exists (S n'). cbn [run_config]. by rewrite Hs.
Qed.

Lemma run_halt s : step s = None -> run_config 0 s = Ok s.
Proof. intros Hs. cbn. by rewrite Hs. Qed.

Lemma run_stuck s k : step s = Some (Stray k) -> run_config 1 s = Stray k.
Proof. intros Hs. cbn. by rewrite Hs. Qed.

Lemma run_fatal s : step s = Some Fatal -> run_config 1 s = Fatal.
Proof. intros Hs. cbn. by rewrite Hs. Qed.

(** ** The life of a catcher *)

(** The block [t], entered with the continuation [k] inside of [bs], is the
    current one and its catcher is in the state [s]. *)
Definition inside (h : runtime) (t : try_block) (k : list frame) (s : catcher_state) : Prop :=
  curr_catcher_p h = Some (t_addr t) /\ (t_addr t < next_addr h)%nat /\
  exists q, catchers h !! t_addr t = Some (Catcher (Some (JmpBuf t k)) s (t_exp t) q) /\
    linked (catchers h) (t_addr t) q (bodies k).

Lemma inside_good h t k : inside h t k CATCHER_EXEC_BODY -> good h (bodies (KBody t :: k)).
Proof. intros (Hc & Ha & q & Hq & Hl). repeat split; [done|done|]. by exists q. Qed.

Lemma good_inside h t k : good h (bodies (KBody t :: k)) -> inside h t k CATCHER_EXEC_BODY.
Proof. intros (Hc & Ha & q & Hq & Hl). repeat split; [done|done|]. by exists q. Qed.

(** [c->state = s'] on the current catcher. *)
Lemma set_state_inside h t k s s' :
  inside h t k s -> exists h', set_state h (t_addr t) s' = Ok h' /\ inside h' t k s' /\ the_world h' = the_world h.
Proof.
  intros (Hc & Ha & q & Hq & Hl). unfold set_state, catcher_at. rewrite Hq, bind_Ok.
  eexists. split; [done|]. split; [|done]. repeat split; [done|done|]. exists q. split.
  - apply lookup_insert_eq.
  - by apply linked_insert.
Qed.

Lemma enter_inside h k e body fin hnd :
  good h (bodies k) ->
  exists h', enter_try h k e body fin hnd = Ok (TryBlock (next_addr h) e body fin hnd, h') /\
    inside h' (TryBlock (next_addr h) e body fin hnd) k CATCHER_INIT /\
    the_world h' = set_exp (the_world h) e no_exception.
Proof.
  intros Hg. unfold enter_try, exceptions_state_mc_init, push_catcher, init_set_exception, catcher_at.
  cbn [catchers set_catcher set_world set_curr curr_catcher_p the_world next_addr].
  rewrite lookup_insert_eq, !bind_Ok. cbn [catchers set_catcher set_curr].
  rewrite lookup_insert_eq, bind_Ok. eexists. split; [done|]. split; [|done].
  repeat split; [cbn; lia|]. exists (curr_catcher_p h). split; [apply lookup_insert_eq|].
  cbn. by apply linked_insert, linked_insert, linked_insert.
Qed.

(** The condition of the loop, on entry and after the body. *)
Lemma test_enter h t k :
  inside h t k CATCHER_INIT ->
  exists h', step (Config (FTest t) k h) = Some (Ok (Config (FCmd (t_body t)) (KBody t :: k) h')) /\
    inside h' t k CATCHER_EXEC_BODY /\ the_world h' = the_world h.
Proof.
  intros Hi. destruct (set_state_inside _ _ _ _ CATCHER_EXEC_BODY Hi) as (h' & Hs & Hi' & Hw).
  destruct Hi as (Hc & Ha & q & Hq & _). exists h'. split; [|done].
  cbn [step]. unfold exceptions_state_mc, catcher_at. rewrite Hc, Hq, bind_Ok. cbn [state].
  by rewrite Hs, !bind_Ok.
Qed.

Lemma test_leave h t k s :
  inside h t k s -> s = CATCHER_EXEC_BODY \/ s = CATCHER_THROWN ->
  exists h', step (Config (FTest t) k h) = Some (Ok (Config (FFinal t) k h')) /\
    inside h' t k CATCHER_WAIT_FINALLY /\ the_world h' = the_world h.
Proof.
  intros Hi Hst. destruct (set_state_inside _ _ _ _ CATCHER_WAIT_FINALLY Hi) as (h' & Hs & Hi' & Hw).
  destruct Hi as (Hc & Ha & q & Hq & _). exists h'. split; [|done].
  cbn [step]. unfold exceptions_state_mc, catcher_at. rewrite Hc, Hq, bind_Ok. cbn [state].
  destruct Hst as [-> | ->]; by rewrite Hs, !bind_Ok.
Qed.

Lemma finally_pops h t k s :
  inside h t k s -> s = CATCHER_EXEC_BODY \/ s = CATCHER_WAIT_FINALLY ->
  exists h', step (Config (FFinal t) k h) = Some (Ok (Config (FCmd (t_fin t)) (KFin t :: k) h')) /\
    good h' (bodies k) /\ the_world h' = the_world h.
Proof.
  intros (Hc & Ha & q & Hq & Hl) Hst. exists (set_curr h q). split.
  - cbn [step]. unfold exceptions_state_mc, pop_catcher, catcher_at. rewrite Hc, Hq, bind_Ok. cbn [state].
    destruct Hst as [-> | ->]; by rewrite !bind_Ok.
  - split; [|done]. by apply (linked_mono _ (t_addr t)); [cbn; lia|].
Qed.

(** After the body, however it was left: the code of [FINALLY] runs with the
    catcher gone. *)
Lemma leave_body h t k s :
  inside h t k s -> s = CATCHER_EXEC_BODY \/ s = CATCHER_THROWN ->
  exists h', steps (Config (FTest t) k h) (Config (FCmd (t_fin t)) (KFin t :: k) h') /\
    good h' (bodies k) /\ the_world h' = the_world h.
Proof.
  intros Hi Hs. destruct (test_leave _ _ _ _ Hi Hs) as (h1 & S1 & I1 & W1).
  destruct (finally_pops _ _ _ _ I1 (or_intror eq_refl)) as (h2 & S2 & G2 & W2).
  exists h2. split; [|split; [done|congruence]].
  eapply steps_then; apply steps_one; done.
Qed.

(** A throw with a catcher: a jump to the condition of its loop. *)
Lemma throw_caught h t k x :
  inside h t k CATCHER_EXEC_BODY -> forall k',
  exists h', step (Config (FRaise x) k' h) = Some (Ok (Config (FTest t) k h')) /\
    inside h' t k CATCHER_THROWN /\ the_world h' = set_exp (the_world h) (t_exp t) x.
Proof.
  intros Hi k'. set (h1 := set_world h (set_exp (the_world h) (t_exp t) x)).
  assert (Hi1 : inside h1 t k CATCHER_EXEC_BODY) by exact Hi.
  destruct (set_state_inside _ _ _ _ CATCHER_THROWN Hi1) as (h' & Hs & Hi' & Hw).
  destruct Hi as (Hc & Ha & q & Hq & _). exists h'. split; [|done].
  assert (Hm : exceptions_state_mc h1 CATCH_THROW = Ok (false, h')).
  { unfold exceptions_state_mc, catcher_at. change (curr_catcher_p h1) with (curr_catcher_p h).
    change (catchers h1) with (catchers h). rewrite Hc, Hq, bind_Ok. cbn [state]. by rewrite Hs, bind_Ok. }
  cbn [step]. unfold throw, catcher_at. rewrite Hc, Hq, bind_Ok. cbn [curr_exp]. fold h1.
  rewrite Hm, bind_Ok. destruct Hi' as (_ & _ & q' & -> & _). by rewrite !bind_Ok.
Qed.

(** ** The machine computes the reference *)

(** From [s] the machine comes to the end [r], inside of [k]. *)
Definition ends (s : config) (k : list frame) (r : ending * world) : Prop :=
  match r.1 with
  | Astray => exists s', steps s s' /\ step s' = Some (Stray Rd)
  | o => exists h' k', good h' (bodies k) /\ the_world h' = r.2 /\
      match o with
      | Normal => k' = k /\ steps s (Config FDone k' h')
      | Broke => k' = k /\ steps s (Config FBreak k' h')
      | Continued => k' = k /\ steps s (Config FContinue k' h')
      | Returned => k' = k /\ steps s (Config FReturn k' h')
      | Threw x => steps s (Config (FRaise x) k' h')
      | Astray => False
      end
  end.

Lemma ends_steps s s1 k r : steps s s1 -> ends s1 k r -> ends s k r.
Proof.
  intros Hs. destruct r as [o w]. unfold ends. cbn [fst snd].
  destruct o; [| | | | |intros (s' & H1 & H2); exists s'; split; [by eapply steps_then|done]];
    intros (h' & k' & Hg & Hw & He); exists h', k'; (split; [done|]; split; [done|]);
    repeat match goal with H : _ /\ _ |- _ => destruct H | |- _ /\ _ => split; [done|] end;
    by eapply steps_then.
Qed.

(** A frame that every jump but a throw leaves in one step. *)
Definition transparent (f : frame) : bool :=
  match f with KSeq _ | KFin _ => true | _ => false end.

Lemma ends_pop s k f r : transparent f = true -> r.1 <> Normal -> ends s (f :: k) r -> ends s k r.
Proof.
  destruct r as [o w]. unfold ends. cbn [fst snd]. intros Hf Hr.
  assert (Hb : bodies (f :: k) = bodies k) by (by destruct f).
  rewrite Hb. destruct o; [done| | | | |done];
    intros (h' & k' & Hg & Hw & He); [by exists h', k'|..];
    destruct He as [-> He]; exists h', k; (split; [done|]; split; [done|]; split; [done|]);
    (eapply steps_then; [done|]; apply steps_one; by destruct f).
Qed.

(** What the machine does next at an end. *)
Definition focus_of (o : ending) : focus :=
  match o with
  | Threw x => FRaise x
  | Broke => FBreak
  | Continued => FContinue
  | Returned => FReturn
  | _ => FDone
  end.

Lemma ends_at o k h w :
  good h (bodies k) -> the_world h = w -> o <> Astray -> ends (Config (focus_of o) k h) k (o, w).
Proof.
  intros Hg Hw Ho. unfold ends. cbn [fst snd].
  destruct o; try done; exists h, k; repeat split; try done; apply rtc_refl.
Qed.

(** The code after the body of a [TRY]. *)
Lemma ends_after e body fin hnd h k w :
  good h (bodies k) -> the_world h = w ->
  (forall h k, good h (bodies k) -> ends (Config (FCmd fin) k h) k (exec fin (the_world h))) ->
  (forall h k, good h (bodies k) -> ends (Config (FCmd hnd) k h) k (exec hnd (the_world h))) ->
  forall a, ends (Config (FCmd fin) (KFin (TryBlock a e body fin hnd) :: k) h) k
    match exec fin w with
    | (Normal, w) => if e_type (exps w e) =? EXP_NO_EXCEPTION then (Normal, w) else exec hnd w
    | r => r
    end.
Proof.
  intros Hg <- IHf IHh a. set (t := TryBlock a e body fin hnd).
  specialize (IHf h (KFin t :: k) Hg). destruct (exec fin (the_world h)) as [o w2] eqn:E.
  destruct o; try by apply (ends_pop _ _ (KFin t)).
  destruct IHf as (h2 & k2 & Hg2 & Hw2 & -> & Hs). cbn [snd] in Hw2. subst w2.
  eapply ends_steps; [exact Hs|].
  destruct (e_type (exps (the_world h2) e) =? EXP_NO_EXCEPTION) eqn:Et.
  - eapply ends_steps; [apply steps_one; cbn; by rewrite Et|]. by apply (ends_at Normal).
  - eapply ends_steps; [apply steps_one; cbn; by rewrite Et|]. by apply IHh.
Qed.

(** What is shown of a command, wherever it is executed. *)
Definition computes (lp bd : bool) (c : cmd) : Prop :=
  forall h k, good h (bodies k) -> ends (Config (FCmd c) k h) k (exec c (the_world h)).

Lemma ends_print e lp bd : computes lp bd (EatSmallExp e).
Proof.
  intros h k Hg. cbn [exec]. destruct (_ || _) eqn:El.
  - eapply ends_steps; [apply steps_one; cbn; by rewrite El|]. by apply (ends_at Normal).
  - unfold print_exception. destruct (_ && _) eqn:Ep.
    + eapply ends_steps; [apply steps_one; cbn; rewrite El; unfold print_exception; by rewrite Ep|].
      by apply (ends_at (Threw _)).
    + exists (Config (FCmd (EatSmallExp e)) k h). split; [apply rtc_refl|]. cbn.
      rewrite El. unfold print_exception. by rewrite Ep.
Qed.

(** The end of a body, and the way from there to the code of [FINALLY]. *)
Lemma ends_body t k h o w :
  ends (Config (FCmd (t_body t)) (KBody t :: k) h) (KBody t :: k) (o, w) -> o <> Returned -> o <> Astray ->
  exists h', steps (Config (FCmd (t_body t)) (KBody t :: k) h) (Config (FCmd (t_fin t)) (KFin t :: k) h') /\
    good h' (bodies k) /\ the_world h' = match o with Threw x => set_exp w (t_exp t) x | _ => w end.
Proof.
  unfold ends. cbn [fst snd]. intros Hb Hr Ha. destruct o as [|x| | | |]; try done;
    destruct Hb as (h3 & k3 & Hg3 & <- & Hs); apply good_inside in Hg3; [destruct Hs as [-> Hs]| |destruct Hs as [-> Hs]..].
  - destruct (leave_body _ _ _ _ Hg3 (or_introl eq_refl)) as (h4 & S4 & G4 & W4). exists h4.
    split; [|done]. eapply steps_then; [exact Hs|]. eapply steps_then; [by apply steps_one|done].
  - destruct (throw_caught _ _ _ x Hg3 k3) as (h4 & S4 & I4 & W4).
    destruct (leave_body _ _ _ _ I4 (or_intror eq_refl)) as (h5 & S5 & G5 & W5). exists h5.
    split; [|split; [done|congruence]].
    eapply steps_then; [exact Hs|]. eapply steps_then; [by apply steps_one|done].
  - destruct (finally_pops _ _ _ _ Hg3 (or_introl eq_refl)) as (h4 & S4 & G4 & W4). exists h4.
    split; [|done]. eapply steps_then; [exact Hs|]. eapply steps_then; by apply steps_one.
  - destruct (leave_body _ _ _ _ Hg3 (or_introl eq_refl)) as (h4 & S4 & G4 & W4). exists h4.
    split; [|done]. eapply steps_then; [exact Hs|]. eapply steps_then; [by apply steps_one|done].
Qed.

Lemma ends_try lp bd e body fin hnd :
  wf true true body = true -> computes true true body -> computes lp bd fin -> computes lp bd hnd ->
  computes lp bd (Try e body fin hnd).
Proof.
  intros Hb IHb IHf IHh h k Hg. cbn [exec].
  destruct (enter_inside h k e body fin hnd Hg) as (h1 & He & I1 & W1).
  set (t := TryBlock (next_addr h) e body fin hnd) in *.
  destruct (test_enter _ _ _ I1) as (h2 & S2 & I2 & W2).
  eapply ends_steps; [apply steps_one; cbn; by rewrite He|].
  eapply ends_steps; [by apply steps_one|]. rewrite W1 in W2. rewrite <- W2.
  pose proof (wf_allowed body true true (the_world h2) Hb) as Hal.
  specialize (IHb h2 (KBody t :: k) (inside_good _ _ _ I2)). change (t_body t) with body.
  destruct (exec body (the_world h2)) as [o w3]. cbn [fst] in Hal.
  assert (Hn : o = Astray \/ o <> Returned /\ o <> Astray) by (destruct o; auto; done).
  destruct Hn as [-> | [Hr Ha]]; [exact IHb|].
  destruct (ends_body t k h2 o w3 IHb Hr Ha) as (h4 & S4 & G4 & W4).
  eapply ends_steps; [exact S4|]. change (t_exp t) with e in W4.
  destruct o; try done; by apply ends_after.
Qed.

Lemma ends_call lp bd body :
  wf false false body = true -> computes false false body -> computes lp bd (Call body).
Proof.
  intros Hw IHb h k Hg. cbn [exec]. eapply ends_steps; [by apply steps_one|].
  pose proof (wf_allowed body false false (the_world h) Hw) as Hal.
  specialize (IHb h (KCall :: k) Hg). destruct (exec body (the_world h)) as [o w1].
  destruct o; cbn [fst allowed] in Hal; try done; unfold ends in IHb |- *; cbn [fst snd] in *;
    destruct IHb as (h1 & k1 & Hg1 & Hw1 & -> & Hs); exists h1, k; (split; [done|]; split; [done|]; split; [done|]);
    (eapply steps_then; [exact Hs|]); by apply steps_one.
Qed.

Lemma exec_ends c : forall lp bd, wf lp bd c = true -> computes lp bd c.
Proof.
  induction c as [|n|v|a IHa b IHb|ty val lv msg|e|e|e body IHb fin IHf hnd IHh| | |body IHb|];
    intros lp bd Hw; cbn [wf] in Hw.
  4: apply andb_true_iff in Hw as [Ha Hb]; intros h k Hg; cbn [exec].
  1, 2, 3, 5, 6, 9, 10, 12: intros h k Hg; cbn [exec]; (eapply ends_steps; [by apply steps_one|]).
  1, 2, 3: by apply (ends_at Normal).
  1, 2: by apply (ends_at (Threw _)).
  - by apply (ends_at Broke).
  - by apply (ends_at Continued).
  - by apply (ends_at Returned).
  - eapply ends_steps; [by apply steps_one|].
    specialize (IHa _ _ Ha h (KSeq b :: k) Hg). destruct (exec a (the_world h)) as [o w1].
    destruct o; try by apply (ends_pop _ _ (KSeq b)).
    destruct IHa as (h1 & k1 & Hg1 & Hw1 & -> & Hs). cbn [snd] in Hw1. subst w1.
    eapply ends_steps; [exact Hs|]. eapply ends_steps; [by apply steps_one|]. by apply (IHb _ _ Hb).
  - apply (ends_print e lp bd).
  - apply andb_true_iff in Hw as [[Hb Hf]%andb_true_iff Hh]. apply ends_try; auto.
  - apply ends_call; auto.
Qed.

(** ** What a client gets *)

Lemma start_good w : good (Runtime w ∅ None 0) (bodies []).
Proof. done. Qed.

Lemma ends_program c w : wf false false c = true -> ends (start c w) [] (exec c w).
Proof. intros Hw. exact (exec_ends c _ _ Hw _ [] (start_good w)). Qed.

(** C15: a program that uses the exceptions and does not return out of the body
    of a [TRY] does on the machine of contexts and catchers exactly what its
    text says: the same actions, variables and [errno], every body left through
    its [FINALLY], every exception at its innermost handler; it ends with no
    catcher left on the list, or with an exception nobody catches, and then the
    process is ended. *)
Theorem exceptions_refine c w :
  wf false false c = true ->
  exists n,
    match exec c w with
    | (Normal, w') => exists h, run_config n (start c w) = Ok (Config FDone [] h) /\
        the_world h = w' /\ curr_catcher_p h = None
    | (Returned, w') => exists h, run_config n (start c w) = Ok (Config FReturn [] h) /\
        the_world h = w' /\ curr_catcher_p h = None
    | (Threw x, w') => run_config n (start c w) =
        if (0 <=? e_type x) && (e_type x <? NR_EXP_TYPES) then Fatal else Stray Rd
    | (Astray, _) => run_config n (start c w) = Stray Rd
    | _ => False
    end.
Proof.
  intros Hw. pose proof (ends_program c w Hw) as He. pose proof (wf_allowed c false false w Hw) as Ha.
  destruct (exec c w) as [o w']. unfold ends in He. cbn [fst snd] in *.
  destruct o as [|x| | | |]; try done.
  - destruct He as (h & k & Hg & Hw' & -> & Hs).
    destruct (run_steps _ _ Hs _ 0%nat (run_halt (Config FDone [] h) eq_refl)) as [n Hn]; [done|]. by exists n, h.
  - destruct He as (h & k & Hg & Hw' & Hs).
    destruct (run_steps _ _ Hs (if (0 <=? e_type x) && (e_type x <? NR_EXP_TYPES) then Fatal else Stray Rd) 1%nat)
      as [n Hn]; [|by destruct (_ && _)|by exists n].
    cbn. unfold throw. change (curr_catcher_p h = None) in Hg. rewrite Hg. unfold print_exception.
    by destruct (_ && _).
  - destruct He as (h & k & Hg & Hw' & -> & Hs).
    destruct (run_steps _ _ Hs _ 0%nat (run_halt (Config FReturn [] h) eq_refl)) as [n Hn]; [done|]. by exists n, h.
  - destruct He as (s' & Hs & Hk).
    destruct (run_steps _ _ Hs _ 1%nat (run_stuck _ _ Hk)) as [n Hn]; [done|]. by exists n.
Qed.

Definition clean : world := World (fun _ => no_exception) 0 [].

(** Two nested blocks: the inner handler throws again, the outer one eats it. *)
Definition nested : cmd :=
  Try 0 (Seq (Act 1)
             (Try 1 (Seq (SetErrno 5) (Throw 3 7 1 [104; 105])) (Act 2) (Seq (Act 3) (Rethrow 1))))
        (Act 4) (Seq (EatSmallExp 0) (Act 5)).

Lemma exceptions_refine_witness :
  exists n,
    match exec nested clean with
    | (Normal, w') => exists h, run_config n (start nested clean) = Ok (Config FDone [] h) /\
        the_world h = w' /\ curr_catcher_p h = None
    | (Returned, w') => exists h, run_config n (start nested clean) = Ok (Config FReturn [] h) /\
        the_world h = w' /\ curr_catcher_p h = None
    | (Threw x, w') => run_config n (start nested clean) =
        if (0 <=? e_type x) && (e_type x <? NR_EXP_TYPES) then Fatal else Stray Rd
    | (Astray, _) => run_config n (start nested clean) = Stray Rd
    | _ => False
    end.
Proof. exact (exceptions_refine nested clean eq_refl). Defined.

(** The trace of [nested]: both [FINALLY] parts and both handlers, in order. *)
Example nested_trace : trace (exec nested clean).2 = [Did 1; Did 2; Did 3; Did 4; Did 5].
Proof. by vm_compute. Qed.

(** A [return] out of the body of a [TRY] leaves its catcher on the list: the
    next throw follows a pointer to a dead object, where the text of the program
    says that the exception is not caught. *)
Lemma return_dangles e fin hnd type val level msg w :
  let c := Seq (Call (Try e Return fin hnd)) (Throw type val level msg) in
  (exists n, run_config n (start c w) = Stray Rd) /\
  exists x, (exec c w).1 = Threw x.
Proof.
  cbn zeta. split; [|by eexists].
  set (thr := Throw type val level msg). set (h0 := Runtime w ∅ None 0).
  destruct (enter_inside h0 [KCall; KSeq thr] e Return fin hnd (start_good w)) as (h1 & He & I1 & _).
  destruct (test_enter _ _ _ I1) as (h2 & S2 & (Hc & _) & _).
  set (t := TryBlock _ _ _ _ _) in *.
  set (s := Config (FRaise (make_exception (the_world h2) type val level msg)) [] (kill h2 (t_addr t))).
  assert (Hs : steps (start (Seq (Call (Try e Return fin hnd)) thr) w) s).
  { do 2 (eapply rtc_l; [done|]). eapply rtc_l; [cbn; fold h0; by rewrite He|].
    eapply rtc_l; [exact S2|]. repeat (eapply rtc_l; [done|]). apply rtc_refl. }
  refine (run_steps _ _ Hs _ 1%nat (run_stuck _ Rd _) _); [|done].
  cbn. unfold throw. cbn [curr_catcher_p kill]. rewrite Hc. unfold catcher_at. cbn [catchers kill].
  by rewrite lookup_delete_eq.
Qed.

(** [NOTHROW] eats the exceptions that leave the process sound, and prints and
    passes on the others. *)
Lemma nothrow_spec e fn w x w' :
  exec fn (set_exp w e no_exception) = (Threw x, w') -> e_type x <> EXP_NO_EXCEPTION ->
  exec (NOTHROW e fn) w =
    let w := set_exp w' e x in
    if (e_level x =? EXP_LV_LOWEST) || (e_level x =? EXP_LV_TAINTED) then (Normal, w)
    else match print_exception w x with
         | Ok w =>
             let w := set_errno w (throw_time_errno x) in
             (Threw (make_exception w (e_type x) (e_val x) (e_level x) (e_msg x)), w)
         | _ => (Astray, w)
         end.
Proof.
  intros Hf Ht. unfold NOTHROW. cbn [exec]. rewrite Hf. cbn [exps set_exp]. rewrite decide_True by done.
  apply Z.eqb_neq in Ht as ->. done.
Qed.

(** ** Configurations have types *)

(** The innermost enclosing construct is a body (and not a function). *)
Fixpoint in_try (k : list frame) : bool :=
  match k with
  | [] => false
  | KBody _ :: _ => true
  | KCall :: _ => false
  | _ :: k => in_try k
  end.

Definition wf_in (k : list frame) (c : cmd) : bool := wf (in_try k) (in_try k) c.

Definition wf_block (k : list frame) (t : try_block) : Prop :=
  wf true true (t_body t) = true /\ wf_in k (t_fin t) = true /\ wf_in k (t_hnd t) = true.

Fixpoint typed (k : list frame) : Prop :=
  match k with
  | [] => True
  | KSeq b :: k => wf_in k b = true /\ typed k
  | KBody t :: k => wf_block k t /\ typed k
  | KFin t :: k => wf_in k (t_hnd t) = true /\ typed k
  | KCall :: k => typed k
  end.

(** The catcher list and the states agree with the place the program is at. *)
Definition well_typed (s : config) : Prop :=
  let '(Config f k h) := s in
  typed k /\
  match f with
  | FCmd c => wf_in k c = true /\ good h (bodies k)
  | FDone | FRaise _ => good h (bodies k)
  | FBreak | FContinue => in_try k = true /\ good h (bodies k)
  | FReturn => in_try k = false /\ good h (bodies k)
  | FTest t => wf_block k t /\ exists s, inside h t k s /\ s <> CATCHER_WAIT_FINALLY
  | FFinal t => wf_block k t /\ exists s, inside h t k s /\ (s = CATCHER_EXEC_BODY \/ s = CATCHER_WAIT_FINALLY)
  end.

(** How a typed configuration can go on. *)
Definition progresses (s : config) : Prop :=
  match step s with
  | Some (Ok s') => well_typed s'
  | Some Fatal => exists x, at_ s = FRaise x /\ curr_catcher_p (rt s) = None
  | Some (Stray _) =>
      exists x, ~ 0 <= e_type x < NR_EXP_TYPES /\
        (at_ s = FRaise x /\ curr_catcher_p (rt s) = None \/
         exists e, at_ s = FCmd (EatSmallExp e) /\ x = exps (the_world (rt s)) e)
  | Some NoFuel => False
  | None => (at_ s = FDone \/ at_ s = FReturn) /\ cont s = [] /\ curr_catcher_p (rt s) = None
  end.

Lemma bodies_typed k t k0 bs : typed k -> bodies k = (t, k0) :: bs -> typed k0 /\ wf_block k0 t /\ bs = bodies k0.
Proof.
  induction k as [|[b|t'|t'|] k IH]; cbn [typed bodies]; [done| | | |];
    [intros [_ Hk]|intros [Ht Hk] [= <- <- <-]; done|intros [_ Hk]|intros Hk]; by apply IH.
Qed.

Lemma print_types w x :
  match print_exception w x with
  | Ok w' => w' = set_errno (observe w (Printed (e_type x))) 0
  | Stray _ => ~ 0 <= e_type x < NR_EXP_TYPES
  | _ => False
  end.
Proof.
  unfold print_exception. destruct (_ && _) eqn:E; [done|].
  apply andb_false_iff in E as [E%Z.leb_gt|E%Z.ltb_ge]; lia.
Qed.

Lemma progress_cmd c k h : well_typed (Config (FCmd c) k h) -> progresses (Config (FCmd c) k h).
Proof.
  intros (Hk & Hc & Hg). unfold progresses. cbn [step at_ rt].
  destruct c as [|n|v|a b|ty val lv msg|e|e|e body fin hnd| | |body|]; cbn [step_cmd]; try done.
  - apply andb_true_iff in Hc as [Ha Hb]. done.
  - destruct (_ || _); [done|]. pose proof (print_types (the_world h) (exps (the_world h) e)) as Hp.
    destruct (print_exception _ _) as [w| | |]; try done. exists (exps (the_world h) e). split; [done|].
    right. by exists e.
  - destruct (enter_inside h k e body fin hnd Hg) as (h1 & -> & I1 & _). rewrite bind_Ok.
    apply andb_true_iff in Hc as [[Hb Hf]%andb_true_iff Hh]. split; [done|]. split; [done|].
    by exists CATCHER_INIT.
  - split; [done|]. split; [|done]. by apply negb_true_iff.
Qed.

Lemma progress_state f k h :
  match f with FCmd _ | FDone | FBreak | FContinue | FReturn => False | _ => True end ->
  well_typed (Config f k h) -> progresses (Config f k h).
Proof.
  destruct f as [c| |t|t|x| | |]; try done; intros _ (Hk & Hf).
  - destruct Hf as (Ht & s & Hi & Hs). unfold progresses. destruct s; try done.
    + destruct (test_enter _ _ _ Hi) as (h' & -> & Hi' & _). split; [by split|].
      split; [apply Ht|by apply inside_good].
    + destruct (test_leave _ _ _ _ Hi (or_introl eq_refl)) as (h' & -> & Hi' & _).
      split; [done|]. split; [done|]. exists CATCHER_WAIT_FINALLY. auto.
    + destruct (test_leave _ _ _ _ Hi (or_intror eq_refl)) as (h' & -> & Hi' & _).
      split; [done|]. split; [done|]. exists CATCHER_WAIT_FINALLY. auto.
  - destruct Hf as (Ht & s & Hi & Hs). unfold progresses.
    destruct (finally_pops _ _ _ _ Hi Hs) as (h' & -> & Hg & _). destruct Ht as (Hb & Hfin & Hh).
    split; [by split|]. by split.
  - unfold progresses. destruct (bodies k) as [|[t k0] bs] eqn:Eb.
    + change (curr_catcher_p h = None) in Hf. cbn [step]. unfold throw. rewrite Hf.
      pose proof (print_types (the_world h) x) as Hp. destruct (print_exception _ _); try done.
      * by exists x.
      * exists x. auto.
    + destruct (bodies_typed _ _ _ _ Hk Eb) as (Hk0 & Ht & ->).
      destruct (throw_caught h t k0 x (good_inside _ _ _ Hf) k) as (h' & -> & Hi & _).
      split; [done|]. split; [done|]. by exists CATCHER_THROWN.
Qed.

Lemma progress_jump f k h :
  match f with FDone | FBreak | FContinue | FReturn => True | _ => False end ->
  well_typed (Config f k h) -> progresses (Config f k h).
Proof.
  destruct k as [|[b|t|t|] k]; destruct f as [c| |t'|t'|x| | |]; try done; intros _ (Hk & Hf); unfold progresses.
  all: cbn [step at_ rt cont typed in_try bodies] in *.
  all: try lazymatch type of Hf with _ /\ _ => destruct Hf as [Hi Hf] end; try done.
  all: try lazymatch type of Hk with _ /\ _ => destruct Hk as [Ht Hk] end.
  all: try (apply good_inside in Hf); try (by repeat split; auto).
  - split; [done|]. split; [done|]. by exists CATCHER_EXEC_BODY.
  - split; [done|]. split; [done|]. exists CATCHER_EXEC_BODY. auto.
  - split; [done|]. split; [done|]. by exists CATCHER_EXEC_BODY.
  - destruct (negb _); by repeat split.
Qed.

(** C18: clients have types, and typed configurations stay so: whenever a program
    that does not return out of the body of a [TRY] has come to a configuration,
    the catchers are the blocks it is inside of, in their order, each in the
    state that belongs to its place, with the context to return to; the next
    step exists and keeps that, unless the program is finished with an empty
    list, nobody catches an exception, or the name of a type that does not exist
    is to be printed. *)
Theorem exceptions_typed c w s :
  wf false false c = true -> steps (start c w) s -> well_typed s /\ progresses s.
Proof.
  intros Hw Hs.
  assert (Hp : forall s, well_typed s -> progresses s).
  { intros [f k h] Ht. destruct f; try (by apply progress_state); try (by apply progress_jump).
    by apply progress_cmd. }
  cut (well_typed s); [auto|].
  assert (H0 : well_typed (start c w)) by (by split).
  revert H0. induction Hs as [s|s s1 s' Hstep _ IH]; [done|]. intros H0.
  apply Hp in H0. unfold progresses in H0. rewrite Hstep in H0. auto.
Qed.

Lemma exceptions_typed_witness :
  well_typed (start nested clean) /\ progresses (start nested clean).
Proof. apply (exceptions_typed nested clean); [reflexivity|apply rtc_refl]. Defined.

End ExcFacts.
