(* ===== verification/PrintfText.v ===== *)
(** The text of a known format: rounds of [vsnprintf] that copy text, print a
    plain or a zero-padded integer, or a string, as the text they append. The
    names of the recorder's files are made of these. *)
From S2P Require Import Prelude Ctype CString CStringFacts Numbers Vsprintf VsprintfFacts.

Module PrintfText.
Import Ctype Str StrFacts Num Vs VsFacts.

(** ** Decimal texts *)

Definition dec (n : Z) : list Z := text 0 10 n.
(** At least [w] digits. *)
Definition zdec (w : nat) (n : Z) : list Z := replicate (w - length (dec n)) 48 ++ dec n.

Lemma length_dec f n : 0 <= n < 10 ^ Z.of_nat f -> (0 < f <= 64)%nat -> (length (dec n) <= f)%nat.
Proof.
  intros Hn Hf. unfold dec, text. rewrite length_map, length_rev. unfold digits.
  replace 64%nat with (f + (64 - f))%nat by lia. rewrite digits_rev_enough by lia.
  destruct f as [|f]; [lia|]. apply digits_rev_length.
Qed.

Lemma length_zdec w n : (0 < w <= 64)%nat -> 0 <= n < 10 ^ Z.of_nat w -> length (zdec w n) = w.
Proof.
  intros Hw Hn. unfold zdec. rewrite length_app, length_replicate.
  pose proof (length_dec w n Hn Hw). lia.
Qed.

(** The number a decimal text stands for. *)
Definition value (l : list Z) : Z := fold_left (fun a c => a * 10 + (c - 48)) l 0.

Lemma dec_char d : 0 <= d < 10 -> digit_char 0 d = d + 48.
Proof.
  intros Hd. assert (Hc : d = 0 \/ d = 1 \/ d = 2 \/ d = 3 \/ d = 4 \/ d = 5 \/ d = 6 \/ d = 7 \/ d = 8 \/ d = 9) by lia.
  by repeat destruct Hc as [-> | Hc]; [..|subst].
Qed.

Lemma dec_digits n : dec n = map (fun d => d + 48) (rev (digits 10 n)).
Proof.
  apply map_ext_in. intros d Hd%list_elem_of_In. apply dec_char.
  assert (H : Forall (fun d => 0 <= d < 10) (rev (digits 10 n))) by (apply Forall_rev, digits_rev_range; lia).
  rewrite Forall_forall in H. by apply H.
Qed.

Lemma dec_range n : Forall (fun c => 48 <= c < 58) (dec n).
Proof.
  rewrite dec_digits. apply Forall_map. apply Forall_rev.
  eapply Forall_impl; [apply (digits_rev_range 64 10 n); lia|]. intros d Hd. cbn in *. lia.
Qed.

Lemma value_dec n : 0 <= n < 2 ^ 64 -> value (dec n) = n.
Proof.
  intros Hn. rewrite dec_digits. rewrite <- (horner_digits 64 10 n) at 2; [|lia|by apply text_bound|lia].
  unfold value, horner, digits. generalize 0 (rev (digits_rev 64 10 n)). intros a l. revert a.
  induction l as [|d l IH]; intros a; [done|]. cbn [map fold_left]. rewrite IH. f_equal. lia.
Qed.

Lemma value_zeros k l : value (replicate k 48 ++ l) = value l.
Proof. unfold value. induction k as [|k IH]; [done|]. exact IH. Qed.

Lemma dec_inj a b : 0 <= a < 2 ^ 64 -> 0 <= b < 2 ^ 64 -> dec a = dec b -> a = b.
Proof. intros Ha Hb E. rewrite <- (value_dec a), <- (value_dec b), E by done. done. Qed.

Lemma zdec_inj w a b : 0 <= a < 2 ^ 64 -> 0 <= b < 2 ^ 64 -> zdec w a = zdec w b -> a = b.
Proof.
  intros Ha Hb E. apply (f_equal value) in E. unfold zdec in E. by rewrite !value_zeros, !value_dec in E.
Qed.

(** The field before a separator it does not contain. *)
Lemma field_inj (sep : Z) a b x y : sep ∉ a -> sep ∉ b -> a ++ sep :: x = b ++ sep :: y -> a = b /\ x = y.
Proof.
  revert b. induction a as [|c a IH]; intros [|d b] Ha Hb E; cbn [app] in *; simplify_eq.
  - done.
  - by rewrite not_elem_of_cons in Hb; destruct Hb.
  - by rewrite not_elem_of_cons in Ha; destruct Ha.
  - rewrite not_elem_of_cons in Ha, Hb. destruct (IH b) as [-> ->]; [tauto..|done|done].
Qed.

Lemma dec_no_dash n : 45 ∉ dec n.
Proof. intros H. pose proof (dec_range n) as Hr. rewrite Forall_forall in Hr. specialize (Hr _ H). lia. Qed.

(** ** Padding *)

Lemma put_replicate oend n c st : put_text oend (replicate (S n) c) st = put_text oend (replicate n c) (put1 oend st c).
Proof. done. Qed.

Lemma pad_put oend c w st : 0 <= w < 32768 -> out_ok oend st ->
  pad oend c w st = Ok (-1, put_text oend (replicate (Z.to_nat w) c) st).
Proof.
  intros Hw Hst. unfold pad.
  assert (H : forall n f st, (n < f)%nat -> (Z.of_nat n < 32768) -> out_ok oend st ->
    pad_loop oend f c (Z.of_nat n) st = Ok (-1, put_text oend (replicate n c) st)).
  { induction n as [|n IH]; intros [|f] st0 Hf Hn Ho; try lia; cbn [pad_loop].
    - by rewrite s16_small by lia.
    - rewrite s16_small by lia. destruct (Z.leb_spec 0 (Z.of_nat (S n) - 1)); [|lia].
      rewrite emit_put, bind_Ok by done. replace (Z.of_nat (S n) - 1) with (Z.of_nat n) by lia.
      by rewrite IH by (lia || by apply put1_ok). }
  rewrite <- (Z2Nat.id w) at 2 by lia. apply H; [|lia|done]. unfold u16. rewrite Z.mod_small by lia. lia.
Qed.

(** [%d] and [%lld] of a number that is not negative. *)
Lemma number_sdec oend n spec st : s_flags spec = SIGN -> s_base spec = 10 -> s_width spec = -1 -> s_prec spec = -1 ->
  0 <= n < 2 ^ 63 -> out_ok oend st -> number oend n spec st = Ok (put_text oend (dec n) st).
Proof.
  intros Hf Hb Hw Hp Hn Hst. rewrite number_plain; rewrite ?Hf, ?Hb; try done; [|by right; left|lia]. do 2 f_equal.
  unfold int_text. change (has SIGN SIGN) with true. cbn [andb].
  replace (s64 n) with n; [by destruct (Z.ltb_spec n 0); [lia|]|].
  unfold s64, swrap. rewrite Z.mod_small; lia.
Qed.

Lemma number_dec oend n st : 0 <= n < 2 ^ 31 -> out_ok oend st ->
  number oend n (Spec FORMAT_TYPE_INT SIGN 10 255 (-1) (-1)) st = Ok (put_text oend (dec n) st).
Proof. intros Hn Hst. apply number_sdec; done || lia. Qed.

(** [%0wu] and [%0wlld] of a number with at most [w] digits. *)
Lemma number_padded oend n w spec st : s_flags spec = ZEROPAD \/ s_flags spec = Z.lor ZEROPAD SIGN ->
  s_base spec = 10 -> s_width spec = Z.of_nat w -> s_prec spec = -1 ->
  (0 < w <= 18)%nat -> 0 <= n < 10 ^ Z.of_nat w -> out_ok oend st ->
  number oend n spec st = Ok (put_text oend (zdec w n) st).
Proof.
  intros Hf Hb Hw Hp Hw1 Hn Hst. unfold number. rewrite Hb, Hw, Hp.
  assert (Hn18 : n < 10 ^ 18).
  { apply (Z.lt_le_trans _ _ _ (proj2 Hn)). apply Z.pow_le_mono_r; lia. }
  assert (Hfl : has (s_flags spec) SPECIAL = false /\ has (s_flags spec) LEFT = false /\
    Z.land (s_flags spec) SMALL = 0 /\ has (s_flags spec) (ZEROPAD + LEFT) = true /\ has (s_flags spec) ZEROPAD = true /\
    number_sign (s_flags spec) n (Z.of_nat w) = (0, n, Z.of_nat w)).
  { unfold number_sign. replace (s64 n) with n by (unfold s64, swrap; rewrite Z.mod_small; lia).
    rewrite (proj2 (Z.ltb_ge n 0)) by lia. by destruct Hf as [-> | ->]. }
  destruct Hfl as (E1 & E2 & E3 & E4 & E5 & E6). rewrite E1, E2, E3. cbn [andb]. rewrite E6, E2, E4, E5.
  rewrite number_digits_text; [|by right; left|by left|lia].
  rewrite bind_Ok. set (tmp := map _ _).
  assert (Htmp : rev tmp = dec n) by (unfold tmp, dec, text; by rewrite map_rev).
  assert (Hlen : length tmp = length (dec n)) by (by rewrite <- Htmp, length_rev).
  pose proof (length_dec w n ltac:(lia) ltac:(lia)) as Hl.
  assert (Hl1 : (1 <= length (dec n))%nat).
  { rewrite dec_digits, length_map. destruct (rev (digits 10 n)) eqn:E; [by destruct (digits_not_nil 10 n)|simpl; lia]. }
  unfold zlen. rewrite Hlen. destruct (Z.ltb_spec (-1) (Z.of_nat (length (dec n)))); [|lia].
  rewrite s16_small by lia. cbn [negb Z.eqb]. rewrite !bind_Ok. rewrite pad_put, bind_Ok by (done || lia).
  rewrite zeros_none, bind_Ok by lia. rewrite emits_put, bind_Ok by (by apply put_text_ok).
  rewrite pad_none, bind_Ok by lia. unfold zdec. rewrite put_text_app, Htmp. do 3 f_equal.
  f_equal. lia.
Qed.

Lemma number_zdec oend n st : 0 <= n < 2 ^ 32 -> out_ok oend st ->
  number oend n (Spec FORMAT_TYPE_UINT ZEROPAD 10 255 10 (-1)) st = Ok (put_text oend (zdec 10 n) st).
Proof. intros Hn Hst. apply number_padded; [by left|done|done|done|lia|lia|done]. Qed.

(** ** Hexadecimal texts *)

(** At least [w] digits. *)
Definition zhex (w : nat) (n : Z) : list Z := replicate (w - length (text 32 16 n)) 48 ++ text 32 16 n.

Lemma length_hex w n : (0 < w <= 64)%nat -> 0 <= n < 16 ^ Z.of_nat w -> (1 <= length (text 32 16 n) <= w)%nat.
Proof.
  intros Hw Hn. unfold text. rewrite length_map, length_rev. unfold digits.
  replace 64%nat with (w + (64 - w))%nat by lia. rewrite digits_rev_enough by lia.
  destruct w as [|w]; [lia|]. pose proof (digits_rev_length w 16 n). lia.
Qed.

Lemma length_zhex w n : (0 < w <= 64)%nat -> 0 <= n < 16 ^ Z.of_nat w -> length (zhex w n) = w.
Proof.
  intros Hw Hn. unfold zhex. rewrite length_app, length_replicate. pose proof (length_hex w n Hw Hn). lia.
Qed.

Lemma zeros_put oend st : forall n i fuel, 0 <= i -> i + Z.of_nat n <= 32767 -> (n < fuel)%nat -> out_ok oend st ->
  zeros_loop oend fuel i (i + Z.of_nat n) st = Ok (put_text oend (replicate n 48) st).
Proof.
  intros n. revert st. induction n as [|n IH]; intros st i [|fuel] Hi Hn Hf Hst; try lia; cbn [zeros_loop];
    rewrite s16_small by lia.
  - by destruct (Z.leb_spec i (i + Z.of_nat 0 - 1)); [lia|].
  - destruct (Z.leb_spec i (i + Z.of_nat (S n) - 1)); [|lia]. rewrite emit_put, bind_Ok by done.
    replace (i + Z.of_nat (S n) - 1) with (i + Z.of_nat n) by lia.
    rewrite IH by (lia || by apply put1_ok). done.
Qed.

(** [%w.wx] of a number with at most [w] digits. *)
Lemma number_zhex oend n w spec st :
  s_flags spec = SMALL -> s_base spec = 16 -> s_width spec = Z.of_nat w -> s_prec spec = Z.of_nat w ->
  (0 < w <= 16)%nat -> 0 <= n < 16 ^ Z.of_nat w -> out_ok oend st ->
  number oend n spec st = Ok (put_text oend (zhex w n) st).
Proof.
  intros Hf Hb Hw Hp Hw1 Hn Hst. unfold number. rewrite Hf, Hb, Hw, Hp.
  change (has SMALL SPECIAL) with false. change (has SMALL LEFT) with false.
  change (Z.land SMALL SMALL) with 32. cbn [andb]. unfold number_sign.
  change (has SMALL SIGN) with false. cbv beta iota zeta.
  assert (Hn64 : 0 <= n < 2 ^ 64).
  { split; [lia|]. apply (Z.lt_le_trans _ (16 ^ Z.of_nat w)); [lia|]. change (2 ^ 64) with (16 ^ 16).
    apply Z.pow_le_mono_r; lia. }
  rewrite number_digits_text; [|by right; right|by right|done]. rewrite bind_Ok. set (tmp := map _ _).
  assert (Htmp : rev tmp = text 32 16 n) by (unfold tmp, text; by rewrite map_rev).
  assert (Hlen : length tmp = length (text 32 16 n)) by (by rewrite <- Htmp, length_rev).
  pose proof (length_hex w n ltac:(lia) Hn) as Hl. unfold zlen. rewrite Hlen.
  replace (if Z.of_nat w <? _ then _ else Z.of_nat w) with (Z.of_nat w)
    by (destruct (Z.ltb_spec (Z.of_nat w) (Z.of_nat (length (text 32 16 n)))); lia).
  rewrite s16_small by lia. change (has SMALL (ZEROPAD + LEFT)) with false. change (has SMALL ZEROPAD) with false.
  change (has SMALL LEFT) with false. cbn [negb Z.eqb].
  rewrite pad_none, bind_Ok by lia. rewrite !bind_Ok. rewrite pad_none, bind_Ok by lia.
  set (k := length (text 32 16 n)) in *.
  pose proof (zeros_put oend st (w - k) (Z.of_nat k) (S (Z.to_nat (Z.of_nat w)))) as Hz.
  replace (Z.of_nat k + Z.of_nat (w - k)) with (Z.of_nat w) in Hz by lia.
  rewrite Hz by (done || lia). rewrite bind_Ok, emits_put, bind_Ok by (by apply put_text_ok).
  rewrite pad_none, bind_Ok by lia. unfold zhex. by rewrite put_text_app, Htmp.
Qed.

(** [%s] of a whole string. *)
Lemma copy_str_put oend arr n s st : out_ok oend st -> 0 <= s -> s + Z.of_nat n <= zlen arr ->
  copy_str oend n arr s st = Ok (put_text oend (zslice arr s (Z.of_nat n)) st).
Proof.
  revert s st. induction n as [|n IH]; intros s st Hst Hs Hn; [done|]. cbn [copy_str].
  destruct (rd_in_range arr s) as [b Hb]; [lia|]. rewrite Hb, bind_Ok, emit_put, bind_Ok by done.
  rewrite IH by (lia || by apply put1_ok). replace (Z.of_nat (S n)) with (1 + Z.of_nat n) by lia.
  by rewrite (zslice_S _ _ _ b) by (done || lia).
Qed.

Lemma strnlen_cstr m p t n : cstr m p t -> zlen t < n -> strnlen m p n = Ok (zlen t).
Proof.
  intros Ht Hn. unfold strnlen.
  assert (H : forall t k p, cstr m p t -> (length t < k)%nat -> strnlen_loop k m p = Ok (p + zlen t)).
  { clear. induction t as [|b t IH]; intros [|k] p Hp Hk; cbn [length] in Hk; try lia; cbn [strnlen_loop cstr] in *.
    - rewrite Hp, bind_Ok. change (zlen (@nil Z)) with 0. by rewrite Z.add_0_r.
    - destruct Hp as (-> & Hb & Hp). rewrite bind_Ok. destruct (Z.eqb_spec b 0); [done|].
      rewrite IH by (done || lia). f_equal. rewrite zlen_cons. lia. }
  pose proof (cstr_range _ _ _ Ht). rewrite (H t) by (done || unfold zlen in *; lia). rewrite bind_Ok. f_equal. lia.
Qed.

Lemma cstr_zslice m p s : cstr m p s -> zslice m p (zlen s) = s.
Proof.
  intros Hs. pose proof (cstr_slice m p s Hs) as E. apply (f_equal (take (length s))) in E.
  unfold zslice in *. rewrite take_take, take_app_length in E. pose proof (zlen_nonneg s).
  replace (length s `min` Z.to_nat (zlen s + 1))%nat with (length s) in E by (unfold zlen; lia).
  unfold zlen. by rewrite Nat2Z.id.
Qed.

(** [%s] of a string in memory. *)
Lemma string_cstr base m oend s sp st t : cstr m (s - base) t -> zlen t < 2 ^ 31 -> 4096 <= s < 2 ^ 32 ->
  s_flags sp = 0 -> s_width sp = -1 -> s_prec sp = -1 -> out_ok oend st ->
  string base m oend (u32 s) sp st = Ok (put_text oend t st).
Proof.
  intros Ht Hl Hs Hf Hw Hp Hst. unfold string, PAGE_SIZE. rewrite u32_small by lia.
  destruct (Z.ltb_spec s 4096); [lia|]. unfold string_at. rewrite Hf, Hw, Hp.
  pose proof (zlen_nonneg t). pose proof (cstr_range _ _ _ Ht).
  rewrite (strnlen_cstr _ _ t) by (done || (change (u32 (-1)) with (2 ^ 32 - 1); lia)). rewrite bind_Ok, s32_small by lia.
  change (has 0 LEFT) with false. cbn [negb].
  assert (Hsp : forall w st, w <= 0 -> spaces oend (zlen t) w st = Ok (s16 (w - 1), st)).
  { intros w st' Hw'. unfold spaces. cbn [space_loop]. by destruct (Z.ltb_spec (zlen t) w); [lia|]. }
  rewrite Hsp, bind_Ok by lia. rewrite copy_str_put by (done || lia). rewrite Z2Nat.id, bind_Ok, Hsp, bind_Ok by (done || lia).
  by rewrite cstr_zslice.
Qed.

(** ** Rounds *)

Section rounds.
Context (mbase : Z) (mbytes : list Z) (sy ka : Z -> list Z) (de : Z -> Z) (fmt : list Z) (oend : Z).

Abbreviation loop := (vsn_loop mbase mbytes sy ka de fmt).

Lemma round_text F p c sp sp' q args stores st :
  rd fmt p = Ok c -> c <> 0 -> format_decode fmt p sp = Ok (q, sp') -> s_type sp' = FORMAT_TYPE_NONE ->
  p < q <= zlen fmt -> Forall is_byte fmt -> out_ok oend st ->
  loop (S F) oend (Vst p sp args st stores) =
  loop F oend (Vst q sp' args (put_text oend (zslice fmt p (q - p)) st) stores).
Proof.
  intros Hc Hc0 Hd Ht Hq Hfmt Hst. cbn [vsn_loop v_fmt]. rewrite Hc, bind_Ok.
  destruct (Z.eqb_spec c 0); [done|]. pose proof (rd_range _ _ _ Hc) as Hp.
  unfold vsn_step. cbn [v_fmt v_spec v_args v_out v_stores]. rewrite Hd, bind_Ok, Ht.
  set (t := zslice fmt p (q - p)). assert (Hz : zlen t = q - p) by (apply zlen_zslice; lia).
  assert (Hb : Forall is_byte t) by (by apply Forall_take, Forall_drop).
  pose proof (copy_put oend t st Hst Hb) as E. rewrite Hz in E.
  set (copy := if oend - o_pos st <? q - p then oend - o_pos st else q - p) in *.
  assert (Em : (m ← (if o_pos st <? oend then src ← mem_read fmt p copy; mem_write (o_mem st) (o_pos st) src
                     else Ok (o_mem st)); Ok (Ost (o_pos st + (q - p)) m)) = Ok (put_text oend t st)).
  { rewrite E. destruct (Z.ltb_spec (o_pos st) oend) as [Hlt|]; [|done].
    assert (Hcp : 0 <= copy <= q - p) by (unfold copy; destruct (Z.ltb_spec (oend - o_pos st) (q - p)); lia).
    rewrite mem_read_ok, bind_Ok by lia. replace (zslice fmt p copy) with (take (Z.to_nat copy) t); [done|].
    unfold t, zslice. rewrite take_take. f_equal. lia. }
  apply bind_Ok_inv in Em as (m & -> & Em). injection Em as Em. rewrite bind_Ok, Em. by rewrite bind_Ok.
Qed.

Lemma round_num F p c sp sp' q ws args num stores st t :
  rd fmt p = Ok c -> c <> 0 -> format_decode fmt p sp = Ok (q, sp') ->
  s_type sp' = FORMAT_TYPE_INT \/ s_type sp' = FORMAT_TYPE_UINT \/ s_type sp' = FORMAT_TYPE_LONG_LONG ->
  va_num (s_type sp') ws = Ok (num, args) -> number oend num sp' st = Ok (put_text oend t st) ->
  loop (S F) oend (Vst p sp ws st stores) =
  loop F oend (Vst q sp' args (put_text oend t st) stores).
Proof.
  intros Hc Hc0 Hd Ht Hv Hn. cbn [vsn_loop v_fmt]. rewrite Hc, bind_Ok.
  destruct (Z.eqb_spec c 0); [done|]. unfold vsn_step. cbn [v_fmt v_spec v_args v_out v_stores].
  rewrite Hd, bind_Ok. destruct Ht as [Ht|[Ht|Ht]]; rewrite Ht in *; by rewrite Hv, bind_Ok, Hn, !bind_Ok.
Qed.

Lemma round_str F p c sp sp' q w args stores st t :
  rd fmt p = Ok c -> c <> 0 -> format_decode fmt p sp = Ok (q, sp') -> s_type sp' = FORMAT_TYPE_STR ->
  string mbase mbytes oend (u32 w) sp' st = Ok (put_text oend t st) ->
  loop (S F) oend (Vst p sp (w :: args) st stores) =
  loop F oend (Vst q sp' args (put_text oend t st) stores).
Proof.
  intros Hc Hc0 Hd Ht Hs. cbn [vsn_loop v_fmt]. rewrite Hc, bind_Ok.
  destruct (Z.eqb_spec c 0); [done|]. unfold vsn_step. cbn [v_fmt v_spec v_args v_out v_stores].
  rewrite Hd, bind_Ok, Ht. cbn [va_word]. by rewrite bind_Ok, Hs, !bind_Ok.
Qed.

Lemma round_end F p sp args stores st :
  rd fmt p = Ok 0 -> loop (S F) oend (Vst p sp args st stores) = Ok (Vst p sp args st stores).
Proof. intros Hc. cbn [vsn_loop v_fmt]. by rewrite Hc. Qed.

(** The whole call, from the text its rounds append. *)
Lemma snprintf_text buf mem size args p sp args' t :
  0 < size < 2 ^ 31 -> buf + size < 2 ^ 32 -> zlen mem = size -> size = oend ->
  loop (vsn_fuel fmt) oend (Vst 0 spec0 args (Ost 0 mem) []) = Ok (Vst p sp args' (put_text oend t (Ost 0 mem)) []) ->
  snprintf mbase mbytes sy ka de fmt buf mem size args = Ok (s32 (zlen t), printed size mem t, []).
Proof.
  intros Hs Hb Hm -> Hl. unfold snprintf, vsnprintf. rewrite s32_small by lia.
  destruct (Z.ltb_spec oend 0); [lia|]. destruct (Z.leb_spec (2 ^ 32) (buf + oend)); [lia|]. cbv zeta.
  rewrite Hl, bind_Ok. cbn [v_out v_stores]. pose proof (finish_printed oend mem t ltac:(lia) Hm) as Hfin.
  cbv zeta in Hfin. rewrite Hfin, bind_Ok. rewrite put_text_pos. done.
Qed.

End rounds.

(** The argument of a number that is not negative. *)
Lemma va_int w args : 0 <= w < 2 ^ 31 -> va_num FORMAT_TYPE_INT (w :: args) = Ok (w, args).
Proof.
  intros Hw. cbn [va_num va_word mbind result_bind]. rewrite (u32_small w), s32_small, u64_small by lia. done.
Qed.

Lemma va_uint w args : 0 <= w < 2 ^ 32 -> va_num FORMAT_TYPE_UINT (w :: args) = Ok (w, args).
Proof. intros Hw. cbn [va_num va_word mbind result_bind]. by rewrite u32_small by lia. Qed.

(** The next round; [k] gets what the decoder says and the rest of the state. *)
Ltac printf_round k :=
  match goal with
  | |- context [vsn_loop _ _ _ _ _ ?fmt (S ?F) _ (Vst ?p ?sp ?args ?st ?stores)] =>
      let r := eval vm_compute in (rd fmt p) in
      match r with
      | Ok ?c =>
          let d := eval vm_compute in (format_decode fmt p sp) in
          match d with Ok (?q, ?sp') => k F p c sp sp' q args stores st end
      end
  end.

(** A round that copies text of the format. *)
Ltac printf_text :=
  printf_round ltac:(fun F p c sp sp' q args stores st =>
    rewrite (round_text _ _ _ _ _ _ _ F p c sp sp' q args stores st);
    [|reflexivity|discriminate|reflexivity|reflexivity|vm_compute; split; [reflexivity|intros [=]]|
     apply (bool_decide_unpack _); vm_compute; exact I|repeat apply put_text_ok; assumption]).

(** The format and the fuel of a call as literals. *)
Ltac printf_begin fmt :=
  let n := eval vm_compute in (vsn_fuel fmt) in change (vsn_fuel fmt) with n;
  let f := eval vm_compute in fmt in change fmt with f.

(** A text with a NUL behind it is a string. *)
Lemma nul_cstr t rest : Forall (fun c => 0 < c < 256) t -> cstr (t ++ 0 :: rest) 0 t.
Proof.
  intros Ht. apply cstr_intro.
  - intros i b Hb. rewrite Z.add_0_l. rewrite Forall_forall in Ht.
    pose proof (Ht b ltac:(by eapply list_elem_of_lookup_2)). split; [|lia].
    apply rd_Ok_iff. split; [lia|]. rewrite Nat2Z.id, lookup_app_l; [done|].
    by eapply lookup_lt_Some.
  - rewrite Z.add_0_l. apply rd_app_at.
Qed.

(** A text that fits, read back as a string. *)
Lemma printed_cstr size mem t rest :
  Forall (fun c => 0 < c < 256) t -> zlen t < size -> zlen mem = size -> cstr (printed size mem t ++ rest) 0 t.
Proof.
  intros Ht Hl Hm. pose proof (zlen_nonneg t). unfold printed. destruct (Z.eqb_spec size 0); [lia|].
  replace (Z.min (zlen t) (size - 1)) with (zlen t) by lia.
  assert (E : map u8 t = t).
  { clear -Ht. induction Ht as [|x l Hx _ IH]; [done|]. simpl. by rewrite IH, u8_small by lia. }
  rewrite E, take_ge by (unfold zlen; lia). rewrite <- app_assoc. by apply nul_cstr.
Qed.

End PrintfText.
