(* ===== verification/Recorder.v ===== *)
(** The recorder around a program: [src/src/core/loader/snitchaser_main.c],
    snitchaser_tpd.c and .h, the [*_self_*] operations of the other components,
    and what happens when the program's entry point is reached
    ([enter_user_entry] of user_entry.c, [fork_checkpoint] of checkpoint.c).

    Every thread has a [struct thread_private_data] below the descriptor of its
    area; it is found through the segment [%fs] is loaded with. The records are
    kept in a store by address, so that an access at a wrong one is seen. *)
From S2P Require Import Prelude Kernel CString Vsprintf Compression Bigbuffer Logger Mm ArchCheckpoint.
From S2P Require Import Startup Bits Tls Proc UserEntry Checkpoint Interp.
Import Str Compr Big Log Mm Startup Arch Tls Proc UEntry.

(** getpid(2), gettid(2), gettimeofday(2) (status, seconds, microseconds),
    mremap(2); clone(2) without flags gives the result in the parent, the
    kernel as the parent and as the child see it; wait4(2) ends when the child
    has. *)
Class KernelProc (K : Type) := {
  sys_getpid : K -> Z;
  sys_gettid : K -> Z;
  sys_gettimeofday : K -> Z * Z * Z * K;
  sys_mremap : K -> Z -> Z -> Z -> Z * K;
  sys_clone : K -> Z * K * K;
  sys_wait4 : K -> Z -> Z * K
}.

Module Rec.

(** CMakeLists.txt *)
Definition LOG_DIR : list Z := codes "/tmp/snitchaser".
Definition MAX_OUTPUT_FN_LEN : Z := 128.

(** ** State *)

(** [struct thread_private_data]. The big buffer is the one its logger writes
    to; [syscall_stub] and [saved_sigset] are used by assembly only. *)
Record thread_private_data := Tpd {
  old_stack_top : Z;
  stack_top : Z;
  resume_addr : Z;
  tpd : Z;
  pid : Z;
  tid : Z;
  mm_stub : obj_mm_tpd_stub;
  logger_stub : logger;
  thread_mutex : Z
}.

(** Fresh pages are zero. *)
Definition zero_tpd : thread_private_data :=
  Tpd 0 0 0 0 0 0 (Objmm ∅ [] None false)
    (Logger [] (BB (replicate (Z.to_nat BIGBUFFER_SZ) 0) 0) 0 0 false) 0.

Definition bb (t : thread_private_data) : bigbuffer := this_bigbuffer (logger_stub t).

Definition set_tpd (t : thread_private_data) (a : Z) : thread_private_data :=
  Tpd (old_stack_top t) (stack_top t) (resume_addr t) a (pid t) (tid t) (mm_stub t) (logger_stub t) (thread_mutex t).
Definition set_stack_top (t : thread_private_data) (a : Z) : thread_private_data :=
  Tpd (old_stack_top t) a (resume_addr t) (tpd t) (pid t) (tid t) (mm_stub t) (logger_stub t) (thread_mutex t).
Definition set_resume_addr (t : thread_private_data) (a : Z) : thread_private_data :=
  Tpd (old_stack_top t) (stack_top t) a (tpd t) (pid t) (tid t) (mm_stub t) (logger_stub t) (thread_mutex t).
Definition set_ids (t : thread_private_data) (p i : Z) : thread_private_data :=
  Tpd (old_stack_top t) (stack_top t) (resume_addr t) (tpd t) p i (mm_stub t) (logger_stub t) (thread_mutex t).
Definition set_mm (t : thread_private_data) (m : obj_mm_tpd_stub) : thread_private_data :=
  Tpd (old_stack_top t) (stack_top t) (resume_addr t) (tpd t) (pid t) (tid t) m (logger_stub t) (thread_mutex t).
Definition set_logger (t : thread_private_data) (l : logger) : thread_private_data :=
  Tpd (old_stack_top t) (stack_top t) (resume_addr t) (tpd t) (pid t) (tid t) (mm_stub t) l (thread_mutex t).
Definition set_mutex (t : thread_private_data) (v : Z) : thread_private_data :=
  Tpd (old_stack_top t) (stack_top t) (resume_addr t) (tpd t) (pid t) (tid t) (mm_stub t) (logger_stub t) v.

(** The process as one of its threads sees it: [fs_base] is the base of the
    segment its [%fs] is loaded with. *)
Record process := Process {
  tls : tls_state;
  tpds : gmap Z thread_private_data;
  fs_base : Z;
  logger_fd : Z
}.

Definition set_tls (P : process) (t : tls_state) : process := Process t (tpds P) (fs_base P) (logger_fd P).
Definition set_tpds (P : process) (m : gmap Z thread_private_data) : process :=
  Process (tls P) m (fs_base P) (logger_fd P).
Definition set_fs (P : process) (b : Z) : process := Process (tls P) (tpds P) b (logger_fd P).
Definition set_logger_fd (P : process) (fd : Z) : process := Process (tls P) (tpds P) (fs_base P) fd.

Definition tpd_at (P : process) (a : Z) : result thread_private_data :=
  match tpds P !! a with Some t => Ok t | None => Stray Rd end.

(** A store to fields of the record at [a]. *)
Definition update (P : process) (a : Z) (f : thread_private_data -> thread_private_data) : result process :=
  t ← tpd_at P a;
  Ok (set_tpds P (<[a := f t]> (tpds P))).

Section layout.
(** [sizeof(struct thread_private_data)], which depends on the configuration. *)
Variable SIZEOF_TPD : Z.

(** [tls_offset(tpd)]; [struct ___bottom_tls] is the record and the descriptor. *)
Definition OFFSET_TPD : Z := TLS_AREA_SIZE - (SIZEOF_TPD + sizeof_tls_desc).

(** The record below the descriptor at [td]. *)
Definition tpd_addr (td : Z) : Z := td - SIZEOF_TPD.

Definition desc_at (P : process) (td : Z) : result tls_desc :=
  match descs (tls P) !! td with Some d => Ok d | None => Stray Rd end.

Definition get_tpd (P : process) (td : Z) : result Z :=
  d ← desc_at P td;
  Ok (tpd_addr (get_tls_desc (start_addr d))).

(** The loads through [%fs]. *)
Definition get_self_tls_desc (P : process) : result Z :=
  d ← desc_at P (get_tls_desc (fs_base P));
  Ok (get_tls_desc (start_addr d)).

Definition get_self_tpd (P : process) : result Z :=
  t ← tpd_at P (fs_base P + OFFSET_TPD);
  Ok (tpd t).

Definition setup_self_tpd (P : process) : result (Z * process) :=
  td ← get_self_tls_desc P;
  a ← get_tpd P td;
  P ← update P a (fun t => set_tpd t a);
  s ← get_self_tpd P;
  P ← update P s (fun t => set_stack_top t s);
  P ← update P a (fun t => set_mutex t 0);
  Ok (s, P).

(** ** The operations on the thread's own components *)

Definition init_self_mm_obj (P : process) (executable : bool) : result process :=
  a ← get_self_tpd P;
  _ ← assert (negb (a =? 0));
  update P a (fun t => set_mm t (init_mm_obj executable)).

Definition init_self_bigbuffer (P : process) : result process :=
  a ← get_self_tpd P;
  _ ← assert (negb (a =? 0));
  update P a (fun t => set_logger t (set_bb (logger_stub t) (init_bigbuffer (bb t)))).

Section ops.
Context {K : Type} `{Kernel K} `{KernelPages K} `{KernelLdt K} `{KernelTls K} `{LzoApi} `{KernelProc K}.
Context (work : K -> Z -> Z).

Definition alloc_self_obj (k : K) (P : process) (size : Z) : result (Z * K * process) :=
  a ← get_self_tpd P;
  _ ← assert (negb (a =? 0));
  t ← tpd_at P a;
  '(ptr, k, mm) ← alloc_obj k (mm_stub t) size;
  P ← update P a (fun t => set_mm t mm);
  Ok (ptr, k, P).

Definition clean_self_mm_obj (k : K) (P : process) : result (K * process) :=
  a ← get_self_tpd P;
  _ ← assert (negb (a =? 0));
  t ← tpd_at P a;
  '(k, mm) ← clean_mm_obj k (mm_stub t);
  P ← update P a (fun t => set_mm t mm);
  Ok (k, P).

Definition flush_self_bigbuffer (k : K) (P : process) (fd : Z) : result (K * process) :=
  a ← get_self_tpd P;
  t ← tpd_at P a;
  '(k, b) ← flush_bigbuffer work k fd (bb t);
  P ← update P a (fun t => set_logger t (set_bb (logger_stub t) b));
  Ok (k, P).

Definition append_self_bigbuffer (k : K) (P : process) (fd : Z) (buf : list Z) : result (K * process) :=
  a ← get_self_tpd P;
  t ← tpd_at P a;
  '(k, b) ← append_bigbuffer work k fd (bb t) buf;
  P ← update P a (fun t => set_logger t (set_bb (logger_stub t) b));
  Ok (k, P).

(** ** Names of files *)

(** [snprintf(name, 127, fmt, ...)] into an array of 128 bytes with arbitrary
    contents [junk] on the stack at [sp]; the string constant [LOG_DIR] is at
    [lit]. The return value and the string that is then in the array. *)
Variables (sp lit : Z) (junk : list Z).

Definition format_name (fmt : list Z) (args : list Z) : result (Z * list Z) :=
  '(n, m, _) ← Vs.snprintf lit (LOG_DIR ++ [0]) (fun _ => []) (fun _ => []) id fmt sp
     (take 127 junk) (MAX_OUTPUT_FN_LEN - 1) args;
  fn ← Interp.c_string (m ++ drop 127 junk) 0;
  Ok (n, fn).

(** The two formats: the directory pasted to the text, and with a slash. *)
Definition pasted_format (suffix : list Z) : list Z := LOG_DIR ++ codes "%d-%d-%010u-%010u" ++ suffix ++ [0].
Definition slash_format (suffix : list Z) : list Z := codes "%s/%d-%d-%010u-%010u" ++ suffix ++ [0].

(** ** snitchaser_main.c *)

(** [xlogger_init] and [xmemckpt_init], which differ in the suffix. *)
Definition xoutput_init (suffix : list Z) (k : K) : result (Z * K) :=
  let '(err, sec, usec, k) := sys_gettimeofday k in
  _ ← assert (err =? 0);
  '(fn_sz, fn) ← format_name (pasted_format suffix)
     [u32 (sys_getpid k); u32 (sys_gettid k); u32 sec; u32 usec];
  _ ← assert (u32 fn_sz <? MAX_OUTPUT_FN_LEN - 1);
  let '(fd, k) := sys_open k fn (Z.lor (Z.lor O_WRONLY O_CREAT) O_APPEND) 420 in
  if fd <? 0 then Ok (1, k) else Ok (fd, k).

Definition xlogger_init : K -> result (Z * K) := xoutput_init (codes ".log").
Definition xmemckpt_init : K -> result (Z * K) := xoutput_init (codes ".ckpt").

(** [movw %0, %fs]: the processor loads the descriptor of the selector. *)
Definition active_tls (ldt : K -> Z -> option user_desc) (k : K) (P : process) (td : Z) : result process :=
  d ← desc_at P td;
  match ldt k (Z.shiftr (fs_val d) 3) with
  | Some u => Ok (set_fs P (base_addr u))
  | None => Fatal
  end.

(** The new area has a zeroed record below its descriptor. [target] is the
    address of [arch_user_entry_e], [mem] the memory of the program. *)
Definition snitchaser_main (ldt : K -> Z -> option user_desc) (target : Z) (k : K) (P : process)
    (mem : list Z) (info : startup_stack_info) : result (K * process * list Z * patch) :=
  '(td, k, tls) ← alloc_tls_area k (tls P);
  let P := set_tpds (set_tls P tls) (<[tpd_addr td := zero_tpd]> (tpds P)) in
  P ← active_tls ldt k P td;
  '(s, P) ← setup_self_tpd P;
  P ← update P s (fun t => set_ids t (sys_getpid k) (sys_gettid k));
  P ← init_self_mm_obj P true;
  P ← init_self_bigbuffer P;
  '(fd, k) ← xlogger_init k;
  let P := set_logger_fd P fd in
  '(k, mem, p) ← patch_user_entry target k mem info;
  Ok (k, P, mem, p).

(** *** The allocators *)

Definition is_valid_ptr (p : Z) : bool := 0x1000 <? u32 p.

Definition xmalloc (k : K) (size : Z) : result (Z * K) :=
  _ ← assert (0 <? size);
  let sz := ALIGN_UP size 4 in
  let '(ptr, k) := sys_uniform_mmap k sz (Z.lor Mm.PROT_READ Mm.PROT_WRITE) in
  _ ← assert (is_valid_ptr ptr);
  Ok (ptr, k).

(** [nmenb * size] is 32 bits wide. *)
Definition xcalloc (k : K) (nmenb size : Z) : result (Z * K) :=
  _ ← assert (0 <? nmenb);
  _ ← assert (0 <? size);
  let sz := ALIGN_UP (u32 (nmenb * size)) 4 in
  let '(ptr, k) := sys_uniform_mmap k sz (Z.lor Mm.PROT_READ Mm.PROT_WRITE) in
  _ ← assert (is_valid_ptr ptr);
  Ok (ptr, k).

Definition xfree (k : K) (ptr sz : Z) : result K :=
  _ ← assert (is_valid_ptr ptr);
  let '(err, k) := sys_munmap k ptr (ALIGN_UP sz 4) in
  _ ← assert (err =? 0);
  Ok k.

(** The tests are of the local [ptr], which is [NULL]. *)
Definition xrealloc (k : K) (old_ptr old_size size : Z) : result (Z * K) :=
  let ptr := 0 in
  if ptr =? 0 then xmalloc k size
  else
    k ← (if (size =? 0) && negb (ptr =? 0) then xfree k old_ptr old_size else Ok k);
    if old_size <? size then
      let '(p, k) := sys_mremap k old_ptr old_size (ALIGN_UP size 4) in
      _ ← assert (is_valid_ptr p);
      Ok (p, k)
    else Ok (old_ptr, k).

(** ** The entry point is reached *)

(** [init_logger] with the name it formats; a file that cannot be opened is
    only reported. *)
Definition init_logger (k : K) (ASM_BASE : Z) (l : logger) (sec usec pid tid : Z) : result (K * logger) :=
  '(sz_fn, fn) ← format_name (slash_format (codes ".log")) [u32 lit; u32 pid; u32 tid; u32 sec; u32 usec];
  _ ← assert (u32 sz_fn <? MAX_OUTPUT_FN_LEN);
  let l := init_stub ASM_BASE l fn in
  let '(fd, k) := sys_open k fn (Z.lor (Z.lor O_WRONLY O_CREAT) O_TRUNC) 436 in
  if fd <? 0 then Ok (k, l)
  else
    k ← write_comp_file_head k fd;
    let '(_, k) := sys_close k fd in
    Ok (k, l).

Definition init_self_logger (k : K) (P : process) (ASM_BASE sec usec pid tid : Z) : result (K * process) :=
  a ← get_self_tpd P;
  t ← tpd_at P a;
  '(k, l) ← init_logger k ASM_BASE (logger_stub t) sec usec pid tid;
  P ← update P a (fun t => set_logger t l);
  Ok (k, P).

(** [free_aux_mem] of every thread on the list. *)
Fixpoint clear_each (k : K) (P : process) (l : list Z) : result (K * process) :=
  match l with
  | [] => Ok (k, P)
  | td :: l =>
      d ← desc_at P td;
      let a := start_addr d + OFFSET_TPD in
      t ← tpd_at P a;
      '(k, mm) ← clean_mm_obj k (mm_stub t);
      P ← update P a (fun t => set_mm t mm);
      clear_each k P l
  end.

Definition clear_all_thread_mem (k : K) (P : process) : result (K * process) :=
  clear_each k P (tls_list (tls P)).

(** What the process that takes the checkpoint does before it exits; only
    [fork_checkpoint] checks that the name fits. *)
Definition checkpoint_child (suffix : list Z) (checked : bool) (k : K) (P : process) (mem : list Z) (info : startup_stack_info) (c : cpu)
    (pad : list Z) (regs : pusha_regs) (pc top sec usec : Z) : result K :=
  a ← get_self_tpd P;
  t ← tpd_at P a;
  '(k, P) ← clear_all_thread_mem k P;
  '(len, fn) ← format_name (slash_format suffix)
     [u32 lit; u32 (pid t); u32 (tid t); u32 sec; u32 usec];
  _ ← (if checked then assert (u32 len <? MAX_OUTPUT_FN_LEN) else Ok tt);
  td ← get_self_tls_desc P;
  d ← desc_at P td;
  t ← tpd_at P a;
  '(k, _) ← Ckpt.do_checkpoint work mem k info c pad regs pc top fn (pid t) (tid t) (start_addr d) (size d) (bb t);
  Ok k.

(** The parent goes on when the child it cloned has exited; that one only
    clones the process that takes the checkpoint, whose run is the second
    result. *)
Definition fork_checkpoint (k : K) (P : process) (mem : list Z) (info : startup_stack_info) (c : cpu) (pad : list Z)
    (regs : pusha_regs) (pc top sec usec : Z) : result (K * result K) :=
  _ ← get_self_tpd P;
  let '(tmppid, k, kc) := sys_clone k in
  _ ← assert (0 <=? tmppid);
  let grandchild :=
    let '(pid, _, kc) := sys_clone kc in
    _ ← assert (0 <=? pid);
    checkpoint_child (codes ".ckpt") true kc P mem info c pad regs pc top sec usec in
  let '(err, k) := sys_wait4 k tmppid in
  _ ← assert (err =? tmppid);
  Ok (k, grandchild).

Definition dead_checkpoint (k : K) (P : process) (mem : list Z) (info : startup_stack_info) (c : cpu) (pad : list Z)
    (regs : pusha_regs) (pc top : Z) : result (K * result K) :=
  let '(err, sec, usec, k) := sys_gettimeofday k in
  _ ← assert (err =? 0);
  _ ← get_self_tpd P;
  let '(chld, k, kc) := sys_clone k in
  _ ← assert (0 <=? chld);
  let child := checkpoint_child (codes ".dead") false kc P mem info c pad regs pc top sec usec in
  let '(err, k) := sys_wait4 k chld in
  _ ← assert (err =? chld);
  Ok (k, child).

Definition enter_user_entry (k : K) (P : process) (mem : list Z) (info : startup_stack_info) (c : cpu) (pad : list Z)
    (regs : pusha_regs) (pc ASM_BASE : Z) : result (K * process * result K) :=
  a ← get_self_tpd P;
  let '(err, sec, usec, k) := sys_gettimeofday k in
  _ ← assert (err =? 0);
  t ← tpd_at P a;
  '(k, ckpt) ← fork_checkpoint k P mem info c pad regs pc (old_stack_top t) sec usec;
  '(k, P) ← init_self_logger k P ASM_BASE sec usec (pid t) (tid t);
  P ← update P a (fun t => set_resume_addr t pc);
  Ok (k, P, ckpt).

Definition arch_user_entry (k : K) (P : process) (mem : list Z) (st : patch) (info : startup_stack_info)
    (c : cpu) (pad : list Z) (regs : pusha_regs) (ASM_BASE : Z) :
    result (K * process * list Z * result K) :=
  '(k, mem) ← unpatch_user_entry k mem st;
  '(k, P, ckpt) ← enter_user_entry k P mem info c pad regs (patch_begin st) ASM_BASE;
  Ok (k, P, mem, ckpt).

End ops.
End layout.

End Rec.
