(* ===== verification/RecorderFacts.v ===== *)
(** The recorder around a program: the names of its files, and the thread it
    sets up. *)
From S2P Require Import Prelude Kernel CString CStringFacts Numbers Vsprintf VsprintfFacts PrintfText.
From S2P Require Import Compression Bigbuffer Logger Mm ArchCheckpoint Startup Bits Tls TlsFacts Proc UserEntry.
From S2P Require Import Checkpoint Interp InterpFacts Recorder.
Import Str StrFacts Num Vs VsFacts PrintfText Compr Log Mm Startup Tls TlsFacts UEntry Rec.

(** What the calls about processes promise when they succeed: the numbers are
    those of a process and a thread, the time fits its fields, a clone has the
    mappings of its parent, and the child that was waited for has exited. *)
Class KernelProcUp (K : Type) `{KernelPagesLaws K} `{KernelProc K} : Prop := {
  pid_range : forall k, 0 <= sys_getpid k < 2 ^ 31;
  tid_range : forall k, 0 <= sys_gettid k < 2 ^ 31;
  time_up : forall k, exists sec usec k', sys_gettimeofday k = (0, sec, usec, k') /\
    0 <= sec < 2 ^ 32 /\ 0 <= usec < 2 ^ 32 /\ mapped k' = mapped k;
  clone_up : forall k, 0 < (sys_clone k).1.1;
  clone_mapped : forall k, mapped (sys_clone k).2 = mapped k;
  wait_up : forall k p, 0 < p -> (sys_wait4 k p).1 = p
}.

Module RecFacts.

(** ** Names of files *)

(** What [%d-%d-%010u-%010u] prints, for a process, a thread and a time. *)
Definition stamp (pid tid sec usec : Z) : list Z :=
  dec pid ++ 45 :: dec tid ++ 45 :: zdec 10 sec ++ 45 :: zdec 10 usec.

Definition pasted_name (suffix : list Z) (pid tid sec usec : Z) : list Z :=
  LOG_DIR ++ stamp pid tid sec usec ++ suffix.
Definition slash_name (suffix : list Z) (pid tid sec usec : Z) : list Z :=
  LOG_DIR ++ 47 :: stamp pid tid sec usec ++ suffix.

(** The ranges of the four numbers. *)
Record stamp_ok (pid tid sec usec : Z) : Prop := {
  pid_ok : 0 <= pid < 2 ^ 31;
  tid_ok : 0 <= tid < 2 ^ 31;
  sec_ok : 0 <= sec < 2 ^ 32;
  usec_ok : 0 <= usec < 2 ^ 32
}.

Lemma zdec_no_dash w n : 45 ∉ zdec w n.
Proof.
  unfold zdec. intros [H|H]%elem_of_app; [|by apply dec_no_dash in H].
  apply elem_of_replicate in H. lia.
Qed.

Lemma stamp_inj p1 t1 s1 u1 p2 t2 s2 u2 :
  stamp_ok p1 t1 s1 u1 -> stamp_ok p2 t2 s2 u2 -> stamp p1 t1 s1 u1 = stamp p2 t2 s2 u2 ->
  p1 = p2 /\ t1 = t2 /\ s1 = s2 /\ u1 = u2.
Proof.
  intros [] [] E. unfold stamp in E.
  apply field_inj in E as [Ep E]; [|apply dec_no_dash..].
  apply field_inj in E as [Et E]; [|apply dec_no_dash..].
  apply field_inj in E as [Es E]; [|apply zdec_no_dash..].
  apply dec_inj in Ep, Et; [|lia..]. apply zdec_inj in Es, E; [|lia..]. done.
Qed.

Lemma zlen_stamp pid tid sec usec : stamp_ok pid tid sec usec -> zlen (stamp pid tid sec usec) <= 43.
Proof.
  intros []. unfold stamp. zlen_simp. unfold zlen.
  rewrite !length_zdec by lia. pose proof (length_dec 10 pid ltac:(lia) ltac:(lia)).
  pose proof (length_dec 10 tid ltac:(lia) ltac:(lia)). lia.
Qed.

Lemma stamp_chars pid tid sec usec : Forall (fun c => 0 < c < 256) (stamp pid tid sec usec).
Proof.
  assert (Hd : forall n, Forall (fun c => 0 < c < 256) (dec n)).
  { intros n. eapply Forall_impl; [apply dec_range|]. intros c Hc. cbv beta in *. lia. }
  assert (Hz : forall w n, Forall (fun c => 0 < c < 256) (zdec w n)).
  { intros w n. unfold zdec. apply Forall_app. split; [by apply Forall_replicate|done]. }
  unfold stamp. apply Forall_app. split; [done|]. apply Forall_cons. split; [lia|].
  apply Forall_app. split; [done|]. apply Forall_cons. split; [lia|].
  apply Forall_app. split; [done|]. apply Forall_cons. by split; [lia|].
Qed.

Lemma stamp_app pid tid sec usec suffix :
  stamp pid tid sec usec ++ suffix =
  dec pid ++ [45] ++ dec tid ++ [45] ++ zdec 10 sec ++ [45] ++ zdec 10 usec ++ suffix.
Proof. unfold stamp. rewrite <- !app_assoc. cbn [app]. do 2 f_equal. rewrite <- !app_assoc. cbn [app]. by rewrite <- !app_assoc. Qed.

Lemma name_chars suffix pre pid tid sec usec :
  Forall (fun c => 0 < c < 256) pre -> Forall (fun c => 0 < c < 256) suffix ->
  Forall (fun c => 0 < c < 256) (pre ++ stamp pid tid sec usec ++ suffix).
Proof. intros Hp Hs. rewrite !Forall_app. split; [done|]. split; [apply stamp_chars|done]. Qed.

(** The suffixes in use. *)
Definition suffixes : list (list Z) := [codes ".log"; codes ".ckpt"; codes ".dead"].

Lemma suffix_cases suffix : suffix ∈ suffixes ->
  suffix = codes ".log" \/ suffix = codes ".ckpt" \/ suffix = codes ".dead".
Proof. intros Hs%list_elem_of_In. cbn [In suffixes] in Hs. intuition congruence. Qed.

Lemma suffix_ok suffix : suffix ∈ suffixes -> Forall (fun c => 0 < c < 256) suffix /\ zlen suffix <= 5.
Proof.
  intros Hs. destruct (suffix_cases _ Hs) as [-> | [-> | ->]];
    (split; [apply (bool_decide_unpack _); by vm_compute|by vm_compute]).
Qed.

Lemma log_dir_ok : Forall (fun c => 0 < c < 256) LOG_DIR /\ zlen LOG_DIR = 15.
Proof. split; [apply (bool_decide_unpack _); by vm_compute|done]. Qed.

Section names.
Context (sp lit : Z) (junk : list Z).
Hypothesis Hsp : sp + 127 < 2 ^ 32.
Hypothesis Hlit : 4096 <= lit < 2 ^ 32.
Hypothesis Hjunk : zlen junk = 128.

Abbreviation loop := (vsn_loop lit (LOG_DIR ++ [0]) (fun _ => []) (fun _ => []) id).

Lemma format_name_text fmt args t p spec args' :
  loop fmt (vsn_fuel fmt) 127 (Vst 0 spec0 args (Ost 0 (take 127 junk)) []) =
    Ok (Vst p spec args' (put_text 127 t (Ost 0 (take 127 junk))) []) ->
  Forall (fun c => 0 < c < 256) t -> zlen t < 127 ->
  format_name sp lit junk fmt args = Ok (zlen t, t).
Proof using Hsp Hjunk.
  intros Hl Ht Hlen. pose proof (zlen_nonneg t).
  assert (Hm : zlen (take 127 junk) = 127) by (unfold zlen in *; rewrite length_take; lia).
  unfold format_name. change (MAX_OUTPUT_FN_LEN - 1) with 127.
  rewrite (snprintf_text _ _ _ _ _ _ 127 sp _ 127 args p spec args' t) by (done || lia).
  rewrite bind_Ok, (InterpFacts.c_string_spec _ _ t), bind_Ok by (by apply printed_cstr).
  by rewrite s32_small by lia.
Qed.

Lemma junk_ok : out_ok 127 (Ost 0 (take 127 junk)).
Proof using Hjunk. split; [cbn; lia|]. cbn. unfold zlen in *. rewrite length_take. lia. Qed.

(** Closes the premises of a round, whose format is closed. *)
Ltac premises :=
  lazymatch goal with
  | |- out_ok _ _ => repeat apply put_text_ok; exact junk_ok
  | |- _ <> _ => discriminate
  | |- _ = _ => reflexivity
  | |- _ /\ _ => vm_compute; split; [reflexivity|intros [=]]
  | |- Forall _ _ => apply (bool_decide_unpack _); vm_compute; exact I
  end.

Ltac text_round :=
  printf_round ltac:(fun F p c sp sp' q args stores st =>
    rewrite (round_text _ _ _ _ _ _ _ F p c sp sp' q args stores st) by premises).

Ltac num_round t arg fact :=
  printf_round ltac:(fun F p c sp sp' q args stores st =>
    match args with
    | ?w :: ?args =>
        let t := eval cbv beta in (t w) in
        rewrite (round_num _ _ _ _ _ _ _ F p c sp sp' q (w :: args) args w stores st t);
        [|premises|premises|premises|(by left) || (by right; left)|by apply arg|by apply fact; [|premises]]
    end).

Lemma string_log_dir oend sp' st : s_type sp' = FORMAT_TYPE_STR -> s_flags sp' = 0 -> s_width sp' = -1 ->
  s_prec sp' = -1 -> out_ok oend st ->
  string lit (LOG_DIR ++ [0]) oend (u32 lit) sp' st = Ok (put_text oend LOG_DIR st).
Proof using Hlit.
  intros _ Hf Hw Hp Hst. apply string_cstr; try assumption; [|reflexivity]. rewrite Z.sub_diag.
  apply (nul_cstr LOG_DIR []). by destruct log_dir_ok.
Qed.

Ltac str_round :=
  printf_round ltac:(fun F p c sp sp' q args stores st =>
    match args with
    | ?w :: ?args =>
        rewrite (round_str _ _ _ _ _ _ _ F p c sp sp' q w args stores st LOG_DIR);
        [|premises|premises|premises|done|by apply string_log_dir; [..|premises]]
    end).

Ltac dec_round := num_round dec va_int number_dec.
Ltac zdec_round := num_round (zdec 10) va_uint number_zdec.

Ltac name_end :=
  rewrite round_end by reflexivity; rewrite <- !put_text_app, <- ?app_assoc;
  unfold pasted_name, slash_name; rewrite stamp_app; reflexivity.

Lemma pasted_name_text suffix pid tid sec usec : stamp_ok pid tid sec usec -> suffix ∈ suffixes ->
  format_name sp lit junk (pasted_format suffix) [pid; tid; sec; usec] =
  Ok (zlen (pasted_name suffix pid tid sec usec), pasted_name suffix pid tid sec usec).
Proof using Hsp Hjunk.
  intros Hok Hs. pose proof (zlen_stamp _ _ _ _ Hok). destruct Hok, (suffix_ok _ Hs), log_dir_ok.
  assert (Hl : exists p spec args', loop (pasted_format suffix) (vsn_fuel (pasted_format suffix)) 127
      (Vst 0 spec0 [pid; tid; sec; usec] (Ost 0 (take 127 junk)) []) =
    Ok (Vst p spec args' (put_text 127 (pasted_name suffix pid tid sec usec) (Ost 0 (take 127 junk))) [])).
  { destruct (suffix_cases _ Hs) as [-> | [-> | ->]]; do 3 eexists;
      [printf_begin (pasted_format (codes ".log"))|printf_begin (pasted_format (codes ".ckpt"))|
       printf_begin (pasted_format (codes ".dead"))];
      text_round; dec_round; text_round; dec_round; text_round; zdec_round; text_round; zdec_round;
      text_round; name_end. }
  destruct Hl as (p & spec & args' & Hl). eapply format_name_text; [exact Hl| |].
  - by apply (name_chars suffix LOG_DIR).
  - unfold pasted_name. rewrite !zlen_app. lia.
Qed.

Lemma slash_name_text suffix pid tid sec usec : stamp_ok pid tid sec usec -> suffix ∈ suffixes ->
  format_name sp lit junk (slash_format suffix) [u32 lit; pid; tid; sec; usec] =
  Ok (zlen (slash_name suffix pid tid sec usec), slash_name suffix pid tid sec usec).
Proof using Hsp Hjunk Hlit.
  intros Hok Hs. pose proof (zlen_stamp _ _ _ _ Hok). destruct Hok, (suffix_ok _ Hs), log_dir_ok.
  rewrite (u32_small lit) by lia.
  assert (Hl : exists p spec args', loop (slash_format suffix) (vsn_fuel (slash_format suffix)) 127
      (Vst 0 spec0 [lit; pid; tid; sec; usec] (Ost 0 (take 127 junk)) []) =
    Ok (Vst p spec args' (put_text 127 (slash_name suffix pid tid sec usec) (Ost 0 (take 127 junk))) [])).
  { destruct (suffix_cases _ Hs) as [-> | [-> | ->]]; do 3 eexists;
      [printf_begin (slash_format (codes ".log"))|printf_begin (slash_format (codes ".ckpt"))|
       printf_begin (slash_format (codes ".dead"))];
      str_round; text_round; dec_round; text_round; dec_round; text_round; zdec_round; text_round; zdec_round;
      text_round; name_end. }
  destruct Hl as (p & spec & args' & Hl). eapply format_name_text; [exact Hl| |].
  - apply (name_chars suffix (LOG_DIR ++ [47])); [|done]. apply Forall_app. split; [done|]. by repeat constructor.
  - unfold slash_name. rewrite zlen_app, zlen_cons, zlen_app. lia.
Qed.

End names.

(** ** Opening a file *)

Section main.
Context {K : Type} {KK : Kernel K} {KF : KernelFiles K} {KP : KernelPages K} {KL : KernelPagesLaws K}
  {KU : KernelPagesUp K} {KD : KernelLdt K} {KDL : KernelLdtLaws K} {KR : KernelProc K} {KRU : KernelProcUp K}.
Context (SIZEOF_TPD sp lit : Z) (junk : list Z).
Hypothesis Hsp : sp + 127 < 2 ^ 32.
Hypothesis Hlit : 4096 <= lit < 2 ^ 32.
Hypothesis Hjunk : zlen junk = 128.

Abbreviation xlogger_init := (xlogger_init sp lit junk).

(** The identity of the thread and the time are those of this machine. *)
Definition clock (k : K) (sec usec : Z) (k1 : K) : Prop :=
  sys_gettimeofday k = (0, sec, usec, k1) /\ stamp_ok (sys_getpid k1) (sys_gettid k1) sec usec.

Lemma clock_up k : exists sec usec k1, clock k sec usec k1.
Proof using KRU.
  destruct (time_up k) as (sec & usec & k1 & E & Hs & Hu & _). exists sec, usec, k1. split; [done|].
  split; [apply pid_range|apply tid_range|done|done].
Qed.

Lemma stamp_u32 pid tid sec usec : stamp_ok pid tid sec usec ->
  u32 pid = pid /\ u32 tid = tid /\ u32 sec = sec /\ u32 usec = usec.
Proof using. intros []. repeat split; apply u32_small; lia. Qed.

Definition log_flags : Z := Z.lor (Z.lor O_WRONLY O_CREAT) O_APPEND.

Lemma xlogger_init_spec k sec usec k1 : clock k sec usec k1 ->
  let name := pasted_name (codes ".log") (sys_getpid k1) (sys_gettid k1) sec usec in
  xlogger_init k =
    (let '(fd, k2) := sys_open k1 name log_flags 420 in
     if fd <? 0 then Ok (1, k2) else Ok (fd, k2)).
Proof using Hsp Hjunk.
  intros [Et Hok] name. unfold Rec.xlogger_init, xoutput_init. rewrite Et. cbn [Z.eqb assert].
  rewrite bind_Ok. destruct (stamp_u32 _ _ _ _ Hok) as (-> & -> & -> & ->).
  rewrite pasted_name_text by (done || by left). rewrite bind_Ok. fold name.
  pose proof (zlen_stamp _ _ _ _ Hok). destruct log_dir_ok as [_ Hd].
  assert (Hl : 0 <= zlen name < 127).
  { split; [apply zlen_nonneg|]. unfold name, pasted_name. rewrite !zlen_app, Hd. change (zlen (codes ".log")) with 4. lia. }
  change (MAX_OUTPUT_FN_LEN - 1) with 127. rewrite u32_small by lia.
  destruct (Z.ltb_spec (zlen name) 127); [|lia]. done.
Qed.

(** [xlogger_init] opens, for appending and keeping what is there, a file
    whose name tells the process, the thread and the time of its start and no
    two of these share; the name is beside the log directory and not in it. When
    the file cannot be opened the recorder goes on with descriptor 1. *)
Lemma xlogger_init_correct k sec usec k1 : clock k sec usec k1 ->
  exists fd k2, xlogger_init k = Ok (fd, k2) /\
    let name := pasted_name (codes ".log") (sys_getpid k1) (sys_gettid k1) sec usec in
    (fd = 1 \/ fd_file k2 fd = Some name /\ file_bytes k2 name = file_bytes k1 name) /\
    (forall pid tid s u, stamp_ok pid tid s u -> pasted_name (codes ".log") pid tid s u = name ->
       pid = sys_getpid k1 /\ tid = sys_gettid k1 /\ s = sec /\ u = usec) /\
    forall rest, name <> LOG_DIR ++ 47 :: rest.
Proof using Hsp Hjunk.
  intros Hc. pose proof (xlogger_init_spec k sec usec k1 Hc) as E. cbv zeta in *. rewrite E.
  destruct Hc as [_ Hok]. set (name := pasted_name _ _ _ _ _).
  destruct (sys_open k1 name log_flags 420) as [fd k2] eqn:Eo.
  exists (if fd <? 0 then 1 else fd), k2. split; [by destruct (fd <? 0)|]. split; [|split].
  - destruct (Z.ltb_spec fd 0); [by left|right]. by apply (open_ok _ _ _ _ _ _ Eo).
  - intros pid tid s u Hs En. unfold name, pasted_name in En. apply app_inv_head in En.
    apply app_inv_tail in En. by apply stamp_inj.
  - intros rest En. unfold name, pasted_name, stamp in En. apply app_inv_head in En.
    pose proof (dec_range (sys_getpid k1)) as Hr.
    destruct (dec (sys_getpid k1)) as [|c l] eqn:Ed; cbn [app] in En; [done|].
    injection En as -> _. apply Forall_cons in Hr as [Hr _]. cbv beta in Hr. lia.
Qed.

(** ** The first thread *)

(** The private data of a thread that was set up. *)
Definition started_tpd (a pid tid : Z) : thread_private_data :=
  Tpd 0 a 0 a pid tid (init_mm_obj true) (logger_stub zero_tpd) 0.

(** The process [P] of a thread that was set up, at [s]. *)
Record self_ok (k0 : K) (P : process) (s : Z) (t : thread_private_data) : Prop := {
  so_tls : tls_ok k0 (tls P);
  so_area : get_tls_desc s ∈ tls_list (tls P);
  so_fs : fs_base P = s;
  so_record : tpds P !! tpd_addr SIZEOF_TPD (get_tls_desc s) = Some t;
  so_tpd : tpd t = tpd_addr SIZEOF_TPD (get_tls_desc s);
  so_pid : 0 <= pid t < 2 ^ 31;
  so_tid : 0 <= tid t < 2 ^ 31
}.

(** The process whose calling thread has the record [t] at [a]. *)
Definition at_tpd (st : tls_state) (m : gmap Z thread_private_data) (b fd a : Z) (t : thread_private_data) : process :=
  Process st (<[a := t]> m) b fd.

Lemma tpd_at_self st m b fd a t : tpd_at (at_tpd st m b fd a t) a = Ok t.
Proof using. unfold tpd_at. cbn [at_tpd tpds]. by rewrite lookup_insert_eq. Qed.

Lemma update_self st m b fd a t f :
  update (at_tpd st m b fd a t) a f = Ok (at_tpd st m b fd a (f t)).
Proof using.
  unfold update. rewrite tpd_at_self, bind_Ok. unfold set_tpds, at_tpd.
  cbn [tls tpds fs_base logger_fd]. by rewrite insert_insert_eq.
Qed.

(** The area is at [s]: its record is the one [%fs] leads to. *)
Lemma offset_tpd s : s + OFFSET_TPD SIZEOF_TPD = tpd_addr SIZEOF_TPD (get_tls_desc s).
Proof using. unfold OFFSET_TPD, tpd_addr, get_tls_desc. lia. Qed.

Lemma get_self_at st m s fd t :
  let a := tpd_addr SIZEOF_TPD (get_tls_desc s) in
  get_self_tpd SIZEOF_TPD (at_tpd st m s fd a t) = Ok (tpd t).
Proof using.
  cbv zeta. unfold get_self_tpd. change (fs_base (at_tpd st m s fd _ t)) with s.
  by rewrite offset_tpd, tpd_at_self, bind_Ok.
Qed.

Lemma self_desc_at st m s fd a t d : descs st !! get_tls_desc s = Some d -> start_addr d = s ->
  get_self_tls_desc (at_tpd st m s fd a t) = Ok (get_tls_desc s).
Proof using. intros Hd Hs. unfold get_self_tls_desc, desc_at. cbn [at_tpd tls fs_base]. by rewrite Hd, bind_Ok, Hs. Qed.

Lemma setup_self_tpd_spec st m s fd t d : descs st !! get_tls_desc s = Some d -> start_addr d = s ->
  let a := tpd_addr SIZEOF_TPD (get_tls_desc s) in
  setup_self_tpd SIZEOF_TPD (at_tpd st m s fd a t) =
    Ok (a, at_tpd st m s fd a (set_mutex (set_stack_top (set_tpd t a) a) 0)).
Proof using.
  intros Hd Hs a. unfold setup_self_tpd. rewrite (self_desc_at _ _ _ _ _ _ d) by done. rewrite bind_Ok.
  unfold get_tpd, desc_at. cbn [at_tpd tls]. rewrite Hd, !bind_Ok, Hs. fold a. rewrite update_self, bind_Ok, get_self_at, bind_Ok. cbn [tpd set_tpd].
  by rewrite update_self, bind_Ok, update_self, bind_Ok.
Qed.

Lemma init_self_mm_obj_at st m s fd t x :
  let a := tpd_addr SIZEOF_TPD (get_tls_desc s) in tpd t = a -> a <> 0 ->
  init_self_mm_obj SIZEOF_TPD (at_tpd st m s fd a t) x = Ok (at_tpd st m s fd a (set_mm t (init_mm_obj x))).
Proof using.
  intros a Ht Ha. unfold init_self_mm_obj. rewrite get_self_at, bind_Ok, Ht. fold a.
  rewrite (proj2 (Z.eqb_neq a 0)) by done. cbn [negb assert]. by rewrite bind_Ok, update_self.
Qed.

Lemma init_self_bigbuffer_at st m s fd t :
  let a := tpd_addr SIZEOF_TPD (get_tls_desc s) in tpd t = a -> a <> 0 ->
  init_self_bigbuffer SIZEOF_TPD (at_tpd st m s fd a t) =
    Ok (at_tpd st m s fd a (set_logger t (set_bb (logger_stub t) (Bigbuffer.Big.init_bigbuffer (bb t))))).
Proof using.
  intros a Ht Ha. unfold init_self_bigbuffer. rewrite get_self_at, bind_Ok, Ht. fold a.
  rewrite (proj2 (Z.eqb_neq a 0)) by done. cbn [negb assert]. by rewrite bind_Ok, update_self.
Qed.

Abbreviation main := (snitchaser_main SIZEOF_TPD sp lit junk ldt).

(** C20: [snitchaser_main] gives the calling thread an area of its own: a free
    slot, private data with the process and thread numbers, no objects and an
    empty buffer, found through [%fs]; the data of every other thread is as it
    was. It opens the log, for appending, under a name made of the process, the
    thread and the time; the log descriptor is the one [open] returned, of that
    file, or 1 when [open] failed. Then it patches the entry point. The thread
    areas are consistent, the kernel has room for one more, the LDT a free entry,
    and the area holds the private data. *)
Theorem snitchaser_main_correct k P target mem info :
  tls_ok k (tls P) -> has_room k -> zlen (tls_list (tls P)) < LDT_ENTRIES ->
  0 < SIZEOF_TPD < TLS_AREA_SIZE - sizeof_tls_desc ->
  exists s k0 kc k1 P1 sec usec fd,
    let td := get_tls_desc s in let a := tpd_addr SIZEOF_TPD td in
    let t := started_tpd a (sys_getpid k0) (sys_gettid k0) in
    let name := pasted_name (codes ".log") (sys_getpid kc) (sys_gettid kc) sec usec in
    alloc_tls_area k (tls P) = Ok (td, k0, tls P1) /\
    (td ∉ tls_list (tls P)) /\ tls_list (tls P1) = td :: tls_list (tls P) /\
    tpds P1 = <[a := t]> (tpds P) /\ self_ok k0 P1 s t /\
    get_self_tpd SIZEOF_TPD P1 = Ok a /\ get_self_tls_desc P1 = Ok td /\
    sys_gettimeofday k0 = (0, sec, usec, kc) /\ sys_open kc name log_flags 420 = (fd, k1) /\
    logger_fd P1 = (if fd <? 0 then 1 else fd) /\ (0 <= fd -> fd_file k1 fd = Some name) /\
    main target k P mem info = ('(k, mem, p) ← patch_user_entry target k1 mem info; Ok (k, P1, mem, p)).
Proof using Hsp Hjunk KRU.
  intros Hok Hroom Hlen Hsz.
  destruct (alloc_tls_area_spec k (tls P) Hok Hroom Hlen)
    as (td & d & k0 & st & Ea & Hok' & Hnew & Hlist & Hdescs & _ & _ & Hsel & _).
  destruct (t_area _ _ Hok' td) as (d' & Hd & Ha); [rewrite Hlist; apply elem_of_cons; by left|].
  assert (d' = d) as -> by (rewrite Hdescs, lookup_insert_eq in Hd; congruence).
  destruct Ha as [-> _ _ _ _ Hldt _ [Hp0 _] _]. destruct (clock_up k0) as (sec & usec & kc & Hc).
  pose proof (xlogger_init_spec k0 sec usec kc Hc) as Ex. cbv zeta in Ex.
  destruct (sys_open kc _ log_flags 420) as [fd k1] eqn:Eo.
  set (s := start_addr d) in *. set (a := tpd_addr SIZEOF_TPD (get_tls_desc s)).
  assert (Hane : a <> 0) by (unfold a, tpd_addr, get_tls_desc; lia).
  exists s, k0, kc, k1,
    (at_tpd st (tpds P) s (if fd <? 0 then 1 else fd) a (started_tpd a (sys_getpid k0) (sys_gettid k0))), sec, usec, fd.
  split; [exact Ea|]. split; [done|]. split; [done|]. split; [done|]. split.
  { constructor; try done; [|by apply lookup_insert_eq|apply pid_range|apply tid_range].
    cbn [at_tpd tls]. rewrite Hlist. apply elem_of_cons. by left. }
  split; [by apply get_self_at|]. split; [by apply (self_desc_at _ _ _ _ _ _ d)|].
  split; [apply Hc|]. split; [exact Eo|]. split; [done|].
  split; [intros Hfd; by apply (open_ok _ _ _ _ _ _ Eo)|].
  unfold snitchaser_main. rewrite Ea, bind_Ok. unfold active_tls, desc_at. cbn [set_tls set_tpds tls tpds fs_base logger_fd].
  rewrite Hd, bind_Ok, Hsel, Hldt, bind_Ok.
  change (set_fs _ _) with (at_tpd st (tpds P) s (logger_fd P) a zero_tpd).
  rewrite (setup_self_tpd_spec _ _ _ _ _ d Hd eq_refl : setup_self_tpd _ (at_tpd _ _ _ _ a _) = _).
  rewrite bind_Ok, update_self, bind_Ok.
  erewrite (init_self_mm_obj_at _ _ _ _ _ _ : _ -> _ -> init_self_mm_obj _ (at_tpd _ _ _ _ a _) _ = _) by done.
  rewrite bind_Ok.
  erewrite (init_self_bigbuffer_at _ _ _ _ _ : _ -> _ -> init_self_bigbuffer _ (at_tpd _ _ _ _ a _) = _) by done.
  rewrite bind_Ok, Ex. by destruct (fd <? 0).
Qed.

(** ** The allocators *)

(** [xrealloc] looks at a local that is [NULL]: it never frees or moves the old
    block, whatever it is given. *)
Lemma xrealloc_allocates k old_ptr old_size size : xrealloc k old_ptr old_size size = xmalloc k size.
Proof using. done. Qed.

(** The product of [xcalloc] wraps around. *)
Lemma xcalloc_wraps k nmenb size : 0 < nmenb -> 0 < size -> 0 < u32 (nmenb * size) ->
  xcalloc k nmenb size = xmalloc k (u32 (nmenb * size)).
Proof using.
  intros Hn%Z.ltb_lt Hs%Z.ltb_lt Hp%Z.ltb_lt. unfold xcalloc, xmalloc. by rewrite Hn, Hs, Hp.
Qed.

(** ** The memory of the threads *)

(** The pages of the objects of a thread. *)
Definition buckets (t : thread_private_data) : list (Z * Z) :=
  map (fun a => (a, OBJ_BUCKET_SIZE)) (buk_list (mm_stub t)).

Definition cleaned (t : thread_private_data) : thread_private_data := set_mm t (Objmm ∅ [] None false).

(** [t] is the record of the area [td] of the process. *)
Record thread_of (P : process) (td : Z) (t : thread_private_data) : Prop := {
  th_record : tpds P !! tpd_addr SIZEOF_TPD td = Some t;
  th_nodup : NoDup (buk_list (mm_stub t));
  th_heads : forall a, In a (buk_list (mm_stub t)) -> exists b, heads (mm_stub t) !! a = Some b /\ buk_ok a b
}.

(** The processes that differ in the records of the threads of [l] only, which
    have been cleaned. *)
Definition cleared (l : list Z) (P P' : process) : Prop :=
  tls P' = tls P /\ fs_base P' = fs_base P /\ logger_fd P' = logger_fd P /\
  forall a, tpds P' !! a =
    if decide (a ∈ map (tpd_addr SIZEOF_TPD) l) then cleaned <$> tpds P !! a else tpds P !! a.

Lemma get_tpd_inj l td : tpd_addr SIZEOF_TPD td ∈ map (tpd_addr SIZEOF_TPD) l -> td ∈ l.
Proof using.
  intros (x & Ex & Hx)%list_elem_of_fmap. unfold tpd_addr in Ex. by replace td with x by lia.
Qed.

Definition area_at (st : tls_state) (td : Z) : Prop :=
  exists d, descs st !! td = Some d /\ td = get_tls_desc (start_addr d).

Lemma tls_ok_area k0 st td : tls_ok k0 st -> td ∈ tls_list st -> area_at st td.
Proof using.
  intros Hok Htd. destruct (t_area _ _ Hok td Htd) as (d & Hd & Ha). exists d. split; [done|]. by destruct Ha.
Qed.

Lemma Forall2_impl_elem {A B} (R Q : A -> B -> Prop) l l' :
  Forall2 R l l' -> (forall x y, x ∈ l -> R x y -> Q x y) -> Forall2 Q l l'.
Proof using.
  induction 1 as [|x y l l' Hr _ IH]; intros Hi; constructor.
  - apply Hi; [apply elem_of_cons; by left|done].
  - apply IH. intros ? ? ?. apply Hi. apply elem_of_cons. by right.
Qed.

Lemma clear_each_spec l : forall k P ts rest,
  NoDup l -> (forall td, td ∈ l -> area_at (tls P) td) -> Forall2 (thread_of P) l ts -> mapped k ≡ₚ concat (map buckets ts) ++ rest ->
  exists k' P', clear_each SIZEOF_TPD k P l = Ok (k', P') /\ mapped k' ≡ₚ rest /\ cleared l P P'.
Proof using KU.
  induction l as [|td l IH]; intros k P ts rest Hnd Har Hts Hm.
  { apply Forall2_nil_inv_l in Hts as ->. by exists k, P. }
  apply Forall2_cons_inv_l in Hts as (t & ts' & [Ht Hb Hh] & Hts & ->).
  destruct (Har td) as (d & Hd & Etd); [apply elem_of_cons; by left|].
  apply NoDup_cons in Hnd as [Hnew Hnd]. cbn [map concat] in Hm. rewrite <- app_assoc in Hm.
  cbn [clear_each]. unfold desc_at. rewrite Hd, bind_Ok, offset_tpd, <- Etd. set (a := tpd_addr SIZEOF_TPD td) in *.
  unfold tpd_at, clean_mm_obj. rewrite Ht, bind_Ok.
  destruct (free_buks_spec (buk_list (mm_stub t)) k (heads (mm_stub t)) Hb Hh) as (k1 & -> & Hk1); [by eexists|].
  rewrite !bind_Ok. unfold update, tpd_at. rewrite Ht, !bind_Ok. fold (cleaned t).
  set (P1 := set_tpds P (<[a := cleaned t]> (tpds P))).
  destruct (IH k1 P1 ts' rest) as (k' & P' & E & Hr & Et & Ef & El & Hl).
  - done.
  - intros x Hx. apply Har. apply elem_of_cons. by right.
  - eapply Forall2_impl_elem; [exact Hts|]. intros x y Hx [Hrec Hn Hhd].
    constructor; [|done|done]. cbn [P1 set_tpds tpds]. rewrite lookup_insert_ne; [done|].
    intros Ea. apply Hnew. unfold a, tpd_addr in Ea. by replace td with x by lia.
  - fold (buckets t) in Hk1. rewrite Hk1 in Hm. by apply Permutation_app_inv_l in Hm.
  - exists k', P'. split; [exact E|]. split; [done|]. split; [done|]. split; [done|]. split; [done|].
    intros b. rewrite Hl. cbn [P1 set_tpds tpds map]. destruct (decide (b = a)) as [->|Hne].
    + rewrite decide_False by (intros H; by apply Hnew, get_tpd_inj).
      rewrite decide_True by (apply elem_of_cons; by left). by rewrite lookup_insert_eq, Ht.
    + rewrite lookup_insert_ne by done. fold a.
      destruct (decide (b ∈ map (tpd_addr SIZEOF_TPD) l)).
      * by rewrite decide_True by (apply elem_of_cons; by right).
      * rewrite decide_False; [done|]. intros [?|?]%elem_of_cons; done.
Qed.

(** Before it writes a checkpoint, a process gives back the objects of all
    its threads: the buckets of every area of the list are unmapped, and
    nothing else is; the records keep everything but their allocator. *)
Lemma clear_all_thread_mem_unmaps k k0 P ts rest :
  tls_ok k0 (tls P) -> Forall2 (thread_of P) (tls_list (tls P)) ts ->
  mapped k ≡ₚ concat (map buckets ts) ++ rest ->
  exists k' P', clear_all_thread_mem SIZEOF_TPD k P = Ok (k', P') /\ mapped k' ≡ₚ rest /\
    tls P' = tls P /\ fs_base P' = fs_base P /\
    forall a, tpds P' !! a =
      if decide (a ∈ map (tpd_addr SIZEOF_TPD) (tls_list (tls P))) then cleaned <$> tpds P !! a else tpds P !! a.
Proof using KU.
  intros Hok Hts Hm. destruct (clear_each_spec _ k P ts rest (t_nodup _ _ Hok) (fun td => tls_ok_area k0 _ td Hok) Hts Hm)
    as (k' & P' & E & Hr & Et & Ef & _ & Hl). by exists k', P'.
Qed.

(** ** The entry point is reached *)

Context {KUp : KernelUp K} {KT : KernelTls K} {L : LzoApi} (work : K -> Z -> Z).

Lemma init_logger_spec k ASM_BASE l sec usec pid tid : stamp_ok pid tid sec usec ->
  let name := slash_name (codes ".log") pid tid sec usec in
  exists k', init_logger sp lit junk k ASM_BASE l sec usec pid tid = Ok (k', init_stub ASM_BASE l name) /\
    file_bytes k' name = COMP_FILE_HEADER.
Proof using Hsp Hlit Hjunk KUp.
  intros Hok name. unfold init_logger. destruct (stamp_u32 _ _ _ _ Hok) as (-> & -> & -> & ->).
  rewrite slash_name_text by (done || by left). rewrite bind_Ok. fold name.
  pose proof (zlen_stamp _ _ _ _ Hok). destruct log_dir_ok as [_ Hd].
  assert (Hl : 0 <= zlen name < 128).
  { split; [apply zlen_nonneg|]. unfold name, slash_name. rewrite zlen_app, zlen_cons, zlen_app, Hd.
    change (zlen (codes ".log")) with 4. lia. }
  unfold MAX_OUTPUT_FN_LEN. rewrite u32_small by lia. destruct (Z.ltb_spec (zlen name) 128); [|lia].
  cbn [assert]. rewrite bind_Ok. set (flags := Z.lor _ _).
  destruct (sys_open k name flags 436) as [fd k1] eqn:Eo.
  pose proof (open_up k name flags 436) as Ho. rewrite Eo in Ho. cbn [fst] in Ho.
  destruct (Z.ltb_spec fd 0); [lia|]. destruct (open_ok _ _ _ _ _ _ Eo Ho eq_refl) as [Hf Hb].
  pose proof (write_comp_file_head_spec True (fun _ => KUp) k1 fd name Ho Hf) as Hw.
  destruct (write_comp_file_head k1 fd) as [k2| | |]; cbn [outcome] in Hw; [|by destruct (Hw I)|done|done]. destruct Hw as [_ Hw].
  rewrite bind_Ok. destruct (sys_close k2 fd) as [err k3] eqn:Ec. exists k3. split; [done|].
  by rewrite (close_ok _ _ _ _ _ Ec), Hw, Hb.
Qed.

Lemma self_at k0 P s t : self_ok k0 P s t ->
  P = at_tpd (tls P) (tpds P) s (logger_fd P) (tpd_addr SIZEOF_TPD (get_tls_desc s)) t.
Proof using.
  intros [_ _ <- Hr _ _ _]. unfold at_tpd. rewrite insert_id by done. by destruct P.
Qed.

Lemma self_desc k0 P s t : self_ok k0 P s t ->
  exists d, descs (tls P) !! get_tls_desc s = Some d /\ start_addr d = s /\ size d = TLS_AREA_SIZE.
Proof using.
  intros [Hok Ha _ _ _ _ _]. destruct (t_area _ _ Hok _ Ha) as (d & Hd & [E Hs _ _ _ _ _ _ _]).
  exists d. split; [done|]. split; [|done]. unfold get_tls_desc in E. lia.
Qed.

Lemma self_get k0 P s t : self_ok k0 P s t ->
  get_self_tpd SIZEOF_TPD P = Ok (tpd_addr SIZEOF_TPD (get_tls_desc s)).
Proof using. intros Hs. rewrite (self_at k0 P s t Hs), get_self_at. by rewrite (so_tpd _ _ _ _ Hs). Qed.

(** The process that takes the checkpoint: the files' name is the stamp of the
    thread, its memory no longer holds the threads' objects. *)
Lemma checkpoint_child_spec suffix checked k k0 P s t ts rest mem info c pad regs pc top sec usec :
  self_ok k0 P s t -> Forall2 (thread_of P) (tls_list (tls P)) ts ->
  mapped k ≡ₚ concat (map buckets ts) ++ rest ->
  0 <= sec < 2 ^ 32 -> 0 <= usec < 2 ^ 32 -> suffix ∈ suffixes ->
  exists k', mapped k' ≡ₚ rest /\
    checkpoint_child SIZEOF_TPD work sp lit junk suffix checked k P mem info c pad regs pc top sec usec =
      ('(k, _) ← Ckpt.do_checkpoint work mem k' info c pad regs pc top (slash_name suffix (pid t) (tid t) sec usec)
         (pid t) (tid t) s TLS_AREA_SIZE (bb t); Ok k).
Proof using Hsp Hlit Hjunk KU.
  intros Hs Hts Hm Hsec Husec Hsuf.
  assert (Hok : stamp_ok (pid t) (tid t) sec usec) by (split; [apply Hs|apply Hs|done|done]).
  destruct (clear_each_spec _ k P ts rest (t_nodup _ _ (so_tls _ _ _ _ Hs))
    (fun td => tls_ok_area k0 _ td (so_tls _ _ _ _ Hs)) Hts Hm) as (k' & P' & E & Hr & Et & Ef & _ & Hl).
  exists k'. split; [done|]. set (name := slash_name _ _ _ _ _).
  assert (Hl' : tpds P' !! tpd_addr SIZEOF_TPD (get_tls_desc s) = Some (cleaned t)).
  { rewrite Hl, decide_True, (so_record _ _ _ _ Hs); [done|]. apply list_elem_of_fmap. eexists.
    split; [done|apply Hs]. }
  assert (Hn : 0 <= zlen name < 128).
  { split; [apply zlen_nonneg|]. unfold name, slash_name. rewrite zlen_app, zlen_cons, zlen_app.
    pose proof (zlen_stamp _ _ _ _ Hok). destruct (suffix_ok _ Hsuf) as [_ Hz], log_dir_ok as [_ ->]. lia. }
  unfold checkpoint_child. rewrite (self_get k0 P s t Hs), bind_Ok. unfold tpd_at.
  rewrite (so_record _ _ _ _ Hs), bind_Ok. unfold clear_all_thread_mem. rewrite E, bind_Ok.
  destruct (stamp_u32 _ _ _ _ Hok) as (-> & -> & -> & ->).
  rewrite slash_name_text by done. rewrite bind_Ok. fold name. unfold MAX_OUTPUT_FN_LEN. rewrite u32_small by lia.
  destruct (Z.ltb_spec (zlen name) 128); [|lia]. cbn [assert].
  replace (if checked then Ok tt else Ok tt) with (Ok tt) by (by destruct checked). rewrite bind_Ok.
  destruct (self_desc _ _ _ _ Hs) as (d & Hd & Hsd & Hsz). unfold get_self_tls_desc, desc_at.
  rewrite Ef, Et, (so_fs _ _ _ _ Hs), Hd, !bind_Ok, Hsd, Hd, bind_Ok, Hl', bind_Ok, Hsz, Hsd.
  by destruct t.
Qed.

(** C19: when the program gets to its patched entry point, the recorder puts
    the program's bytes back, has a clone of the process write a checkpoint of
    the memory without the recorder's objects, starts a compressed log under
    the same stamp, and tells the assembly to resume where the patch was. The
    bytes can be put back, the thread and those of the list have consistent
    records whose buckets are mapped, and the calls of the kernel succeed;
    [checkpoint_restores] is about what the clone runs. *)
Theorem arch_user_entry_correct k k1 k0 P s t ts rest mem mem1 st info c pad regs ASM_BASE :
  self_ok k0 P s t -> Forall2 (thread_of P) (tls_list (tls P)) ts ->
  unpatch_user_entry k mem st = Ok (k1, mem1) -> mapped k1 ≡ₚ concat (map buckets ts) ++ rest ->
  exists sec usec k2 kc ckpt,
    let name suffix := slash_name suffix (pid t) (tid t) sec usec in
    let t' := set_resume_addr (set_logger t (init_stub ASM_BASE (logger_stub t) (name (codes ".log")))) (patch_begin st) in
    arch_user_entry SIZEOF_TPD work sp lit junk k P mem st info c pad regs ASM_BASE =
      Ok (k2, set_tpds P (<[tpd_addr SIZEOF_TPD (get_tls_desc s) := t']> (tpds P)), mem1, ckpt) /\
    file_bytes k2 (name (codes ".log")) = COMP_FILE_HEADER /\
    mapped kc ≡ₚ rest /\
    ckpt = ('(k, _) ← Ckpt.do_checkpoint work mem1 kc info c pad regs (patch_begin st) (old_stack_top t)
              (name (codes ".ckpt")) (pid t) (tid t) s TLS_AREA_SIZE (bb t); Ok k).
Proof using Hsp Hlit Hjunk KU KUp KRU.
  intros Hs Hts Eun Hm. pose proof (so_record _ _ _ _ Hs) as Hrec. set (a := tpd_addr SIZEOF_TPD (get_tls_desc s)) in *.
  destruct (time_up k1) as (sec & usec & k2 & Et & Hsec & Husec & Hm2).
  destruct (sys_clone k2) as [[p k3] k4] eqn:Ec.
  pose proof (clone_up k2) as Hp. pose proof (clone_mapped k2) as Hm4. rewrite Ec in Hp, Hm4. cbn [fst snd] in Hp, Hm4.
  destruct (sys_clone k4) as [[p' k5] k6] eqn:Ec'.
  pose proof (clone_up k4) as Hp'. pose proof (clone_mapped k4) as Hm6. rewrite Ec' in Hp', Hm6. cbn [fst snd] in Hp', Hm6.
  destruct (sys_wait4 k3 p) as [err k7] eqn:Ew. pose proof (wait_up k3 p Hp) as He. rewrite Ew in He. cbn [fst] in He. subst err.
  destruct (checkpoint_child_spec (codes ".ckpt") true k6 k0 P s t ts rest mem1 info c pad regs
    (patch_begin st) (old_stack_top t) sec usec Hs Hts) as (kc & Hkc & Ech); [by rewrite Hm6, Hm4, Hm2|done|done|by apply elem_of_cons; right; apply elem_of_cons; left|].
  destruct (init_logger_spec k7 ASM_BASE (logger_stub t) sec usec (pid t) (tid t)) as (k8 & El & Hb);
    [split; [apply Hs|apply Hs|done|done]|].
  eexists sec, usec, k8, kc, _. cbv zeta. split; [|split; [exact Hb|split; [exact Hkc|exact Ech]]].
  pose proof (self_get _ _ _ _ Hs) as Hget. fold a in Hget.
  unfold arch_user_entry. rewrite Eun, bind_Ok. unfold enter_user_entry. rewrite Hget, bind_Ok, Et. cbn [Z.eqb assert].
  rewrite bind_Ok. unfold tpd_at at 1. rewrite Hrec, bind_Ok. unfold fork_checkpoint. rewrite Hget, bind_Ok, Ec.
  destruct (Z.leb_spec 0 p); [|lia]. cbn [assert]. rewrite bind_Ok, Ec', Ew, Z.eqb_refl. cbn [assert]. rewrite !bind_Ok.
  destruct (Z.leb_spec 0 p'); [|lia]. cbn [assert]. rewrite bind_Ok.
  unfold init_self_logger. rewrite Hget, bind_Ok. unfold tpd_at at 1. rewrite Hrec, bind_Ok, El, bind_Ok.
  unfold update, tpd_at. rewrite Hrec, !bind_Ok. cbn [set_tpds tpds].
  rewrite lookup_insert_eq, !bind_Ok. unfold set_tpds. cbn [tls tpds fs_base logger_fd].
  by rewrite insert_insert_eq.
Qed.

End main.

(** ** A recorder *)

#[global] Program Instance machine_files : KernelFiles Machine.machine := {
  file_bytes k := file_bytes (Machine.ram k);
  fd_file k := fd_file (Machine.ram k)
}.
Next Obligation.
  intros k fn flags mode fd k' E. cbn [sys_open Machine.machine_kernel] in E.
  destruct (sys_open (Machine.ram k) fn flags mode) as [x r] eqn:Eo. injection E as <- <-. by eapply open_ok.
Qed.
Next Obligation.
  intros k fn flags mode fd k' fn' E. cbn [sys_open Machine.machine_kernel] in E.
  destruct (sys_open (Machine.ram k) fn flags mode) as [x r] eqn:Eo. injection E as <- <-. by eapply open_fail.
Qed.
Next Obligation.
  intros k fd l n k' E. cbn [sys_write Machine.machine_kernel] in E.
  destruct (sys_write (Machine.ram k) fd l) as [x r] eqn:Eo. injection E as <- <-. by eapply write_range.
Qed.
Next Obligation.
  intros k fd fn l k' Hf E. cbn [sys_write Machine.machine_kernel] in E.
  destruct (sys_write (Machine.ram k) fd l) as [x r] eqn:Eo. injection E as -> <-. by eapply write_ok.
Qed.
Next Obligation.
  intros k fd n k' fn E. cbn [sys_close Machine.machine_kernel] in E.
  destruct (sys_close (Machine.ram k) fd) as [x r] eqn:Eo. injection E as <- <-. by eapply close_ok.
Qed.

#[global] Program Instance machine_up : KernelUp Machine.machine.
Next Obligation. intros k fn flags mode. exact (open_up (Machine.ram k) fn flags mode). Qed.
Next Obligation. intros k fd fn l Hf. exact (write_up (Machine.ram k) fd fn l Hf). Qed.
Next Obligation. intros k fd fn Hf. exact (close_up (Machine.ram k) fd fn Hf). Qed.

(** Process 700 with the thread 701; the copies a clone makes are the same. *)
#[global] Instance machine_proc : KernelProc Machine.machine := {
  sys_getpid _ := 700;
  sys_gettid _ := 701;
  sys_gettimeofday k := (0, 1304000000, 250000, k);
  sys_mremap k p n m := (-12, k);
  sys_clone k := (702, k, k);
  sys_wait4 k p := (p, k)
}.

#[global] Program Instance machine_proc_up : KernelProcUp Machine.machine.
Next Obligation. done. Qed.
Next Obligation. done. Qed.
Next Obligation. intros k. by exists 1304000000, 250000, k. Qed.
Next Obligation. done. Qed.
Next Obligation. done. Qed.
Next Obligation. done. Qed.

(** No segment of the program's own. *)
#[global] Instance machine_gdt : KernelTls Machine.machine := {
  sys_get_thread_area k d := (-22, d);
  sys_set_thread_area k d := (-22, k)
}.

Definition stack_bytes : list Z := replicate 128 0xcc.

Definition sizeof_tpd : Z := 2200000.

Lemma snitchaser_main_correct_witness :
  exists s k1 P1, let t := started_tpd (tpd_addr sizeof_tpd (get_tls_desc s)) 700 701 in
    tls_list (tls P1) = [get_tls_desc s] /\ get_self_tpd sizeof_tpd P1 = Ok (tpd_addr sizeof_tpd (get_tls_desc s)) /\
    tpds P1 = {[ tpd_addr sizeof_tpd (get_tls_desc s) := t ]} /\
    snitchaser_main sizeof_tpd 0x7fff0000 0x70002000 stack_bytes ldt 0x70001000 Machine.start
      (Process no_areas ∅ 0 0) [] (Startup.Stack 0 0 0 0 0 0 0 0 0 (Startup.Auxv 0 0 0 0 0 0 0)) =
      ('(k, mem, p) ← patch_user_entry 0x70001000 k1 [] (Startup.Stack 0 0 0 0 0 0 0 0 0 (Startup.Auxv 0 0 0 0 0 0 0));
       Ok (k, P1, mem, p)).
Proof.
  destruct (snitchaser_main_correct sizeof_tpd 0x7fff0000 0x70002000 stack_bytes ltac:(lia) eq_refl Machine.start
    (Process no_areas ∅ 0 0) 0x70001000 [] (Startup.Stack 0 0 0 0 0 0 0 0 0 (Startup.Auxv 0 0 0 0 0 0 0)))
    as (s & k0 & kc & k1 & P1 & sec & usec & fd & _ & _ & El & Et & _ & Eg & _ & _ & _ & _ & _ & Em).
  - apply tls_init_ok.
  - by vm_compute.
  - by vm_compute.
  - by vm_compute.
  - exists s, k1, P1. exact (conj El (conj Eg (conj Et Em))).
Defined.

(** A thread with an object, about to reach its entry point. *)
Definition one_object : Machine.machine * obj_mm_tpd_stub :=
  match alloc_obj one_area.1.2 (init_mm_obj true) 100 with
  | Ok (_, k, mm) => (k, mm)
  | _ => (Machine.start, init_mm_obj true)
  end.

Definition area_start : Z := one_area.1.1 - TLS_AREA_SIZE + sizeof_tls_desc.
Definition running_tpd : thread_private_data :=
  set_mm (started_tpd (tpd_addr sizeof_tpd (get_tls_desc area_start)) 700 701) one_object.2.
Definition running : process :=
  at_tpd one_area.2 ∅ area_start 3 (tpd_addr sizeof_tpd (get_tls_desc area_start)) running_tpd.
Definition entry_patch : patch := Patch 4096 4096 5 4200 [0x31; 0xed; 0x5e; 0x89; 0xe1].

Lemma running_self : self_ok sizeof_tpd one_area.1.2 running area_start running_tpd.
Proof.
  destruct one_area_ok as [Hok Hin].
  assert (E : get_tls_desc area_start = one_area.1.1) by (unfold get_tls_desc, area_start; lia).
  constructor; [exact Hok|by rewrite E|reflexivity|by apply lookup_insert_eq|reflexivity| |].
  - change (pid running_tpd) with 700. lia.
  - change (tid running_tpd) with 701. lia.
Qed.

Lemma one_bucket : buk_list one_object.2 = [4122783744].
Proof. by vm_compute. Qed.

Lemma running_threads : Forall2 (thread_of sizeof_tpd running) (tls_list (tls running)) [running_tpd].
Proof.
  change (tls_list (tls running)) with (tls_list one_area.2).
  assert (E : tls_list one_area.2 = [get_tls_desc area_start]) by (by vm_compute). rewrite E.
  constructor; [|constructor]. constructor.
  - by apply lookup_insert_eq.
  - change (mm_stub running_tpd) with one_object.2. rewrite one_bucket. apply NoDup_singleton.
  - change (mm_stub running_tpd) with one_object.2. rewrite one_bucket. intros a [<- | []]. eexists. split; [by vm_compute|].
    constructor; by vm_compute.
Qed.

Lemma arch_user_entry_correct_witness :
  exists sec usec k2 P2 ckpt,
    arch_user_entry sizeof_tpd (fun _ _ => 0) 0x7fff0000 0x70002000 stack_bytes one_object.1 running
      (replicate 5000 0) entry_patch (Startup.Stack 0 0 0 0 0 0 0 0 0 (Startup.Auxv 0 0 0 0 0 0 0)) Arch.cpu1
      (replicate 12 0xaa) Arch.regs1 4096 = Ok (k2, P2, poke (replicate 5000 0) 4200 [0x31; 0xed; 0x5e; 0x89; 0xe1], ckpt) /\
    file_bytes k2 (slash_name (codes ".log") 700 701 sec usec) = COMP_FILE_HEADER.
Proof.
  destruct (arch_user_entry_correct sizeof_tpd 0x7fff0000 0x70002000 stack_bytes ltac:(lia) ltac:(lia) eq_refl
    (fun _ _ => 0) one_object.1 one_object.1 one_area.1.2 running area_start running_tpd [running_tpd]
    [(area_start, TLS_AREA_SIZE)] (replicate 5000 0) (poke (replicate 5000 0) 4200 [0x31; 0xed; 0x5e; 0x89; 0xe1])
    entry_patch (Startup.Stack 0 0 0 0 0 0 0 0 0 (Startup.Auxv 0 0 0 0 0 0 0)) Arch.cpu1 (replicate 12 0xaa) Arch.regs1 4096)
    as (sec & usec & k2 & kc & ckpt & E & Hf & _).
  - exact running_self.
  - exact running_threads.
  - by vm_compute.
  - cbn [map concat]. unfold buckets. change (mm_stub running_tpd) with one_object.2. rewrite one_bucket.
    assert (E : mapped one_object.1 = [(4122783744, OBJ_BUCKET_SIZE); (area_start, TLS_AREA_SIZE)]) by (by vm_compute).
    by rewrite E.
  - exists sec, usec, k2. eexists _, _. exact (conj E Hf).
Defined.

End RecFacts.
