(* ===== verification/LoggerAll.v ===== *)
(** The logs of all threads: a flush touches no file but the log of its thread,
    and the names [init_logger] gives are different for different threads, so
    that [flush_all_logger] of [src/src/core/loader/logger.c] gives every log
    exactly what its own thread logged. *)
From S2P Require Import Prelude Kernel LzoDecompress LzoRoundtrip Compression Bigbuffer Logger RecorderFacts.
Import Compr Big Log RecFacts.

(** A write changes the file its descriptor is of, an open the file it names;
    no other file, and a write leaves the descriptors. *)
Class KernelFrame (K : Type) `{KernelFiles K} : Prop := {
  write_frame : forall k fd fn l n k', fd_file k fd = Some fn -> sys_write k fd l = (n, k') ->
    fd_file k' fd = Some fn /\ forall fn', fn' <> fn -> file_bytes k' fn' = file_bytes k fn';
  open_frame : forall k fn flags mode fd k', sys_open k fn flags mode = (fd, k') ->
    forall fn', fn' <> fn -> file_bytes k' fn' = file_bytes k fn'
}.

Module LogAll.

Section frame.
Context {K : Type} {KK : Kernel K} {KF : KernelFiles K} {FR : KernelFrame K} {L : LzoApi}.
Context (stack : K -> Z -> Z) (ASM_BASE : Z).

(** [k'] differs from [k] in the file [fn] only. *)
Definition others (fn : fname) (k k' : K) : Prop :=
  forall fn', fn' <> fn -> file_bytes k' fn' = file_bytes k fn'.

Lemma others_refl fn k : others fn k k.
Proof using. done. Qed.

Lemma others_trans fn k1 k2 k3 : others fn k1 k2 -> others fn k2 k3 -> others fn k1 k3.
Proof using. intros H1 H2 fn' Hne. by rewrite H2, H1. Qed.

(** The calls that write to [fd], which is open for [fn]. *)
Definition keeps_others (fd : Z) (fn : fname) (k k' : K) : Prop :=
  fd_file k' fd = Some fn /\ others fn k k'.

Lemma keeps_others_trans fd fn k1 k2 k3 :
  keeps_others fd fn k1 k2 -> keeps_others fd fn k2 k3 -> keeps_others fd fn k1 k3.
Proof using. intros [_ H1] [Hf H2]. split; [done|by eapply others_trans]. Qed.

Lemma flush_small_frame k fd fn b k' :
  fd_file k fd = Some fn -> flush_small_buffer stack k fd b = Ok k' -> keeps_others fd fn k k'.
Proof using FR.
  intros Hf E. unfold flush_small_buffer in E. inv_bind E. destruct (zlen b =? 0); [by injection E as <-|].
  inv_bind E. destruct (_ <? zlen _); [done|].
  destruct (sys_write k fd _) as [n1 k1] eqn:W1. inv_bind E.
  destruct (sys_write k1 fd _) as [n2 k2] eqn:W2. inv_bind E. injection E as <-.
  apply (write_frame _ _ _ _ _ _ Hf) in W1 as [Hf1 Ho1]. apply (write_frame _ _ _ _ _ _ Hf1) in W2.
  eapply keeps_others_trans; [exact (conj Hf1 Ho1)|exact W2].
Qed.

Lemma flush_loop_frame fuel : forall k fd fn b k',
  fd_file k fd = Some fn -> flush_loop stack fuel k fd b = Ok k' -> keeps_others fd fn k k'.
Proof using FR.
  induction fuel as [|fuel IH]; intros k fd fn b k' Hf E; cbn [flush_loop] in E;
    destruct (0 <? zlen b); try done; try by injection E as <-.
  inv_bind E. pose proof (flush_small_frame _ _ _ _ _ Hf E0) as [Hf' Ho].
  eapply keeps_others_trans; [exact (conj Hf' Ho)|by eapply IH].
Qed.

Lemma flush_bigbuffer_frame k fd fn bb r :
  fd_file k fd = Some fn -> flush_bigbuffer stack k fd bb = Ok r -> keeps_others fd fn k r.1.
Proof using FR.
  intros Hf E. unfold flush_bigbuffer in E. inv_bind E. injection E as <-.
  destruct (negb _); [|by injection E1 as <-]. inv_bind E1. unfold flush_comp_buffer in E1. inv_bind E1.
  by eapply flush_loop_frame.
Qed.

Lemma flush_logger_frame k l r : flush_logger stack ASM_BASE k l = Ok r -> others (log_fn l) k r.1.
Proof using FR.
  intros E. unfold flush_logger, lock in E. destruct (l_locked l); [done|]. rewrite bind_Ok in E.
  cbn [log_fn set_bb set_locked] in E. inv_bind E.
  destruct (sys_open k (log_fn l) _ _) as [fd k1] eqn:Eo. pose proof (open_frame _ _ _ _ _ _ Eo) as Ho.
  destruct (Z.ltb_spec fd 0); [by injection E as <-|].
  destruct (open_ok _ _ _ _ _ _ Eo ltac:(done) eq_refl) as [Hf _].
  apply bind_Ok_inv in E as ([k2 bb2] & Eb & E). apply (flush_bigbuffer_frame _ _ _ _ _ Hf) in Eb as [_ Hb].
  destruct (sys_close k2 fd) as [err k3] eqn:Ec. destruct (negb _); [done|]. injection E as <-.
  intros fn' Hne. cbn [fst] in *. by rewrite (close_ok _ _ _ _ _ Ec), Hb, Ho.
Qed.

End frame.

(** ** All loggers *)

Section all.
Context {K : Type} {KK : Kernel K} {KF : KernelFiles K} {KUp : KernelUp K} {FR : KernelFrame K}.
Context (stack : K -> Z -> Z) (Hstack : forall k, work_ok (stack k)).
Context (ASM_BASE : Z).

(** The logger [l] became [l'], and what it held is in its file. *)
Definition flushed_to (k k' : K) (l l' : logger) : Prop :=
  logger_ok ASM_BASE l' /\ log_fn l' = log_fn l /\ asm_curr_ptr l' = ASM_BASE /\
  logged (log_fn l) k k' (unflushed ASM_BASE l).

Lemma flushed_to_ext k1 k2 k1' k2' l l' :
  file_bytes k1 (log_fn l) = file_bytes k1' (log_fn l) -> file_bytes k2 (log_fn l) = file_bytes k2' (log_fn l) ->
  flushed_to k1 k2 l l' -> flushed_to k1' k2' l l'.
Proof using.
  intros E1 E2 (H1 & H2 & H3 & (b & Hb & Hbl)). split; [done|]. split; [done|]. split; [done|]. exists b. by rewrite <- E1, <- E2.
Qed.

Lemma flush_each_spec ls : forall k,
  Forall (logger_ok ASM_BASE) ls -> NoDup (map log_fn ls) ->
  exists k' ls', flush_each stack ASM_BASE k ls = Ok (k', ls') /\ Forall2 (flushed_to k k') ls ls' /\
    forall fn, fn ∉ map log_fn ls -> file_bytes k' fn = file_bytes k fn.
Proof using Hstack KUp FR.
  induction ls as [|l ls IH]; intros k Hok Hnd; cbn [flush_each map] in *; [by exists k, []|].
  apply Forall_cons in Hok as [Hl Hok]. apply NoDup_cons in Hnd as [Hnew Hnd].
  destruct (outcome_up _ _ _ (flush_logger_spec stack Hstack True (fun _ => KUp) ASM_BASE k l Hl) I)
    as ([k1 l1] & E1 & Hok1 & Hc1 & Hfn1 & Hlog). cbn [fst snd] in *.
  destruct Hlog as [Hlog|[Hn _]]; [|by destruct Hn].
  pose proof (flush_logger_frame stack ASM_BASE k l _ E1) as Ho. cbn [fst] in Ho.
  destruct (IH k1 Hok Hnd) as (k' & ls' & E & Hall & Hrest).
  exists k', (l1 :: ls'). rewrite E1, bind_Ok, E, bind_Ok. split; [done|]. split.
  - constructor.
    + apply (flushed_to_ext k k1); [done|symmetry; by apply Hrest|done].
    + apply (Forall2_impl_elem _ _ _ _ Hall). intros x y Hx. apply flushed_to_ext; [|done].
      apply Ho. intros Ef. apply Hnew. rewrite <- Ef. by apply list_elem_of_fmap_2.
  - intros fn Hfn. apply not_elem_of_cons in Hfn as [Hne Hfn]. by rewrite Hrest, Ho.
Qed.

End all.

(** The process, the thread and the time a log is named after. *)
Definition stamp_of : Type := (Z * Z * Z * Z)%type.

Definition named (l : logger) (s : stamp_of) : Prop :=
  let '(pid, tid, sec, usec) := s in
  stamp_ok pid tid sec usec /\ log_fn l = slash_name (codes ".log") pid tid sec usec.

Lemma slash_name_inj suffix p1 t1 s1 u1 p2 t2 s2 u2 : stamp_ok p1 t1 s1 u1 -> stamp_ok p2 t2 s2 u2 ->
  slash_name suffix p1 t1 s1 u1 = slash_name suffix p2 t2 s2 u2 -> (p1, t1, s1, u1) = (p2, t2, s2, u2).
Proof.
  intros H1 H2 E. unfold slash_name in E. apply app_inv_head in E. injection E as E. apply app_inv_tail in E.
  by apply stamp_inj in E as (-> & -> & -> & ->).
Qed.

Lemma named_nodup ls ss : Forall2 named ls ss -> NoDup ss -> NoDup (map log_fn ls).
Proof.
  induction 1 as [|l s ls ss Hl Hls IH]; intros Hnd; [constructor|]. apply NoDup_cons in Hnd as [Hnew Hnd].
  cbn [map]. constructor; [|by apply IH]. intros (l' & E & Hin)%list_elem_of_fmap. apply Hnew.
  apply list_elem_of_lookup in Hin as (i & Hi). destruct (Forall2_lookup_l _ _ _ _ _ Hls Hi) as (s' & Hs' & Hn').
  apply list_elem_of_lookup. exists i. rewrite Hs'. f_equal.
  destruct s as [[[p t] c] u], s' as [[[p' t'] c'] u'], Hl as [Hok Hl], Hn' as [Hok' Hl'].
  rewrite Hl, Hl' in E. symmetry. by apply slash_name_inj in E.
Qed.

(** C16: [flush_all_logger] empties the buffer of every thread into that
    thread's own log: each file grows by blocks that decode to exactly what its
    thread had logged, whatever the others log, and no other file changes. The
    calls of the kernel succeed, and every log is named after its process,
    thread and time, no two of them alike. *)
Theorem flush_all_logger_correct {K} `{KernelUp K} `{!KernelFrame K} (stack : K -> Z -> Z) ASM_BASE k ls ss :
  (forall k, work_ok (stack k)) ->
  Forall (logger_ok ASM_BASE) ls -> Forall2 named ls ss -> NoDup ss ->
  exists k' ls', flush_all_logger stack ASM_BASE k false ls = Ok (k', ls') /\
    Forall2 (fun l l' => logger_ok ASM_BASE l' /\ log_fn l' = log_fn l /\ unflushed ASM_BASE l' = [] /\
      exists b, file_bytes k' (log_fn l) = file_bytes k (log_fn l) ++ b /\
        read_blocks (length b) b = Some (unflushed ASM_BASE l)) ls ls' /\
    forall fn, fn ∉ map log_fn ls -> file_bytes k' fn = file_bytes k fn.
Proof.
  intros Hs Hok Hnm Hnd.
  destruct (flush_each_spec stack Hs ASM_BASE ls k Hok (named_nodup _ _ Hnm Hnd)) as (k' & ls' & E & Hall & Hrest).
  exists k', ls'. split; [exact E|]. split; [|done]. eapply Forall2_impl; [exact Hall|].
  intros l l' (Hok' & Hfn & Hc & (b & Hb' & Hbl)). split; [done|]. split; [done|]. split.
  - unfold unflushed. by rewrite Hc, Z.sub_diag.
  - exists b. split; [done|by apply blocks_read].
Qed.

(** ** Two threads *)

#[global] Program Instance ram_frame : KernelFrame Ram.ram.
Next Obligation.
  intros k fd fn l n k' Hf. cbn in *. unfold Ram.write. rewrite Hf. intros [= <- <-]. split; [done|].
  intros fn' Hne. unfold Ram.bytes at 1. cbn [Ram.files]. by rewrite lookup_insert_ne.
Qed.
Next Obligation.
  intros k fn flags mode fd k' [= <- <-] fn' Hne. cbn. unfold Ram.bytes at 1. cbn [Ram.files].
  by rewrite lookup_insert_ne.
Qed.

(** A logger over the buffer [b], with [data] at its start. *)
Definition logger_on (b : list Z) (tid : Z) (data : list Z) : logger :=
  Logger (slash_name (codes ".log") 700 tid 1304000000 250000) (BB (poke b 0 data) 0)
    (4096 + zlen data) (4096 + BIGBUFFER_SZ - 32) false.

Lemma logger_on_ok b tid data :
  zlen b = BIGBUFFER_SZ -> Forall is_byte b -> zlen data < 100 -> Forall is_byte data ->
  logger_ok 4096 (logger_on b tid data).
Proof.
  assert (HS : BIGBUFFER_SZ = 2097152) by reflexivity. intros Hs Hb Hl Hd. pose proof (zlen_nonneg data).
  constructor; cbn [logger_on this_bigbuffer asm_curr_ptr asm_end_ptr l_locked bb_buffer].
  - rewrite zlen_poke; lia.
  - unfold poke. rewrite !Forall_app. split; [by apply Forall_take|]. split; [done|by apply Forall_drop].
  - reflexivity.
  - lia.
  - reflexivity.
Qed.

(** A thread that has logged [data]. *)
Definition with_data (tid : Z) (data : list Z) : logger := logger_on (bb_buffer empty_bb) tid data.

Lemma with_data_ok tid data : zlen data < 100 -> Forall is_byte data -> logger_ok 4096 (with_data tid data).
Proof. apply logger_on_ok; [exact (bb_size _ empty_bb_ok)|exact (bb_bytes _ empty_bb_ok)]. Qed.

Lemma flush_all_logger_correct_witness :
  exists k' ls' b1 b2,
    flush_all_logger (fun _ _ => 0) 4096 Ram.empty false [with_data 701 [1; 2; 3]; with_data 702 [9]] = Ok (k', ls') /\
    file_bytes k' (slash_name (codes ".log") 700 701 1304000000 250000) = b1 /\
    file_bytes k' (slash_name (codes ".log") 700 702 1304000000 250000) = b2 /\
    read_blocks (length b1) b1 = Some (unflushed 4096 (with_data 701 [1; 2; 3])) /\
    read_blocks (length b2) b2 = Some (unflushed 4096 (with_data 702 [9])).
Proof.
  destruct (flush_all_logger_correct (K := Ram.ram) (fun _ _ => 0) 4096 Ram.empty
    [with_data 701 [1; 2; 3]; with_data 702 [9]] [(700, 701, 1304000000, 250000); (700, 702, 1304000000, 250000)])
    as (k' & ls' & E & Hall & _).
  - intros k. by vm_compute.
  - apply Forall_cons_2; [|apply Forall_cons_2; [|constructor]]; apply with_data_ok;
      solve [by vm_compute | repeat (apply Forall_cons_2; [unfold is_byte; lia|]); constructor].
  - constructor; [|constructor; [|constructor]]; (split; [constructor; lia|reflexivity]).
  - apply (bool_decide_unpack _). by vm_compute.
  - inversion Hall as [|? l1 ? ls1 (_ & _ & _ & (b1 & F1 & R1)) Hall1]; subst.
    inversion Hall1 as [|? l2 ? ls2 (_ & _ & _ & (b2 & F2 & R2)) Hall2]; subst.
    eexists k', _, b1, b2. exact (conj E (conj F1 (conj F2 (conj R1 R2)))).
Defined.

End LogAll.
