(* ===== verification/HexDump.v ===== *)
(** The hex dumps of [src/src/lib/hexdump.c]: a row of bytes as hexadecimal
    groups and characters, and a blob row by row. *)
From S2P Require Import Prelude Ctype CString Vsprintf.
Import Ctype Str Vs.

Module Hex.

(** The result is an [int], the argument a signed [char]. *)
Definition hex_to_bin (ch : Z) : Z :=
  let c := s8 ch in
  if (48 <=? c) && (c <=? 57) then c - 48
  else
    let c := s8 (tolower c) in
    if (97 <=? c) && (c <=? 102) then c - 97 + 10 else -1.

Definition isascii (c : Z) : bool := u8 c <=? 0x7f.

(** ** A row *)

Section row.
(** The line buffer is at [sp]; the string constants [" "] and [""] are at
    [sep] and [sep + 2]. *)
Variables (sp sep : Z).

Definition separators : list Z := [32; 0; 0].

Definition scn (fmt : list Z) (buf : Z) (mem : list Z) (size : Z) (args : list Z) : result (Z * list Z) :=
  '(n, m, _) ← scnprintf sep separators (fun _ => []) (fun _ => []) id fmt buf mem size args;
  Ok (n, m).

Definition group_format (g : Z) : list Z :=
  codes (if g =? 8 then "%s%16.16llx" else if g =? 4 then "%s%8.8x" else "%s%4.4x") ++ [0].

(** The words of the argument. *)
Definition group_args (g v : Z) : list Z := if g =? 8 then [u32 v; u32 (v / 2 ^ 32)] else [v].

(** The loop over the groups of [g] bytes, with [n] of them to go; the buffer
    has [linebuflen] bytes, of which [lx] were written. *)
Fixpoint group_loop (n : nat) (g : Z) (buf : list Z) (j : Z) (linebuf : list Z) (linebuflen lx : Z) :
    result (list Z * Z) :=
  match n with
  | O => Ok (linebuf, lx)
  | S n =>
      v ← mem_read buf (g * j) g;
      '(r, m) ← scn (group_format g) (sp + lx) (drop (Z.to_nat lx) linebuf) (u32 (linebuflen - lx))
                 ((if j =? 0 then sep + 2 else sep) :: group_args g (of_le v));
      group_loop n g buf (j + 1) (take (Z.to_nat lx) linebuf ++ m) linebuflen (lx + r)
  end.

(** The loop over the bytes, with [n] of them to go; the last [j] and [lx]. *)
Fixpoint byte_loop (n : nat) (buf : list Z) (j : Z) (linebuf : list Z) (linebuflen lx : Z) :
    result (list Z * Z * Z) :=
  match n with
  | O => Ok (linebuf, j, lx)
  | S n =>
      if u32 (lx + 3) <=? linebuflen then
        ch ← rd buf j;
        m ← wr linebuf lx (hex_asc_hi ch);
        m ← wr m (lx + 1) (hex_asc_lo ch);
        m ← wr m (lx + 2) 32;
        byte_loop n buf (j + 1) m linebuflen (lx + 3)
      else Ok (linebuf, j, lx)
  end.

(** [while (lx < (linebuflen - 1) && lx < (ascii_column - 1))] *)
Fixpoint blank_loop (fuel : nat) (linebuf : list Z) (linebuflen ascii_column lx : Z) : result (list Z * Z) :=
  if (lx <? u32 (linebuflen - 1)) && (lx <? ascii_column - 1) then
    match fuel with
    | O => NoFuel
    | S fuel => m ← wr linebuf lx 32; blank_loop fuel m linebuflen ascii_column (lx + 1)
    end
  else Ok (linebuf, lx).

Definition printable (ch : Z) : Z := if isascii ch && isprint ch then ch else 46.

Fixpoint ascii_loop (n : nat) (buf : list Z) (j : Z) (linebuf : list Z) (linebuflen lx : Z) :
    result (list Z * Z) :=
  match n with
  | O => Ok (linebuf, lx)
  | S n =>
      if u32 (lx + 2) <? linebuflen then
        ch ← rd buf j;
        m ← wr linebuf lx (printable ch);
        ascii_loop n buf (j + 1) m linebuflen (lx + 1)
      else Ok (linebuf, lx)
  end.

Definition put_nil (linebuf : list Z) (lx : Z) : result (list Z) := wr linebuf lx 0.

Definition row_size (rowsize : Z) : Z := if negb (rowsize =? 16) && negb (rowsize =? 32) then 16 else rowsize.

(** A group size of 0 is a division by zero, which ends the process. *)
Definition group_size (len groupsize : Z) : result Z :=
  if groupsize =? 0 then Fatal
  else Ok (if negb (len mod u32 groupsize =? 0) then 1 else groupsize).

Definition hex_dump_to_buffer (buf : list Z) (len rowsize groupsize : Z) (linebuf : list Z) (linebuflen : Z)
    (ascii : bool) : result (list Z) :=
  let rowsize := row_size rowsize in
  if len =? 0 then put_nil linebuf 0
  else
    let len := if rowsize <? len then rowsize else len in
    groupsize ← group_size len groupsize;
    '(linebuf, lx, ascii_column) ←
      (if (groupsize =? 8) || (groupsize =? 4) || (groupsize =? 2) then
         let ngroups := len / groupsize in
         '(m, lx) ← group_loop (Z.to_nat ngroups) groupsize buf 0 linebuf linebuflen 0;
         Ok (m, lx, (2 * groupsize + 1) * ngroups + 2)
       else
         '(m, j, lx) ← byte_loop (Z.to_nat len) buf 0 linebuf linebuflen 0;
         Ok (m, if negb (j =? 0) then lx - 1 else lx, 3 * rowsize + 2));
    if negb ascii then put_nil linebuf lx
    else
      '(linebuf, lx) ← blank_loop (Z.to_nat ascii_column) linebuf linebuflen ascii_column lx;
      '(linebuf, lx) ← ascii_loop (Z.to_nat len) buf 0 linebuf linebuflen lx;
      put_nil linebuf lx.

End row.

(** ** A blob *)

Inductive dump_prefix := DUMP_PREFIX_NONE | DUMP_PREFIX_ADDRESS | DUMP_PREFIX_OFFSET.

(** What a row is printed with: the address or the offset, and the line. *)
Record dumped := Dumped { d_prefix : option Z; d_line : list Z }.

Definition LINEBUF_SZ : Z := 32 * 3 + 2 + 32 + 1.

Section blob.
Variables (sp sep : Z).

(** The bytes on the stack before the first row. *)
Variable junk : list Z.

(** The calls of [printk], with the line buffer as a string. [i] and [remaining]
    are [int]s, [len] is a [size_t]. *)
Fixpoint rows_loop (fuel : nat) (prefix_type : dump_prefix) (rowsize groupsize at_ : Z) (buf : list Z) (len : Z)
    (ascii : bool) (linebuf : list Z) (i remaining : Z) : result (list dumped) :=
  if u32 i <? len then
    match fuel with
    | O => NoFuel
    | S fuel =>
        let linelen := Z.min remaining rowsize in
        let remaining := s32 (remaining - rowsize) in
        linebuf ← hex_dump_to_buffer sp sep (drop (Z.to_nat i) buf) (u32 linelen) rowsize groupsize linebuf LINEBUF_SZ ascii;
        let prefix := match prefix_type with
                      | DUMP_PREFIX_ADDRESS => Some (at_ + i)
                      | DUMP_PREFIX_OFFSET => Some i
                      | DUMP_PREFIX_NONE => None
                      end in
        n ← strlen linebuf 0;
        rest ← rows_loop fuel prefix_type rowsize groupsize at_ buf len ascii linebuf (s32 (i + rowsize)) remaining;
        Ok (Dumped prefix (take (Z.to_nat n) linebuf) :: rest)
    end
  else Ok [].

Definition print_hex_dump (prefix_type : dump_prefix) (rowsize groupsize at_ : Z) (buf : list Z) (len : Z)
    (ascii : bool) : result (list dumped) :=
  let rowsize := row_size rowsize in
  rows_loop (S (Z.to_nat (len / rowsize))) prefix_type rowsize groupsize at_ buf len ascii junk 0 (s32 len).

Definition print_hex_dump_bytes (prefix_type : dump_prefix) (at_ : Z) (buf : list Z) (len : Z) : result (list dumped) :=
  print_hex_dump prefix_type 16 1 at_ buf len true.

End blob.

End Hex.
