(* ===== verification/HexDumpFacts.v ===== *)
(** The hex dumps: what a row is for every size of its line buffer, and that
    the rows of a blob can be read back. *)
From S2P Require Import Prelude Ctype CString CStringFacts Numbers Vsprintf VsprintfFacts PrintfText HexDump.
Import Ctype Str StrFacts Num Vs VsFacts PrintfText Hex.

Module HexFacts.

(** ** Digits *)

Lemma hex_digit d : 0 <= d < 16 -> hex_to_bin (digit_char 32 d) = d /\ 48 <= digit_char 32 d <= 102.
Proof.
  intros Hd. assert (Hb : is_byte d) by (unfold is_byte; lia). revert Hd. revert d Hb. by_chars.
Qed.

(** [hex_to_bin] knows exactly the hexadecimal digits. *)
Lemma hex_to_bin_bad c : is_byte c -> hex_to_bin c = -1 <-> isxdigit c = false \/ 128 <= c.
Proof. revert c. by_chars. Qed.

(** The number of a text of digits. *)
Definition hex_value (l : list Z) : Z := fold_left (fun a c => a * 16 + hex_to_bin c) l 0.

Lemma hex_digits n : Forall (fun d => 0 <= d < 16) (rev (digits 16 n)).
Proof. apply Forall_rev, digits_rev_range. lia. Qed.

Lemma hex_value_zeros k l : hex_value (replicate k 48 ++ l) = hex_value l.
Proof. unfold hex_value. induction k as [|k IH]; [done|]. exact IH. Qed.

Lemma hex_value_zhex w n : 0 <= n < 2 ^ 64 -> hex_value (zhex w n) = n.
Proof.
  intros Hn. unfold zhex. rewrite hex_value_zeros. unfold hex_value, text. rewrite <- (horner_digits 64 16 n) at 2; [|lia|by apply text_bound|lia].
  unfold horner. fold (digits 16 n).
  assert (H : forall l a, Forall (fun d => 0 <= d < 16) l ->
    fold_left (fun a c => a * 16 + hex_to_bin c) (map (digit_char 32) l) a = fold_left (fun a d => a * 16 + d) l a).
  { induction l as [|d l IH]; intros a Hd; [done|]. apply Forall_cons in Hd as [Hd Hl].
    cbn [map fold_left]. rewrite IH by done. by destruct (hex_digit d Hd) as [-> _]. }
  rewrite H by apply hex_digits. f_equal.
Qed.

Definition digit_range (c : Z) : Prop := 48 <= c <= 102.

Lemma zhex_chars w n : Forall digit_range (zhex w n).
Proof.
  unfold zhex. apply Forall_app. split; [apply Forall_replicate; unfold digit_range; lia|].
  unfold text. apply Forall_map. eapply Forall_impl; [apply hex_digits|]. intros d Hd. apply hex_digit. exact Hd.
Qed.

(** Two digits of a byte. *)
Lemma hex_byte b : is_byte b -> [hex_asc_hi b; hex_asc_lo b] = zhex 2 b.
Proof. revert b. by_chars. Qed.

(** ** Rows *)

(** The groups of [g] bytes. *)
Fixpoint chunks (n g : nat) (l : list Z) : list (list Z) :=
  match n with
  | O => []
  | S n => take g l :: chunks n g (drop g l)
  end.

Definition field (c : list Z) : list Z := zhex (2 * length c) (of_le c).

Fixpoint join (fs : list (list Z)) : list Z :=
  match fs with
  | [] => []
  | [f] => f
  | f :: fs => f ++ 32 :: join fs
  end.

(** The hexadecimal part for the bytes [l] in groups of [g]. *)
Definition hex_part (g : nat) (l : list Z) : list Z := join (map field (chunks (length l / g) g l)).

(** The reader of a row: fields up to an empty one, each a number in hexadecimal
    digits whose bytes are stored least significant first. *)
Definition field_bytes (f : list Z) : list Z := le (length f / 2) (hex_value f).

Fixpoint read_row (cur l : list Z) : list Z :=
  match l with
  | [] => field_bytes cur
  | c :: l =>
      if c =? 32 then match cur with [] => [] | _ => field_bytes cur ++ read_row [] l end
      else read_row (cur ++ [c]) l
  end.

Lemma field_ok c : (0 < length c <= 8)%nat -> Forall is_byte c ->
  length (field c) = (2 * length c)%nat /\ Forall digit_range (field c) /\ field_bytes (field c) = c.
Proof.
  intros Hl Hc. assert (Hr : 0 <= of_le c < 2 ^ (8 * Z.of_nat (length c))) by (by apply of_le_range).
  assert (E16 : 16 ^ Z.of_nat (2 * length c) = 2 ^ (8 * Z.of_nat (length c))).
  { rewrite Nat2Z.inj_mul. change 16 with (2 ^ 4). rewrite <- Z.pow_mul_r by lia. f_equal. lia. }
  assert (Hlen : length (field c) = (2 * length c)%nat) by (apply length_zhex; [lia|by rewrite E16]).
  split; [done|]. split; [apply zhex_chars|]. unfold field_bytes. rewrite Hlen.
  rewrite (Nat.mul_comm 2), Nat.div_mul by lia. unfold field. rewrite hex_value_zhex; [by apply le_of_le|].
  split; [lia|]. apply (Z.lt_le_trans _ _ _ (proj2 Hr)). apply Z.pow_le_mono_r; lia.
Qed.

Lemma read_row_field f : forall cur l, Forall digit_range f -> read_row cur (f ++ l) = read_row (cur ++ f) l.
Proof.
  induction f as [|c f IH]; intros cur l Hf; cbn [app]; [by rewrite app_nil_r|].
  apply Forall_cons in Hf as [Hc Hf]. unfold digit_range in Hc. cbn [read_row].
  destruct (Z.eqb_spec c 32); [lia|]. rewrite IH by done. by rewrite <- app_assoc.
Qed.

Lemma read_row_sep cur l : cur <> [] -> read_row cur (32 :: l) = field_bytes cur ++ read_row [] l.
Proof. by destruct cur. Qed.

Definition tail_ok (l : list Z) : Prop := l = [] \/ exists l', l = 32 :: 32 :: l'.

Lemma read_row_join cs rest : Forall (fun c => (0 < length c <= 8)%nat /\ Forall is_byte c) cs ->
  cs <> [] -> tail_ok rest -> read_row [] (join (map field cs) ++ rest) = concat cs.
Proof.
  intros Hcs Hne Hrest. induction Hcs as [|c cs [Hl Hc] Hcs IH]; [done|].
  destruct (field_ok c Hl Hc) as (Hlen & Hf & Hb).
  assert (Hfne : field c <> []) by (intros E; rewrite E in Hlen; cbn in Hlen; lia).
  destruct cs as [|c' cs].
  - cbn [map join concat]. rewrite read_row_field by done. cbn [app]. rewrite app_nil_r.
    destruct Hrest as [-> | (l & ->)]; [exact Hb|]. rewrite read_row_sep by done.
    change (read_row [] (32 :: l)) with (@nil Z). by rewrite Hb, app_nil_r.
  - change (join (map field (c :: c' :: cs))) with (field c ++ 32 :: join (map field (c' :: cs))).
    rewrite <- app_assoc, read_row_field by done. cbn [app]. rewrite read_row_sep, Hb, IH by done. done.
Qed.

Lemma chunks_concat n g : forall l, concat (chunks n g l) = take (n * g) l.
Proof.
  induction n as [|n IH]; intros l; [done|]. cbn [chunks concat]. rewrite IH.
  rewrite <- (take_drop g (take (S n * g) l)), take_take, skipn_firstn_comm. f_equal; f_equal; lia.
Qed.

Lemma chunks_ok n g : forall l, (n * g <= length l)%nat -> (0 < g <= 8)%nat -> Forall is_byte l ->
  Forall (fun c => (0 < length c <= 8)%nat /\ Forall is_byte c) (chunks n g l).
Proof.
  induction n as [|n IH]; intros l Hn Hg Hl; [constructor|]. cbn [chunks]. constructor.
  - split; [rewrite length_take; lia|by apply Forall_take].
  - apply IH; [rewrite length_drop; lia|done|by apply Forall_drop].
Qed.

Lemma chunks_take N g : forall l, chunks N g (take (N * g) l) = chunks N g l.
Proof.
  induction N as [|N IH]; intros l; [done|]. cbn [chunks]. rewrite take_take, skipn_firstn_comm.
  replace (g `min` (S N * g))%nat with g by lia. replace (S N * g - g)%nat with (N * g)%nat by lia. by rewrite IH.
Qed.

(** A row tells its bytes. *)
Lemma read_hex_part g l rest : (0 < g <= 8)%nat -> (0 < length l)%nat -> (length l mod g = 0)%nat -> Forall is_byte l ->
  tail_ok rest -> read_row [] (hex_part g l ++ rest) = l.
Proof.
  intros Hg Hl Hm Hb Hr. unfold hex_part. pose proof (Nat.div_mod (length l) g ltac:(lia)) as Hdm.
  assert (Hd : (length l / g * g = length l)%nat) by lia.
  rewrite read_row_join; [|apply chunks_ok; [lia|done|done]| |done].
  - by rewrite chunks_concat, Hd, take_ge.
  - destruct (length l / g)%nat eqn:E; [lia|done].
Qed.

(** ** The line buffer *)

Definition wide (g : Z) : bool := (g =? 8) || (g =? 4) || (g =? 2).

Lemma wide_cases g : wide g = true -> g = 8 \/ g = 4 \/ g = 2.
Proof. unfold wide. intros [[?%Z.eqb_eq|?%Z.eqb_eq]%orb_true_iff|?%Z.eqb_eq]%orb_true_iff; tauto. Qed.

(** The text that is printed before group [j]. *)
Definition before (j : Z) : list Z := if j =? 0 then [] else [32].

Section scn.
Context (sep : Z).
Hypothesis Hsep : 4096 <= sep < 2 ^ 32 - 2.

Lemma string_before oend j sp st : s_flags sp = 0 -> s_width sp = -1 -> s_prec sp = -1 -> out_ok oend st ->
  string sep separators oend (u32 (if j =? 0 then sep + 2 else sep)) sp st = Ok (put_text oend (before j) st).
Proof using Hsep.
  intros Hf Hw Hp Hst. apply string_cstr; try done.
  - unfold before. destruct (j =? 0); [by replace (sep + 2 - sep) with 2 by lia|by rewrite Z.sub_diag].
  - unfold before. by destruct (j =? 0).
  - destruct (j =? 0); lia.
Qed.

Lemma va_group g v args : wide g = true -> 0 <= v < 2 ^ (8 * g) ->
  va_num (if g =? 8 then FORMAT_TYPE_LONG_LONG else FORMAT_TYPE_UINT) (group_args g v ++ args) = Ok (v, args).
Proof using.
  intros Hg Hv. unfold group_args. destruct (wide_cases g Hg) as [-> | [-> | ->]]; cbn [Z.eqb Pos.eqb app];
    [change (8 * 8) with 64 in Hv|change (8 * 4) with 32 in Hv|change (8 * 2) with 16 in Hv].
  - unfold va_num, va_long_long. cbn [va_word mbind result_bind].
    rewrite (u32_small (u32 v)), (u32_small (u32 (v / 2 ^ 32))) by apply u32_range.
    rewrite (u32_small (v / 2 ^ 32)) by (split; [apply Z.div_pos; lia|apply Z.div_lt_upper_bound; lia]).
    unfold u32. do 2 f_equal. pose proof (Z.div_mod v (2 ^ 32)). lia.
  - unfold va_num. cbn [va_word mbind result_bind]. by rewrite u32_small by lia.
  - unfold va_num. cbn [va_word mbind result_bind]. by rewrite u32_small by lia.
Qed.

(** The two rounds of a group. *)
Ltac before_round j :=
  printf_round ltac:(fun F p c sp sp' q args stores st =>
    match args with
    | ?w :: ?args =>
        rewrite (round_str _ _ _ _ _ _ _ F p c sp sp' q w args stores st (before j));
        [|reflexivity|discriminate|reflexivity|reflexivity|by apply string_before]
    end).

Ltac group_round Hva v :=
  printf_round ltac:(fun F p c sp sp' q args stores st =>
    match type of Hva with
    | va_num _ ?ws = Ok (_, ?rest) =>
        let t := eval cbv in (Z.to_nat (s_width sp')) in
        rewrite (round_num _ _ _ _ _ _ _ F p c sp sp' q ws rest v stores st (zhex t v));
        [|reflexivity|discriminate|reflexivity|first [by left | by right; left | by right; right]|exact Hva|
         apply number_zhex; [reflexivity|reflexivity|reflexivity|reflexivity|lia|assumption|by apply put_text_ok]]
    end).

Lemma scn_group g v j buf mem size : wide g = true -> 0 <= v < 2 ^ (8 * g) ->
  0 < size < 2 ^ 31 -> buf + size < 2 ^ 32 -> zlen mem = size ->
  let t := before j ++ zhex (Z.to_nat (2 * g)) v in
  scn sep (group_format g) buf mem size ((if j =? 0 then sep + 2 else sep) :: group_args g v) =
    Ok (Z.min (zlen t) (size - 1), printed size mem t).
Proof using Hsep.
  intros Hg Hv Hs Hb Hm t. rewrite <- (app_nil_r (group_args g v)).
  assert (Hst : out_ok size (Ost 0 mem)) by (split; cbn; lia).
  assert (Hl : exists p spec, vsn_loop sep separators (fun _ => []) (fun _ => []) id (group_format g)
      (vsn_fuel (group_format g)) size
      (Vst 0 spec0 ((if j =? 0 then sep + 2 else sep) :: group_args g v ++ []) (Ost 0 mem) []) =
    Ok (Vst p spec [] (put_text size t (Ost 0 mem)) [])).
  { pose proof (va_group g v [] Hg Hv) as Hva. unfold t. rewrite put_text_app.
    destruct (wide_cases g Hg) as [-> | [-> | ->]]; do 2 eexists;
      [printf_begin (group_format 8)|printf_begin (group_format 4)|printf_begin (group_format 2)];
      before_round j; group_round Hva v; apply round_end; reflexivity. }
  destruct Hl as (p & spec & Hl). unfold scn, scnprintf.
  pose proof (snprintf_text _ _ _ _ _ (group_format g) size buf mem size _ p spec [] t Hs Hb Hm eq_refl Hl) as E.
  unfold snprintf in E. rewrite E, !bind_Ok. pose proof (zlen_nonneg t).
  assert (Hz : zlen t <= 33).
  { unfold t. rewrite zlen_app. assert (zlen (zhex (Z.to_nat (2 * g)) v) = 2 * g) as ->.
    { unfold zlen. rewrite length_zhex; destruct (wide_cases g Hg) as [-> | [-> | ->]]; (lia || exact Hv). }
    assert (zlen (before j) <= 1) by (unfold before; destruct (j =? 0); by vm_compute).
    destruct (wide_cases g Hg) as [-> | [-> | ->]]; lia. }
  rewrite (s32_small (zlen t)), (s32_small (size - 1)), u32_small by lia.
  destruct (Z.leb_spec size (zlen t)); do 2 f_equal; lia.
Qed.

End scn.

(** The first [lx] bytes of the buffer of [n] are the text [t]. *)
Definition starts (n : Z) (m : list Z) (lx : Z) (t : list Z) : Prop :=
  zlen m = n /\ zlen t = lx /\ take (Z.to_nat lx) m = t.

Lemma starts_wr n m lx t c : starts n m lx t -> lx < n -> is_byte c ->
  exists m', wr m lx c = Ok m' /\ starts n m' (lx + 1) (t ++ [c]).
Proof.
  intros (Hm & Ht & Htk) Hlx Hc. pose proof (zlen_nonneg t). unfold wr.
  destruct (Z.leb_spec 0 lx), (Z.ltb_spec lx (zlen m)); try lia. cbn [andb]. eexists. split; [done|].
  rewrite u8_small by (unfold is_byte in Hc; lia).
  split; [unfold zlen; by rewrite length_insert|]. split; [rewrite zlen_app, Ht; by change (zlen [c]) with 1|].
  replace (Z.to_nat (lx + 1)) with (S (Z.to_nat lx)) by lia. rewrite <- Htk.
  rewrite insert_take_drop by (unfold zlen in *; lia).
  rewrite take_app. rewrite take_take, length_take. unfold zlen in *.
  replace (S (Z.to_nat lx) `min` Z.to_nat lx)%nat with (Z.to_nat lx) by lia. f_equal.
  by replace (S (Z.to_nat lx) - Z.to_nat lx `min` length m)%nat with 1%nat by lia.
Qed.

Lemma starts_eq n m lx lx' t : starts n m lx t -> lx = lx' -> starts n m lx' t.
Proof. by intros ? <-. Qed.

(** The same for a text of which only the beginning fits. *)
Definition cut_to (n : Z) (t : list Z) : list Z := take (Z.to_nat n) t.

Lemma zlen_cut n t : 0 <= n -> zlen (cut_to n t) = Z.min n (zlen t).
Proof. intros Hn. unfold cut_to, zlen. rewrite length_take. lia. Qed.

Lemma cut_all n t : zlen t <= n -> cut_to n t = t.
Proof. intros Hn. unfold cut_to. apply take_ge. unfold zlen in *. lia. Qed.

Section loops.
Context (sp sep : Z).
Hypothesis Hsep : 4096 <= sep < 2 ^ 32 - 2.
Context (n : Z).
Hypothesis Hn : 0 < n < 2 ^ 31.
Hypothesis Hsp : 0 <= sp /\ sp + n < 2 ^ 32.

(** ** Groups *)

(** What [scnprintf] does at the end of a text that may have been cut. *)
Lemma starts_printed m T t : Forall is_byte t ->
  let lx := Z.min (zlen T) (n - 1) in
  starts n m lx (cut_to (n - 1) T) ->
  starts n (take (Z.to_nat lx) m ++ printed (n - lx) (drop (Z.to_nat lx) m) t)
    (lx + Z.min (zlen t) (n - lx - 1)) (cut_to (n - 1) (T ++ t)).
Proof using Hn.
  intros Ht lx (Hm & Hc & Htk). pose proof (zlen_nonneg T). pose proof (zlen_nonneg t).
  unfold printed. destruct (Z.eqb_spec (n - lx) 0); [lia|]. set (k := Z.to_nat (Z.min (zlen t) (n - lx - 1))).
  assert (E8 : map u8 t = t).
  { clear -Ht. induction Ht as [|x l Hx _ IH]; [done|]. simpl. rewrite IH. by rewrite u8_small. }
  rewrite E8, Htk. split; [|split].
  - unfold cut_to, zlen in *. rewrite !length_app, length_cons, !length_take, !length_drop. lia.
  - rewrite zlen_cut by lia. rewrite zlen_app. lia.
  - replace (Z.to_nat (lx + Z.min (zlen t) (n - lx - 1))) with (Z.to_nat lx + k)%nat by lia.
    unfold cut_to. rewrite take_app. replace (length (take (Z.to_nat (n - 1)) T)) with (Z.to_nat lx)
      by (rewrite length_take; unfold zlen in *; lia).
    rewrite (take_ge (take _ T)) by (rewrite length_take; unfold zlen in *; lia).
    replace (Z.to_nat lx + k - Z.to_nat lx)%nat with k by lia.
    rewrite take_app, take_take, Nat.min_id. replace (k - length (take k t))%nat with 0%nat
      by (rewrite length_take; unfold zlen in *; lia). rewrite take_0, app_nil_r.
    rewrite take_app. f_equal. unfold zlen in *.
    destruct (decide (Z.of_nat (length t) <= n - lx - 1)).
    + rewrite !take_ge by lia. done.
    + f_equal. lia.
Qed.

Lemma starts_le m lx T : starts n m lx (cut_to (n - 1) T) -> lx = Z.min (zlen T) (n - 1).
Proof using Hn. intros (_ & Hl & _). rewrite zlen_cut in Hl by lia. lia. Qed.

Definition group_text (g : Z) (j : Z) (c : list Z) : list Z := before j ++ field c.

Lemma before_bytes j : Forall is_byte (before j).
Proof using. unfold before. destruct (j =? 0); repeat constructor; unfold is_byte; lia. Qed.

Lemma field_bytes_ok c : Forall is_byte (field c).
Proof using.
  eapply Forall_impl; [apply zhex_chars|]. intros x Hx. unfold digit_range, is_byte in *. lia.
Qed.

(** The texts of the groups from number [j] on. *)
Fixpoint groups_text (j : Z) (cs : list (list Z)) : list Z :=
  match cs with
  | [] => []
  | c :: cs => before j ++ field c ++ groups_text (j + 1) cs
  end.

Lemma groups_text_join cs : forall j, 0 <= j -> groups_text j cs = if decide (cs = []) then [] else before j ++ join (map field cs).
Proof using.
  induction cs as [|c cs IH]; intros j Hj; [done|]. cbn [groups_text]. rewrite IH by lia.
  destruct cs as [|c' cs]; [by rewrite decide_True, app_nil_r by done|].
  rewrite !decide_False by done. f_equal. change (join (map field (c :: c' :: cs))) with (field c ++ 32 :: join (map field (c' :: cs))).
  f_equal. unfold before. destruct (Z.eqb_spec (j + 1) 0); [lia|done].
Qed.

Lemma group_loop_spec g buf N : wide g = true -> Forall is_byte buf ->
  forall j m lx T, 0 <= j -> g * (j + Z.of_nat N) <= zlen buf -> starts n m lx (cut_to (n - 1) T) ->
  exists m' lx', group_loop sp sep N g buf j m n lx = Ok (m', lx') /\
    starts n m' lx' (cut_to (n - 1) (T ++ groups_text j (chunks N (Z.to_nat g) (drop (Z.to_nat (g * j)) buf)))).
Proof using Hsep Hn Hsp.
  intros Hg Hb. assert (Hg0 : 2 <= g <= 8) by (destruct (wide_cases g Hg) as [-> | [-> | ->]]; lia).
  induction N as [|N IH]; intros j m lx T Hj Hl Hs; cbn [group_loop chunks groups_text].
  { exists m, lx. by rewrite app_nil_r. }
  pose proof (starts_le m lx T Hs) as Elx. pose proof (zlen_nonneg T).
  rewrite mem_read_ok, bind_Ok by lia. set (c := zslice buf (g * j) g).
  assert (Hc : zlen c = g) by (apply zlen_zslice; lia).
  assert (Hcb : Forall is_byte c) by (by apply Forall_take, Forall_drop).
  pose proof (of_le_range c Hcb) as Hr.
  assert (Hlen : length c = Z.to_nat g) by (unfold zlen in Hc; lia).
  replace (8 * Z.of_nat (length c)) with (8 * g) in Hr by lia.
  rewrite u32_small by lia. destruct Hs as (Hm & Hs).
  pose proof (scn_group sep Hsep g (of_le c) j (sp + lx) (drop (Z.to_nat lx) m) (n - lx) Hg Hr) as E.
  cbv zeta in E. rewrite E, bind_Ok by (rewrite ?zlen_drop; lia). clear E.
  replace (zhex (Z.to_nat (2 * g)) (of_le c)) with (field c) by (unfold field; f_equal; lia).
  assert (Ht : Forall is_byte (before j ++ field c)) by (apply Forall_app; split; [apply before_bytes|apply field_bytes_ok]).
  pose proof (starts_printed m T (before j ++ field c) Ht) as Hp. cbv zeta in Hp. rewrite <- Elx in Hp.
  specialize (Hp (conj Hm Hs)).
  destruct (IH (j + 1) _ _ _ ltac:(lia) ltac:(lia) Hp) as (m' & lx' & E & Hst).
  exists m', lx'. split; [exact E|]. rewrite <- !app_assoc in Hst.
  replace (drop (Z.to_nat (g * (j + 1))) buf) with (drop (Z.to_nat g) (drop (Z.to_nat (g * j)) buf)) in Hst
    by (rewrite drop_drop; f_equal; lia).
  exact Hst.
Qed.

(** ** Bytes *)

(** Each byte with a space behind it. *)
Definition bytes_text (l : list Z) : list Z := concat (map (fun b => zhex 2 b ++ [32]) l).

Lemma zlen_bytes_text l : Forall is_byte l -> zlen (bytes_text l) = 3 * zlen l.
Proof using.
  induction 1 as [|b l Hb Hl IH]; [done|]. unfold bytes_text in *. cbn [map concat].
  rewrite !zlen_app, IH, <- (hex_byte b Hb), !zlen_cons. change (zlen (@nil Z)) with 0. lia.
Qed.

(** Without the last space: the groups of one byte. *)
Lemma bytes_text_join l : Forall is_byte l -> l <> [] -> bytes_text l = hex_part 1 l ++ [32].
Proof using.
  unfold hex_part. rewrite Nat.div_1_r. induction 1 as [|b l Hb Hl IH]; intros Hne; [done|].
  unfold bytes_text in *. cbn [map concat length chunks]. change (take 1 (b :: l)) with [b]. change (drop 1 (b :: l)) with l.
  assert (Ef : field [b] = zhex 2 b) by (unfold field; cbn [of_le]; by rewrite Z.mul_0_r, Z.add_0_r).
  destruct l as [|b' l]; [cbn [map concat length chunks join]; by rewrite Ef, app_nil_r|].
  rewrite IH by done. cbn [map length chunks]. change (take 1 (b' :: l)) with [b'].
  cbn [join map]. rewrite Ef, <- !app_assoc. done.
Qed.

Lemma byte_loop_spec buf N : Forall is_byte buf ->
  forall j m, 0 <= j -> j + Z.of_nat N <= zlen buf -> 3 * j <= n ->
  starts n m (3 * j) (bytes_text (take (Z.to_nat j) buf)) ->
  let j' := Z.min (j + Z.of_nat N) (n / 3) in
  exists m', byte_loop N buf j m n (3 * j) = Ok (m', j', 3 * j') /\
    starts n m' (3 * j') (bytes_text (take (Z.to_nat j') buf)).
Proof using Hn.
  intros Hb. induction N as [|N IH]; intros j m Hj Hl H3 Hs j'; cbn [byte_loop].
  { assert (j' = j) as -> by (unfold j'; pose proof (Z.div_le_lower_bound n 3 j); lia). by exists m. }
  rewrite u32_small by lia. destruct (Z.leb_spec (3 * j + 3) n) as [Hfit|Hfull].
  - destruct (rd_in_range buf j) as [ch Hch]; [lia|]. rewrite Hch, bind_Ok.
    pose proof (Forall_rd _ _ _ _ Hb Hch) as Hcb.
    pose proof (hex_byte ch Hcb) as Eh.
    assert (Hz : Forall is_byte (zhex 2 ch)).
    { eapply Forall_impl; [apply zhex_chars|]. intros x Hx. unfold digit_range, is_byte in *. lia. }
    rewrite <- Eh in Hz. apply Forall_cons in Hz as [Hhi Hz]. apply Forall_cons in Hz as [Hlo _].
    destruct (starts_wr _ _ _ _ _ Hs ltac:(lia) Hhi) as (m1 & -> & Hs1). rewrite bind_Ok.
    destruct (starts_wr _ _ _ _ _ Hs1 ltac:(lia) Hlo) as (m2 & -> & Hs2). rewrite bind_Ok.
    replace (3 * j + 2) with (3 * j + 1 + 1) by lia.
    destruct (starts_wr _ _ _ _ 32 Hs2 ltac:(lia) ltac:(unfold is_byte; lia)) as (m3 & -> & Hs3). rewrite bind_Ok.
    replace (3 * j + 3) with (3 * (j + 1)) by lia. replace j' with (Z.min (j + 1 + Z.of_nat N) (n / 3)) by lia.
    apply IH; [lia|lia|lia|]. replace (3 * (j + 1)) with (3 * j + 1 + 1 + 1) by lia.
    replace (bytes_text (take (Z.to_nat (j + 1)) buf)) with
      (((bytes_text (take (Z.to_nat j) buf) ++ [hex_asc_hi ch]) ++ [hex_asc_lo ch]) ++ [32]); [done|].
    replace (Z.to_nat (j + 1)) with (S (Z.to_nat j)) by lia. apply rd_Ok_iff in Hch as [_ Hch].
    rewrite (take_S_r _ _ ch) by done. unfold bytes_text. rewrite map_app, concat_app. cbn [map concat].
    rewrite app_nil_r, <- Eh, <- !app_assoc. done.
  - assert (j' = j) as ->; [|by exists m]. unfold j'.
    assert (n / 3 = j) by (symmetry; apply (Z.div_unique n 3 j (n - 3 * j)); lia). lia.
Qed.

(** ** Blanks and characters *)

Lemma blank_loop_spec col fuel : forall m lx t, starts n m lx t -> lx <= n - 1 -> (Z.to_nat (col - 1 - lx) <= fuel)%nat ->
  let k := Z.to_nat (Z.min (n - 1) (col - 1) - lx) in
  exists m', blank_loop fuel m n col lx = Ok (m', lx + Z.of_nat k) /\
    starts n m' (lx + Z.of_nat k) (t ++ replicate k 32).
Proof using Hn.
  induction fuel as [|fuel IH]; intros m lx t Hs Hlx Hf k; cbn [blank_loop]; rewrite u32_small by lia.
  - rewrite (proj2 (Z.ltb_ge lx (col - 1))), andb_false_r by lia. exists m.
    replace k with 0%nat by lia. rewrite Z.add_0_r. cbn [replicate]. by rewrite app_nil_r.
  - destruct (Z.ltb_spec lx (n - 1)), (Z.ltb_spec lx (col - 1)); cbn [andb].
    2-4: exists m; replace k with 0%nat by lia; rewrite Z.add_0_r; cbn [replicate]; by rewrite app_nil_r.
    destruct (starts_wr _ _ _ _ 32 Hs ltac:(lia) ltac:(unfold is_byte; lia)) as (m1 & -> & Hs1). rewrite bind_Ok.
    destruct (IH m1 (lx + 1) (t ++ [32]) Hs1 ltac:(lia) ltac:(lia)) as (m' & E & Hs').
    exists m'. rewrite E. replace k with (S (Z.to_nat (Z.min (n - 1) (col - 1) - (lx + 1)))) by lia.
    rewrite <- app_assoc in Hs'. cbn [replicate app] in *.
    split; [do 2 f_equal; lia|]. eapply starts_eq; [exact Hs'|lia].
Qed.

Lemma printable_range c : is_byte c -> 0 < printable c < 128.
Proof using. revert c. by_chars. Qed.

Lemma ascii_loop_spec buf N : Forall is_byte buf ->
  forall j m lx t, 0 <= j -> j + Z.of_nat N <= zlen buf -> starts n m lx t -> lx <= n - 1 ->
  let s := map printable (take (Z.to_nat (n - 2 - lx)) (zslice buf j (Z.of_nat N))) in
  exists m', ascii_loop N buf j m n lx = Ok (m', lx + zlen s) /\ starts n m' (lx + zlen s) (t ++ s) /\ lx + zlen s <= n - 1.
Proof using Hn.
  intros Hb. induction N as [|N IH]; intros j m lx t Hj Hl Hs Hlx s; cbn [ascii_loop].
  { assert (s = []) as -> by (unfold s, zslice; by rewrite take_0, take_nil).
    exists m. change (zlen (@nil Z)) with 0. rewrite Z.add_0_r, app_nil_r. done. }
  pose proof (proj1 (proj2 Hs)) as Hlen. pose proof (zlen_nonneg t). rewrite u32_small by lia.
  destruct (Z.ltb_spec (lx + 2) n) as [Hfit|Hfull].
  - destruct (rd_in_range buf j) as [ch Hch]; [lia|]. rewrite Hch, bind_Ok.
    pose proof (printable_range ch (Forall_rd _ _ _ _ Hb Hch)) as Hp.
    destruct (starts_wr _ _ _ _ (printable ch) Hs ltac:(lia) ltac:(unfold is_byte; lia)) as (m1 & -> & Hs1). rewrite bind_Ok.
    destruct (IH (j + 1) m1 (lx + 1) _ ltac:(lia) ltac:(lia) Hs1 ltac:(lia)) as (m' & E & Hs' & Hle).
    assert (Es : s = printable ch :: map printable (take (Z.to_nat (n - 2 - (lx + 1))) (zslice buf (j + 1) (Z.of_nat N)))).
    { unfold s. rewrite Nat2Z.inj_succ, <- Z.add_1_l, (zslice_S _ _ _ ch) by (done || lia).
      replace (Z.to_nat (n - 2 - lx)) with (S (Z.to_nat (n - 2 - (lx + 1)))) by lia. done. }
    rewrite Es, zlen_cons. exists m'. rewrite E, <- app_assoc in *. split; [do 2 f_equal; lia|].
    split; [|lia]. eapply starts_eq; [exact Hs'|lia].
  - assert (s = []) as ->.
    { unfold s. replace (Z.to_nat (n - 2 - lx)) with 0%nat by lia. done. }
    exists m. change (zlen (@nil Z)) with 0. rewrite Z.add_0_r, app_nil_r. done.
Qed.

(** The string that a NUL behind the text makes. *)
Lemma starts_nul m lx t : starts n m lx t -> lx <= n - 1 -> Forall (fun c => 0 < c < 256) t ->
  exists m', put_nil m lx = Ok m' /\ zlen m' = n /\ cstr m' 0 t.
Proof using Hn.
  intros Hs Hlx Ht. pose proof Hs as (Hm & Hl & _). pose proof (zlen_nonneg t).
  destruct (starts_wr _ _ _ _ 0 Hs ltac:(lia) ltac:(unfold is_byte; lia)) as (m' & E & (Hm' & _ & Htk)).
  exists m'. split; [exact E|]. split; [exact Hm'|].
  assert (Em : m' = t ++ 0 :: drop (Z.to_nat (lx + 1)) m').
  { rewrite <- (take_drop (Z.to_nat (lx + 1)) m') at 1. rewrite Htk, <- app_assoc. done. }
  rewrite Em. by apply nul_cstr.
Qed.

Lemma starts_drop_last m lx t c : starts n m lx (t ++ [c]) -> starts n m (lx - 1) t.
Proof using.
  intros (Hm & Hl & Ht). rewrite zlen_app in Hl. change (zlen [c]) with 1 in Hl. split; [done|]. split; [lia|].
  apply (f_equal (take (Z.to_nat (lx - 1)))) in Ht. rewrite take_take in Ht.
  replace (Z.to_nat (lx - 1) `min` Z.to_nat lx)%nat with (Z.to_nat (lx - 1)) in Ht by lia. rewrite Ht.
  rewrite take_app_le, take_ge; [done|unfold zlen in *; lia|unfold zlen in *; lia].
Qed.

(** ** The row *)

(** The line for the bytes [l] in groups of [g] and a text column at [col]. *)
Definition row_text (g col : Z) (l : list Z) (ascii : bool) : list Z :=
  let h := if wide g then cut_to (n - 1) (hex_part (Z.to_nat g) l) else hex_part 1 (take (Z.to_nat (n / 3)) l) in
  if ascii then
    let b := h ++ replicate (Z.to_nat (Z.min (n - 1) (col - 1) - zlen h)) 32 in
    b ++ map printable (take (Z.to_nat (n - 2 - zlen b)) l)
  else h.

Definition text_char (c : Z) : Prop := 0 < c < 256.

Lemma join_chars cs : Forall text_char (join (map field cs)).
Proof using.
  assert (Hf : forall c, Forall text_char (field c)).
  { intros c. eapply Forall_impl; [apply zhex_chars|]. intros x Hx. unfold digit_range, text_char in *. lia. }
  induction cs as [|c [|c' cs] IH]; [constructor|apply Hf|].
  change (join (map field (c :: c' :: cs))) with (field c ++ 32 :: join (map field (c' :: cs))).
  apply Forall_app. split; [apply Hf|]. constructor; [unfold text_char; lia|exact IH].
Qed.

Lemma row_chars g col l ascii : Forall is_byte l -> Forall text_char (row_text g col l ascii).
Proof using.
  intros Hl. unfold row_text. set (h := if wide g then _ else _).
  assert (Hh : Forall text_char h).
  { unfold h. destruct (wide g); [apply Forall_take|]; apply join_chars. }
  destruct ascii; [|done]. apply Forall_app. split; [apply Forall_app; split; [done|]|].
  - apply Forall_replicate. unfold text_char. lia.
  - apply Forall_map. eapply Forall_impl; [by apply Forall_take|]. intros c Hc.
    pose proof (printable_range c Hc). unfold text_char. lia.
Qed.

Definition column (g rowsize len : Z) : Z := if wide g then (2 * g + 1) * (len / g) + 2 else 3 * rowsize + 2.

(** The hexadecimal part, in the buffer. *)
Lemma hex_loops g rowsize buf len linebuf :
  Forall is_byte buf -> 0 < len <= zlen buf -> zlen linebuf = n -> len mod g = 0 \/ wide g = false ->
  let l := take (Z.to_nat len) buf in
  let h := if wide g then cut_to (n - 1) (hex_part (Z.to_nat g) l) else hex_part 1 (take (Z.to_nat (n / 3)) l) in
  exists m, (if (g =? 8) || (g =? 4) || (g =? 2) then
         let ngroups := len / g in
         '(m, lx) ← group_loop sp sep (Z.to_nat ngroups) g buf 0 linebuf n 0;
         Ok (m, lx, (2 * g + 1) * ngroups + 2)
       else
         '(m, j, lx) ← byte_loop (Z.to_nat len) buf 0 linebuf n 0;
         Ok (m, if negb (j =? 0) then lx - 1 else lx, 3 * rowsize + 2)) = Ok (m, zlen h, column g rowsize len) /\
    starts n m (zlen h) h /\ zlen h <= n - 1.
Proof using Hsep Hn Hsp.
  intros Hb Hlen Hm Hdiv l h. fold (wide g). unfold column.
  assert (H0 : starts n linebuf 0 []) by (by split; [|split]).
  assert (Hll : length l = Z.to_nat len) by (unfold l; rewrite length_take; unfold zlen in *; lia).
  destruct (wide g) eqn:Hg.
  - assert (Hg8 : 2 <= g <= 8) by (destruct (wide_cases g Hg) as [-> | [-> | ->]]; lia).
    destruct Hdiv as [Hdiv|]; [|done]. set (N := len / g).
    assert (HN : len = g * N) by (unfold N; apply Z_div_exact_full_2; lia).
    assert (HN0 : 0 < N) by nia.
    destruct (group_loop_spec g buf (Z.to_nat N) Hg Hb 0 linebuf 0 []) as (m & lx & E & Hst);
      [lia|rewrite Z2Nat.id by lia; lia|by rewrite cut_all by (change (zlen (@nil Z)) with 0; lia)|].
    rewrite Z.mul_0_r, drop_0 in Hst. cbn [app] in Hst.
    assert (Eh : h = cut_to (n - 1) (groups_text 0 (chunks (Z.to_nat N) (Z.to_nat g) buf))).
    { unfold h, hex_part. f_equal. rewrite Hll.
      assert (Ed : (Z.to_nat len / Z.to_nat g)%nat = Z.to_nat N) by (rewrite HN, Z2Nat.inj_mul, Nat.mul_comm, Nat.div_mul by lia; done).
      rewrite Ed, groups_text_join by lia. destruct (Z.to_nat N) as [|N'] eqn:EN; [lia|].
      rewrite decide_False by done. cbn [before app Z.eqb]. do 2 f_equal. rewrite <- EN.
      unfold l. rewrite HN. rewrite Z2Nat.inj_mul by lia. rewrite (Nat.mul_comm (Z.to_nat g)). apply chunks_take. }
    rewrite <- Eh in Hst. pose proof (proj1 (proj2 Hst)) as Elx. subst lx.
    exists m. rewrite E, bind_Ok. split; [done|]. split; [done|]. rewrite Eh, zlen_cut by lia. lia.
  - destruct (byte_loop_spec buf (Z.to_nat len) Hb 0 linebuf ltac:(lia) ltac:(lia) ltac:(lia) H0) as (m & E & Hst).
    rewrite Z2Nat.id, Z.add_0_l in E, Hst by lia. change (3 * 0) with 0 in E. set (j := Z.min len (n / 3)) in *.
    assert (Hj0 : 0 <= n / 3) by (apply Z.div_pos; lia). assert (Hj3 : 3 * (n / 3) <= n) by (apply Z.mul_div_le; lia).
    assert (Et : take (Z.to_nat (n / 3)) l = take (Z.to_nat j) buf) by (unfold l, j; rewrite take_take; f_equal; lia).
    unfold h. rewrite Et, E, bind_Ok. exists m.
    destruct (Z.eqb_spec j 0) as [Ej|Ej]; cbn [negb].
    + rewrite Ej in *. split; [done|]. split; [done|]. change (zlen (hex_part 1 (take (Z.to_nat 0) buf))) with 0. lia.
    + assert (Hne : take (Z.to_nat j) buf <> []).
      { intros El. apply (f_equal length) in El. rewrite length_take in El. cbn in El. unfold zlen in *. lia. }
      rewrite (bytes_text_join _ (Forall_take _ _ _ Hb) Hne) in Hst. apply starts_drop_last in Hst.
      pose proof (proj1 (proj2 Hst)) as Ez. rewrite Ez. split; [done|]. split; [done|lia].
Qed.

(** The group size that is used. *)
Definition effective (len g : Z) : Z := if negb (len mod u32 g =? 0) then 1 else g.

Lemma effective_divides len g : len mod effective len g = 0 \/ wide (effective len g) = false.
Proof using.
  unfold effective. destruct (Z.eqb_spec (len mod u32 g) 0) as [E|]; cbn [negb]; [|by right].
  destruct (wide g) eqn:Hw; [left|by right]. by destruct (wide_cases g Hw) as [-> | [-> | ->]].
Qed.

Lemma hex_dump_spec buf len rowsize groupsize linebuf ascii :
  Forall is_byte buf -> 0 <= len <= zlen buf -> zlen linebuf = n -> groupsize <> 0 ->
  let rs := row_size rowsize in let l := Z.min len rs in let g := effective l groupsize in
  exists m, hex_dump_to_buffer sp sep buf len rowsize groupsize linebuf n ascii = Ok m /\ zlen m = n /\
    cstr m 0 (if len =? 0 then [] else row_text g (column g rs l) (take (Z.to_nat l) buf) ascii).
Proof using Hsep Hn Hsp.
  intros Hb Hlen Hm Hg0 rs l g. unfold hex_dump_to_buffer. fold rs.
  assert (Hrs : rs = 16 \/ rs = 32).
  { unfold rs, row_size. destruct (Z.eqb_spec rowsize 16), (Z.eqb_spec rowsize 32); cbn; lia. }
  destruct (Z.eqb_spec len 0) as [|Hne].
  { apply (starts_nul linebuf 0 []); [by split; [|split]|lia|constructor]. }
  replace (if rs <? len then rs else len) with l by (unfold l; destruct (Z.ltb_spec rs len); lia).
  unfold group_size. rewrite (proj2 (Z.eqb_neq groupsize 0)) by done. rewrite bind_Ok. fold (effective l groupsize). fold g.
  assert (Hl : 0 < l <= zlen buf) by (unfold l; lia).
  destruct (hex_loops g rs buf l linebuf Hb Hl Hm (effective_divides l groupsize)) as (m & E & Hst & Hle).
  cbv zeta in E. rewrite E, bind_Ok. clear E. set (t := take (Z.to_nat l) buf) in *. set (h := if wide g then _ else _) in *.
  pose proof (row_chars g (column g rs l) t ascii (Forall_take _ _ _ Hb)) as Hch.
  unfold row_text in *. fold h in Hch |- *. destruct ascii; cbn [negb]; [|by apply (starts_nul m (zlen h) h)].
  assert (Hc : 0 <= column g rs l).
  { unfold column. destruct (wide g) eqn:Hw; [|lia].
    assert (0 < g) by (destruct (wide_cases g Hw) as [E | [E | E]]; lia). pose proof (Z.div_pos l g). nia. }
  pose proof (zlen_nonneg h).
  destruct (blank_loop_spec (column g rs l) (Z.to_nat (column g rs l)) m (zlen h) h Hst Hle) as (m1 & -> & Hs1); [lia|].
  rewrite bind_Ok. set (k := Z.to_nat (Z.min (n - 1) (column g rs l - 1) - zlen h)) in *.
  set (b := h ++ replicate k 32) in *.
  assert (Hzb : zlen h + Z.of_nat k = zlen b) by (unfold b; rewrite zlen_app; unfold zlen at 3; by rewrite length_replicate).
  rewrite Hzb in *.
  destruct (ascii_loop_spec buf (Z.to_nat l) Hb 0 m1 (zlen b) b) as (m2 & -> & Hs2 & Hle2); [lia|lia|done|lia|].
  rewrite bind_Ok, Z2Nat.id in * by lia.
  replace (zslice buf 0 l) with t in * by (unfold zslice; by rewrite drop_0).
  by apply (starts_nul m2 _ _ Hs2).
Qed.

End loops.

(** [hex_dump_to_buffer] writes one line into any buffer that has room for
    the NUL: the groups of the row as hexadecimal numbers, or as many as fit,
    and, if asked to, the characters in their column, or as many as fit. *)
Lemma hex_dump_row sp sep n buf len rowsize groupsize linebuf ascii :
  4096 <= sep < 2 ^ 32 - 2 -> 0 < n < 2 ^ 31 -> 0 <= sp /\ sp + n < 2 ^ 32 ->
  Forall is_byte buf -> 0 <= len <= zlen buf -> zlen linebuf = n -> groupsize <> 0 ->
  let rs := row_size rowsize in let l := Z.min len rs in let g := effective l groupsize in
  exists m, hex_dump_to_buffer sp sep buf len rowsize groupsize linebuf n ascii = Ok m /\ zlen m = n /\
    cstr m 0 (if len =? 0 then [] else row_text n g (column g rs l) (take (Z.to_nat l) buf) ascii).
Proof. intros Hsep Hn Hsp. by apply hex_dump_spec. Qed.

(** Nothing is checked for a buffer without room: its NUL is written anyway. *)
Lemma hex_dump_no_room sp sep buf rowsize groupsize ascii :
  hex_dump_to_buffer sp sep buf 0 rowsize groupsize [] 0 ascii = Stray Wr.
Proof. done. Qed.

(** ** A blob *)

Definition unit_size (g : Z) : nat := if wide g then Z.to_nat g else 1.

Lemma zlen_join cs w : Forall (fun c => length c = w /\ (0 < w <= 8)%nat /\ Forall is_byte c) cs -> cs <> [] ->
  zlen (join (map field cs)) = (2 * Z.of_nat w + 1) * zlen cs - 1.
Proof.
  induction 1 as [|c cs (Hw & Hw8 & Hb) Hcs IH]; intros Hne; [done|].
  assert (Hf : zlen (field c) = 2 * Z.of_nat w).
  { unfold zlen. destruct (field_ok c) as (-> & _); [lia|done|lia]. }
  destruct cs as [|c' cs].
  - cbn [map join]. rewrite Hf, zlen_cons. change (zlen (@nil (list Z))) with 0. lia.
  - change (join (map field (c :: c' :: cs))) with (field c ++ 32 :: join (map field (c' :: cs))).
    rewrite zlen_app, zlen_cons, Hf, IH, (zlen_cons c) by done. lia.
Qed.

Lemma chunks_exact N g : forall l, (N * g <= length l)%nat -> (0 < g <= 8)%nat -> Forall is_byte l ->
  Forall (fun c => length c = g /\ (0 < g <= 8)%nat /\ Forall is_byte c) (chunks N g l) /\ length (chunks N g l) = N.
Proof.
  induction N as [|N IH]; intros l Hl Hg Hb; [by split|]. cbn [chunks length].
  destruct (IH (drop g l)) as [H1 H2]; [rewrite length_drop; lia|done|by apply Forall_drop|].
  split; [|by rewrite H2]. constructor; [|done]. split; [rewrite length_take; lia|]. split; [done|by apply Forall_take].
Qed.

Lemma zlen_hex_part g l : (0 < g <= 8)%nat -> (0 < length l)%nat -> (length l mod g = 0)%nat -> Forall is_byte l ->
  zlen (hex_part g l) = (2 * Z.of_nat g + 1) * (zlen l / Z.of_nat g) - 1.
Proof.
  intros Hg Hl Hm Hb. pose proof (Nat.div_mod (length l) g ltac:(lia)) as Hd.
  destruct (chunks_exact (length l / g) g l) as [H1 H2]; [lia|done|done|]. unfold hex_part.
  rewrite (zlen_join _ g H1) by (intros E; rewrite E in H2; cbn in H2; lia). unfold zlen. by rewrite H2, <- Nat2Z.inj_div.
Qed.

(** A line buffer that takes a whole row. *)
Lemma row_text_whole g rs l ascii :
  rs = 16 \/ rs = 32 -> 0 < zlen l <= rs -> Forall is_byte l -> zlen l mod g = 0 \/ wide g = false ->
  exists rest, row_text LINEBUF_SZ g (column g rs (zlen l)) l ascii = hex_part (unit_size g) l ++ rest /\
    rest = (if ascii then replicate (Z.to_nat (column g rs (zlen l) - 1 - zlen (hex_part (unit_size g) l))) 32 ++
              map printable l else []) /\
    zlen (hex_part (unit_size g) l) + 2 <= column g rs (zlen l) - 1.
Proof.
  intros Hrs Hl Hb Hdiv. unfold row_text. change (LINEBUF_SZ - 1) with 130. change (LINEBUF_SZ / 3) with 43.
  change (LINEBUF_SZ - 2) with 129. set (u := unit_size g).
  assert (Hu : (0 < u <= 8)%nat /\ (length l mod u = 0)%nat).
  { unfold u, unit_size. destruct (wide g) eqn:Hw; [|split; [lia|apply Nat.mod_1_r]].
    destruct Hdiv as [Hd|]; [|done]. assert (Hg : 0 < g <= 8) by (destruct (wide_cases g Hw) as [E | [E | E]]; lia).
    split; [lia|]. unfold zlen in Hd. apply Nat2Z.inj. rewrite Nat2Z.inj_mod, Z2Nat.id by lia. exact Hd. }
  assert (Hz : zlen (hex_part u l) = (2 * Z.of_nat u + 1) * (zlen l / Z.of_nat u) - 1).
  { apply zlen_hex_part; [apply Hu| |apply Hu|done]. unfold zlen in Hl. lia. }
  assert (Hcol : zlen (hex_part u l) + 2 <= column g rs (zlen l) - 1 <= 97).
  { rewrite Hz. unfold column, u, unit_size. destruct (wide g) eqn:Hw.
    - assert (Hg : g = 8 \/ g = 4 \/ g = 2) by (by apply wide_cases). rewrite Z2Nat.id by lia.
      assert (zlen l / g <= 32 / g) by (apply Z.div_le_mono; lia).
      assert (E : 32 / 8 = 4 /\ 32 / 4 = 8 /\ 32 / 2 = 16) by done. destruct Hg as [-> | [-> | ->]]; lia.
    - change (Z.of_nat 1) with 1. rewrite Z.div_1_r. lia. }
  set (h := if wide g then _ else _).
  assert (Eh : h = hex_part u l).
  { unfold h, u, unit_size in *. destruct (wide g); [apply cut_all; lia|]. rewrite take_ge; [done|]. unfold zlen in Hl. lia. }
  rewrite Eh. destruct ascii; [|exists []; rewrite app_nil_r; split; [done|]; split; [done|lia]]. eexists. split; [|split; [reflexivity|lia]].
  rewrite <- app_assoc. replace (Z.min 130 (column g rs (zlen l) - 1)) with (column g rs (zlen l) - 1) by lia.
  do 2 f_equal. f_equal. apply take_ge. rewrite zlen_app. unfold zlen at 2. rewrite length_replicate.
  unfold zlen in *. lia.
Qed.

(** What the reader gets from it. *)
Lemma read_row_text g rs l ascii :
  rs = 16 \/ rs = 32 -> 0 < zlen l <= rs -> Forall is_byte l -> zlen l mod g = 0 \/ wide g = false ->
  read_row [] (row_text LINEBUF_SZ g (column g rs (zlen l)) l ascii) = l.
Proof.
  intros Hrs Hl Hb Hdiv. destruct (row_text_whole g rs l ascii Hrs Hl Hb Hdiv) as (rest & -> & -> & Hc).
  apply read_hex_part; [| | |done|].
  1-3: unfold unit_size; destruct (wide g) eqn:Hw; unfold zlen in *; try lia.
  1: destruct (wide_cases g Hw) as [E | [E | E]]; lia.
  1: { destruct Hdiv as [Hd|]; [|done]. apply Nat2Z.inj.
       rewrite Nat2Z.inj_mod, Z2Nat.id by (destruct (wide_cases g Hw) as [E | [E | E]]; lia). exact Hd. }
  1: apply Nat.mod_1_r.
  destruct ascii; [right|by left].
  set (k := Z.to_nat _). assert (Hk : (2 <= k)%nat) by lia. destruct k as [|[|k]]; [lia|lia|]. by eexists.
Qed.

(** The prefix of the row at [i]. *)
Definition prefix_of (t : dump_prefix) (at_ i : Z) : option Z :=
  match t with
  | DUMP_PREFIX_ADDRESS => Some (at_ + i)
  | DUMP_PREFIX_OFFSET => Some i
  | DUMP_PREFIX_NONE => None
  end.

Definition read_line (r : dumped) : list Z := read_row [] (d_line r).

Lemma cstr_take m s : cstr m 0 s -> take (Z.to_nat (zlen s)) m = s.
Proof. intros Hs. pose proof (cstr_zslice m 0 s Hs) as E. unfold zslice in E. by rewrite drop_0 in E. Qed.

Section blob.
Context (sp sep : Z) (t : dump_prefix) (rs groupsize at_ : Z) (ascii : bool).
Hypothesis Hsep : 4096 <= sep < 2 ^ 32 - 2.
Hypothesis Hsp : 0 <= sp /\ sp + LINEBUF_SZ < 2 ^ 32.
Hypothesis Hrs : rs = 16 \/ rs = 32.
Hypothesis Hg : groupsize <> 0.

Lemma rows_loop_spec buf len : Forall is_byte buf -> 0 <= len <= zlen buf -> len < 2 ^ 31 - 32 ->
  forall fuel i linebuf, 0 <= i < len + rs -> len - i < rs * Z.of_nat fuel -> zlen linebuf = LINEBUF_SZ ->
  exists rows, rows_loop sp sep fuel t rs groupsize at_ buf len ascii linebuf i (len - i) = Ok rows /\
    concat (map read_line rows) = drop (Z.to_nat i) (take (Z.to_nat len) buf) /\
    forall r row, rows !! r = Some row -> d_prefix row = prefix_of t at_ (i + rs * Z.of_nat r).
Proof using Hsep Hsp Hrs Hg.
  intros Hb Hlen Hmax. induction fuel as [|fuel IH]; intros i linebuf Hi Hf Hm; cbn [rows_loop]; rewrite u32_small by lia;
    destruct (Z.ltb_spec i len) as [Hlt|Hge]; try lia.
  1, 3: exists []; split; [done|]; split; [|done]; rewrite drop_ge; [done|rewrite length_take; lia].
  rewrite (s32_small (len - i - rs)), (s32_small (i + rs)), (u32_small (Z.min _ _)) by lia.
  set (l := Z.min (len - i) rs). assert (Hl : 0 < l <= rs) by (unfold l; lia).
  assert (Hz : zlen (drop (Z.to_nat i) buf) = zlen buf - i) by (rewrite zlen_drop; lia).
  assert (Hdb : Forall is_byte (drop (Z.to_nat i) buf)) by (by apply Forall_drop).
  destruct (hex_dump_spec sp sep Hsep LINEBUF_SZ ltac:(by vm_compute) Hsp (drop (Z.to_nat i) buf) l rs groupsize linebuf ascii)
    as (m & E & Hm' & Hstr); [done|lia|done|done|].
  assert (Ers : row_size rs = rs) by (by destruct Hrs as [-> | ->]).
  rewrite Ers in Hstr. replace (Z.min l rs) with l in Hstr by lia.
  rewrite (proj2 (Z.eqb_neq l 0)) in Hstr by lia.
  set (c := take (Z.to_nat l) (drop (Z.to_nat i) buf)) in *. set (g := effective l groupsize) in *.
  assert (Hc : zlen c = l) by (unfold c; rewrite zlen_take; lia).
  rewrite E, bind_Ok, (strlen_spec _ _ _ Hstr), bind_Ok, (cstr_take _ _ Hstr).
  destruct (IH (i + rs) m ltac:(lia) ltac:(lia) Hm') as (rows & Er & Hrows & Hpre).
  replace (len - i - rs) with (len - (i + rs)) by lia. rewrite Er, bind_Ok. eexists. split; [done|]. split.
  - cbn [map concat]. rewrite Hrows. unfold read_line at 1. cbn [d_line].
    assert (Hr : read_row [] (row_text LINEBUF_SZ g (column g rs l) c ascii) = c).
    { rewrite <- Hc. apply read_row_text; [done|lia|by apply Forall_take|]. rewrite Hc. apply effective_divides. }
    rewrite Hr. rewrite <- (take_drop (Z.to_nat rs) (drop (Z.to_nat i) (take (Z.to_nat len) buf))). f_equal.
    + unfold c. rewrite skipn_firstn_comm, take_take. f_equal. lia.
    + rewrite drop_drop. f_equal. lia.
  - intros [|r] row Hrow; cbn [lookup list_lookup] in Hrow.
    + injection Hrow as <-. cbn [d_prefix]. unfold prefix_of. destruct t; by rewrite ?Z.mul_0_r, ?Z.add_0_r.
    + rewrite (Hpre r row Hrow). f_equal. lia.
Qed.

End blob.

(** A group of 0 bytes is a division by zero, unless there is nothing to dump. *)
Lemma print_hex_dump_no_group sp sep junk t rowsize at_ buf len ascii : 0 <= len < 2 ^ 31 - 32 ->
  print_hex_dump sp sep junk t rowsize 0 at_ buf len ascii = if len =? 0 then Ok [] else Fatal.
Proof.
  intros Hlen. unfold print_hex_dump. set (rs := row_size rowsize).
  assert (Hrs : rs = 16 \/ rs = 32).
  { unfold rs, row_size. destruct (Z.eqb_spec rowsize 16), (Z.eqb_spec rowsize 32); cbn; lia. }
  cbn [rows_loop]. rewrite (u32_small 0), (s32_small len) by lia. destruct (Z.eqb_spec len 0) as [->|Hne]; [done|].
  destruct (Z.ltb_spec 0 len); [|lia]. unfold hex_dump_to_buffer. rewrite u32_small by lia.
  destruct (Z.eqb_spec (Z.min len rs) 0); [lia|]. done.
Qed.

(** C36: the rows of [print_hex_dump] can be read back: for every size of the
    blob below 2^31 - 32, any size of the row and any size of the group but 0
    the numbers of its lines are the bytes of the blob in order, and each line
    is labelled as the prefix type says: with the address of its first byte, with
    its offset, or not at all. A group size of 0 is a division by zero, unless
    the blob is empty. The line buffer and the constants are where an address of
    32 bits can be. *)
Theorem print_hex_dump_roundtrip sp sep junk t rowsize groupsize at_ buf len ascii :
  4096 <= sep < 2 ^ 32 - 2 -> 0 <= sp /\ sp + LINEBUF_SZ < 2 ^ 32 -> zlen junk = LINEBUF_SZ ->
  Forall is_byte buf -> 0 <= len <= zlen buf -> len < 2 ^ 31 - 32 ->
  let dump := print_hex_dump sp sep junk t rowsize groupsize at_ buf len ascii in
  if decide (groupsize = 0) then dump = (if len =? 0 then Ok [] else Fatal)
  else exists rows, dump = Ok rows /\
    concat (map read_line rows) = take (Z.to_nat len) buf /\
    forall r row, rows !! r = Some row -> d_prefix row = prefix_of t at_ (row_size rowsize * Z.of_nat r).
Proof.
  intros Hsep Hsp Hj Hb Hlen Hmax dump. destruct (decide (groupsize = 0)) as [->|Hg];
    [apply print_hex_dump_no_group; lia|]. unfold dump, print_hex_dump. set (rs := row_size rowsize).
  assert (Hrs : rs = 16 \/ rs = 32).
  { unfold rs, row_size. destruct (Z.eqb_spec rowsize 16), (Z.eqb_spec rowsize 32); cbn; lia. }
  pose proof (Z.div_mod len rs ltac:(lia)) as Hd. pose proof (Z.mod_pos_bound len rs ltac:(lia)) as Hm.
  pose proof (Z.div_pos len rs ltac:(lia) ltac:(lia)).
  destruct (rows_loop_spec sp sep t rs groupsize at_ ascii Hsep Hsp Hrs Hg buf len Hb Hlen Hmax
    (S (Z.to_nat (len / rs))) 0 junk) as (rows & E & Hr & Hp); [lia|nia|done|].
  rewrite Z.sub_0_r in E. rewrite s32_small by lia. by exists rows.
Qed.

(** ** Dumps *)

Definition sample : list Z := codes "snitchaser log".

Lemma print_hex_dump_roundtrip_witness :
  exists rows, print_hex_dump 0x7fff0000 0x8049000 (replicate 131 0xcc) DUMP_PREFIX_OFFSET 16 4 0x804a000 (sample ++ sample) 28 true =
      Ok rows /\ concat (map read_line rows) = sample ++ sample /\
    exists row, rows !! 1%nat = Some row /\ d_prefix row = Some 16.
Proof.
  destruct (print_hex_dump_roundtrip 0x7fff0000 0x8049000 (replicate 131 0xcc) DUMP_PREFIX_OFFSET 16 4 0x804a000
    (sample ++ sample) 28 true) as (rows & E & Hr & Hp).
  - lia.
  - by vm_compute.
  - by vm_compute.
  - apply (bool_decide_unpack _). by vm_compute.
  - by vm_compute.
  - lia.
  - exists rows. split; [exact E|]. split; [exact Hr|].
    destruct rows as [|r0 [|r1 rows]]; [by vm_compute in E|by vm_compute in E|]. exists r1. split; [reflexivity|].
    rewrite (Hp 1%nat r1 eq_refl). reflexivity.
Defined.

End HexFacts.
