(* ===== verification/SizeText.v ===== *)
(** The sizes of [src/src/lib/string_helpers.c]: a number of bytes as three
    significant figures and a unit. *)
From S2P Require Import Prelude CString CStringFacts Numbers Vsprintf VsprintfFacts PrintfText.
Import Str StrFacts Num Vs VsFacts PrintfText.

Module Size.

Inductive string_size_units := STRING_UNITS_10 | STRING_UNITS_2.

Definition units_10 : list (list Z) := map codes ["B"; "kB"; "MB"; "GB"; "TB"; "PB"; "EB"; "ZB"; "YB"]%string.
Definition units_2 : list (list Z) := map codes ["B"; "KiB"; "MiB"; "GiB"; "TiB"; "PiB"; "EiB"; "ZiB"; "YiB"]%string.

Definition units_str (u : string_size_units) : list (list Z) :=
  match u with STRING_UNITS_10 => units_10 | STRING_UNITS_2 => units_2 end.
Definition divisor (u : string_size_units) : Z :=
  match u with STRING_UNITS_10 => 1000 | STRING_UNITS_2 => 1024 end.

(** [while (size >= divisor[units] && units_str[units][i])]: the size, the
    index of the unit and the last remainder. The entry after the last unit is
    [NULL]. *)
Fixpoint scale (fuel : nat) (u : string_size_units) (size i remainder : Z) : result (Z * Z * Z) :=
  if divisor u <=? size then
    if i <? zlen (units_str u) then
      match fuel with
      | O => NoFuel
      | S fuel => scale fuel u (size / divisor u) (i + 1) (size mod divisor u)
      end
    else Ok (size, i, remainder)
  else Ok (size, i, remainder).

(** [for (j = 0; sf_cap*10 < 1000; j++) sf_cap *= 10] *)
Fixpoint digits_loop (fuel : nat) (j sf_cap : Z) : result Z :=
  if u64 (sf_cap * 10) <? 1000 then
    match fuel with
    | O => NoFuel
    | S fuel => digits_loop fuel (j + 1) (u64 (sf_cap * 10))
    end
  else Ok j.

(** The words of a 64-bit argument. *)
Definition long_long (v : Z) : list Z := [u32 v; u32 (v / 2 ^ 32)].

Section size.
(** [tmp] is at [sp], the unit is a constant at [sp + 8], and the buffer of the
    caller at [buf]. *)
Variables (sp buf : Z).
(** What is on the stack. *)
Variable junk : list Z.

Definition snp (strings fmt : list Z) (at_ : Z) (mem : list Z) (size : Z) (args : list Z) : result (list Z) :=
  '(_, m, _) ← snprintf sp strings (fun _ => []) (fun _ => []) id fmt at_ mem size args;
  Ok m.

Definition string_get_size (size : Z) (u : string_size_units) (mem : list Z) (len : Z) : result (list Z) :=
  tmp ← wr junk 0 0;
  '(size, i, tmp) ←
    (if divisor u <=? size then
       '(size, i, remainder) ← scale (length (units_str u)) u size 0 0;
       j ← digits_loop 3 0 size;
       if negb (j =? 0) then
         let remainder := u64 (remainder * 1000) / divisor u in
         tmp ← snp [] (codes ".%03lld" ++ [0]) sp tmp 8 (long_long remainder);
         tmp ← wr tmp (j + 1) 0;
         Ok (size, i, tmp)
       else Ok (size, i, tmp)
     else Ok (size, 0, tmp));
  unit ← rd (units_str u) i;
  snp (tmp ++ unit ++ [0]) (codes "%lld%s %s" ++ [0]) buf mem len (long_long size ++ [sp; sp + 8]).

End size.
End Size.
