(* ===== verification/SizeTextFacts.v ===== *)
(** The text of a size: which figures it has, and how far it is from the
    number. *)
From S2P Require Import Prelude CString CStringFacts Numbers Vsprintf VsprintfFacts PrintfText SizeText.
Import Str StrFacts Num Vs VsFacts PrintfText Size.

Module SizeFacts.

(** ** The figures *)

Lemma divisor_cases u : divisor u = 1000 \/ divisor u = 1024.
Proof. by destruct u; [left|right]. Qed.

Lemma units_length u : length (units_str u) = 9%nat.
Proof. by destruct u. Qed.

(** The divisions stop when the number is below the divisor. *)
Lemma scale_spec u : forall k fuel size i remainder, let d := divisor u in
  1 <= size < d ^ (Z.of_nat k + 1) -> 0 <= i -> i + Z.of_nat k < 9 -> (k <= fuel)%nat ->
  exists n, 0 <= n <= Z.of_nat k /\ d ^ n <= size < d ^ (n + 1) /\
    scale fuel u size i remainder =
      Ok (size / d ^ n, i + n, if n =? 0 then remainder else size / d ^ (n - 1) mod d).
Proof.
  induction k as [|k IH]; intros fuel size i remainder d Hs Hi Hk Hf; pose proof (divisor_cases u) as Hd; fold d in Hd.
  - exists 0. change (d ^ (Z.of_nat 0 + 1)) with (d ^ 1) in Hs. rewrite Z.pow_1_r in Hs.
    split; [lia|]. rewrite Z.pow_0_r, Z.pow_1_r, Z.div_1_r, Z.add_0_r. split; [lia|].
    destruct fuel; cbn [scale]; fold d; destruct (Z.leb_spec d size); lia || done.
  - destruct fuel as [|fuel]; [lia|]. cbn [scale]. fold d. destruct (Z.leb_spec d size) as [Hge|Hlt].
    + unfold zlen. rewrite units_length. destruct (Z.ltb_spec i (Z.of_nat 9)); [|lia].
      assert (Hq : 1 <= size / d < d ^ (Z.of_nat k + 1)).
      { split; [apply Z.div_le_lower_bound; lia|]. apply Z.div_lt_upper_bound; [lia|].
        rewrite <- Z.pow_succ_r by lia. replace (Z.succ (Z.of_nat k + 1)) with (Z.of_nat (S k) + 1) by lia. lia. }
      destruct (IH fuel (size / d) (i + 1) (size mod d) Hq ltac:(lia) ltac:(lia) ltac:(lia)) as (n & Hn & Hb & E).
      fold d in E, Hb. exists (n + 1). split; [lia|]. split.
      { pose proof (Z.div_mod size d ltac:(lia)). pose proof (Z.mod_pos_bound size d ltac:(lia)).
        replace (n + 1 + 1) with (Z.succ (n + 1)) by lia. rewrite Z.pow_succ_r by lia. rewrite Z.add_1_r, Z.pow_succ_r by lia.
        rewrite Z.add_1_r, Z.pow_succ_r in Hb by lia. nia. }
      rewrite E. rewrite (proj2 (Z.eqb_neq (n + 1) 0)) by lia. do 2 f_equal; [f_equal|].
      * rewrite Z.div_div by lia. f_equal. by rewrite Z.add_1_r, Z.pow_succ_r by lia.
      * lia.
      * destruct (Z.eqb_spec n 0) as [->|Hn0]; [by rewrite Z.pow_0_r, Z.div_1_r|].
        rewrite Z.div_div by lia. do 2 f_equal. rewrite <- Z.pow_succ_r by lia. f_equal. lia.
    + exists 0. rewrite Z.pow_0_r, Z.pow_1_r, Z.div_1_r, Z.add_0_r. split; [lia|]. split; [lia|]. done.
Qed.

(** The decimals that make three figures. *)
Definition decimals (s : Z) : Z := if s <? 10 then 2 else if s <? 100 then 1 else 0.

Lemma decimals_range s : 0 <= decimals s <= 2.
Proof. unfold decimals. destruct (s <? 10); [lia|]. destruct (s <? 100); lia. Qed.

Lemma digits_loop_spec s : 1 <= s < 1024 -> digits_loop 3 0 s = Ok (decimals s).
Proof.
  intros Hs. unfold decimals. cbn [digits_loop]. rewrite (u64_small (s * 10)) by lia.
  rewrite (u64_small (s * 10 * 10)) by lia.
  destruct (Z.ltb_spec s 10), (Z.ltb_spec s 100); try lia.
  - destruct (Z.ltb_spec (s * 10) 1000), (Z.ltb_spec (s * 10 * 10) 1000); try lia.
    rewrite (u64_small (s * 10 * 10 * 10)) by lia. by destruct (Z.ltb_spec (s * 10 * 10 * 10) 1000); [lia|].
  - destruct (Z.ltb_spec (s * 10) 1000), (Z.ltb_spec (s * 10 * 10) 1000); try lia. done.
  - by destruct (Z.ltb_spec (s * 10) 1000); [lia|].
Qed.

(** ** The text *)

(** What is behind the integer part: the thousandths [r], to [j] places. *)
Definition fraction (j r : Z) : list Z := if j =? 0 then [] else 46 :: take (Z.to_nat j) (zdec 3 r).

Definition size_text (u : string_size_units) (size : Z) (i : Z) (frac : list Z) : list Z :=
  dec size ++ frac ++ 32 :: nth (Z.to_nat i) (units_str u) [].

Section printing.
Context (sp : Z).
Hypothesis Hsp : 4096 <= sp /\ sp + 8 < 2 ^ 32.

Lemma va_ll v args : 0 <= v < 2 ^ 64 -> va_num FORMAT_TYPE_LONG_LONG (long_long v ++ args) = Ok (v, args).
Proof using.
  intros Hv. unfold long_long, va_num, va_long_long. cbn [app va_word mbind result_bind].
  rewrite (u32_small (u32 v)), (u32_small (u32 (v / 2 ^ 32))) by apply u32_range.
  rewrite (u32_small (v / 2 ^ 32)) by (split; [apply Z.div_pos; lia|apply Z.div_lt_upper_bound; lia]).
  unfold u32. do 2 f_equal. pose proof (Z.div_mod v (2 ^ 32)). lia.
Qed.

(** The number [v], whose words are next. *)
Ltac num_round v text fact :=
  printf_round ltac:(fun F p c sp sp' q args stores st =>
    match goal with
    | Hva : va_num _ args = Ok (v, ?rest) |- _ =>
        rewrite (round_num _ _ _ _ _ _ _ F p c sp sp' q args rest v stores st text);
        [|reflexivity|discriminate|reflexivity|by right; right|exact Hva|fact]
    end).

Lemma frac_text (r : Z) tmp : 0 <= r < 1000 -> zlen tmp = 8 ->
  exists m, snp sp [] (codes ".%03lld" ++ [0]) sp tmp 8 (long_long r) = Ok m /\ zlen m = 8 /\
    take 4 m = 46 :: zdec 3 r.
Proof using Hsp.
  intros Hr Hm. assert (Hst : out_ok 8 (Ost 0 tmp)) by (split; cbn; lia).
  pose proof (va_ll r [] ltac:(lia)) as Hva. rewrite app_nil_r in Hva.
  assert (Hlen : length (zdec 3 r) = 3%nat) by (by apply length_zdec; [lia|change (10 ^ Z.of_nat 3) with 1000]).
  set (fmt := codes ".%03lld" ++ [0]).
  assert (Hl : exists p spec, vsn_loop sp [] (fun _ => []) (fun _ => []) id fmt (vsn_fuel fmt) 8
      (Vst 0 spec0 (long_long r) (Ost 0 tmp) []) = Ok (Vst p spec [] (put_text 8 (46 :: zdec 3 r) (Ost 0 tmp)) [])).
  { do 2 eexists. printf_begin fmt. printf_text.
    num_round r (zdec 3 r) ltac:(apply number_padded; [by right|reflexivity|reflexivity|reflexivity|lia|
      by change (10 ^ Z.of_nat 3) with 1000|by apply put_text_ok]).
    rewrite round_end by reflexivity. by rewrite <- put_text_app. }
  destruct Hl as (p & spec & Hl). unfold snp.
  rewrite (snprintf_text _ _ _ _ _ fmt 8 sp tmp 8 _ p spec [] _ ltac:(lia) ltac:(lia) Hm eq_refl Hl), bind_Ok.
  eexists. split; [done|]. unfold printed. cbn [Z.eqb].
  assert (Hz : zlen (46 :: zdec 3 r) = 4) by (unfold zlen; cbn [length]; by rewrite Hlen). rewrite Hz.
  change (Z.to_nat (Z.min 4 (8 - 1))) with 4%nat.
  assert (E8 : map u8 (46 :: zdec 3 r) = 46 :: zdec 3 r).
  { assert (Hch : Forall (fun c => 48 <= c < 58) (zdec 3 r)).
    { unfold zdec. apply Forall_app. split; [apply Forall_replicate; lia|apply dec_range]. }
    cbn [map]. f_equal. clear -Hch. induction Hch as [|x l Hx _ IH]; [done|]. cbn [map]. by rewrite IH, u8_small by lia. }
  rewrite E8. rewrite (take_ge (46 :: zdec 3 r)) by (cbn [length]; lia). split.
  - unfold zlen in *. rewrite length_app, !length_cons, length_drop, Hlen. lia.
  - by rewrite take_app_length' by (cbn [length]; lia).
Qed.

Ltac str_round text fact :=
  printf_round ltac:(fun F p c sp sp' q args stores st =>
    match args with
    | ?w :: ?args =>
        rewrite (round_str _ _ _ _ _ _ _ F p c sp sp' q w args stores st text);
        [|reflexivity|discriminate|reflexivity|reflexivity|fact]
    end).

Lemma final_text s tmp tt unit buf mem len :
  0 <= s < 2 ^ 63 -> zlen tmp = 8 -> cstr (tmp ++ unit ++ [0]) 0 tt -> Forall (fun c => 0 < c < 256) unit ->
  Forall (fun c => 0 < c < 256) tt -> zlen unit < 2 ^ 31 -> 0 < len < 2 ^ 31 -> buf + len < 2 ^ 32 -> zlen mem = len ->
  let t := dec s ++ tt ++ 32 :: unit in zlen t < len ->
  exists m, snp sp (tmp ++ unit ++ [0]) (codes "%lld%s %s" ++ [0]) buf mem len (long_long s ++ [sp; sp + 8]) = Ok m /\
    zlen m = len /\ cstr m 0 t.
Proof using Hsp.
  intros Hs Htmp Htt Hu Hct Hul Hlen Hbuf Hm t Hfit. assert (Hst : out_ok len (Ost 0 mem)) by (split; cbn; lia).
  pose proof (va_ll s [sp; sp + 8] ltac:(lia)) as Hva. set (fmt := codes "%lld%s %s" ++ [0]).
  set (strings := tmp ++ unit ++ [0]) in *.
  assert (Hunit : cstr strings 8 unit).
  { unfold strings. apply cstr_intro.
    - intros i b Hb. rewrite Forall_forall in Hu. pose proof (Hu b ltac:(by eapply list_elem_of_lookup_2)). split; [|lia].
      rewrite rd_app_r by lia. rewrite Htmp. replace (8 + Z.of_nat i - 8) with (Z.of_nat i) by lia.
      apply rd_Ok_iff. split; [lia|]. rewrite Nat2Z.id, lookup_app_l; [done|]. by eapply lookup_lt_Some.
    - pose proof (zlen_nonneg unit). rewrite rd_app_r by lia. rewrite Htmp. replace (8 + zlen unit - 8) with (zlen unit) by lia.
      apply rd_app_at. }
  assert (Htl : zlen tt < 2 ^ 31) by (unfold t in Hfit; rewrite !zlen_app, zlen_cons in Hfit; pose proof (zlen_nonneg (dec s));
    pose proof (zlen_nonneg unit); lia).
  assert (Hl : exists p spec args, vsn_loop sp strings (fun _ => []) (fun _ => []) id fmt (vsn_fuel fmt) len
      (Vst 0 spec0 (long_long s ++ [sp; sp + 8]) (Ost 0 mem) []) = Ok (Vst p spec args (put_text len t (Ost 0 mem)) [])).
  { do 3 eexists. printf_begin fmt.
    num_round s (dec s) ltac:(by apply number_sdec).
    str_round tt ltac:(apply string_cstr; [by rewrite Z.sub_diag|done|lia|done|done|done|by apply put_text_ok]).
    printf_text.
    str_round unit ltac:(apply string_cstr; [by replace (sp + 8 - sp) with 8 by lia|done|lia|done|done|done|by repeat apply put_text_ok]).
    rewrite round_end by reflexivity. rewrite <- !put_text_app. unfold t.
    change (zslice _ _ _) with [32]. by rewrite <- ?app_assoc. }
  destruct Hl as (p & spec & args & Hl). unfold snp. rewrite (snprintf_text _ _ _ _ _ fmt len buf mem len _ p spec args t Hlen Hbuf Hm eq_refl Hl), bind_Ok.
  assert (Hch : Forall (fun c => 0 < c < 256) t).
  { unfold t. rewrite !Forall_app, Forall_cons. split; [|split; [done|split; [lia|done]]].
    eapply Forall_impl; [apply dec_range|]. intros c Hc. cbv beta in *. lia. }
  eexists. split; [done|]. split.
  - pose proof (zlen_nonneg t). unfold printed. destruct (Z.eqb_spec len 0); [lia|].
    unfold zlen in *. rewrite length_app, length_take, length_map, length_cons, length_drop. lia.
  - rewrite <- (app_nil_r (printed len mem t)). by apply printed_cstr.
Qed.

(** The unit [i] and the fraction, for a number that is divided [n] times. *)
Definition fraction_of (u : string_size_units) (size n : Z) : list Z :=
  let d := divisor u in
  if n =? 0 then [] else fraction (decimals (size / d ^ n)) (size / d ^ (n - 1) mod d * 1000 / d).

Lemma fraction_chars j r : 0 <= j -> Forall (fun c => 0 < c < 256) (fraction j r) /\ zlen (fraction j r) <= 1 + j.
Proof using.
  intros Hj. unfold fraction. destruct (Z.eqb_spec j 0); [split; [constructor|by change (zlen (@nil Z)) with 0; lia]|].
  assert (Hz : Forall (fun c => 48 <= c < 58) (zdec 3 r)).
  { unfold zdec. apply Forall_app. split; [apply Forall_replicate; lia|apply dec_range]. }
  split.
  - constructor; [lia|]. apply Forall_take. eapply Forall_impl; [exact Hz|]. intros c Hc. cbv beta in *. lia.
  - rewrite zlen_cons. unfold zlen. rewrite length_take. lia.
Qed.

Lemma unit_ok u n : 0 <= n < 9 -> exists t, rd (units_str u) n = Ok t /\ nth (Z.to_nat n) (units_str u) [] = t /\
  Forall (fun c => 0 < c < 256) t /\ zlen t <= 3.
Proof using.
  intros Hn. assert (Hc : n = 0 \/ n = 1 \/ n = 2 \/ n = 3 \/ n = 4 \/ n = 5 \/ n = 6 \/ n = 7 \/ n = 8) by lia.
  destruct u; repeat destruct Hc as [-> | Hc]; subst; eexists;
    (split; [reflexivity|split; [reflexivity|split; [apply (bool_decide_unpack _); by vm_compute|by vm_compute]]]).
Qed.

Lemma string_get_size_spec u size buf junk mem len n : let d := divisor u in
  0 <= size < 2 ^ 64 -> zlen junk = 8 -> 16 <= len < 2 ^ 31 -> buf + len < 2 ^ 32 -> zlen mem = len ->
  0 <= n -> d ^ n <= Z.max 1 size < d ^ (n + 1) ->
  exists m, string_get_size sp buf junk size u mem len = Ok m /\ zlen m = len /\
    cstr m 0 (size_text u (size / d ^ n) n (fraction_of u size n)).
Proof using Hsp.
  intros d Hs Hj Hlen Hbuf Hm Hn Hb. pose proof (divisor_cases u) as Hd. fold d in Hd.
  assert (Hn6 : n <= 6).
  { destruct (Z.leb_spec n 6); [done|]. assert (d ^ 7 <= d ^ n) by (apply Z.pow_le_mono_r; lia).
    assert (1000 ^ 7 <= d ^ 7) by (apply Z.pow_le_mono_l; lia). change (1000 ^ 7) with 1000000000000000000000 in *. lia. }
  assert (Hdn : 0 < d ^ n) by (apply Z.pow_pos_nonneg; lia).
  assert (Hq : 0 <= size / d ^ n < d).
  { split; [apply Z.div_pos; lia|]. apply Z.div_lt_upper_bound; [lia|]. rewrite Z.mul_comm, <- Z.pow_succ_r by lia.
    replace (Z.succ n) with (n + 1) by lia. lia. }
  destruct (unit_ok u n ltac:(lia)) as (unit & Hunit & Hnth & Huc & Hul).
  assert (Hdec : zlen (dec (size / d ^ n)) <= 4).
  { unfold zlen. pose proof (length_dec 4 (size / d ^ n)). change (10 ^ Z.of_nat 4) with 10000 in *. lia. }
  assert (H0 : zlen (<[0%nat := 0]> junk) = 8) by (unfold zlen in *; by rewrite length_insert).
  assert (Hw : wr junk 0 0 = Ok (<[0%nat := 0]> junk)).
  { unfold wr. rewrite Hj. done. }
  assert (Hnil : forall rest, cstr (<[0%nat := 0]> junk ++ rest) 0 []).
  { intros rest. cbn [cstr]. destruct junk as [|b junk]; [done|]. reflexivity. }
  assert (Hfinal : forall tmp, zlen tmp = 8 -> cstr (tmp ++ unit ++ [0]) 0 (fraction_of u size n) ->
    exists m, snp sp (tmp ++ unit ++ [0]) (codes "%lld%s %s" ++ [0]) buf mem len
        (long_long (size / d ^ n) ++ [sp; sp + 8]) = Ok m /\
      zlen m = len /\ cstr m 0 (size_text u (size / d ^ n) n (fraction_of u size n))).
  { intros tmp Ht Hf. unfold size_text. rewrite Hnth.
    assert (Hfr : Forall (fun c => 0 < c < 256) (fraction_of u size n) /\ zlen (fraction_of u size n) <= 3).
    { unfold fraction_of. destruct (n =? 0); [by split; [constructor|]|]. fold d.
      pose proof (decimals_range (size / d ^ n)) as Hdj.
      pose proof (fraction_chars (decimals (size / d ^ n)) (size / d ^ (n - 1) mod d * 1000 / d)) as Hfc.
      destruct Hfc as [Hfc1 Hfc2]; [lia|]. split; [exact Hfc1|lia]. }
    destruct Hfr as [Hfr1 Hfr2]. apply final_text; try assumption; [lia|lia|lia|]. rewrite !zlen_app, zlen_cons. lia. }
  unfold string_get_size. rewrite Hw, bind_Ok. fold d. destruct (Z.leb_spec d size) as [Hge|Hlt].
  - destruct (scale_spec u 6 (length (units_str u)) size 0 0) as (n' & Hn' & Hb' & E).
    { fold d. split; [lia|]. change (Z.of_nat 6 + 1) with 7. assert (1000 ^ 7 <= d ^ 7) by (apply Z.pow_le_mono_l; lia).
      change (1000 ^ 7) with 1000000000000000000000 in *. lia. }
    { lia. } { lia. } { rewrite units_length. lia. }
    fold d in Hb', E. assert (n' = n) as ->.
    { rewrite Z.max_r in Hb by lia.
      destruct (Z.lt_trichotomy n' n) as [Hlt'|[?|Hlt']]; [|done|].
      - assert (d ^ (n' + 1) <= d ^ n) by (apply Z.pow_le_mono_r; lia). lia.
      - assert (d ^ (n + 1) <= d ^ n') by (apply Z.pow_le_mono_r; lia). lia. }
    assert (Hn0 : n <> 0) by (intros ->; rewrite Z.pow_1_r, Z.max_r in Hb by lia; lia).
    rewrite E, bind_Ok. rewrite (proj2 (Z.eqb_neq n 0)), Z.add_0_l by done.
    assert (Hq1 : 1 <= size / d ^ n) by (apply Z.div_le_lower_bound; lia).
    rewrite digits_loop_spec, bind_Ok by lia. set (r := size / d ^ (n - 1) mod d).
    assert (Hr : 0 <= r < d) by (apply Z.mod_pos_bound; lia). rewrite (u64_small (r * 1000)) by lia.
    assert (Hr3 : 0 <= r * 1000 / d < 1000) by (split; [apply Z.div_pos; lia|apply Z.div_lt_upper_bound; lia]).
    set (j := decimals (size / d ^ n)). pose proof (decimals_range (size / d ^ n)) as Hj2. fold j in Hj2.
    assert (Efr : fraction_of u size n = fraction j (r * 1000 / d)).
    { unfold fraction_of. fold d. by rewrite (proj2 (Z.eqb_neq n 0)) by done. }
    destruct (Z.eqb_spec j 0) as [Ej|Ej]; cbn [negb].
    + rewrite bind_Ok, Hunit, bind_Ok. apply Hfinal; [done|]. rewrite Efr, Ej. apply Hnil.
    + destruct (frac_text (r * 1000 / d) (<[0%nat := 0]> junk) Hr3 H0) as (tmp & -> & Htmp & Htk). rewrite bind_Ok.
      assert (Hw2 : wr tmp (j + 1) 0 = Ok (<[Z.to_nat (j + 1) := 0]> tmp)).
      { unfold wr. rewrite Htmp. destruct (Z.leb_spec 0 (j + 1)), (Z.ltb_spec (j + 1) 8); try lia. done. }
      rewrite Hw2, !bind_Ok, Hunit, bind_Ok.
      assert (Et : <[Z.to_nat (j + 1) := 0]> tmp = fraction j (r * 1000 / d) ++ 0 :: drop (S (Z.to_nat (j + 1))) tmp).
      { rewrite insert_take_drop by (unfold zlen in Htmp; lia). f_equal. unfold fraction.
        rewrite (proj2 (Z.eqb_neq j 0)) by done. replace (Z.to_nat (j + 1)) with (S (Z.to_nat j)) by lia.
        replace (take (S (Z.to_nat j)) tmp) with (take (S (Z.to_nat j)) (take 4 tmp)) by (rewrite take_take; f_equal; lia).
        rewrite Htk. cbn [take]. done. }
      apply Hfinal; [unfold zlen in *; by rewrite length_insert|]. rewrite Efr, Et, <- app_assoc. cbn [app].
      apply nul_cstr. apply fraction_chars. lia.
  - assert (n = 0) as ->.
    { destruct (Z.eq_dec n 0); [done|]. assert (d ^ 1 <= d ^ n) by (apply Z.pow_le_mono_r; lia).
      rewrite Z.pow_1_r in *. lia. }
    rewrite Z.pow_0_r, Z.div_1_r in *. rewrite bind_Ok, Hunit, bind_Ok. apply Hfinal; [done|]. apply Hnil.
Qed.

End printing.

(** ** The number that the figures make *)

(** The first places of three are the places of the shorter number. *)
Lemma take_zdec j r : 0 <= j <= 3 -> 0 <= r < 1000 -> take (Z.to_nat j) (zdec 3 r) = zdec (Z.to_nat j) (r / 10 ^ (3 - j)) \/ j = 0.
Proof.
  intros Hj Hr.
  assert (Hall : forallb (fun j => forallb (fun r => bool_decide (take j (zdec 3 (Z.of_nat r)) = zdec j (Z.of_nat r / 10 ^ (3 - Z.of_nat j))))
    (seq 0 1000)) (seq 1 3) = true) by (by vm_compute).
  destruct (Z.eq_dec j 0) as [?|Hj0]; [by right|left]. rewrite forallb_forall in Hall.
  specialize (Hall (Z.to_nat j) ltac:(apply in_seq; lia)). cbv beta in Hall. rewrite forallb_forall in Hall.
  specialize (Hall (Z.to_nat r) ltac:(apply in_seq; lia)). apply bool_decide_eq_true_1 in Hall.
  by rewrite !Z2Nat.id in Hall by lia.
Qed.

(** The number in units of [10 ^ -j] of the unit. *)
Definition figures (d size n j : Z) : Z := size / d ^ (n - 1) * 10 ^ j / d.

Lemma figures_split d size n j : 0 < d -> 1 <= n -> 0 <= j <= 3 -> 0 <= size ->
  figures d size n j / 10 ^ j = size / d ^ n /\
  figures d size n j mod 10 ^ j = size / d ^ (n - 1) mod d * 1000 / d / 10 ^ (3 - j).
Proof.
  intros Hd Hn Hj Hs. unfold figures. set (a := size / d ^ (n - 1)).
  assert (Hdn : 0 < d ^ (n - 1)) by (apply Z.pow_pos_nonneg; lia). assert (Ht : 0 < 10 ^ j) by (apply Z.pow_pos_nonneg; lia).
  assert (Ht' : 0 < 10 ^ (3 - j)) by (apply Z.pow_pos_nonneg; lia).
  assert (E1000 : 1000 = 10 ^ j * 10 ^ (3 - j)) by (rewrite <- Z.pow_add_r by lia; by replace (j + (3 - j)) with 3 by lia).
  assert (Ea : size / d ^ n = a / d).
  { unfold a. rewrite Z.div_div by lia. f_equal. replace n with (Z.succ (n - 1)) at 1 by lia. rewrite Z.pow_succ_r by lia. lia. }
  assert (Ef : a mod d * 1000 / d / 10 ^ (3 - j) = a mod d * 10 ^ j / d).
  { rewrite Z.div_div by lia. rewrite E1000, Z.mul_assoc. by rewrite Z.div_mul_cancel_r by lia. }
  rewrite Ea, Ef. pose proof (Z.mod_pos_bound a d Hd) as Hr. pose proof (Z.div_mod a d ltac:(lia)) as Ediv.
  assert (Eq : a * 10 ^ j / d = a / d * 10 ^ j + a mod d * 10 ^ j / d).
  { rewrite Ediv at 1. replace ((d * (a / d) + a mod d) * 10 ^ j) with (a mod d * 10 ^ j + a / d * 10 ^ j * d) by lia.
    rewrite Z.div_add by lia. lia. }
  assert (Hf : 0 <= a mod d * 10 ^ j / d < 10 ^ j).
  { split; [apply Z.div_pos; lia|]. apply Z.div_lt_upper_bound; [lia|]. nia. }
  rewrite Eq. split.
  - rewrite Z.add_comm, Z.div_add by lia. rewrite Z.div_small by lia. lia.
  - rewrite Z.add_comm, Z.mod_add by lia. by apply Z.mod_small.
Qed.

(** The figures are those of the exact quotient, or one less in the last place
    when the unit is not a power of ten. *)
Lemma figures_near d size n j : 0 < d -> 1 <= n -> 0 <= j -> 10 ^ j <= d -> 0 <= size ->
  figures d size n j <= size * 10 ^ j / d ^ n <= figures d size n j + 1.
Proof.
  intros Hd Hn Hj Hjd Hs. unfold figures. set (D := d ^ (n - 1)). assert (HD : 0 < D) by (apply Z.pow_pos_nonneg; lia).
  assert (Edn : d ^ n = D * d) by (unfold D; replace n with (Z.succ (n - 1)) at 1 by lia; rewrite Z.pow_succ_r; lia).
  rewrite Edn, <- Z.div_div by lia. assert (Ht : 0 < 10 ^ j) by (apply Z.pow_pos_nonneg; lia).
  pose proof (Z.div_mod size D ltac:(lia)) as E. pose proof (Z.mod_pos_bound size D HD) as Hr.
  assert (Eq : size * 10 ^ j / D = size / D * 10 ^ j + size mod D * 10 ^ j / D).
  { rewrite E at 1. replace ((D * (size / D) + size mod D) * 10 ^ j) with (size mod D * 10 ^ j + size / D * 10 ^ j * D) by lia.
    rewrite Z.div_add by lia. lia. }
  assert (Hf : 0 <= size mod D * 10 ^ j / D < 10 ^ j).
  { split; [apply Z.div_pos; lia|]. apply Z.div_lt_upper_bound; [lia|]. nia. }
  rewrite Eq. split; [apply Z.div_le_mono; lia|].
  replace (size / D * 10 ^ j / d + 1) with ((size / D * 10 ^ j + 1 * d) / d) by (by rewrite Z.div_add by lia).
  apply Z.div_le_mono; lia.
Qed.

Lemma figures_exact size n j : 1 <= n -> 0 <= j <= 3 -> 0 <= size -> figures 1000 size n j = size * 10 ^ j / 1000 ^ n.
Proof.
  intros Hn Hj Hs. unfold figures. set (D := 1000 ^ (n - 1)). assert (HD : 0 < D) by (apply Z.pow_pos_nonneg; lia).
  assert (Edn : 1000 ^ n = D * 1000) by (unfold D; replace n with (Z.succ (n - 1)) at 1 by lia; rewrite Z.pow_succ_r; lia).
  assert (Ht : 0 < 10 ^ j) by (apply Z.pow_pos_nonneg; lia). assert (Ht' : 0 < 10 ^ (3 - j)) by (apply Z.pow_pos_nonneg; lia).
  assert (E1000 : 1000 = 10 ^ (3 - j) * 10 ^ j) by (rewrite <- Z.pow_add_r by lia; by replace (3 - j + j) with 3 by lia).
  assert (HDt : 0 < D * 10 ^ (3 - j)) by (by apply Z.mul_pos_pos). rewrite Edn, E1000, Z.mul_assoc.
  rewrite !Z.div_mul_cancel_r by lia. by rewrite Z.div_div by lia.
Qed.

(** The unit of a size. *)
Lemma unit_index u size : 0 <= size < 2 ^ 64 -> exists n, 0 <= n <= 6 /\ divisor u ^ n <= Z.max 1 size < divisor u ^ (n + 1).
Proof.
  intros Hs. destruct (scale_spec u 6 6 (Z.max 1 size) 0 0) as (n & Hn & Hb & _); [|lia|lia|lia|by exists n].
  split; [lia|]. change (Z.of_nat 6 + 1) with 7. assert (1000 ^ 7 <= divisor u ^ 7) by (apply Z.pow_le_mono_l; destruct (divisor_cases u); lia).
  change (1000 ^ 7) with 1000000000000000000000 in *. lia.
Qed.

(** The text of [N] with [j] decimals and the unit [n]. *)
Definition figures_text (u : string_size_units) (n j N : Z) : list Z :=
  dec (N / 10 ^ j) ++ (if j =? 0 then [] else 46 :: zdec (Z.to_nat j) (N mod 10 ^ j)) ++ 32 :: nth (Z.to_nat n) (units_str u) [].

Lemma decimals_pow s d : d = 1000 \/ d = 1024 -> 1 <= s < d -> 100 <= s * 10 ^ decimals s < d.
Proof.
  intros Hd Hs. unfold decimals. destruct (Z.ltb_spec s 10); [change (10 ^ 2) with 100; lia|].
  destruct (Z.ltb_spec s 100); [change (10 ^ 1) with 10; lia|change (10 ^ 0) with 1; lia].
Qed.

(** [string_get_size] prints any 64-bit size into a buffer of 16 bytes or
    more. The unit is the largest power of the divisor that is not above the
    size. A size below the divisor is printed as it is; another one has as many
    decimals as make three figures (four for 1000 to 1023 of a unit of 1024).
    The figures are those of the quotient cut, never rounded up, for the powers
    of 1000; for the powers of 1024 they may be one less in the last place,
    since the code divides the rest of the last division only. *)
Lemma string_get_size_correct sp u size buf junk mem len : let d := divisor u in
  4096 <= sp -> sp + 8 < 2 ^ 32 ->
  0 <= size < 2 ^ 64 -> zlen junk = 8 -> 16 <= len < 2 ^ 31 -> buf + len < 2 ^ 32 -> zlen mem = len ->
  exists n j N m, string_get_size sp buf junk size u mem len = Ok m /\ zlen m = len /\
    cstr m 0 (figures_text u n j N) /\
    d ^ n <= Z.max 1 size < d ^ (n + 1) /\
    (n = 0 -> j = 0 /\ N = size) /\
    (0 < n -> 0 <= j <= 2 /\ 100 <= N < d /\
      (u = STRING_UNITS_10 -> N = size * 10 ^ j / d ^ n) /\
      N <= size * 10 ^ j / d ^ n <= N + 1).
Proof.
  intros d Hsp1 Hsp2 Hs Hj Hlen Hbuf Hm. destruct (unit_index u size Hs) as (n & Hn & Hb). fold d in Hb.
  pose proof (divisor_cases u) as Hd. fold d in Hd.
  destruct (string_get_size_spec sp (conj Hsp1 Hsp2) u size buf junk mem len n Hs Hj Hlen Hbuf Hm ltac:(lia) Hb) as (m & E & Hml & Hc).
  fold d in Hc. destruct (Z.eq_dec n 0) as [->|Hn0].
  - exists 0, 0, size, m. split; [done|]. split; [done|]. split; [|split; [done|split; [done|lia]]].
    unfold size_text, fraction_of in Hc. unfold figures_text. rewrite Z.pow_0_r in *. exact Hc.
  - set (j := decimals (size / d ^ n)) in *. exists n, j, (figures d size n j), m.
    pose proof (decimals_range (size / d ^ n)) as Hdj. fold j in Hdj.
    destruct (figures_split d size n j) as [Eq Er]; [lia..|].
    split; [done|]. split; [done|]. split; [|split; [done|split; [lia|intros _; split; [done|]]]].
    + unfold figures_text. rewrite Eq, Er. unfold size_text, fraction_of in Hc. fold d in Hc. rewrite (proj2 (Z.eqb_neq n 0)) in Hc by done.
      fold j in Hc. unfold fraction in Hc. destruct (Z.eqb_spec j 0) as [Ej|Ej]; [exact Hc|].
      set (r := size / d ^ (n - 1) mod d) in *. assert (Hr : 0 <= r < d) by (apply Z.mod_pos_bound; lia).
      destruct (take_zdec j (r * 1000 / d)) as [Et|?]; [lia| |by rewrite <- Et|done].
      split; [apply Z.div_pos; lia|apply Z.div_lt_upper_bound; lia].
    + assert (Hdn : d ^ 1 <= d ^ n) by (apply Z.pow_le_mono_r; lia). rewrite Z.pow_1_r in Hdn.
      rewrite Z.max_r in Hb by lia.
      assert (Hq : 1 <= size / d ^ n < d).
      { split; [apply Z.div_le_lower_bound; lia|]. apply Z.div_lt_upper_bound; [lia|]. rewrite Z.mul_comm, <- Z.pow_succ_r by lia.
        replace (Z.succ n) with (n + 1) by lia. lia. }
      pose proof (decimals_pow (size / d ^ n) d Hd Hq) as Hp. fold j in Hp.
      assert (Ht : 10 ^ j <= d) by nia.
      pose proof (figures_near d size n j ltac:(lia) ltac:(lia) ltac:(lia) Ht ltac:(lia)) as Hnear.
      split; [|split; [|done]].
      * pose proof (Z.div_mod (figures d size n j) (10 ^ j) ltac:(lia)) as Ed. rewrite Eq in Ed.
        pose proof (Z.mod_pos_bound (figures d size n j) (10 ^ j) ltac:(lia)) as Hmod. split; [lia|].
        assert (Ej : j = 2 /\ size / d ^ n < 10 \/ j = 1 /\ size / d ^ n < 100 \/ j = 0).
        { unfold j, decimals. destruct (Z.ltb_spec (size / d ^ n) 10); [lia|]. destruct (Z.ltb_spec (size / d ^ n) 100); lia. }
        destruct Ej as [[Ej ?]|[[Ej ?]|Ej]]; rewrite Ej in *;
          [change (10 ^ 2) with 100 in *|change (10 ^ 1) with 10 in *|change (10 ^ 0) with 1 in *]; lia.
      * intros Hu. assert (d = 1000) as Hd' by (unfold d; by rewrite Hu). rewrite Hd'. apply figures_exact; lia.
Qed.

(** 1059062 bytes are 1.01 MiB and a few bytes; the text says 1.00. *)
Example size_digit_lost :
  1059062 * 10 ^ 2 / 1024 ^ 2 = 101 /\
  string_get_size 4096 8192 (replicate 8 7) 1059062 STRING_UNITS_2 (replicate 16 7) 16
    = Ok (codes "1.00 MiB" ++ 0 :: replicate 7 7).
Proof. split; by vm_compute. Qed.

End SizeFacts.
