(* ===== verification/BinPrintf.v ===== *)
(** The binary printf of [src/src/lib/vsprintf.c]: [vbin_printf] puts the
    arguments of a format into a buffer of words, [bstr_printf] prints them from
    there.

    The words are bytes from offset 0 on, at the aligned address [bin_buf];
    offsets into them are aligned as the addresses are. *)
From S2P Require Import Prelude Ctype CString Numbers Vsprintf.

Module Bp.
Import Ctype Str Num Vs.

(** [PTR_ALIGN], on offsets from an aligned address. *)
Definition PTR_ALIGN (p n : Z) : Z := Z.land (p + (n - 1)) (Z.lnot (n - 1)).

(** The size of what is saved of an integer field's argument. *)
Definition arg_size (t : format_type) : Z :=
  match t with
  | FORMAT_TYPE_UBYTE | FORMAT_TYPE_BYTE => 1
  | FORMAT_TYPE_USHORT | FORMAT_TYPE_SHORT => 2
  | _ => 4
  end.

Section bprintf.
Context (mbase : Z) (mbytes : list Z).
Context (sprint_symbol kallsyms_lookup : Z -> list Z) (dereference_function_descriptor : Z -> Z).
Context (fmt : list Z).

(** ** Saving *)

(** [bend] is the offset of [end]; [str] and the words are an output state. *)
Section save.
Context (bend : Z).

(** [save_arg(type)] for a type of [n] bytes, 4 at most. *)
Definition save_arg (n value : Z) (b : ost) : result ost :=
  let str := PTR_ALIGN (o_pos b) n in
  m ← (if str + n <=? bend then mem_write (o_mem b) str (le (Z.to_nat n) value) else Ok (o_mem b));
  Ok (Ost (str + n) m).

(** [save_arg(long long)] *)
Definition save_long_long (value : Z) (b : ost) : result ost :=
  let str := PTR_ALIGN (o_pos b) 4 in
  m ← (if str + 8 <=? bend then
         m ← mem_write (o_mem b) str (le32 value);
         mem_write m (str + 4) (le32 (value / 2 ^ 32))
       else Ok (o_mem b));
  Ok (Ost (str + 8) m).

Definition save_num (t : format_type) (args : list Z) (b : ost) : result (list Z * ost) :=
  match t with
  | FORMAT_TYPE_LONG_LONG =>
      '(v, args) ← va_long_long args; b ← save_long_long v b; Ok (args, b)
  | _ => '(w, args) ← va_word args; b ← save_arg (arg_size t) w b; Ok (args, b)
  end.

(** The string an argument stands for: the memory and the offset in it. *)
Definition save_str (s : Z) : list Z * Z :=
  if (2 ^ 32 - PAGE_SIZE <? s) || (s <? PAGE_SIZE) then (null_text, 0) else (mbytes, s - mbase).

Definition save_string (s : Z) (b : ost) : result ost :=
  let '(arr, p) := save_str s in
  n ← strlen arr p;
  let len := n + 1 in
  m ← (if o_pos b + len <? bend then
         src ← mem_read arr p len;
         mem_write (o_mem b) (o_pos b) src
       else Ok (o_mem b));
  Ok (Ost (o_pos b + len) m).

Record bst := Bst { b_fmt : Z; b_spec : printf_spec; b_args : list Z; b_out : ost }.

(** One round of [while ( *fmt )]. *)
Definition vbin_step (v : bst) : result bst :=
  '(p, spec) ← format_decode fmt (b_fmt v) (b_spec v);
  let b := b_out v in
  match s_type spec with
  | FORMAT_TYPE_NONE | FORMAT_TYPE_INVALID | FORMAT_TYPE_PERCENT_CHAR => Ok (Bst p spec (b_args v) b)
  | FORMAT_TYPE_WIDTH | FORMAT_TYPE_PRECISION =>
      '(w, args) ← va_word (b_args v); b ← save_arg 4 w b; Ok (Bst p spec args b)
  | FORMAT_TYPE_CHAR =>
      '(w, args) ← va_word (b_args v); b ← save_arg 1 w b; Ok (Bst p spec args b)
  | FORMAT_TYPE_STR =>
      '(w, args) ← va_word (b_args v); b ← save_string w b; Ok (Bst p spec args b)
  | FORMAT_TYPE_PTR =>
      '(w, args) ← va_word (b_args v); b ← save_arg 4 w b;
      p ← skip_alnum fmt (rounds fmt) p;
      Ok (Bst p spec args b)
  | FORMAT_TYPE_NRCHARS =>
      '(_, args) ← va_word (b_args v); Ok (Bst p spec args b)
  | t => '(args, b) ← save_num t (b_args v) b; Ok (Bst p spec args b)
  end.

Fixpoint vbin_loop (fuel : nat) (v : bst) : result bst :=
  match fuel with
  | O => NoFuel
  | S fuel =>
      c ← rd fmt (b_fmt v);
      if c =? 0 then Ok v else v ← vbin_step v; vbin_loop fuel v
  end.

End save.

(** The number of words and the words; [size] counts words. *)
Definition vbin_printf (bin : list Z) (size : Z) (args : list Z) : result (Z * list Z) :=
  v ← vbin_loop (4 * size) (vsn_fuel fmt) (Bst 0 spec0 args (Ost 0 bin));
  Ok (s32 (PTR_ALIGN (o_pos (b_out v)) 4 / 4), o_mem (b_out v)).

Definition bprintf := vbin_printf.

(** ** Printing *)

Section print.
Context (bin_buf : Z) (bin : list Z).

(** [get_arg(type)] for a type of [n] bytes, 4 at most, without a sign: the
    value and the new [args]. *)
Definition get_arg (n args : Z) : result (Z * Z) :=
  let args := PTR_ALIGN args n in
  bs ← mem_read bin args n;
  Ok (of_le bs, args + n).

(** [get_arg(long long)] *)
Definition get_long_long (args : Z) : result (Z * Z) :=
  let args := PTR_ALIGN args 4 in
  lo ← mem_read bin args 4;
  hi ← mem_read bin (args + 4) 4;
  Ok (of_le lo + of_le hi * 2 ^ 32, args + 8).

Definition get_num (t : format_type) (args : Z) : result (Z * Z) :=
  match t with
  | FORMAT_TYPE_LONG_LONG => get_long_long args
  | _ =>
      '(v, args) ← get_arg (arg_size t) args;
      Ok (match t with
          | FORMAT_TYPE_ULONG | FORMAT_TYPE_LONG => v
          | FORMAT_TYPE_SIZE_T => v
          | FORMAT_TYPE_PTRDIFF => u64 (s32 v)
          | FORMAT_TYPE_UBYTE => v
          | FORMAT_TYPE_BYTE => u64 (s8 v)
          | FORMAT_TYPE_USHORT => v
          | FORMAT_TYPE_SHORT => u64 (s16 v)
          | FORMAT_TYPE_UINT => v
          | _ => u64 (s32 v)
          end, args)
  end.

Record tst := Tst { t_fmt : Z; t_spec : printf_spec; t_args : Z; t_out : ost }.

Definition bstr_step (oend : Z) (v : tst) : result tst :=
  let old_fmt := t_fmt v in
  '(p, spec) ← format_decode fmt old_fmt (t_spec v);
  let st := t_out v in
  match s_type spec with
  | FORMAT_TYPE_NONE =>
      let read := p - old_fmt in
      m ← (if o_pos st <? oend then
             let copy := if oend - o_pos st <? read then oend - o_pos st else read in
             src ← mem_read fmt old_fmt copy;
             mem_write (o_mem st) (o_pos st) src
           else Ok (o_mem st));
      Ok (Tst p spec (t_args v) (Ost (o_pos st + read) m))
  | FORMAT_TYPE_WIDTH =>
      '(w, args) ← get_arg 4 (t_args v);
      Ok (Tst p (set_width spec (s32 w)) args st)
  | FORMAT_TYPE_PRECISION =>
      '(w, args) ← get_arg 4 (t_args v);
      Ok (Tst p (set_prec spec (s32 w)) args st)
  | FORMAT_TYPE_CHAR =>
      '(c, args) ← get_arg 1 (t_args v);
      st ← char_field oend spec c st;
      Ok (Tst p spec args st)
  | FORMAT_TYPE_STR =>
      n ← strlen bin (t_args v);
      st ← string bin_buf bin oend (bin_buf + t_args v) spec st;
      Ok (Tst p spec (t_args v + (n + 1)) st)
  | FORMAT_TYPE_PTR =>
      '(w, args) ← get_arg 4 (t_args v);
      st ← pointer mbase mbytes sprint_symbol kallsyms_lookup dereference_function_descriptor
             oend (fun i => rd fmt (p + 1 + i)) w spec st;
      p ← skip_alnum fmt (rounds fmt) p;
      Ok (Tst p spec args st)
  | FORMAT_TYPE_PERCENT_CHAR | FORMAT_TYPE_INVALID =>
      st ← emit oend 37 st;
      Ok (Tst p spec (t_args v) st)
  | FORMAT_TYPE_NRCHARS => Ok (Tst p spec (t_args v) st)
  | t =>
      '(num, args) ← get_num t (t_args v);
      st ← number oend num spec st;
      Ok (Tst p spec args st)
  end.

Fixpoint bstr_loop (fuel : nat) (oend : Z) (v : tst) : result tst :=
  match fuel with
  | O => NoFuel
  | S fuel =>
      c ← rd fmt (t_fmt v);
      if c =? 0 then Ok v else v ← bstr_step oend v; bstr_loop fuel oend v
  end.

Definition bstr_printf (buf : Z) (mem : list Z) (size : Z) : result (Z * list Z) :=
  if s32 size <? 0 then Ok (0, mem)
  else
    let size := if 2 ^ 32 <=? buf + size then 2 ^ 32 - 1 - buf else size in
    v ← bstr_loop (vsn_fuel fmt) size (Tst 0 spec0 0 (Ost 0 mem));
    let st := t_out v in
    m ← (if 0 <? size then
           if o_pos st <? size then wr (o_mem st) (o_pos st) 0 else wr (o_mem st) (size - 1) 0
         else Ok (o_mem st));
    Ok (s32 (o_pos st), m).

End print.
End bprintf.
End Bp.
