(* ===== verification/BinPrintfFacts.v ===== *)
(** The binary printf prints what [vsnprintf] prints: what [vbin_printf] saved
    is what [bstr_printf] finds. *)
From S2P Require Import Prelude Ctype CString CStringFacts Numbers Vsprintf VsprintfFacts BinPrintf.
Import Ctype Str StrFacts Num Vs VsFacts Bp.

Module BpFacts.

(** ** The words *)

Lemma ptr_align_spec p n : n = 1 \/ n = 2 \/ n = 4 -> PTR_ALIGN p n = (p + (n - 1)) / n * n.
Proof.
  intros Hn. assert (Hk : exists k, 0 <= k /\ n = 2 ^ k).
  { destruct Hn as [-> | [-> | ->]]; [exists 0|exists 1|exists 2]; done. }
  destruct Hk as (k & Hk & ->). unfold PTR_ALIGN. rewrite <- Z.ldiff_land.
  replace (2 ^ k - 1) with (Z.ones k) by (rewrite Z.ones_equiv; lia).
  by rewrite Z.ldiff_ones_r, Z.shiftl_mul_pow2, Z.shiftr_div_pow2 by lia.
Qed.

Lemma ptr_align_range p n : n = 1 \/ n = 2 \/ n = 4 -> p <= PTR_ALIGN p n < p + n.
Proof. intros Hn. rewrite ptr_align_spec by done. destruct Hn as [-> | [-> | ->]]; Z.div_mod_to_equations; lia. Qed.

(** The words of [b] up to its end are those of [bin]. *)
Definition agree (b : ost) (bin : list Z) : Prop :=
  zlen bin = zlen (o_mem b) /\ forall j : nat, Z.of_nat j < o_pos b -> bin !! j = o_mem b !! j.

(** [b'] comes after [b]. *)
Definition keeps (bend : Z) (b b' : ost) : Prop := out_ok bend b' /\ o_pos b <= o_pos b' /\ agree b (o_mem b').

Lemma keeps_refl bend b : out_ok bend b -> keeps bend b b.
Proof. intros Hb. split; [done|]. by split. Qed.

Lemma keeps_agree bend b b' bin : keeps bend b b' -> agree b' bin -> agree b bin.
Proof.
  intros (_ & Hp & Hl & Hb) [Hl' Hb']. split; [congruence|]. intros j Hj. rewrite Hb' by lia. by apply Hb.
Qed.

Lemma saved_trans bend b b' b'' : keeps bend b b' -> keeps bend b' b'' -> keeps bend b b''.
Proof.
  intros H1 (Hok & Hp & H2). split; [done|]. split; [destruct H1 as (_ & ? & _); lia|]. by eapply keeps_agree.
Qed.

(** What is written behind the end. *)
Lemma keeps_poke bend b str bs p : out_ok bend b -> o_pos b <= str -> p = str + zlen bs -> p <= bend ->
  keeps bend b (Ost p (poke (o_mem b) str bs)).
Proof.
  intros [Hp Hm] Hs -> Hb. pose proof (zlen_nonneg bs). split; [|split; [cbn; lia|split]]; cbn [o_pos o_mem].
  - split; cbn [o_pos o_mem]; [lia|]. rewrite zlen_poke; lia.
  - rewrite zlen_poke; lia.
  - intros j Hj. apply lookup_poke; lia.
Qed.

Lemma keeps_skip bend b p : out_ok bend b -> o_pos b <= p -> keeps bend b (Ost p (o_mem b)).
Proof. intros [Hp Hm] Hs. split; [|split; [done|by split]]. split; cbn; [lia|done]. Qed.

Lemma agree_read b bin str bs p n bend : agree (Ost p (poke (o_mem b) str bs)) bin ->
  out_ok bend b -> 0 <= str -> n = zlen bs -> p = str + n -> p <= bend -> mem_read bin str n = Ok bs.
Proof.
  intros [Hl Ha] [Hp Hm] Hs -> -> Hb. cbn [o_pos o_mem] in *. pose proof (zlen_nonneg bs). rewrite zlen_poke in Hl by lia.
  rewrite mem_read_ok by lia. f_equal. rewrite <- (zslice_poke (o_mem b) str bs) at 2 by lia.
  apply zslice_ext; [lia|lia|]. intros j Hj. apply Ha. lia.
Qed.

Section arguments.
Context (bend : Z).

(** A value that was saved is found. *)
Lemma save_arg_back n v b : n = 1 \/ n = 2 \/ n = 4 -> out_ok bend b ->
  exists b', save_arg bend n v b = Ok b' /\ keeps bend b b' /\ o_pos b < o_pos b' /\
    (o_pos b' <= bend -> forall bin, agree b' bin -> get_arg bin n (o_pos b) = Ok (v mod 2 ^ (8 * n), o_pos b')).
Proof.
  intros Hn Hb. pose proof Hb as [Hp Hm]. unfold save_arg, get_arg. pose proof (ptr_align_range (o_pos b) n Hn).
  set (str := PTR_ALIGN (o_pos b) n) in *. assert (Hl : zlen (le (Z.to_nat n) v) = n) by (rewrite zlen_le; lia).
  destruct (Z.leb_spec (str + n) bend) as [Hf|Hf].
  - rewrite mem_write_poke, bind_Ok by lia. eexists. split; [done|].
    split; [apply keeps_poke; lia || done|]. cbn [o_pos]. split; [lia|]. intros _ bin Ha.
    rewrite (agree_read b bin str (le (Z.to_nat n) v) (str + n) n bend), bind_Ok by (done || lia).
    by rewrite of_le_le, Z2Nat.id by lia.
  - rewrite bind_Ok. eexists. split; [done|]. split; [apply keeps_skip; [done|lia]|]. cbn [o_pos]. split; lia.
Qed.

Lemma save_long_long_back v b : 0 <= v < 2 ^ 64 -> out_ok bend b ->
  exists b', save_long_long bend v b = Ok b' /\ keeps bend b b' /\ o_pos b < o_pos b' /\
    (o_pos b' <= bend -> forall bin, agree b' bin -> get_long_long bin (o_pos b) = Ok (v, o_pos b')).
Proof.
  intros Hv Hb. pose proof Hb as [Hp Hm]. unfold save_long_long, get_long_long.
  pose proof (ptr_align_range (o_pos b) 4 ltac:(lia)). set (str := PTR_ALIGN (o_pos b) 4) in *.
  assert (Hl : forall z, zlen (le32 z) = 4) by (intros z; apply zlen_le).
  destruct (Z.leb_spec (str + 8) bend) as [Hf|Hf].
  - rewrite mem_write_poke, bind_Ok by (rewrite ?Hl; lia). set (b1 := Ost (str + 4) (poke (o_mem b) str (le32 v))).
    assert (Hk : keeps bend b b1) by (apply keeps_poke; rewrite ?Hl; done || lia).
    pose proof Hk as [Hb1 _]. pose proof Hb1 as [_ Hm1]. cbn [o_mem b1] in Hm1.
    rewrite mem_write_poke, bind_Ok by (rewrite ?Hl; lia). eexists. split; [done|].
    fold (o_mem b1). set (b2 := Ost (str + 8) (poke (o_mem b1) (str + 4) (le32 (v / 2 ^ 32)))).
    assert (Hk2 : keeps bend b1 b2) by (apply keeps_poke; rewrite ?Hl; unfold b1; cbn [o_pos]; done || lia).
    split; [by eapply saved_trans|]. split; [unfold b2; cbn [o_pos]; lia|].
    intros _ bin Ha. pose proof (keeps_agree _ _ _ _ Hk2 Ha) as Ha1.
    rewrite (agree_read b bin str (le32 v) (str + 4) 4 bend), bind_Ok by (rewrite ?Hl; done || lia).
    rewrite (agree_read b1 bin (str + 4) (le32 (v / 2 ^ 32)) (str + 8) 4 bend), bind_Ok by (rewrite ?Hl; done || lia).
    unfold le32. rewrite !of_le_le. unfold b2. cbn [o_pos]. do 2 f_equal.
    change (8 * Z.of_nat 4) with 32. Z.div_mod_to_equations. lia.
  - rewrite bind_Ok. eexists. split; [done|]. split; [apply keeps_skip; [done|lia]|]. cbn [o_pos]. split; lia.
Qed.

End arguments.

(** ** Strings *)

Lemma strnlen_min m p t n : cstr m p t -> 0 <= n -> strnlen m p n = Ok (Z.min n (zlen t)).
Proof.
  intros Ht Hn. unfold strnlen.
  assert (H : forall t k p, cstr m p t -> strnlen_loop k m p = Ok (p + Z.min (Z.of_nat k) (zlen t))).
  { clear. induction t as [|b t IH]; intros k p Hp; cbn [cstr] in Hp.
    - change (zlen (@nil Z)) with 0. rewrite Z.min_r, Z.add_0_r by lia.
      destruct k; cbn [strnlen_loop]; [done|]. by rewrite Hp, bind_Ok.
    - destruct Hp as (Hr & Hb & Hp). rewrite zlen_cons. pose proof (zlen_nonneg t).
      destruct k as [|k]; cbn [strnlen_loop]; [f_equal; lia|]. rewrite Hr, bind_Ok. destruct (Z.eqb_spec b 0); [done|].
      rewrite (IH k) by done. f_equal. lia. }
  pose proof (cstr_range _ _ _ Ht). rewrite (H t) by done. rewrite bind_Ok. f_equal. lia.
Qed.

(** [string] prints what it points to, wherever it is. *)
Lemma string_at_cstr oend m p m' p' t spec st :
  cstr m p t -> cstr m' p' t -> string_at oend m p spec st = string_at oend m' p' spec st.
Proof.
  intros Ht Ht'. unfold string_at. pose proof (u32_range (s_prec spec)) as Hn.
  rewrite !(strnlen_min _ _ t) by (done || lia). rewrite !bind_Ok. set (n := Z.min _ _).
  assert (Hc : forall k p p' st, (k <= length t)%nat ->
    (forall i b, t !! i = Some b -> rd m (p + Z.of_nat i) = Ok b /\ rd m' (p' + Z.of_nat i) = Ok b) ->
    copy_str oend k m p st = copy_str oend k m' p' st).
  { clear. intros k. revert t. induction k as [|k IH]; intros t p p' st Hk Hb; [done|]. destruct t as [|b t]; [cbn in Hk; lia|].
    cbn [copy_str]. pose proof (Hb 0%nat b eq_refl) as [H1 H2]. rewrite Z.add_0_r in H1, H2. rewrite H1, H2, !bind_Ok.
    destruct (emit oend b st) as [st'| | |]; [|done..]. rewrite !bind_Ok. apply (IH t); [cbn in Hk; lia|].
    intros i c Hi. destruct (Hb (S i) c Hi) as [H3 H4]. split; [rewrite <- H3|rewrite <- H4]; f_equal; lia. }
  assert (Hb : forall i b, t !! i = Some b -> rd m (p + Z.of_nat i) = Ok b /\ rd m' (p' + Z.of_nat i) = Ok b).
  { intros i b Hi. split; by eapply cstr_rd. }
  assert (Hs : s32 n <= zlen t).
  { unfold s32, swrap, n. pose proof (zlen_nonneg t). Z.div_mod_to_equations. lia. }
  destruct (if negb _ then _ else _) as [[w st']| | |]; [|done..]. rewrite !bind_Ok.
  by rewrite (Hc (Z.to_nat (s32 n)) p p') by (done || (unfold zlen in Hs; lia)).
Qed.

(** A copy of a string, as far as its NUL. *)
Lemma cstr_copy arr p t bin q : cstr arr p t -> 0 <= q -> mem_read bin q (zlen t + 1) = Ok (t ++ [0]) -> cstr bin q t.
Proof.
  intros Ht Hq Hr. unfold mem_read in Hr. destruct (_ && _); [|done]. injection Hr as Hr.
  assert (Hl : forall (i : nat) b, (t ++ [0]) !! i = Some b -> rd bin (q + Z.of_nat i) = Ok b).
  { intros i b Hi. rewrite <- Hr in Hi. unfold zslice in Hi. apply lookup_take_Some in Hi as [Hi _].
    rewrite lookup_drop in Hi. apply rd_Ok_iff. split; [lia|]. rewrite <- Hi. f_equal. lia. }
  apply cstr_intro.
  - intros i b Hi. split; [apply Hl; rewrite lookup_app_l; [done|by eapply lookup_lt_Some]|].
    by destruct (cstr_rd _ _ _ _ _ Ht Hi).
  - unfold zlen. apply Hl. by rewrite lookup_app_r, Nat.sub_diag by lia.
Qed.

Lemma save_string_back mbase mbytes bend s t b : out_ok bend b ->
  cstr (save_str mbase mbytes s).1 (save_str mbase mbytes s).2 t ->
  exists b', save_string mbase mbytes bend s b = Ok b' /\ keeps bend b b' /\ o_pos b' = o_pos b + (zlen t + 1) /\
    (o_pos b' < bend -> forall bin, agree b' bin -> cstr bin (o_pos b) t).
Proof.
  intros Hb Ht. pose proof Hb as [Hp Hm]. unfold save_string. destruct (save_str mbase mbytes s) as [arr p]. cbn [fst snd] in Ht.
  rewrite (strlen_spec _ _ _ Ht), bind_Ok. pose proof (cstr_range _ _ _ Ht). pose proof (zlen_nonneg t).
  destruct (Z.ltb_spec (o_pos b + (zlen t + 1)) bend) as [Hf|Hf].
  - rewrite mem_read_ok, bind_Ok, (cstr_slice _ _ _ Ht) by lia.
    assert (Hl : zlen (t ++ [0]) = zlen t + 1) by (by zlen_simp).
    rewrite mem_write_poke, bind_Ok by lia. eexists. split; [done|]. cbn [o_pos].
    split; [apply keeps_poke; done || lia|]. split; [done|]. intros _ bin Ha.
    apply (cstr_copy arr p); [done|lia|]. rewrite <- Hl at 1.
    by rewrite (agree_read b bin (o_pos b) (t ++ [0]) (o_pos b + (zlen t + 1)) (zlen (t ++ [0])) bend) by (done || lia).
  - rewrite bind_Ok. eexists. split; [done|]. cbn [o_pos]. split; [apply keeps_skip; [done|lia]|]. split; [done|]. lia.
Qed.

(** ** Two readers of one format *)

(** The specs agree on what decides how the format is read. *)
Definition alike (sp sp' : printf_spec) : Prop :=
  s_type sp = s_type sp' /\ s_qualifier sp = s_qualifier sp' /\ has (s_flags sp) SIGN = has (s_flags sp') SIGN.

Lemma alike_refl sp : alike sp sp.
Proof. done. Qed.

Definition alike_result (m m' : result (Z * printf_spec)) : Prop :=
  match m, m' with
  | Ok (p, sp), Ok (p', sp') => p = p' /\ alike sp sp'
  | Ok _, _ | _, Ok _ => False
  | _, _ => True
  end.

Lemma alike_bind m m' (f f' : Z * printf_spec -> result (Z * printf_spec)) : alike_result m m' ->
  (forall p sp sp', alike sp sp' -> alike_result (f (p, sp)) (f' (p, sp'))) -> alike_result (m ≫= f) (m' ≫= f').
Proof. intros Hm Hf. destruct m as [[p sp]| | |], m' as [[p' sp']| | |]; try done. destruct Hm as [<- Ha]. by apply Hf. Qed.

Lemma alike_pure {A} (m : result A) (f f' : A -> result (Z * printf_spec)) :
  (forall a, alike_result (f a) (f' a)) -> alike_result (m ≫= f) (m ≫= f').
Proof. intros Hf. destruct m; try done. apply Hf. Qed.

Lemma has_flag flags f : has (u8 (Z.lor flags f)) SIGN = has flags SIGN || has f SIGN.
Proof.
  unfold has, SIGN, u8. rewrite !(land_bit _ 1 ltac:(lia) : Z.land _ 2 = _).
  assert (Hb : forall x, x / 2 ^ 1 mod 2 = Z.b2z (Z.testbit x 1)).
  { intros x. rewrite Z.testbit_spec' by lia. done. }
  rewrite !Hb, Z.mod_pow2_bits_low, Z.lor_spec by lia. by destruct (Z.testbit flags 1), (Z.testbit f 1).
Qed.

Lemma alike_flag sp sp' f : alike sp sp' -> alike (add_flag sp f) (add_flag sp' f).
Proof. intros (Ht & Hq & Hs). split; [done|]. split; [done|]. cbn [add_flag set_flags s_flags]. by rewrite !has_flag, Hs. Qed.

(** [LEFT] and the numbers do not matter. *)
Lemma alike_left sp sp' (c c' : bool) w w' : alike sp sp' ->
  alike (if c then add_flag (set_width sp w) LEFT else sp) (if c' then add_flag (set_width sp' w') LEFT else sp').
Proof.
  intros (Ht & Hq & Hs). split; [by destruct c, c'|]. split; [by destruct c, c'|].
  assert (Hl : forall sp w, has (s_flags (add_flag (set_width sp w) LEFT)) SIGN = has (s_flags sp) SIGN).
  { intros x w0. cbn [add_flag set_flags set_width s_flags]. rewrite has_flag. by rewrite orb_false_r. }
  destruct c, c'; by rewrite ?Hl.
Qed.

Lemma alike_int sp sp' : alike sp sp' -> int_type sp = int_type sp'.
Proof. intros (_ & Hq & Hs). unfold int_type. by rewrite Hq, Hs. Qed.

Section decode.
Context (fmt : list Z).

Lemma qualifier_alike p sp sp' : alike sp sp' -> alike_result (decode_qualifier fmt p sp) (decode_qualifier fmt p sp').
Proof.
  intros Ha. unfold decode_qualifier.
  assert (Hq : forall x y q, alike x y -> alike (set_qualifier x q) (set_qualifier y q)).
  { intros x y q (H1 & _ & H3). by split. }
  assert (Hb : forall x y q, alike x y -> alike (set_base x q) (set_base y q)).
  { intros x y q (H1 & H2 & H3). by split. }
  assert (Hty : forall x y t, alike x y -> alike (set_type x t) (set_type y t)).
  { intros x y t (H1 & H2 & H3). by split. }
  assert (Hi : forall x y, alike x y -> alike (set_type x (int_type x)) (set_type y (int_type y))).
  { intros x y Hxy. rewrite (alike_int x y Hxy). by apply Hty. }
  apply alike_pure. intros c. apply alike_bind.
  - destruct (_ || _); [|split; [done|by apply Hq]]. apply alike_pure. intros c'.
    destruct (c =? c'); [|by split; [done|apply Hq, Hq]]. destruct (c =? 108); [by split; [done|apply Hq, Hq, Hq]|].
    destruct (c =? 104); by split; [done|repeat apply Hq].
  - intros q x y Hxy. apply alike_pure. intros d.
    repeat (case_match; [split; [done|]; auto using alike_flag|]). split; [done|]. auto.
Qed.

Lemma precision_alike p sp sp' : alike sp sp' -> alike_result (decode_precision fmt p sp) (decode_precision fmt p sp').
Proof.
  intros Ha. unfold decode_precision. apply alike_pure. intros c.
  destruct (c =? 46); [|by apply qualifier_alike]. apply alike_pure. intros d. destruct (isdigit d).
  - apply alike_pure. intros [v q]. apply qualifier_alike. by destruct (_ <? 0).
  - destruct (d =? 42); [|by apply qualifier_alike]. destruct Ha as (H1 & H2 & H3). by split.
Qed.

Lemma flags_alike : forall fuel p sp sp', alike sp sp' -> alike_result (flags_loop fmt fuel p sp) (flags_loop fmt fuel p sp').
Proof.
  induction fuel as [|fuel IH]; intros p sp sp' Ha; [done|]. cbn [flags_loop]. apply alike_pure. intros c.
  repeat (case_match; [by apply IH, alike_flag|]). by split.
Qed.

Lemma decode_alike p sp sp' : alike sp sp' -> alike_result (format_decode fmt p sp) (format_decode fmt p sp').
Proof.
  intros Ha. pose proof Ha as (Ht & Hq & Hs). unfold format_decode. rewrite Ht.
  assert (Hty : forall x y t, alike x y -> alike (set_type x t) (set_type y t)).
  { intros x y t (H1 & H2 & H3). by split. }
  destruct (s_type sp'); try (
    apply alike_pure; intros q; apply alike_pure; intros c;
    destruct (_ || _); [split; [done|by apply Hty]|];
    apply alike_bind; [apply flags_alike; by split|];
    intros r x y Hxy; apply alike_pure; intros d; destruct (isdigit d);
      [apply alike_pure; intros [v q']; by apply precision_alike|];
    destruct (d =? 42); [split; [done|by apply Hty]|by apply precision_alike]).
  - apply precision_alike, Hty. by apply alike_left.
  - apply qualifier_alike, Hty. by destruct (_ <? 0), (_ <? 0).
Qed.

End decode.

(** ** The fields of a format *)

#[export] Instance format_type_eq_dec : EqDecision format_type.
Proof. solve_decision. Defined.

(** The words of the arguments a field takes. *)
Definition words (t : format_type) : nat :=
  match t with
  | FORMAT_TYPE_NONE | FORMAT_TYPE_INVALID | FORMAT_TYPE_PERCENT_CHAR => 0
  | FORMAT_TYPE_LONG_LONG => 2
  | _ => 1
  end.

Definition integer (t : format_type) : bool :=
  match t with
  | FORMAT_TYPE_LONG_LONG | FORMAT_TYPE_ULONG | FORMAT_TYPE_LONG | FORMAT_TYPE_UBYTE | FORMAT_TYPE_BYTE
  | FORMAT_TYPE_USHORT | FORMAT_TYPE_SHORT | FORMAT_TYPE_UINT | FORMAT_TYPE_INT | FORMAT_TYPE_SIZE_T
  | FORMAT_TYPE_PTRDIFF => true
  | _ => false
  end.

(** The fields whose argument goes into the words, and the last of them. *)
Definition saved (t : format_type) : bool :=
  match t with
  | FORMAT_TYPE_NONE | FORMAT_TYPE_INVALID | FORMAT_TYPE_PERCENT_CHAR | FORMAT_TYPE_NRCHARS => false
  | _ => true
  end.

Fixpoint last_saved (l : list (format_type * Z)) : option format_type :=
  match l with
  | [] => None
  | f :: l =>
      match last_saved l with
      | Some t => Some t
      | None => if saved f.1 then Some f.1 else None
      end
  end.

(** The fields, with the first word of each. *)
Fixpoint fields (fmt : list Z) (fuel : nat) (p : Z) (spec : printf_spec) (args : list Z) :
    result (list (format_type * Z)) :=
  match fuel with
  | O => NoFuel
  | S fuel =>
      c ← rd fmt p;
      if c =? 0 then Ok []
      else
        '(q, spec) ← format_decode fmt p spec;
        q ← (if bool_decide (s_type spec = FORMAT_TYPE_PTR) then skip_alnum fmt (rounds fmt) q else Ok q);
        l ← fields fmt fuel q spec (drop (words (s_type spec)) args);
        Ok ((s_type spec, u32 (hd 0 args)) :: l)
  end.

(** A string is where its pointer says, or the pointer is small; a [long] is
    not negative. *)
Definition field_ok (mbase : Z) (mbytes : list Z) (f : format_type * Z) : Prop :=
  match f.1 with
  | FORMAT_TYPE_STR => f.2 <= 2 ^ 32 - PAGE_SIZE /\
      exists t, cstr (save_str mbase mbytes f.2).1 (save_str mbase mbytes f.2).2 t
  | FORMAT_TYPE_LONG => f.2 < 2 ^ 31
  | _ => True
  end.

Section simulation.
Context (mbase : Z) (mbytes : list Z).
Context (sprint_symbol kallsyms_lookup : Z -> list Z) (deref : Z -> Z).
Context (fmt : list Z) (bin_buf bend oend : Z).
Hypothesis Hbin : PAGE_SIZE <= bin_buf.

Let vsn_step := vsn_step mbase mbytes sprint_symbol kallsyms_lookup deref fmt oend.
Let vbin_step := vbin_step mbase mbytes fmt bend.
Let bstr_step bin := bstr_step mbase mbytes sprint_symbol kallsyms_lookup deref fmt bin_buf bin oend.

Lemma va_num_words t args num args' : t <> FORMAT_TYPE_LONG_LONG -> va_num t args = Ok (num, args') ->
  exists w, args = w :: args'.
Proof.
  intros Ht H. destruct args as [|w args]; [by destruct t|]. exists w. destruct t; try done; by injection H as _ <-.
Qed.

Lemma swrap_mod k z : 0 <= k -> swrap k (z mod 2 ^ k) = swrap k z.
Proof. intros Hk. unfold swrap. by rewrite Zplus_mod_idemp_l. Qed.

(** An integer that was saved is found, unless it is a negative [long]. *)
Lemma num_back t args num args' b : integer t = true ->
  va_num t args = Ok (num, args') -> (t = FORMAT_TYPE_LONG -> u32 (hd 0 args) < 2 ^ 31) -> out_ok bend b ->
  args' = drop (words t) args /\
  exists b', save_num bend t args b = Ok (args', b') /\ keeps bend b b' /\ o_pos b < o_pos b' /\
    (o_pos b' <= bend -> forall bin, agree b' bin -> get_num bin t (o_pos b) = Ok (num, o_pos b')).
Proof.
  intros Hw Hv Hlong Hb. destruct (decide (t = FORMAT_TYPE_LONG_LONG)) as [->|Hll].
  - pose proof (va_num_range _ _ _ _ Hv) as Hr. unfold save_num, get_num. cbn [va_num] in Hv. rewrite Hv, bind_Ok.
    destruct (save_long_long_back bend num b Hr Hb) as (b' & E & Hk & Hp & Hg). split.
    { unfold va_long_long in Hv. destruct args as [|w1 [|w2 args]]; [done|done|]. by injection Hv as _ <-. }
    exists b'. rewrite E, bind_Ok. done.
  - assert (Hw1 : words t = 1%nat) by (by destruct t). destruct (va_num_words t args num args' Hll Hv) as (w & ->). cbn [hd] in Hlong.
    rewrite Hw1. split; [done|].
    assert (Hsz : arg_size t = 1 \/ arg_size t = 2 \/ arg_size t = 4) by (destruct t; cbn; lia).
    destruct (save_arg_back bend (arg_size t) (u32 w) b Hsz Hb) as (b' & E & Hk & Hp & Hg). exists b'.
    split. { unfold save_num. destruct t; try done; cbn [va_word]; rewrite bind_Ok, E; done. }
    split; [done|]. split; [done|]. intros Hfit bin Ha. specialize (Hg Hfit bin Ha). unfold get_num.
    assert (H32 : forall x, u32 x mod 2 ^ 32 = u32 x) by (intros x; apply Z.mod_small; pose proof (u32_range x); lia).
    destruct t; try done; rewrite Hg, bind_Ok; cbn [va_num va_word] in Hv; rewrite bind_Ok in Hv; injection Hv as <-;
      cbn [arg_size]; change (8 * 1) with 8; change (8 * 2) with 16; change (8 * 4) with 32; rewrite ?H32; try done.
    + specialize (Hlong eq_refl). pose proof (u32_range w). rewrite s32_small by lia. by rewrite u64_small by lia.
    + unfold s8. by rewrite swrap_mod.
    + unfold s16. by rewrite swrap_mod.
Qed.

(** A round of the three loops. *)
Definition simulated (p q : Z) (sp sp' spb : printf_spec) (args : list Z) (st b : ost) (v1 : vst) : Prop :=
  exists b1, vbin_step (Bst p sp' args b) = Ok (Bst (v_fmt v1) spb (v_args v1) b1) /\ keeps bend b b1 /\
    alike (v_spec v1) spb /\ v_args v1 = drop (words (s_type spb)) args /\
    (if bool_decide (s_type spb = FORMAT_TYPE_PTR) then skip_alnum fmt (rounds fmt) q else Ok q) = Ok (v_fmt v1) /\
    (saved (s_type spb) = true -> o_pos b < o_pos b1) /\
    (o_pos b1 <= bend -> (s_type spb = FORMAT_TYPE_STR -> o_pos b1 < bend) -> forall bin, agree b1 bin ->
      bstr_step bin (Tst p sp (o_pos b) st) = Ok (Tst (v_fmt v1) (v_spec v1) (o_pos b1) (v_out v1))).

Lemma integer_sim p q sp sp' spa spb args st stores b v1 :
  format_decode fmt p sp = Ok (q, spa) -> format_decode fmt p sp' = Ok (q, spb) -> alike spa spb ->
  integer (s_type spb) = true -> (s_type spb = FORMAT_TYPE_LONG -> u32 (hd 0 args) < 2 ^ 31) -> out_ok bend b ->
  vsn_step (Vst p sp args st stores) = Ok v1 -> simulated p q sp sp' spb args st b v1.
Proof.
  intros Ea Eb Ha Hi Hlong Hb H. pose proof Ha as (Ht & _ & _). unfold vsn_step, Vs.vsn_step in H. cbn [v_fmt v_spec v_args v_out v_stores] in H.
  rewrite Ea, bind_Ok, Ht in H.
  assert (Hs : ('(num, args0) ← va_num (s_type spb) args; st0 ← number oend num spa st; Ok (Vst q spa args0 st0 stores)) = Ok v1)
    by (by destruct (s_type spb)).
  clear H. inv_bind Hs. destruct a as [num args1]. inv_bind Hs. injection Hs as <-.
  destruct (num_back (s_type spb) args num args1 b Hi E Hlong Hb) as (Hargs & b1 & Hsave & Hk & Hpos & Hget).
  exists b1. cbn [v_fmt v_spec v_args v_out]. split; [|split; [done|split; [done|split; [done|split; [|split; [done|]]]]]].
  - unfold vbin_step, Bp.vbin_step. cbn [b_fmt b_spec b_args b_out]. rewrite Eb, bind_Ok.
    transitivity ('(args0, b0) ← save_num bend (s_type spb) args b; Ok (Bst q spb args0 b0)); [by destruct (s_type spb)|].
    by rewrite Hsave.
  - rewrite bool_decide_eq_false_2; [done|]. by destruct (s_type spb).
  - intros Hfit _ bin Hag. unfold bstr_step, Bp.bstr_step. cbn [t_fmt t_spec t_args t_out]. rewrite Ea, bind_Ok, Ht.
    transitivity ('(num0, args0) ← get_num bin (s_type spb) (o_pos b); st0 ← number oend num0 spa st; Ok (Tst q spa args0 st0));
      [by destruct (s_type spb)|].
    rewrite (Hget ltac:(lia) bin Hag), bind_Ok. by rewrite E0, bind_Ok.
Qed.

(** A word of the arguments. *)
Lemma va_word_inv args w args' : va_word args = Ok (w, args') -> exists x, args = x :: args' /\ w = u32 x /\ 0 <= w < 2 ^ 32.
Proof. destruct args as [|x args]; [done|]. intros [= <- <-]. exists x. pose proof (u32_range x). repeat split; lia || done. Qed.

Lemma word_back n x b : n = 1 \/ n = 2 \/ n = 4 -> out_ok bend b -> exists b1, save_arg bend n (u32 x) b = Ok b1 /\ keeps bend b b1 /\
  o_pos b < o_pos b1 /\ (o_pos b1 <= bend -> forall bin, agree b1 bin -> get_arg bin n (o_pos b) = Ok (u32 x mod 2 ^ (8 * n), o_pos b1)).
Proof. intros Hn Hb. by apply save_arg_back. Qed.

Ltac round_of Ea Eb Ht Et :=
  unfold vbin_step, Bp.vbin_step, bstr_step, Bp.bstr_step;
  cbn [b_fmt b_spec b_args b_out t_fmt t_spec t_args t_out v_fmt v_spec v_args v_out];
  rewrite ?Ea, ?Eb, ?bind_Ok, ?Ht, ?Et.

Lemma field_sim p q sp sp' spa spb args st stores b v1 :
  format_decode fmt p sp = Ok (q, spa) -> format_decode fmt p sp' = Ok (q, spb) -> alike spa spb ->
  integer (s_type spb) = false -> field_ok mbase mbytes (s_type spb, u32 (hd 0 args)) -> out_ok bend b ->
  vsn_step (Vst p sp args st stores) = Ok v1 -> simulated p q sp sp' spb args st b v1.
Proof.
  intros Ea Eb Ha Hi Hok Hb H. pose proof Ha as (Ht & Hq & Hs). unfold vsn_step, Vs.vsn_step in H.
  cbn [v_fmt v_spec v_args v_out v_stores] in H. rewrite Ea, bind_Ok, Ht in H. unfold simulated.
  assert (H32 : forall x, u32 x mod 2 ^ 32 = u32 x) by (intros x; apply Z.mod_small; pose proof (u32_range x); lia).
  assert (Hset : forall n, alike (set_width spa n) spb /\ alike (set_prec spa n) spb) by done.
  destruct (s_type spb) eqn:Et; try done.
  - (* text *)
    inv_bind H. injection H as <-. exists b. round_of Ea Eb Ht Et. split; [done|]. split; [by apply keeps_refl|].
    split; [done|]. split; [done|]. split; [done|].
    split; [done|]. intros _ _ bin _. round_of Ea Eb Ht Et. by rewrite E, bind_Ok.
  - (* width *)
    inv_bind H. destruct a as [w args1]. injection H as <-. destruct (va_word_inv _ _ _ E) as (x & -> & -> & _).
    destruct (word_back 4 x b ltac:(lia) Hb) as (b1 & E1 & Hk & Hp & Hg). exists b1. round_of Ea Eb Ht Et.
    rewrite E, bind_Ok, E1, bind_Ok. split; [done|]. split; [done|]. split; [by apply Hset|]. split; [done|]. split; [done|]. split; [done|].
    intros Hf _ bin Hag. round_of Ea Eb Ht Et. rewrite (Hg Hf bin Hag), bind_Ok. change (8 * 4) with 32. by rewrite H32.
  - (* precision *)
    inv_bind H. destruct a as [w args1]. injection H as <-. destruct (va_word_inv _ _ _ E) as (x & -> & -> & _).
    destruct (word_back 4 x b ltac:(lia) Hb) as (b1 & E1 & Hk & Hp & Hg). exists b1. round_of Ea Eb Ht Et.
    rewrite E, bind_Ok, E1, bind_Ok. split; [done|]. split; [done|]. split; [by apply Hset|]. split; [done|]. split; [done|]. split; [done|].
    intros Hf _ bin Hag. round_of Ea Eb Ht Et. rewrite (Hg Hf bin Hag), bind_Ok. change (8 * 4) with 32. by rewrite H32.
  - (* a character *)
    inv_bind H. destruct a as [w args1]. inv_bind H. injection H as <-. destruct (va_word_inv _ _ _ E) as (x & -> & -> & _).
    destruct (word_back 1 x b ltac:(lia) Hb) as (b1 & E1 & Hk & Hp & Hg). exists b1. round_of Ea Eb Ht Et.
    rewrite E, bind_Ok, E1, bind_Ok. split; [done|]. split; [done|]. split; [done|]. split; [done|]. split; [done|]. split; [done|].
    intros Hf _ bin Hag. round_of Ea Eb Ht Et. rewrite (Hg Hf bin Hag), bind_Ok. change (8 * 1) with 8.
    assert (Ec : char_field oend spa (u32 x mod 2 ^ 8) st = char_field oend spa (u32 x) st).
    { unfold char_field. by replace (u8 (u32 x mod 2 ^ 8)) with (u8 (u32 x)) by (unfold u8; by rewrite Zmod_mod). }
    by rewrite Ec, E0, bind_Ok.
  - (* a string *)
    inv_bind H. destruct a as [w args1]. inv_bind H. injection H as <-. destruct (va_word_inv _ _ _ E) as (x & -> & -> & Hx).
    cbn [field_ok fst snd hd] in Hok. destruct Hok as (Htop & t & Hstr).
    destruct (save_string_back mbase mbytes bend (u32 x) t b Hb Hstr) as (b1 & E1 & Hk & Hpos & Hg). exists b1. round_of Ea Eb Ht Et.
    rewrite E, bind_Ok, E1, bind_Ok. split; [done|]. split; [done|]. split; [done|]. split; [done|]. split; [done|].
    pose proof (cstr_range _ _ _ Hstr). pose proof (zlen_nonneg t). split; [lia|].
    intros _ Hf bin Hag. specialize (Hf eq_refl). round_of Ea Eb Ht Et. pose proof (Hg Hf bin Hag) as Hbs. rewrite (strlen_spec _ _ _ Hbs), bind_Ok, <- Hpos.
    assert (Es : string bin_buf bin oend (bin_buf + o_pos b) spa st = string mbase mbytes oend (u32 x) spa st).
    { pose proof Hb as [Hp _]. unfold string. destruct (Z.ltb_spec (bin_buf + o_pos b) PAGE_SIZE); [lia|].
      replace (bin_buf + o_pos b - bin_buf) with (o_pos b) by lia. unfold save_str in Hstr.
      destruct (Z.ltb_spec (2 ^ 32 - PAGE_SIZE) (u32 x)); [lia|]. cbn [orb] in Hstr.
      destruct (u32 x <? PAGE_SIZE); by eapply string_at_cstr. }
    by rewrite Es, E0, bind_Ok.
  - (* a pointer *)
    inv_bind H. destruct a as [w args1]. inv_bind H. injection H as <-. destruct (va_word_inv _ _ _ E) as (x & -> & -> & _).
    destruct (word_back 4 x b ltac:(lia) Hb) as (b1 & E2 & Hk & Hp & Hg). exists b1. round_of Ea Eb Ht Et.
    rewrite E, bind_Ok, E2, bind_Ok, E1, bind_Ok. split; [done|]. split; [done|]. split; [done|]. split; [done|]. split; [done|]. split; [done|].
    intros Hf _ bin Hag. round_of Ea Eb Ht Et. rewrite (Hg Hf bin Hag), bind_Ok. change (8 * 4) with 32. by rewrite H32, E0, bind_Ok, E1, bind_Ok.
  - (* a percent sign *)
    inv_bind H. injection H as <-. exists b. round_of Ea Eb Ht Et. split; [done|]. split; [by apply keeps_refl|].
    split; [done|]. split; [done|]. split; [done|].
    split; [done|]. intros _ _ bin _. round_of Ea Eb Ht Et. by rewrite E, bind_Ok.
  - (* an unknown field *)
    inv_bind H. injection H as <-. exists b. round_of Ea Eb Ht Et. split; [done|]. split; [by apply keeps_refl|].
    split; [done|]. split; [done|]. split; [done|].
    split; [done|]. intros _ _ bin _. round_of Ea Eb Ht Et. by rewrite E, bind_Ok.
  - (* %n *)
    inv_bind H. destruct a as [w args1]. injection H as <-. destruct (va_word_inv _ _ _ E) as (x & -> & -> & _).
    exists b. round_of Ea Eb Ht Et. rewrite E, bind_Ok. split; [done|]. split; [by apply keeps_refl|].
    split; [done|]. split; [done|]. split; [done|].
    split; [done|]. intros _ _ bin _. by round_of Ea Eb Ht Et.
Qed.

Lemma step_sim p q sp sp' spb args st stores b v1 :
  format_decode fmt p sp' = Ok (q, spb) -> alike sp sp' -> field_ok mbase mbytes (s_type spb, u32 (hd 0 args)) ->
  out_ok bend b -> vsn_step (Vst p sp args st stores) = Ok v1 -> simulated p q sp sp' spb args st b v1.
Proof.
  intros Eb Ha Hok Hb H. pose proof (decode_alike fmt p sp sp' Ha) as Hd. rewrite Eb in Hd.
  destruct (format_decode fmt p sp) as [[q' spa]| | |] eqn:Ea; [|done..]. destruct Hd as [-> Hab].
  destruct (integer (s_type spb)) eqn:Hi; [|by eapply field_sim].
  eapply integer_sim; try done. intros Et. by rewrite Et in Hok.
Qed.

(** The three loops. *)
Lemma loop_sim : forall fuel p sp sp' args st stores b v l,
  vsn_loop mbase mbytes sprint_symbol kallsyms_lookup deref fmt fuel oend (Vst p sp args st stores) = Ok v ->
  fields fmt fuel p sp' args = Ok l -> Forall (field_ok mbase mbytes) l -> alike sp sp' -> out_ok bend b ->
  exists w, vbin_loop mbase mbytes fmt bend fuel (Bst p sp' args b) = Ok w /\ keeps bend b (b_out w) /\
    (last_saved l <> None -> o_pos b < o_pos (b_out w)) /\
    (o_pos (b_out w) <= bend -> (last_saved l = Some FORMAT_TYPE_STR -> o_pos (b_out w) < bend) -> forall bin,
      agree (b_out w) bin -> exists t,
      bstr_loop mbase mbytes sprint_symbol kallsyms_lookup deref fmt bin_buf bin fuel oend (Tst p sp (o_pos b) st) = Ok t /\
      t_out t = v_out v).
Proof.
  induction fuel as [|fuel IH]; intros p sp sp' args st stores b v l H Hf Hok Ha Hb; [done|].
  cbn [vsn_loop fields v_fmt] in H, Hf. cbn [vbin_loop b_fmt].
  inv_bind H. rename a into c. rewrite E, bind_Ok in Hf. rewrite E, bind_Ok. destruct (c =? 0) eqn:Ec.
  { injection H as <-. eexists. split; [done|]. split; [by apply keeps_refl|].
    split; [by injection Hf as <-|]. intros _ _ bin _. cbn [bstr_loop t_fmt]. rewrite E, bind_Ok, Ec. by eexists. }
  inv_bind H. rename a into v1, E0 into Es. inv_bind Hf. destruct a as [q spb]. inv_bind Hf. injection Hf as <-.
  rename E0 into Eb, E1 into Eq, E2 into Ef, a0 into l. apply Forall_cons in Hok as [Hok1 Hok].
  destruct (step_sim p q sp sp' spb args st stores b v1 Eb Ha Hok1 Hb Es) as (b1 & Eb1 & Hk1 & Ha1 & Hargs & Hq & Hp1 & Hs1).
  unfold vbin_step in Eb1. rewrite Eb1, bind_Ok. rewrite Hq in Eq. injection Eq as <-. rewrite <- Hargs in Ef.
  destruct v1 as [p1 sp1 args1 st1 stores1]. cbn [v_fmt v_spec v_args v_out] in *.
  destruct (IH p1 sp1 spb args1 st1 stores1 b1 v _ H Ef Hok Ha1 (proj1 Hk1)) as (w & Ew & Hkw & Hpw & Hsw).
  exists w. split; [done|]. split; [by eapply saved_trans|].
  pose proof Hkw as (_ & Hpos & _). pose proof Hk1 as (_ & Hpos1 & _). cbn [last_saved fst] in *.
  split. { destruct (last_saved l); intros Hl; [specialize (Hpw ltac:(done)); lia|]. destruct (saved (s_type spb)); [|done]. lia. }
  intros Hfit Hlast bin Hag.
  destruct (Hsw Hfit) with (bin := bin) as (t & Et & Hout);
    [by intros Hl; rewrite Hl in Hlast; apply Hlast|done|]. exists t. split; [|done]. cbn [bstr_loop t_fmt]. rewrite E, bind_Ok, Ec.
  assert (Hstr : s_type spb = FORMAT_TYPE_STR -> o_pos b1 < bend).
  { intros Ht. rewrite Ht in Hlast. destruct (last_saved l); [specialize (Hpw ltac:(done))|specialize (Hlast eq_refl)]; lia. }
  unfold bstr_step in Hs1. by rewrite (Hs1 ltac:(lia) Hstr bin (keeps_agree _ _ _ _ Hkw Hag)), bind_Ok.
Qed.

End simulation.

(** C37: what [vbin_printf] saves of the arguments, [bstr_printf] prints: for
    every format and every buffer below 2^31 bytes that [vsnprintf] formats the
    arguments into, the text, the bytes of the buffer and the result are those
    of [vsnprintf], when every string argument is a NUL-terminated string of the
    memory (or a pointer into the first page, printed as [(null)]), no [long]
    argument is negative, and the words reported fit the binary buffer, with one
    to spare if the last argument saved is a string. [vbin_printf] itself always
    returns, and never writes outside the binary buffer. *)
Theorem bstr_printf_equiv mbase mbytes sprint_symbol kallsyms_lookup deref fmt bin_buf bin bsize buf mem size args l n m stores :
  vsnprintf mbase mbytes sprint_symbol kallsyms_lookup deref fmt buf mem size args = Ok (n, m, stores) ->
  fields fmt (vsn_fuel fmt) 0 spec0 args = Ok l -> Forall (field_ok mbase mbytes) l ->
  PAGE_SIZE <= bin_buf -> zlen bin = 4 * bsize -> 0 <= s32 size ->
  exists k bin', vbin_printf mbase mbytes fmt bin bsize args = Ok (s32 k, bin') /\ zlen bin' = zlen bin /\ 0 <= k /\
    (k < bsize \/ k = bsize /\ last_saved l <> Some FORMAT_TYPE_STR ->
     bstr_printf mbase mbytes sprint_symbol kallsyms_lookup deref fmt bin_buf bin' buf mem size = Ok (n, m)).
Proof.
  intros H Hf Hok Hbuf Hbin Hsize. unfold vsnprintf in H. destruct (Z.ltb_spec (s32 size) 0); [lia|]. cbv zeta in H.
  set (oend := if 2 ^ 32 <=? buf + size then _ else _) in H. inv_bind H. rename a into v, E into Ev, a0 into m0, E0 into Em.
  injection H as <- <- _.
  assert (Hb : out_ok (4 * bsize) (Ost 0 bin)) by (by split; cbn; [lia|]).
  destruct (loop_sim mbase mbytes sprint_symbol kallsyms_lookup deref fmt bin_buf (4 * bsize) oend Hbuf _ _ _ spec0 _ _ _
    (Ost 0 bin) v l Ev Hf Hok (alike_refl _) Hb) as (w & Ew & Hk & _ & Hs).
  pose proof (ptr_align_range (o_pos (b_out w)) 4 ltac:(lia)) as Hal. rewrite ptr_align_spec in Hal by lia.
  pose proof Hk as ([Hp Hm] & _ & _).
  exists (PTR_ALIGN (o_pos (b_out w)) 4 / 4), (o_mem (b_out w)). unfold vbin_printf. rewrite Ew, bind_Ok.
  rewrite ptr_align_spec by lia. split; [done|]. split; [lia|]. split; [Z.div_mod_to_equations; lia|]. intros Hfit.
  destruct (Hs ltac:(Z.div_mod_to_equations; lia)) with (bin := o_mem (b_out w)) as (t & Et & Hout).
  { intros Hl. destruct Hfit as [Hfit|[_ Hn]]; [Z.div_mod_to_equations; lia|done]. }
  { by split. }
  unfold bstr_printf. destruct (Z.ltb_spec (s32 size) 0); [lia|]. cbv zeta. fold oend. cbn [o_pos] in Et.
  by rewrite Et, bind_Ok, Hout, Em, bind_Ok.
Qed.

(** A string, a character, a width, a short and a pointer, from memory at 8192,
    in a buffer of six words that they fill. *)
Definition sample_fmt : list Z := codes "x%*d|%-5s|%c %hd %ld %p" ++ [0].
Definition sample_args : list Z := [u32 (-6); 42; 8192; 65; u32 (-3); 77; 0xdead].

Lemma bstr_printf_equiv_witness :
  exists k bin', vbin_printf 8192 (codes "hey" ++ [0]) sample_fmt (replicate 24 0) 6 sample_args = Ok (s32 k, bin') /\
    0 <= k /\
    (k <= 6 -> bstr_printf 8192 (codes "hey" ++ [0]) (fun _ => []) (fun _ => []) id sample_fmt 16384 bin' 4096 (replicate 40 9) 40 =
      Ok (30, codes "x42    |hey  |A -3 77 0000dead" ++ [0] ++ replicate 9 9)).
Proof.
  edestruct (bstr_printf_equiv 8192 (codes "hey" ++ [0]) (fun _ => []) (fun _ => []) id sample_fmt 16384 (replicate 24 0) 6
    4096 (replicate 40 9) 40 sample_args) as (k & bin' & Ev & _ & Hk & Hb).
  - vm_compute. reflexivity.
  - vm_compute. reflexivity.
  - repeat constructor; try done. exists (codes "hey"). repeat split; done.
  - by vm_compute.
  - reflexivity.
  - by vm_compute.
  - exists k, bin'. split; [exact Ev|]. split; [exact Hk|]. intros H. refine (eq_trans (Hb _) _).
    + destruct (Z.eq_dec k 6) as [->|Hn]; [right; by split|left; lia].
    + vm_compute. reflexivity.
Defined.

(** A string that fills the binary buffer to its last byte is not saved: the
    comparison with the end is strict. The number of words returned is the size
    of the buffer, which by its comment makes the buffer valid, but its words
    are those from before the call. *)
Lemma vbin_printf_exact_fit mbase mbytes s t bin bsize :
  cstr (save_str mbase mbytes (u32 s)).1 (save_str mbase mbytes (u32 s)).2 t -> zlen t + 1 = 4 * bsize -> zlen bin = 4 * bsize ->
  vbin_printf mbase mbytes (codes "%s" ++ [0]) bin bsize [s] = Ok (s32 bsize, bin).
Proof.
  intros Ht Hl Hbin.
  assert (Hs : vbin_step mbase mbytes (codes "%s" ++ [0]) (4 * bsize) (Bst 0 spec0 [s] (Ost 0 bin)) =
    Ok (Bst 2 (Spec FORMAT_TYPE_STR 0 10 255 (-1) (-1)) [] (Ost (4 * bsize) bin))).
  { unfold vbin_step. cbn [b_fmt b_spec b_args b_out].
    change (format_decode (codes "%s" ++ [0]) 0 spec0) with
      (@Ok (Z * printf_spec) (2, Spec FORMAT_TYPE_STR 0 10 255 (-1) (-1))).
    rewrite bind_Ok. cbn [s_type va_word]. rewrite bind_Ok. unfold save_string.
    destruct (save_str mbase mbytes (u32 s)) as [arr p]. cbn [fst snd] in Ht.
    rewrite (strlen_spec _ _ _ Ht), bind_Ok. cbn [o_pos o_mem]. rewrite Z.add_0_l, Hl.
    destruct (Z.ltb_spec (4 * bsize) (4 * bsize)); [lia|]. done. }
  unfold vbin_printf. change (vsn_fuel (codes "%s" ++ [0])) with 8%nat. cbn [vbin_loop b_fmt].
  change (rd (codes "%s" ++ [0]) 0) with (@Ok Z 37). rewrite bind_Ok. change (37 =? 0) with false. cbv iota.
  rewrite Hs, bind_Ok. cbn [b_fmt]. change (rd (codes "%s" ++ [0]) 2) with (@Ok Z 0). rewrite bind_Ok.
  change (0 =? 0) with true. cbv iota. rewrite bind_Ok. cbn [b_out o_pos o_mem]. rewrite ptr_align_spec by lia.
  do 3 f_equal. Z.div_mod_to_equations; lia.
Qed.

(** A negative [long] is read back as an [unsigned long]: [%ld] of -5. *)
Example bstr_printf_long :
  let bin := [251; 255; 255; 255; 0; 0; 0; 0] in let fmt := codes "%ld" ++ [0] in
  vbin_printf 0 [] fmt (replicate 8 0) 2 [u32 (-5)] = Ok (1, bin) /\
  vsnprintf 0 [] (fun _ => []) (fun _ => []) id fmt 4096 (replicate 11 0) 11 [u32 (-5)] =
    Ok (2, codes "-5" ++ replicate 9 0, []) /\
  bstr_printf 0 [] (fun _ => []) (fun _ => []) id fmt 16384 bin 4096 (replicate 11 0) 11 =
    Ok (10, codes "4294967291" ++ [0]).
Proof. repeat split; by vm_compute. Qed.

End BpFacts.
