(* ===== verification/Debug.v ===== *)
(** Debug messages: [src/src/core/loader/debug.c], [fdbnprintf.c] and
    [src/src/include/debug.h].

    A message is printed to a buffer of 256 bytes and written to a descriptor of
    its own. [debugging] says whether [SNITCHASER_DEBUG] is defined; the memory
    the arguments point to starts at [mbase]. *)
From S2P Require Import Prelude Kernel CString CStringFacts Numbers Vsprintf VsprintfFacts PrintfText.
Import Str StrFacts Num Vs VsFacts PrintfText.

(** dup2(2) *)
Class KernelDup (K : Type) := { sys_dup2 : K -> Z -> Z -> Z * K }.

Module Debug.

Definition DBG_OUTPUT_FILENO : Z := 1020.
Definition STDERR_FILENO : Z := 2.
Definition DEBUG_BUFFER_SZ : Z := 256.

Definition DBG_LV_SILENT : Z := 0.
Definition DBG_LV_TRACE : Z := 1.
Definition DBG_LV_DEBUG : Z := 2.
Definition DBG_LV_VERBOSE : Z := 3.
Definition DBG_LV_WARNING : Z := 4.
Definition DBG_LV_ERROR : Z := 5.
Definition DBG_LV_FATAL : Z := 6.
Definition DBG_LV_FORCE : Z := 7.
Definition NR_DEBUG_LEVELS : Z := 8.

Definition debug_level_names : list (list Z) :=
  map codes ["SILENT"; "TRACE"; "DEBUG"; "VERBOSE"; "WARNING"; "ERROR"; "FATAL"; "FORCE"]%string.

(** include/debug_components.h: the name and the level of a component. *)
Definition debug_components : list (list Z * Z) :=
  map (fun c => (codes c.1, c.2))
    [("SYS ", DBG_LV_VERBOSE); ("LOAD", DBG_LV_VERBOSE); ("TLS ", DBG_LV_VERBOSE); ("MUTX", DBG_LV_VERBOSE);
     ("DECO", DBG_LV_VERBOSE); ("MEM ", DBG_LV_VERBOSE); ("DICT", DBG_LV_VERBOSE); ("CACH", DBG_LV_VERBOSE);
     ("CMPL", DBG_LV_VERBOSE); ("LOG ", DBG_LV_VERBOSE); ("CKPT", DBG_LV_TRACE); ("SIG ", DBG_LV_VERBOSE);
     ("LZO ", DBG_LV_VERBOSE); ("REPH", DBG_LV_VERBOSE); ("REPT", DBG_LV_VERBOSE); ("PTRC", DBG_LV_VERBOSE);
     ("PMAP", DBG_LV_VERBOSE); ("ELF ", DBG_LV_VERBOSE); ("LSYS", DBG_LV_VERBOSE); ("GDBS", DBG_LV_VERBOSE);
     ("MT  ", DBG_LV_VERBOSE)]%string.
Definition NR_DEBUG_COMPONENTS : Z := zlen debug_components.

Definition debug_component_names : list (list Z) := map fst debug_components.
Definition debug_component_levels : list Z := map snd debug_components.

Section debug.
Context {K : Type} `{Kernel K} `{KernelDup K}.
Context (debugging : bool) (mbase : Z) (mbytes : list Z).
(** The addresses of the names, and of the buffer on the stack. *)
Context (comp_name level_name : Z -> Z) (buffer : Z).

(** The descriptor's file, and the buffer. [%n] is not used in messages. *)
Definition vfdbnprintf (k : K) (fd : Z) (mem : list Z) (buf_sz : Z) (fmt args : list Z) : result (K * list Z) :=
  '(r, m, _) ← vsnprintf mbase mbytes (fun _ => []) (fun _ => []) id fmt buffer mem buf_sz args;
  if 0 <? r then
    let '(_, k) := sys_write k fd (take (Z.to_nat (if buf_sz <? r then buf_sz else r)) m) in Ok (k, m)
  else Ok (k, m).

Definition fdbnprintf := vfdbnprintf.

Definition dbg_init (k : K) : K :=
  let '(_, k) := sys_close k DBG_OUTPUT_FILENO in
  let '(_, k) := sys_dup2 k STDERR_FILENO DBG_OUTPUT_FILENO in k.

(** The state the process ends in. *)
Definition assert_fail (k : K) (mem : list Z) (assertion file line function : Z) : result K :=
  '(k, _) ← fdbnprintf k DBG_OUTPUT_FILENO mem DEBUG_BUFFER_SZ
    (codes "** %s:%d: %s: assertion `%s' failed **" ++ [10; 0]) [file; line; function; assertion];
  Ok k.

Definition head_format : list Z :=
  if debugging then codes "[%s %s@%s:%d]:" ++ [9; 0] else codes "%s:" ++ [9; 0].

Definition head_args (level comp func line : Z) : list Z :=
  if debugging then [comp_name comp; level_name level; func; line] else [level_name level].

(** [fmt] is [None] for [NULL]; [func] is the address of the function's name. *)
Definition dbg_output (k : K) (mem : list Z) (level comp func line : Z) (fmt : option (list Z)) (args : list Z) :
    result K :=
  match fmt with
  | None => Ok k
  | Some fmt =>
      if level =? DBG_LV_SILENT then Ok k
      else
        _ ← assert (level <? NR_DEBUG_LEVELS);
        quiet ← (if debugging then
                   _ ← assert (comp <? NR_DEBUG_COMPONENTS);
                   l ← rd debug_component_levels comp;
                   Ok (level <? l)
                 else Ok false);
        if (quiet : bool) then Ok k
        else
          '(k, mem) ← fdbnprintf k DBG_OUTPUT_FILENO mem DEBUG_BUFFER_SZ head_format (head_args level comp func line);
          '(k, _) ← vfdbnprintf k DBG_OUTPUT_FILENO mem DEBUG_BUFFER_SZ fmt args;
          Ok k
  end.

(** [TRACE(...)] and its like: which of them are compiled in, and [FATAL],
    which ends the process. *)
Definition compiled_in (level : Z) : bool :=
  if debugging then negb (level =? DBG_LV_SILENT) else DBG_LV_VERBOSE <=? level.

Definition debug_message (k : K) (mem : list Z) (level comp func line : Z) (fmt args : list Z) : result K :=
  if compiled_in level then dbg_output k mem level comp func line (Some fmt) args else Ok k.

Definition dbg_fatal : result K := Fatal.

Definition FATAL (k : K) (mem : list Z) (comp func line : Z) (fmt args : list Z) : result K :=
  k ← dbg_output k mem DBG_LV_FATAL comp func line (Some fmt) args; dbg_fatal.

End debug.

(** ** What a message leaves in the file *)

(** A text that fits is written without its NUL; of a longer one the buffer is
    written, with the NUL that cuts it. *)
Definition shown (t : list Z) : list Z :=
  if zlen t <? DEBUG_BUFFER_SZ then map u8 t else take 255 (map u8 t) ++ [0].

Lemma zlen_printed size mem t : 0 < size -> zlen mem = size -> zlen (printed size mem t) = size.
Proof.
  intros Hs Hm. unfold printed. destruct (Z.eqb_spec size 0); [lia|]. pose proof (zlen_nonneg t).
  unfold zlen in *. rewrite length_app, length_take, length_map, length_cons, length_drop. lia.
Qed.

Lemma take_printed mem t : zlen mem = DEBUG_BUFFER_SZ -> 0 < zlen t ->
  take (Z.to_nat (if DEBUG_BUFFER_SZ <? zlen t then DEBUG_BUFFER_SZ else zlen t)) (printed DEBUG_BUFFER_SZ mem t) = shown t.
Proof.
  unfold DEBUG_BUFFER_SZ, shown, printed. intros Hm Ht. cbn [Z.eqb].
  assert (Hl : length (map u8 t) = Z.to_nat (zlen t)) by (unfold zlen; rewrite length_map; lia).
  change (zlen t <? DEBUG_BUFFER_SZ) with (zlen t <? 256).
  destruct (Z.ltb_spec (zlen t) 256) as [Hlt|Hge].
  - destruct (Z.ltb_spec 256 (zlen t)); [lia|]. rewrite take_app_le by (rewrite length_take; lia). rewrite take_take. apply take_ge. lia.
  - rewrite Z.min_r by lia. change (Z.to_nat (256 - 1)) with 255%nat.
    assert (E : Z.to_nat (if 256 <? zlen t then 256 else zlen t) = 256%nat) by (destruct (Z.ltb_spec 256 (zlen t)); lia).
    rewrite E, take_app, length_take, take_ge by (rewrite length_take; lia).
    replace (256 - 255 `min` length (map u8 t))%nat with 1%nat by lia. done.
Qed.

Section facts.
Context {K : Type} `{KernelFiles K} `{!KernelUp K}.

Lemma vfdbnprintf_spec mbase mbytes buffer k fn mem fmt args t stores :
  fd_file k DBG_OUTPUT_FILENO = Some fn -> zlen mem = DEBUG_BUFFER_SZ -> zlen t < 2 ^ 31 ->
  vsnprintf mbase mbytes (fun _ => []) (fun _ => []) id fmt buffer mem DEBUG_BUFFER_SZ args =
    Ok (s32 (zlen t), printed DEBUG_BUFFER_SZ mem t, stores) ->
  exists k', vfdbnprintf mbase mbytes buffer k DBG_OUTPUT_FILENO mem DEBUG_BUFFER_SZ fmt args =
      Ok (k', printed DEBUG_BUFFER_SZ mem t) /\
    fd_file k' DBG_OUTPUT_FILENO = Some fn /\ file_bytes k' fn = file_bytes k fn ++ shown t.
Proof.
  intros Hfd Hm Ht E. unfold vfdbnprintf. rewrite E, bind_Ok. pose proof (zlen_nonneg t). rewrite s32_small by lia.
  destruct (Z.ltb_spec 0 (zlen t)) as [Hpos|Hz].
  - rewrite take_printed by done. destruct (sys_write k DBG_OUTPUT_FILENO (shown t)) as [n k'] eqn:Ew. exists k'.
    pose proof (write_up k _ _ (shown t) Hfd) as Hn. rewrite Ew in Hn. cbn [fst] in Hn. subst n.
    destruct (write_ok _ _ _ _ _ Hfd Ew). done.
  - assert (t = []) as -> by (destruct t; [done|rewrite zlen_cons in Hz; pose proof (zlen_nonneg t); lia]).
    exists k. split; [done|]. split; [done|]. by rewrite app_nil_r.
Qed.

(** ** The head of a message *)

Definition component_name (comp : Z) : list Z := nth (Z.to_nat comp) debug_component_names [].
Definition component_level (comp : Z) : Z := nth (Z.to_nat comp) debug_component_levels 0.
Definition name_of_level (level : Z) : list Z := nth (Z.to_nat level) debug_level_names [].

Definition head_text (debugging : bool) (level comp : Z) (f : list Z) (line : Z) : list Z :=
  if debugging then
    91 :: component_name comp ++ 32 :: name_of_level level ++ 64 :: f ++ 58 :: dec line ++ [93; 58; 9]
  else name_of_level level ++ [58; 9].

(** The string at an address of the program. *)
Definition name_at (mbase : Z) (mbytes : list Z) (p : Z) (t : list Z) : Prop :=
  cstr mbytes (p - mbase) t /\ 4096 <= p < 2 ^ 32 /\ zlen t < 2 ^ 31.

Lemma name_of_level_short level : zlen (name_of_level level) <= 7.
Proof.
  unfold name_of_level, debug_level_names. destruct (Z.to_nat level) as [|[|[|[|[|[|[|[|n]]]]]]]]; try by vm_compute.
  cbn [map nth]. by destruct n.
Qed.

Ltac head_str :=
  printf_round ltac:(fun F p c sp sp' q args stores st =>
    match goal with
    | Hn : name_at _ _ ?w ?t |- _ =>
        match args with w :: ?args' =>
          rewrite (round_str _ _ _ _ _ _ _ F p c sp sp' q w args' stores st t);
          [|reflexivity|discriminate|reflexivity|reflexivity|
           apply string_cstr; [apply Hn|apply Hn|apply Hn|reflexivity|reflexivity|reflexivity|repeat apply put_text_ok; assumption]]
        end
    end).

Lemma head_printed debugging mbase mbytes comp_name level_name buffer mem level comp func f line :
  name_at mbase mbytes (level_name level) (name_of_level level) -> name_at mbase mbytes func f ->
  name_at mbase mbytes (comp_name comp) (component_name comp) -> 0 <= line < 2 ^ 31 ->
  buffer + DEBUG_BUFFER_SZ < 2 ^ 32 -> zlen mem = DEBUG_BUFFER_SZ ->
  vsnprintf mbase mbytes (fun _ => []) (fun _ => []) id (head_format debugging) buffer mem DEBUG_BUFFER_SZ
    (head_args debugging comp_name level_name level comp func line) =
  Ok (s32 (zlen (head_text debugging level comp f line)), printed DEBUG_BUFFER_SZ mem (head_text debugging level comp f line), []).
Proof.
  intros Hlv Hf Hc Hline Hbuf Hm. assert (Hst : out_ok DEBUG_BUFFER_SZ (Ost 0 mem)) by (by split; cbn; [lia|]).
  assert (Hl : exists p sp args, vsn_loop mbase mbytes (fun _ => []) (fun _ => []) id (head_format debugging)
    (vsn_fuel (head_format debugging)) DEBUG_BUFFER_SZ (Vst 0 spec0 (head_args debugging comp_name level_name level comp func line) (Ost 0 mem) []) =
    Ok (Vst p sp args (put_text DEBUG_BUFFER_SZ (head_text debugging level comp f line) (Ost 0 mem)) [])).
  { destruct debugging; do 3 eexists; unfold head_args.
    - printf_begin (head_format true). printf_text. head_str. printf_text. head_str. printf_text. head_str. printf_text.
      printf_round ltac:(fun F p c sp sp' q args stores st =>
        rewrite (round_num _ _ _ _ _ _ _ F p c sp sp' q args [] line stores st (dec line));
        [|reflexivity|discriminate|reflexivity|by left|by apply va_int|apply number_dec; [done|repeat apply put_text_ok; assumption]]).
      printf_text. rewrite round_end by reflexivity. rewrite <- !put_text_app. unfold head_text.
      repeat change (zslice _ _ _) with [32]. rewrite <- ?app_assoc. reflexivity.
    - printf_begin (head_format false). head_str. printf_text. rewrite round_end by reflexivity.
      rewrite <- !put_text_app. reflexivity. }
  destruct Hl as (p & sp & args & Hl).
  exact (snprintf_text mbase mbytes (fun _ => []) (fun _ => []) id (head_format debugging) DEBUG_BUFFER_SZ buffer mem DEBUG_BUFFER_SZ _
    p sp args _ ltac:(unfold DEBUG_BUFFER_SZ; lia) Hbuf Hm eq_refl Hl).
Qed.

Lemma component_level_rd comp : 0 <= comp < NR_DEBUG_COMPONENTS -> rd debug_component_levels comp = Ok (component_level comp).
Proof.
  intros Hc. unfold NR_DEBUG_COMPONENTS in Hc. apply rd_Ok_iff. split; [lia|].
  unfold component_level. destruct (lookup_lt_is_Some_2 debug_component_levels (Z.to_nat comp)) as [l Hl].
  { change (length debug_component_levels) with (length debug_components). unfold zlen in Hc. lia. }
  rewrite Hl. f_equal. symmetry. by apply nth_lookup_Some.
Qed.

(** C39: a message below the level of its component leaves no trace; any other
    one appends its head and its text to the file of the debug descriptor, each
    as it is when it is shorter than the buffer. A longer text is cut to 255
    characters and the NUL that ends it in the buffer goes to the file too.
    Level and component exist, their names and the function's are strings of
    the memory, head and text are below 2^31 bytes, the text is what vsnprintf
    makes of the message, and the writes are complete. *)
Theorem dbg_output_correct debugging mbase mbytes comp_name level_name buffer k fn mem level comp func f line fmt args t stores :
  let h := head_text debugging level comp f line in
  fd_file k DBG_OUTPUT_FILENO = Some fn -> DBG_LV_SILENT < level < NR_DEBUG_LEVELS -> 0 <= comp < NR_DEBUG_COMPONENTS ->
  name_at mbase mbytes (level_name level) (name_of_level level) -> name_at mbase mbytes func f ->
  name_at mbase mbytes (comp_name comp) (component_name comp) -> 0 <= line < 2 ^ 31 -> zlen h < 2 ^ 31 -> zlen t < 2 ^ 31 ->
  buffer + DEBUG_BUFFER_SZ < 2 ^ 32 -> zlen mem = DEBUG_BUFFER_SZ ->
  vsnprintf mbase mbytes (fun _ => []) (fun _ => []) id fmt buffer (printed DEBUG_BUFFER_SZ mem h) DEBUG_BUFFER_SZ args =
    Ok (s32 (zlen t), printed DEBUG_BUFFER_SZ (printed DEBUG_BUFFER_SZ mem h) t, stores) ->
  exists k', dbg_output debugging mbase mbytes comp_name level_name buffer k mem level comp func line (Some fmt) args = Ok k' /\
    fd_file k' DBG_OUTPUT_FILENO = Some fn /\
    if debugging && (level <? component_level comp) then k' = k
    else file_bytes k' fn = file_bytes k fn ++ shown h ++ shown t.
Proof.
  intros h Hfd Hlv Hcomp Hln Hfn Hcn Hline Hh Ht Hbuf Hm E. unfold dbg_output.
  unfold DBG_LV_SILENT, NR_DEBUG_LEVELS in Hlv. change DBG_LV_SILENT with 0. change NR_DEBUG_LEVELS with 8.
  destruct (Z.eqb_spec level 0); [lia|]. destruct (Z.ltb_spec level 8); [|lia]. cbn [assert]. rewrite bind_Ok.
  assert (Hq : (if debugging then
      _ ← assert (comp <? NR_DEBUG_COMPONENTS); l ← rd debug_component_levels comp; Ok (level <? l) else Ok false) =
    Ok (debugging && (level <? component_level comp))).
  { destruct debugging; [|done]. destruct (Z.ltb_spec comp NR_DEBUG_COMPONENTS); [|lia]. cbn [assert].
    by rewrite bind_Ok, component_level_rd. }
  rewrite Hq, bind_Ok. destruct (debugging && (level <? component_level comp)); [by exists k|].
  destruct (vfdbnprintf_spec mbase mbytes buffer k fn mem (head_format debugging)
    (head_args debugging comp_name level_name level comp func line) h []) as (k1 & E1 & Hfd1 & B1); [done|done|done|by apply head_printed|].
  unfold fdbnprintf. rewrite E1, bind_Ok.
  destruct (vfdbnprintf_spec mbase mbytes buffer k1 fn (printed DEBUG_BUFFER_SZ mem h) fmt args t stores) as (k2 & E2 & Hfd2 & B2);
    [done|by apply zlen_printed|done|done|].
  rewrite E2, bind_Ok. exists k2. split; [done|]. split; [done|]. by rewrite B2, B1, app_assoc.
Qed.

(** A level that does not exist ends the process. *)
Lemma dbg_output_bad_level debugging mbase mbytes comp_name level_name buffer k mem level comp func line fmt args :
  NR_DEBUG_LEVELS <= level ->
  dbg_output debugging mbase mbytes comp_name level_name buffer k mem level comp func line (Some fmt) args = Fatal.
Proof.
  unfold NR_DEBUG_LEVELS, dbg_output. intros Hl. change DBG_LV_SILENT with 0. change NR_DEBUG_LEVELS with 8.
  destruct (Z.eqb_spec level 0); [lia|]. by destruct (Z.ltb_spec level 8); [lia|].
Qed.

End facts.

(** ** A message that is too long *)

Definition log_file : fname := codes "stderr".
Definition terminal : Ram.ram := Ram.Ramk ∅ {[DBG_OUTPUT_FILENO := log_file]}.
Definition image : list Z := literal "CKPT" ++ literal "ERROR" ++ literal "main".

Lemma dbg_output_correct_witness :
  exists k', dbg_output true 4096 image (fun _ => 4096) (fun _ => 4101) 65536 terminal (replicate 256 0xcc) DBG_LV_ERROR 10 4107 42
      (Some (codes "%300d" ++ [0])) [7] = Ok k' /\ fd_file k' DBG_OUTPUT_FILENO = Some log_file /\
    file_bytes k' log_file = (codes "[CKPT ERROR@main:42]:" ++ [9]) ++ (replicate 255 32 ++ [0]).
Proof.
  destruct (dbg_output_correct true 4096 image (fun _ => 4096) (fun _ => 4101) 65536 terminal log_file (replicate 256 0xcc) DBG_LV_ERROR 10 4107
    (codes "main") 42 (codes "%300d" ++ [0]) [7] (replicate 299 32 ++ [55]) []) as (k' & E & Hfd & Hb).
  - reflexivity.
  - by vm_compute.
  - by vm_compute.
  - vm_compute. repeat split; done.
  - vm_compute. repeat split; done.
  - vm_compute. repeat split; done.
  - lia.
  - by vm_compute.
  - by vm_compute.
  - by vm_compute.
  - reflexivity.
  - by vm_compute.
  - exists k'. split; [exact E|]. split; [exact Hfd|].
    replace (codes "[CKPT ERROR@main:42]:" ++ [9]) with (shown (head_text true DBG_LV_ERROR 10 (codes "main") 42)) by (by vm_compute).
    replace (replicate 255 32 ++ [0]) with (shown (replicate 299 32 ++ [55])) by (by vm_compute). exact Hb.
Defined.

End Debug.
