(* ===== verification/ProcDump.v ===== *)
(** The rest of [src/src/core/loader/proc.c]: reading the maps of another process
    and dumping every mapping to a file. Nothing calls these two. *)
From S2P Require Import Prelude Kernel CString CStringFacts Numbers Vsprintf VsprintfFacts PrintfText.
From S2P Require Import Proc ProcFacts Elf Interp InterpFacts SyscallLog.
Import Str StrFacts Num Vs VsFacts PrintfText Proc ProcFacts.

Module ProcDump.

Definition MAP_PRIVATE : Z := 2.
Definition MAP_ANONYMOUS : Z := 0x20.

Section dump.
Context {K : Type} `{KernelUser K} `{KernelImages K}.
(** The array for the name is at [sp], with arbitrary contents. *)
Context (sp : Z) (junk : list Z).

Definition print_name (n : Z) (fmt args : list Z) : result (list Z) :=
  '(_, m, _) ← snprintf 0 [] (fun _ => []) (fun _ => []) id fmt sp (take (Z.to_nat n) junk) n args;
  Interp.c_string m 0.

Definition pid_format : list Z := codes "/proc/%d/maps" ++ [0].

Definition read_pid_procmap (k : K) (pid : Z) (m : list Z) (ptr : Z) : result (K * list Z * proc_mem_handler_t) :=
  maps_name ← print_name 64 pid_format [u32 pid];
  let '(fd, k) := sys_open k maps_name O_RDONLY 0 in
  _ ← assert (0 <? fd);
  let '(err, data, k) := sys_read k fd MAX_PROC_MAPS_FILE_SIZE in
  m ← mem_write m ptr data;
  _ ← assert ((0 <? err) && (err <? MAX_PROC_MAPS_FILE_SIZE));
  let '(_, k) := sys_close k fd in
  h ← init_map_handler ptr err;
  Ok (k, m, h).

(** [while (entry.valid)]; what [sys_write] returns is not looked at. *)
Fixpoint dump_loop (fuel : nat) (k : K) (ckptfd : Z) (buffer : list Z) (entry : proc_maps_entry_t) (h : proc_mem_handler_t) :
    result K :=
  if valid entry then
    match fuel with
    | O => NoFuel
    | S fuel =>
        let '(_, k) := sys_write_user k ckptfd (start entry) (u32 (end_ entry - start entry)) in
        '(entry, h) ← read_maps_line buffer h;
        dump_loop fuel k ckptfd buffer entry h
    end
  else Ok k.

(** The pages the text is read into are zero; a failed [mmap] is not [NULL] but
    a negative number, to which the read then fails. The pages stay mapped. *)
Definition flush_mem_to_ckpt (k : K) (ckptfd : Z) : result K :=
  fn ← print_name 256 (codes "/proc/self/maps" ++ [0]) [];
  let '(fd, k) := sys_open k fn O_RDONLY 0 in
  let '(buffer, k) := sys_mmap2 k 0 (Z.shiftl 1 20) (Z.lor PROT_READ PROT_WRITE) (Z.lor MAP_PRIVATE MAP_ANONYMOUS) (-1) 0 in
  _ ← assert (negb (buffer =? 0));
  let '(sz, data, k) := sys_read k fd (Z.shiftl 1 20) in
  m ← mem_write (replicate (Z.to_nat (Z.shiftl 1 20)) 0) 0 data;
  _ ← assert (0 <? sz);
  _ ← assert (sz <? Z.shiftl 1 20);
  h ← init_map_handler 0 sz;
  '(entry, h) ← read_maps_line m h;
  k ← dump_loop (find_fuel h) k ckptfd m entry h;
  let '(_, k) := sys_close k fd in
  Ok k.

End dump.

(** ** What they do *)

Lemma pid_name_text sp junk pid : 0 <= pid < 2 ^ 31 -> sp + 64 < 2 ^ 32 -> zlen junk = 64 ->
  print_name sp junk 64 pid_format [u32 pid] = Ok (codes "/proc/" ++ dec pid ++ codes "/maps").
Proof.
  intros Hpid Hsp Hj. rewrite u32_small by lia. unfold print_name. rewrite take_ge by (unfold zlen in Hj; lia).
  assert (Hst : out_ok 64 (Ost 0 junk)) by (by split; cbn; [lia|]). set (t := codes "/proc/" ++ dec pid ++ codes "/maps").
  assert (Hl : exists p s args, vsn_loop 0 [] (fun _ => []) (fun _ => []) id pid_format (vsn_fuel pid_format) 64
      (Vst 0 spec0 [pid] (Ost 0 junk) []) = Ok (Vst p s args (put_text 64 t (Ost 0 junk)) [])).
  { do 3 eexists. printf_begin pid_format.
    printf_text.
    printf_round ltac:(fun F p c sp sp' q args stores st =>
      rewrite (round_num _ _ _ _ _ _ _ F p c sp sp' q args [] pid stores st (dec pid));
      [|reflexivity|discriminate|reflexivity|by left|by apply va_int|apply number_dec; [done|repeat apply put_text_ok; assumption]]).
    printf_text.
    rewrite round_end by reflexivity. rewrite <- !put_text_app. unfold t. rewrite <- ?app_assoc. reflexivity. }
  destruct Hl as (p & s & args & Hl).
  rewrite (snprintf_text 0 [] (fun _ => []) (fun _ => []) id pid_format 64 sp junk 64 [pid] p s args t ltac:(lia) Hsp Hj eq_refl Hl), bind_Ok.
  assert (Hd : (length (dec pid) <= 10)%nat) by (pose proof (length_dec 10 pid); lia).
  apply InterpFacts.c_string_spec. rewrite <- (app_nil_r (printed 64 junk t)). apply printed_cstr; [|unfold t|done].
  - unfold t. rewrite !Forall_app. split; [apply (bool_decide_unpack _); by vm_compute|]. split; [|apply (bool_decide_unpack _); by vm_compute].
    eapply Forall_impl; [apply dec_range|]. intros c Hc. cbv beta in *. lia.
  - unfold zlen. rewrite !length_app. cbn [codes length]. lia.
Qed.

Section facts.
Context {K : Type} `{KernelUserLaws K} `{!KernelFiles K} `{!KernelUp K}.

(** The bytes of a mapping, all of which can be read. *)
Definition readable (k : K) (v : vma) : Prop := v_start v <= v_end v /\ exists l, user_bytes k (v_start v) (v_end v - v_start v) = Some l.

Definition contents (k : K) (v : vma) : list Z := default [] (user_bytes k (v_start v) (v_end v - v_start v)).

Lemma user_bytes_ext (k k' : K) a n : (forall b, user_byte k' b = user_byte k b) -> user_bytes k' a n = user_bytes k a n.
Proof. intros E. unfold user_bytes. apply mapM_ext. done. Qed.

(** The contents follow each other without a description. *)
Lemma dump_loop_spec fd fn buf : forall vs fuel (k : K) v e h,
  fd_file k fd = Some fn -> entry_of buf v e -> vma_ok v -> reading buf vs h -> (length vs < fuel)%nat ->
  Forall (readable k) (v :: vs) ->
  exists k', dump_loop fuel k fd buf e h = Ok k' /\ fd_file k' fd = Some fn /\
    file_bytes k' fn = file_bytes k fn ++ concat (map (contents k) (v :: vs)).
Proof.
  induction vs as [|v2 vs IH]; intros fuel k v e h Hfd He Hv Hr Hf Hall;
    (destruct fuel as [|fuel]; [cbn in Hf; lia|]); pose proof He as (Hval & Hs & Hen & _); cbn [dump_loop]; rewrite Hval, Hs, Hen;
    apply Forall_cons in Hall as [(Hle & l & Hl) Hall]; pose proof Hv as [Hr1 Hr2 Hr3 _ _ _ _].
  all: rewrite u32_small by lia; rewrite (write_user_ok _ _ _ _ l Hl);
    destruct (sys_write k fd l) as [n k1] eqn:Ew; pose proof (write_up k fd fn l Hfd) as Hn; rewrite Ew in Hn; cbn [fst] in Hn; subst n;
    destruct (write_ok _ _ _ _ _ Hfd Ew) as [Hfd1 Hb1];
    assert (Hc : contents k v = l) by (unfold contents; by rewrite Hl).
  - rewrite (read_maps_line_end _ _ Hr), bind_Ok. destruct fuel; cbn [dump_loop valid]; exists k1;
      (split; [done|]; split; [done|]); rewrite Hb1; cbn [map concat]; by rewrite Hc, app_nil_r.
  - pose proof Hr as ((_ & _ & _ & _ & Hok) & _). apply Forall_cons in Hok as [Hv2 _].
    destruct (read_maps_line_spec buf v2 vs h Hr) as (e2 & h2 & -> & He2 & Hr2' & _). rewrite bind_Ok.
    assert (Hsame : forall b, user_byte k1 b = user_byte k b).
    { intros b. pose proof (write_keeps_user k fd l b) as Hk. by rewrite Ew in Hk. }
    destruct (IH fuel k1 v2 e2 h2 Hfd1 He2 Hv2 Hr2') as (k' & -> & Hfd' & Hb'); [cbn in Hf; lia| |].
    { eapply Forall_impl; [exact Hall|]. intros v' (Hle' & l' & Hl'). split; [done|]. exists l'. by rewrite (user_bytes_ext k k1). }
    exists k'. split; [done|]. split; [done|]. rewrite Hb', Hb1, <- app_assoc. cbn [map concat]. rewrite Hc. do 2 f_equal.
    assert (Ec : forall v, contents k1 v = contents k v) by (intros v'; unfold contents; by rewrite (user_bytes_ext k k1)).
    rewrite Ec. f_equal. f_equal. apply map_ext. exact Ec.
Qed.

End facts.
End ProcDump.
