(* ===== verification/LinuxList.v ===== *)
(** The doubly linked lists of [linux/list.h], as [src/src/include/list.h] and
    list_patch.h give them to the loader.

    Memory is a map from addresses to [struct list_head]; an access to an
    address that is not in it is astray. A head and its entries are nodes of one
    circle. *)
From S2P Require Import Prelude.

Module LList.

Record list_head := Lh { next : Z; prev : Z }.

Abbreviation heap := (gmap Z list_head).

(** linux/poison.h *)
Definition LIST_POISON1 : Z := 0x00100100.
Definition LIST_POISON2 : Z := 0x00200200.

(** [p->next], [p->prev], [p->next = v] and [p->prev = v] *)
Definition ld_next (h : heap) (p : Z) : result Z := match h !! p with Some n => Ok (next n) | None => Stray Rd end.
Definition ld_prev (h : heap) (p : Z) : result Z := match h !! p with Some n => Ok (prev n) | None => Stray Rd end.
Definition st_next (h : heap) (p v : Z) : result heap :=
  match h !! p with Some n => Ok (<[p := Lh v (prev n)]> h) | None => Stray Wr end.
Definition st_prev (h : heap) (p v : Z) : result heap :=
  match h !! p with Some n => Ok (<[p := Lh (next n) v]> h) | None => Stray Wr end.

(** ** The operations *)

Definition INIT_LIST_HEAD (h : heap) (list : Z) : result heap :=
  h ← st_next h list list;
  st_prev h list list.

Definition __list_add (h : heap) (new prev next : Z) : result heap :=
  h ← st_prev h next new;
  h ← st_next h new next;
  h ← st_prev h new prev;
  st_next h prev new.

Definition list_add (h : heap) (new head : Z) : result heap :=
  n ← ld_next h head;
  __list_add h new head n.

Definition list_add_tail (h : heap) (new head : Z) : result heap :=
  p ← ld_prev h head;
  __list_add h new p head.

Definition __list_del (h : heap) (prev next : Z) : result heap :=
  h ← st_prev h next prev;
  st_next h prev next.

Definition list_unlink (h : heap) (entry : Z) : result heap :=
  p ← ld_prev h entry;
  n ← ld_next h entry;
  __list_del h p n.

Definition list_del (h : heap) (entry : Z) : result heap :=
  h ← list_unlink h entry;
  h ← st_next h entry LIST_POISON1;
  st_prev h entry LIST_POISON2.

Definition list_replace (h : heap) (old new : Z) : result heap :=
  n ← ld_next h old;
  h ← st_next h new n;
  n ← ld_next h new;
  h ← st_prev h n new;
  p ← ld_prev h old;
  h ← st_prev h new p;
  p ← ld_prev h new;
  st_next h p new.

Definition list_replace_init (h : heap) (old new : Z) : result heap :=
  h ← list_replace h old new;
  INIT_LIST_HEAD h old.

Definition list_del_init (h : heap) (entry : Z) : result heap :=
  h ← list_unlink h entry;
  INIT_LIST_HEAD h entry.

Definition list_move (h : heap) (list head : Z) : result heap :=
  h ← list_unlink h list;
  list_add h list head.

Definition list_move_tail (h : heap) (list head : Z) : result heap :=
  h ← list_unlink h list;
  list_add_tail h list head.

Definition list_is_last (h : heap) (list head : Z) : result bool :=
  n ← ld_next h list; Ok (n =? head).

Definition list_empty (h : heap) (head : Z) : result bool :=
  n ← ld_next h head; Ok (n =? head).

Definition list_empty_careful (h : heap) (head : Z) : result bool :=
  n ← ld_next h head;
  if n =? head then p ← ld_prev h head; Ok (n =? p) else Ok false.

Definition list_is_singular (h : heap) (head : Z) : result bool :=
  e ← list_empty h head;
  if (e : bool) then Ok false
  else n ← ld_next h head; p ← ld_prev h head; Ok (n =? p).

Definition list_rotate_left (h : heap) (head : Z) : result heap :=
  e ← list_empty h head;
  if (e : bool) then Ok h
  else first ← ld_next h head; list_move_tail h first head.

Definition __list_cut_position (h : heap) (list head entry : Z) : result heap :=
  new_first ← ld_next h entry;
  n ← ld_next h head;
  h ← st_next h list n;
  n ← ld_next h list;
  h ← st_prev h n list;
  h ← st_prev h list entry;
  h ← st_next h entry list;
  h ← st_next h head new_first;
  st_prev h new_first head.

Definition list_cut_position (h : heap) (list head entry : Z) : result heap :=
  e ← list_empty h head;
  if (e : bool) then Ok h
  else
    s ← list_is_singular h head;
    n ← ld_next h head;
    if s && (negb (n =? entry) && negb (head =? entry)) then Ok h
    else if entry =? head then INIT_LIST_HEAD h list
    else __list_cut_position h list head entry.

Definition __list_splice (h : heap) (list prev next : Z) : result heap :=
  first ← ld_next h list;
  last ← ld_prev h list;
  h ← st_prev h first prev;
  h ← st_next h prev first;
  h ← st_next h last next;
  st_prev h next last.

Definition list_splice (h : heap) (list head : Z) : result heap :=
  e ← list_empty h list;
  if (e : bool) then Ok h else n ← ld_next h head; __list_splice h list head n.

Definition list_splice_tail (h : heap) (list head : Z) : result heap :=
  e ← list_empty h list;
  if (e : bool) then Ok h else p ← ld_prev h head; __list_splice h list p head.

Definition list_splice_init (h : heap) (list head : Z) : result heap :=
  e ← list_empty h list;
  if (e : bool) then Ok h
  else n ← ld_next h head; h ← __list_splice h list head n; INIT_LIST_HEAD h list.

Definition list_splice_tail_init (h : heap) (list head : Z) : result heap :=
  e ← list_empty h list;
  if (e : bool) then Ok h
  else p ← ld_prev h head; h ← __list_splice h list p head; INIT_LIST_HEAD h list.

(** ** Iteration *)

Section iterate.
(** The offset of [member], and the state the body of the loop works on
    besides the links. *)
Context {A : Type} (off : Z).

Definition list_entry (ptr : Z) : Z := ptr - off.

(** [list_for_each_entry] with a body that leaves the links alone. *)
Fixpoint for_each (fuel : nat) (h : heap) (head pos : Z) (body : A -> Z -> result A) (a : A) : result A :=
  if pos + off =? head then Ok a
  else
    match fuel with
    | O => NoFuel
    | S fuel =>
        a ← body a pos;
        n ← ld_next h (pos + off);
        for_each fuel h head (list_entry n) body a
    end.

Definition list_for_each_entry (fuel : nat) (h : heap) (head : Z) (body : A -> Z -> result A) (a : A) : result A :=
  n ← ld_next h head;
  for_each fuel h head (list_entry n) body a.

Fixpoint for_each_back (fuel : nat) (h : heap) (head pos : Z) (body : A -> Z -> result A) (a : A) : result A :=
  if pos + off =? head then Ok a
  else
    match fuel with
    | O => NoFuel
    | S fuel =>
        a ← body a pos;
        p ← ld_prev h (pos + off);
        for_each_back fuel h head (list_entry p) body a
    end.

Definition list_for_each_entry_reverse (fuel : nat) (h : heap) (head : Z) (body : A -> Z -> result A) (a : A) : result A :=
  p ← ld_prev h head;
  for_each_back fuel h head (list_entry p) body a.

(** [list_for_each_entry_safe]: the body may take [pos] off the list and free
    it; the last [n] is read from the head. *)
Fixpoint for_each_safe (fuel : nat) (h : heap) (head pos n : Z) (body : heap -> A -> Z -> result (heap * A)) (a : A) :
    result (heap * A) :=
  if pos + off =? head then Ok (h, a)
  else
    match fuel with
    | O => NoFuel
    | S fuel =>
        '(h, a) ← body h a pos;
        m ← ld_next h (n + off);
        for_each_safe fuel h head n (list_entry m) body a
    end.

Definition list_for_each_entry_safe (fuel : nat) (h : heap) (head : Z) (body : heap -> A -> Z -> result (heap * A)) (a : A) :
    result (heap * A) :=
  pos ← ld_next h head;
  n ← ld_next h (list_entry pos + off);
  for_each_safe fuel h head (list_entry pos) (list_entry n) body a.

End iterate.
End LList.
