(* ===== verification/LinuxListFacts.v ===== *)
(** The lists of [linux/list.h] are lists: every operation on the links is the
    operation on the sequences of entries that its comment describes, and the
    loops visit the entries in order. *)
From S2P Require Import Prelude LinuxList.
Import LList.

Module LListFacts.

(** ** The links of a heap *)

Definition nxt (h : heap) (x : Z) : option Z := next <$> h !! x.
Definition prv (h : heap) (x : Z) : option Z := prev <$> h !! x.
Definition live (h : heap) (x : Z) : Prop := is_Some (h !! x).

Lemma nxt_live h a b : nxt h a = Some b -> live h a.
Proof. unfold nxt, live. by destruct (h !! a). Qed.
Lemma prv_live h a b : prv h a = Some b -> live h a.
Proof. unfold prv, live. by destruct (h !! a). Qed.
Lemma ld_next_nxt h a b : nxt h a = Some b -> ld_next h a = Ok b.
Proof. unfold nxt, ld_next. destruct (h !! a); [|done]. by intros [= <-]. Qed.
Lemma ld_prev_prv h a b : prv h a = Some b -> ld_prev h a = Ok b.
Proof. unfold prv, ld_prev. destruct (h !! a); [|done]. by intros [= <-]. Qed.

(** The same nodes. *)
Definition same_nodes (h h' : heap) : Prop := forall x, live h' x <-> live h x.

Lemma st_next_spec h a v : live h a -> exists h', st_next h a v = Ok h' /\
  (forall x, nxt h' x = if decide (x = a) then Some v else nxt h x) /\ (forall x, prv h' x = prv h x) /\ same_nodes h h'.
Proof.
  intros [n Hn]. unfold st_next. rewrite Hn. eexists. split; [done|]. unfold nxt, prv, same_nodes, live.
  split; [|split]; intros x; destruct (decide (x = a)) as [->|]; rewrite ?lookup_insert_eq, ?lookup_insert_ne by done; try done.
  all: rewrite Hn; done || by split.
Qed.

Lemma st_prev_spec h a v : live h a -> exists h', st_prev h a v = Ok h' /\
  (forall x, prv h' x = if decide (x = a) then Some v else prv h x) /\ (forall x, nxt h' x = nxt h x) /\ same_nodes h h'.
Proof.
  intros [n Hn]. unfold st_prev. rewrite Hn. eexists. split; [done|]. unfold nxt, prv, same_nodes, live.
  split; [|split]; intros x; destruct (decide (x = a)) as [->|]; rewrite ?lookup_insert_eq, ?lookup_insert_ne by done; try done.
  all: rewrite Hn; done || by split.
Qed.

Lemma same_nodes_trans h1 h2 h3 : same_nodes h1 h2 -> same_nodes h2 h3 -> same_nodes h1 h3.
Proof. unfold same_nodes. intros H1 H2 x. by rewrite H2. Qed.

(** ** Sets of links *)

(** The links [E], from a node to the next, are closed: every node of them has
    one link out and one link in. *)
Record wf (h : heap) (E : list (Z * Z)) : Prop := {
  wf_link : forall a b, (a, b) ∈ E -> nxt h a = Some b /\ prv h b = Some a;
  wf_nodup : NoDup E.*1;
  wf_closed : E.*1 ≡ₚ E.*2
}.

#[export] Instance wf_proper h : Proper ((≡ₚ) ==> iff) (wf h).
Proof.
  assert (H : forall E E', E ≡ₚ E' -> wf h E -> wf h E').
  { intros E E' HE [Hl Hn Hc]. split.
    - intros a b Hab. apply Hl. by rewrite HE.
    - by rewrite <- HE.
    - by rewrite <- HE. }
  intros E E' HE. split; by apply H.
Qed.

Lemma wf_nodup2 h E : wf h E -> NoDup E.*2.
Proof. intros [_ Hn Hc]. by rewrite <- Hc. Qed.

(** A node that is not on a list. *)
Definition loose (h : heap) (E : list (Z * Z)) (x : Z) : Prop := live h x /\ x ∉ E.*1.

(** The links [D] are replaced by [A]; the nodes [N] come in, [M] go. *)
Lemma rewire h h' D A K N M :
  wf h (D ++ K) -> Forall (loose h (D ++ K)) N -> NoDup N ->
  N ++ D.*1 ≡ₚ M ++ A.*1 -> N ++ D.*2 ≡ₚ M ++ A.*2 ->
  (forall a b, (a, b) ∈ A -> nxt h' a = Some b /\ prv h' b = Some a) ->
  (forall x, x ∉ N -> x ∉ D.*1 -> nxt h' x = nxt h x) -> (forall x, x ∉ N -> x ∉ D.*2 -> prv h' x = prv h x) ->
  wf h' (A ++ K) /\ (same_nodes h h' -> Forall (loose h' (A ++ K)) M).
Proof.
  intros Hwf HN HndN H1 H2 HA Hnx Hpr. pose proof (wf_nodup2 _ _ Hwf) as Hd2. destruct Hwf as [Hl Hnd Hc].
  rewrite !fmap_app in *. rewrite Forall_forall in HN.
  assert (Hout : forall x, x ∈ N -> (x ∉ K.*1) /\ (x ∉ K.*2)).
  { intros x Hx. destruct (HN x Hx) as [_ Hx1]. rewrite fmap_app in Hx1.
    assert (Hx2 : x ∉ (D.*2 ++ K.*2)) by (by rewrite <- Hc). apply not_elem_of_app in Hx1, Hx2. tauto. }
  assert (HndE : NoDup (N ++ D.*1 ++ K.*1)).
  { apply NoDup_app. split; [done|]. split; [|done]. intros x Hx. destruct (HN x Hx) as [_ Hx1]. by rewrite fmap_app in Hx1. }
  rewrite (assoc (++)), H1, <- (assoc (++)) in HndE. split; [split|].
  - intros a b [Hab|Hab]%elem_of_app; [by apply HA|]. destruct (Hl a b) as [Hla Hlb]; [apply elem_of_app; by right|].
    assert (Ha : a ∈ K.*1) by (apply list_elem_of_fmap; by exists (a, b)).
    assert (Hb : b ∈ K.*2) by (apply list_elem_of_fmap; by exists (a, b)).
    apply NoDup_app in Hnd as (_ & Hnd & _). apply NoDup_app in Hd2 as (_ & Hd2 & _). split.
    + rewrite Hnx; [done| |]; intros Hx; [by apply Hout in Hx as []|by apply Hnd in Hx].
    + rewrite Hpr; [done| |]; intros Hx; [by apply Hout in Hx as []|by apply Hd2 in Hx].
  - rewrite fmap_app. by apply NoDup_app in HndE as (_ & _ & ?).
  - rewrite !fmap_app. apply (Permutation_app_inv_l M). rewrite !(assoc (++)), <- H1, <- H2, <- !(assoc (++)). by rewrite Hc.
  - intros Hs. apply Forall_forall. intros x Hx. split.
    + apply Hs. assert (Hin : x ∈ (N ++ D.*1)) by (rewrite H1; apply elem_of_app; by left). apply elem_of_app in Hin as [Hin|Hin]; [by apply HN|].
      apply list_elem_of_fmap in Hin as ([a b] & -> & Hab). eapply nxt_live, Hl, elem_of_app. left. exact Hab.
    + rewrite fmap_app. apply NoDup_app in HndE as (_ & Hm & _). by apply Hm.
Qed.

(** ** Running the operations *)

Definition ok {B} (m : result B) (P : B -> Prop) : Prop := exists r, m = Ok r /\ P r.

Lemma ok_ret {B} (r : B) P : P r -> ok (Ok r) P.
Proof. by exists r. Qed.
Lemma ok_bind {A B} (m : result A) (f : A -> result B) P : ok m (fun a => ok (f a) P) -> ok (m ≫= f) P.
Proof. intros (a & -> & H). by rewrite bind_Ok. Qed.
Lemma ok_mono {B} (m : result B) (P Q : B -> Prop) : ok m P -> (forall r, P r -> Q r) -> ok m Q.
Proof. intros (r & E & H) HPQ. exists r. auto. Qed.
Lemma ok_ld_next h a b P : nxt h a = Some b -> P b -> ok (ld_next h a) P.
Proof. intros E H. exists b. by rewrite (ld_next_nxt _ _ _ E). Qed.
Lemma ok_ld_prev h a b P : prv h a = Some b -> P b -> ok (ld_prev h a) P.
Proof. intros E H. exists b. by rewrite (ld_prev_prv _ _ _ E). Qed.
Lemma ok_st_next h a v (P : heap -> Prop) : live h a ->
  (forall h', (forall x, nxt h' x = if decide (x = a) then Some v else nxt h x) -> (forall x, prv h' x = prv h x) ->
     same_nodes h h' -> P h') -> ok (st_next h a v) P.
Proof. intros Ha HP. destruct (st_next_spec h a v Ha) as (h' & E & H1 & H2 & H3). exists h'. auto. Qed.
Lemma ok_st_prev h a v (P : heap -> Prop) : live h a ->
  (forall h', (forall x, prv h' x = if decide (x = a) then Some v else prv h x) -> (forall x, nxt h' x = nxt h x) ->
     same_nodes h h' -> P h') -> ok (st_prev h a v) P.
Proof. intros Ha HP. destruct (st_prev_spec h a v Ha) as (h' & E & H1 & H2 & H3). exists h'. auto. Qed.

(** What a link of the current memory is, and that a node of it exists, from the
    stores made so far. *)
Ltac links :=
  repeat match goal with
  | H : forall x, nxt ?h x = _ |- context [nxt ?h _] => rewrite !H
  | H : forall x, prv ?h x = _ |- context [prv ?h _] => rewrite !H
  end;
  repeat case_decide; try (exfalso; congruence); subst; try done; try congruence.
Ltac alive :=
  repeat match goal with H : same_nodes _ ?h |- live ?h _ => apply H end;
  first [assumption | eapply nxt_live; eassumption | eapply prv_live; eassumption].
Ltac step :=
  try (apply ok_bind);
  first
  [ eapply ok_ld_next; [links; eassumption|]
  | eapply ok_ld_prev; [links; eassumption|]
  | apply ok_st_next; [alive|intros ? ? ? ?]
  | apply ok_st_prev; [alive|intros ? ? ? ?] ].

(** The premises of [rewire] on the links, when the memory is the result of stores. *)
Ltac distinct :=
  repeat match goal with
  | H : NoDup (_ :: _) |- _ => apply NoDup_cons in H as [? H]
  | H : _ ∉ (_ :: _) |- _ => apply not_elem_of_cons in H as [? H]
  end.

(** Permutations of lists that are written out. *)
Ltac split_at x r :=
  lazymatch r with
  | x :: ?t => let T := type of x in constr:((@nil T, t))
  | ?y :: ?t => let p := split_at x t in lazymatch p with (?a, ?b) => constr:((y :: a, b)) end
  end.
Ltac perm :=
  cbn;
  repeat lazymatch goal with
  | |- ?x :: ?l ≡ₚ ?r => let p := split_at x r in lazymatch p with (?a, ?b) => apply (@Permutation_cons_app _ l a b x); cbn [app] end
  end; reflexivity.

Lemma wf_link1 h a b K : wf h ((a, b) :: K) -> nxt h a = Some b /\ prv h b = Some a.
Proof. intros [Hl _ _]. apply Hl. by left. Qed.
Lemma wf_link2 h a b e K : wf h (e :: (a, b) :: K) -> nxt h a = Some b /\ prv h b = Some a.
Proof. intros [Hl _ _]. apply Hl. right. by left. Qed.
Lemma wf_link3 h a b e1 e2 K : wf h (e1 :: e2 :: (a, b) :: K) -> nxt h a = Some b /\ prv h b = Some a.
Proof. intros [Hl _ _]. apply Hl. right. right. by left. Qed.

Lemma loose2 h E x : wf h E -> loose h E x -> x ∉ E.*2.
Proof. intros Hwf [_ Hno]. by rewrite <- (wf_closed _ _ Hwf). Qed.

(** What the links of [Hwf] say, as facts on the memory and on the nodes. *)
Ltac read_links Hwf :=
  pose proof (wf_nodup _ _ Hwf); pose proof (wf_nodup2 _ _ Hwf);
  try (destruct (wf_link1 _ _ _ _ Hwf)); try (destruct (wf_link2 _ _ _ _ _ Hwf)); try (destruct (wf_link3 _ _ _ _ _ _ Hwf));
  repeat match goal with
  | H : loose _ _ ?x |- _ => lazymatch goal with _ : live _ x |- _ => fail | _ => idtac end;
      pose proof (loose2 _ _ _ Hwf H); let Hl := fresh in pose proof (proj2 H) as Hl; pose proof (proj1 H)
  end;
  cbn in *; distinct.

(** Closes the premises of [rewire] after the stores of an operation. *)
Ltac new_links :=
  let Hab := fresh in
  intros ? ? Hab; cbn in Hab; repeat (apply elem_of_cons in Hab as [[= -> ->]|Hab]); try (by apply elem_of_nil in Hab); split; links.
Ltac old_links := cbn; intros; distinct; links; tauto.
Ltac rewired :=
  lazymatch goal with
  | |- Forall _ _ => repeat (apply Forall_cons; split; [done|]); apply Forall_nil_2
  | |- NoDup _ => first [apply NoDup_nil_2 | apply NoDup_singleton]
  | |- _ ≡ₚ _ => perm
  | |- forall _ _, (_, _) ∈ _ -> _ => new_links
  | |- forall _, _ => old_links
  end.
Ltac nodes := unfold same_nodes in *; intros; repeat match goal with H : forall x, live ?h x <-> _ |- context [live ?h _] => rewrite H; clear H end; tauto.

(** *** One link at a time *)

Lemma init_edge h x K : wf h K -> loose h K x -> ok (INIT_LIST_HEAD h x) (fun h' => wf h' ((x, x) :: K) /\ same_nodes h h').
Proof.
  intros Hwf Hx. read_links Hwf. unfold INIT_LIST_HEAD. do 2 step. split; [|nodes].
  refine (proj1 (rewire h _ [] [(x, x)] K [x] [] Hwf _ _ _ _ _ _ _)); rewired.
Qed.

Lemma add_edge h new p n K : wf h ((p, n) :: K) -> loose h ((p, n) :: K) new ->
  ok (__list_add h new p n) (fun h' => wf h' ((p, new) :: (new, n) :: K) /\ same_nodes h h').
Proof.
  intros Hwf Hnew. read_links Hwf. unfold __list_add. do 4 step. split; [|nodes].
  refine (proj1 (rewire h _ [(p, n)] [(p, new); (new, n)] K [new] [] Hwf _ _ _ _ _ _ _)); rewired.
Qed.

Lemma unlink_edge h p e n K : wf h ((p, e) :: (e, n) :: K) ->
  ok (list_unlink h e) (fun h' => wf h' ((p, n) :: K) /\ loose h' ((p, n) :: K) e /\ same_nodes h h').
Proof.
  intros Hwf. read_links Hwf. unfold list_unlink, __list_del. do 4 step.
  assert (Hs : same_nodes h h'0) by nodes.
  destruct (rewire h h'0 [(p, e); (e, n)] [(p, n)] K [] [e] Hwf) as [Hwf' Hl]; try rewired.
  split; [done|]. split; [|done]. by apply Forall_singleton, Hl.
Qed.

(** What a node that is on no list holds does not matter. *)
Lemma loose_store h h' x K : wf h K -> loose h K x -> same_nodes h h' ->
  (forall y, y <> x -> nxt h' y = nxt h y) -> (forall y, y <> x -> prv h' y = prv h y) -> wf h' K /\ loose h' K x.
Proof.
  intros Hwf Hx Hs Hn Hp. destruct (rewire h h' [] [] K [x] [x] Hwf) as [Hwf' Hl]; try rewired.
  - cbn. intros y ?%not_elem_of_cons _. apply Hn. tauto.
  - cbn. intros y ?%not_elem_of_cons _. apply Hp. tauto.
  - split; [done|]. by apply Forall_singleton, Hl.
Qed.

Lemma replace_edge h p old n new K : wf h ((p, old) :: (old, n) :: K) -> loose h ((p, old) :: (old, n) :: K) new ->
  ok (list_replace h old new)
    (fun h' => wf h' ((p, new) :: (new, n) :: K) /\ loose h' ((p, new) :: (new, n) :: K) old /\ same_nodes h h').
Proof.
  intros Hwf Hnew. read_links Hwf. unfold list_replace. do 8 step.
  match goal with |- wf ?h' _ /\ _ => assert (Hs : same_nodes h h') by nodes;
    destruct (rewire h h' [(p, old); (old, n)] [(p, new); (new, n)] K [new] [old] Hwf) as [Hwf' Hl] end; try rewired.
  split; [done|]. split; [|done]. by apply Forall_singleton, Hl.
Qed.

(** A list without entries. *)
Lemma replace_empty_edge h old new K : wf h ((old, old) :: K) -> loose h ((old, old) :: K) new ->
  ok (list_replace h old new) (fun h' => wf h' ((new, new) :: K) /\ loose h' ((new, new) :: K) old /\ same_nodes h h').
Proof.
  intros Hwf Hnew. read_links Hwf. unfold list_replace. do 8 step.
  match goal with |- wf ?h' _ /\ _ => assert (Hs : same_nodes h h') by nodes;
    destruct (rewire h h' [(old, old)] [(new, new)] K [new] [old] Hwf) as [Hwf' Hl] end; try rewired.
  split; [done|]. split; [|done]. by apply Forall_singleton, Hl.
Qed.

Lemma splice_edge h list first last p n K : wf h ((p, n) :: (list, first) :: (last, list) :: K) ->
  ok (__list_splice h list p n)
    (fun h' => wf h' ((p, first) :: (last, n) :: K) /\ loose h' ((p, first) :: (last, n) :: K) list /\ same_nodes h h').
Proof.
  intros Hwf. read_links Hwf. unfold __list_splice. do 6 step.
  match goal with |- wf ?h' _ /\ _ => assert (Hs : same_nodes h h') by nodes;
    destruct (rewire h h' [(p, n); (list, first); (last, list)] [(p, first); (last, n)] K [] [list] Hwf) as [Hwf' Hl] end; try rewired.
  split; [done|]. split; [|done]. by apply Forall_singleton, Hl.
Qed.

Lemma cut_edge h list head first e g K :
  wf h ((head, first) :: (e, g) :: K) -> loose h ((head, first) :: (e, g) :: K) list ->
  ok (__list_cut_position h list head e)
    (fun h' => wf h' ((list, first) :: (e, list) :: (head, g) :: K) /\ same_nodes h h').
Proof.
  intros Hwf Hlist. read_links Hwf. unfold __list_cut_position. do 9 step. split; [|nodes].
  refine (proj1 (rewire h _ [(head, first); (e, g)] [(list, first); (e, list); (head, g)] K [list] [] Hwf _ _ _ _ _ _ _)); rewired.
Qed.

(** ** Lists of entries *)

(** Permutations, by counting. *)
Definition cnt {A} `{EqDecision A} (z : A) (l : list A) : nat := count_occ (fun x y => decide (x = y)) l z.

Lemma cnt_app {A} `{EqDecision A} (z : A) l1 l2 : cnt z (l1 ++ l2) = (cnt z l1 + cnt z l2)%nat.
Proof. apply count_occ_app. Qed.
Definition one {A} `{EqDecision A} (z a : A) : nat := cnt z [a].
Lemma cnt_cons {A} `{EqDecision A} (z a : A) l : cnt z (a :: l) = (one z a + cnt z l)%nat.
Proof. exact (cnt_app z [a] l). Qed.
Lemma cnt_nil {A} `{EqDecision A} (z : A) : cnt z [] = 0%nat.
Proof. done. Qed.
Lemma cnt_perm {A} `{EqDecision A} (l l' : list A) : (forall z, cnt z l = cnt z l') -> l ≡ₚ l'.
Proof. intros H. by apply (Permutation_count_occ (fun x y => decide (x = y))). Qed.
Lemma perm_cnt_eq {A} `{EqDecision A} (l l' : list A) z : l ≡ₚ l' -> cnt z l = cnt z l'.
Proof. intros H. by apply (Permutation_count_occ (fun x y => decide (x = y))). Qed.

(** Equal up to the order of the parts of [++] and [::]. *)
Ltac count := let z := fresh in apply cnt_perm; intros z; repeat first [rewrite cnt_app | rewrite cnt_cons | rewrite cnt_nil]; lia.

(** The links from [x] through [l] to [y]. *)
Fixpoint path (x : Z) (l : list Z) (y : Z) : list (Z * Z) :=
  match l with [] => [(x, y)] | a :: l => (x, a) :: path a l y end.
Definition circle (c : Z * list Z) : list (Z * Z) := path c.1 c.2 c.1.

Fixpoint lastof (x : Z) (l : list Z) : Z := match l with [] => x | a :: l => lastof a l end.
Definition headof (l : list Z) (y : Z) : Z := match l with [] => y | a :: _ => a end.
Fixpoint front (x : Z) (l : list Z) : list (Z * Z) := match l with [] => [] | a :: l => (x, a) :: front a l end.
Definition back (l : list Z) (y : Z) : list (Z * Z) := match l with [] => [] | a :: l => path a l y end.

Lemma path_cut x l1 l2 y : path x (l1 ++ l2) y ≡ₚ (lastof x l1, headof l2 y) :: front x l1 ++ back l2 y.
Proof.
  revert x. induction l1 as [|a l1 IH]; intros x; cbn.
  - by destruct l2.
  - rewrite IH. apply Permutation_swap.
Qed.

Lemma lastof_app x l a : lastof x (l ++ [a]) = a.
Proof. revert x. by induction l as [|b l IH]; intros x; cbn. Qed.
Lemma front_app x l a : front x (l ++ [a]) = front x l ++ [(lastof x l, a)].
Proof. revert x. induction l as [|b l IH]; intros x; cbn; [done|]. by rewrite IH. Qed.
Lemma path_back x l y : path x l y = (x, headof l y) :: back l y.
Proof. by destruct l. Qed.
Lemma path_front x l y : path x l y = front x l ++ [(lastof x l, y)].
Proof. revert x. induction l as [|a l IH]; intros x; cbn; [done|]. by rewrite IH. Qed.
Lemma path_fst x l y : (path x l y).*1 = x :: l.
Proof. revert x. induction l as [|a l IH]; intros x; cbn; [done|]. by rewrite IH. Qed.

(** A list with a gap in it, and with an entry in the gap. *)
Lemma circle_gap hd l1 l2 K : circle (hd, l1 ++ l2) ++ K ≡ₚ (lastof hd l1, headof l2 hd) :: (front hd l1 ++ back l2 hd) ++ K.
Proof. unfold circle. cbn. by rewrite path_cut. Qed.
Lemma circle_mid hd l1 e l2 K :
  circle (hd, l1 ++ e :: l2) ++ K ≡ₚ (lastof hd l1, e) :: (e, headof l2 hd) :: (front hd l1 ++ back l2 hd) ++ K.
Proof. rewrite circle_gap. cbn [headof back]. rewrite path_back. count. Qed.
Lemma circle_head hd l K : circle (hd, l) ++ K ≡ₚ (hd, headof l hd) :: back l hd ++ K.
Proof. apply (circle_gap hd []). Qed.
Lemma circle_tail hd l K : circle (hd, l) ++ K ≡ₚ (lastof hd l, hd) :: front hd l ++ K.
Proof. rewrite <- (app_nil_r l) at 1. rewrite circle_gap. by rewrite app_nil_r. Qed.

(** ** The state of all lists *)

(** The heads with their entries, and the nodes on no list. *)
Record state := St { lists : list (Z * list Z); free : list Z }.

Definition links_of (L : list (Z * list Z)) : list (Z * Z) := concat (map circle L).
Definition nodes_of (L : list (Z * list Z)) : list Z := concat (map (fun c => c.1 :: c.2) L).
Definition all_nodes (s : state) : list Z := nodes_of (lists s) ++ free s.

Record holds (h : heap) (s : state) : Prop := {
  holds_wf : wf h (links_of (lists s));
  holds_nodup : NoDup (all_nodes s);
  holds_live : Forall (live h) (all_nodes s)
}.

Lemma links_fst L : (links_of L).*1 = nodes_of L.
Proof. induction L as [|[hd l] L IH]; [done|]. unfold links_of, nodes_of in *. cbn. by rewrite fmap_app, IH, path_fst. Qed.

Lemma holds_loose h s x : holds h s -> x ∈ free s -> loose h (links_of (lists s)) x.
Proof.
  intros [_ Hnd Hl] Hx. split.
  - rewrite Forall_forall in Hl. apply Hl, elem_of_app. by right.
  - rewrite links_fst. intros Hin. apply NoDup_app in Hnd as (_ & Hnd & _). by apply (Hnd x).
Qed.

Lemma holds_next h h' s s' : holds h s -> wf h' (links_of (lists s')) -> same_nodes h h' -> all_nodes s ≡ₚ all_nodes s' -> holds h' s'.
Proof.
  intros [Hwf Hnd Hl] Hwf' Hs Hp. split; [done|by rewrite <- Hp|]. rewrite <- Hp. eapply Forall_impl; [exact Hl|]. intros x. apply Hs.
Qed.

(** A list seen in another order, and a list that is given up. *)
Inductive view : state -> state -> Prop :=
| view_perm L L' F F' : L ≡ₚ L' -> F ≡ₚ F' -> view (St L F) (St L' F')
| view_drop hd l L F : view (St ((hd, l) :: L) F) (St L (hd :: l ++ F)).

Lemma path_snd x l y : (path x l y).*2 = l ++ [y].
Proof. revert x. induction l as [|a l IH]; intros x; cbn; [done|]. by rewrite IH. Qed.

#[export] Instance links_of_proper : Proper ((≡ₚ) ==> (≡ₚ)) links_of.
Proof.
  assert (E : forall L, links_of L = L ≫= circle) by (intros L; induction L as [|c L IH]; [done|]; cbn; by rewrite <- IH).
  intros L L' H. rewrite !E. by apply bind_Permutation.
Qed.
#[export] Instance nodes_of_proper : Proper ((≡ₚ) ==> (≡ₚ)) nodes_of.
Proof. intros L L' H. rewrite <- !links_fst. by rewrite H. Qed.

Lemma wf_forget h D K : D.*1 ≡ₚ D.*2 -> wf h (D ++ K) -> wf h K.
Proof.
  intros HD Hwf. refine (proj1 (rewire h h D [] K [] D.*1 Hwf _ _ _ _ _ _ _)); try done.
  - by apply NoDup_nil_2.
  - by rewrite app_nil_r.
  - cbn. by rewrite app_nil_r, <- HD.
  - intros a b Hab. by apply elem_of_nil in Hab.
Qed.

Lemma holds_view h s s' : holds h s -> view s s' -> holds h s'.
Proof.
  intros Hh Hv. eapply holds_next; [exact Hh| |done|]; destruct Hv as [L L' F F' HL HF|hd l L F]; cbn [lists free]; unfold all_nodes; cbn [lists free].
  - rewrite <- HL. apply Hh.
  - apply (wf_forget h (circle (hd, l))); [|apply Hh]. unfold circle. cbn. rewrite path_fst, path_snd. count.
  - by rewrite HL, HF.
  - unfold nodes_of. cbn. count.
Qed.

(** *** Looking *)

Lemma holds_head h hd l L F : holds h (St ((hd, l) :: L) F) ->
  nxt h hd = Some (headof l hd) /\ prv h hd = Some (lastof hd l) /\ (hd ∉ l) /\ NoDup l.
Proof.
  intros [Hwf Hnd _]. unfold links_of in Hwf. cbn [lists map concat] in Hwf. split; [|split].
  - rewrite circle_head in Hwf. apply (wf_link1 _ _ _ _ Hwf).
  - rewrite circle_tail in Hwf. apply (wf_link1 _ _ _ _ Hwf).
  - unfold all_nodes, nodes_of in Hnd. cbn in Hnd. apply NoDup_cons in Hnd as [Hno Hnd].
    rewrite !not_elem_of_app in Hno. apply NoDup_app in Hnd as [Hnd _]. apply NoDup_app in Hnd as [Hnd _]. tauto.
Qed.

Lemma list_empty_holds h hd l L F : holds h (St ((hd, l) :: L) F) -> list_empty h hd = Ok (bool_decide (l = [])).
Proof.
  intros Hh. destruct (holds_head _ _ _ _ _ Hh) as (Hn & _ & Hno & _). unfold list_empty. rewrite (ld_next_nxt _ _ _ Hn), bind_Ok. f_equal.
  destruct l as [|a l]; cbn; [by rewrite Z.eqb_refl|]. destruct (Z.eqb_spec a hd) as [->|]; [|done]. destruct Hno. by left.
Qed.

Lemma lastof_in x a l : lastof x (a :: l) ∈ (a :: l).
Proof. cbn. revert a. induction l as [|b l IH]; intros a; cbn; [by left|]. right. apply IH. Qed.

Lemma list_is_singular_holds h hd l L F : holds h (St ((hd, l) :: L) F) -> list_is_singular h hd = Ok (bool_decide (length l = 1%nat)).
Proof.
  intros Hh. unfold list_is_singular. rewrite (list_empty_holds _ _ _ _ _ Hh), bind_Ok.
  destruct (holds_head _ _ _ _ _ Hh) as (Hn & Hp & _ & Hnd). destruct l as [|a l]; [done|]. cbn [bool_decide decide].
  rewrite bool_decide_eq_false_2 by done. rewrite (ld_next_nxt _ _ _ Hn), bind_Ok, (ld_prev_prv _ _ _ Hp), bind_Ok. f_equal.
  cbn [headof]. destruct l as [|b l]; cbn [lastof length]; [by rewrite Z.eqb_refl|]. rewrite bool_decide_eq_false_2 by done.
  apply NoDup_cons in Hnd as [Hno _]. apply Z.eqb_neq. intros E. apply Hno. rewrite E. exact (lastof_in hd b l).
Qed.

Lemma list_empty_careful_holds h hd l L F : holds h (St ((hd, l) :: L) F) -> list_empty_careful h hd = list_empty h hd.
Proof.
  intros Hh. destruct (holds_head _ _ _ _ _ Hh) as (Hn & Hp & _). unfold list_empty_careful, list_empty.
  rewrite (ld_next_nxt _ _ _ Hn), !bind_Ok. destruct (Z.eqb_spec (headof l hd) hd) as [E|]; [|done].
  rewrite (ld_prev_prv _ _ _ Hp), bind_Ok, E. destruct l as [|a l]; [by rewrite Z.eqb_refl|].
  destruct (holds_head _ _ _ _ _ Hh) as (_ & _ & Hno & _). destruct Hno. rewrite <- E. by left.
Qed.

Lemma list_is_last_holds h hd l1 e l2 L F : holds h (St ((hd, l1 ++ e :: l2) :: L) F) -> list_is_last h e hd = Ok (bool_decide (l2 = [])).
Proof.
  intros Hh. pose proof (holds_wf _ _ Hh) as Hwf. unfold links_of in Hwf. cbn [lists map concat] in Hwf. rewrite circle_mid in Hwf.
  destruct (wf_link2 _ _ _ _ _ Hwf) as [He _]. destruct (holds_head _ _ _ _ _ Hh) as (_ & _ & Hno & _).
  unfold list_is_last. rewrite (ld_next_nxt _ _ _ He), bind_Ok. f_equal. destruct l2 as [|b l2]; cbn; [by rewrite Z.eqb_refl|].
  destruct (Z.eqb_spec b hd) as [->|]; [|done]. destruct Hno. apply elem_of_app. right. right. by left.
Qed.

(** *** Changing *)

Lemma init_holds h x L F : holds h (St L (x :: F)) -> ok (INIT_LIST_HEAD h x) (fun h' => holds h' (St ((x, []) :: L) F)).
Proof.
  intros Hh. eapply ok_mono.
  - apply init_edge; [apply Hh|]. apply (holds_loose _ _ _ Hh). by left.
  - intros h' [Hwf Hs]. eapply holds_next; [exact Hh|exact Hwf|exact Hs|]. unfold all_nodes, nodes_of. cbn. count.
Qed.

Lemma poison_holds h x v w L F : holds h (St L (x :: F)) ->
  ok (h ← st_next h x v; st_prev h x w) (fun h' => holds h' (St L (x :: F))).
Proof.
  intros Hh. assert (Hx : loose h (links_of L) x) by (apply (holds_loose _ _ _ Hh); by left).
  pose proof (proj1 Hx). do 2 step. assert (Hs : same_nodes h h'0) by nodes. eapply holds_next; [exact Hh| |exact Hs|done].
  refine (proj1 (loose_store h h'0 x (links_of L) (holds_wf _ _ Hh) Hx Hs _ _)); intros y Hy; links.
Qed.

Lemma add_holds h x hd l1 l2 L F : holds h (St ((hd, l1 ++ l2) :: L) (x :: F)) ->
  ok (__list_add h x (lastof hd l1) (headof l2 hd)) (fun h' => holds h' (St ((hd, l1 ++ x :: l2) :: L) F)).
Proof.
  intros Hh. pose proof (holds_wf _ _ Hh) as Hwf. assert (Hx : loose h (links_of ((hd, l1 ++ l2) :: L)) x) by (apply (holds_loose _ _ _ Hh); by left).
  unfold links_of in *. cbn [lists map concat] in *. rewrite circle_gap in Hwf. unfold loose in Hx. rewrite circle_gap in Hx.
  eapply ok_mono; [by apply add_edge|]. intros h' [Hwf' Hs]. eapply holds_next; [exact Hh| |exact Hs|].
  - unfold links_of. cbn [lists map concat]. by rewrite circle_mid.
  - unfold all_nodes, nodes_of. cbn. count.
Qed.

Lemma unlink_holds h e hd l1 l2 L F : holds h (St ((hd, l1 ++ e :: l2) :: L) F) ->
  ok (list_unlink h e) (fun h' => holds h' (St ((hd, l1 ++ l2) :: L) (e :: F))).
Proof.
  intros Hh. pose proof (holds_wf _ _ Hh) as Hwf. unfold links_of in *. cbn [lists map concat] in *. rewrite circle_mid in Hwf.
  eapply ok_mono; [by eapply unlink_edge|]. intros h' (Hwf' & _ & Hs). eapply holds_next; [exact Hh| |exact Hs|].
  - unfold links_of. cbn [lists map concat]. by rewrite circle_gap.
  - unfold all_nodes, nodes_of. cbn. count.
Qed.

Lemma replace_holds h hd l1 old l2 new L F : holds h (St ((hd, l1 ++ old :: l2) :: L) (new :: F)) ->
  ok (list_replace h old new) (fun h' => holds h' (St ((hd, l1 ++ new :: l2) :: L) (old :: F))).
Proof.
  intros Hh. pose proof (holds_wf _ _ Hh) as Hwf. pose proof (holds_loose _ _ new Hh ltac:(by left)) as Hnew. unfold loose in Hnew.
  unfold links_of in *. cbn [lists map concat] in *. rewrite circle_mid in Hwf, Hnew.
  eapply ok_mono; [by eapply replace_edge|]. intros h' (Hwf' & _ & Hs). eapply holds_next; [exact Hh| |exact Hs|].
  - unfold links_of. cbn [lists map concat]. by rewrite circle_mid.
  - unfold all_nodes, nodes_of. cbn. count.
Qed.

Lemma replace_head_holds h old l new L F : holds h (St ((old, l) :: L) (new :: F)) ->
  ok (list_replace h old new) (fun h' => holds h' (St ((new, l) :: L) (old :: F))).
Proof.
  intros Hh. pose proof (holds_wf _ _ Hh) as Hwf. pose proof (holds_loose _ _ new Hh ltac:(by left)) as Hnew. unfold loose in Hnew.
  unfold links_of in *. cbn [lists map concat] in *. destruct l as [|a l].
  - eapply ok_mono; [apply replace_empty_edge; [exact Hwf|exact Hnew]|]. intros h' (Hwf' & _ & Hs). eapply holds_next; [exact Hh|exact Hwf'|exact Hs|].
    unfold all_nodes, nodes_of. cbn. count.
  - assert (E : forall x, circle (x, a :: l) ++ concat (map circle L) ≡ₚ
      (lastof a l, x) :: (x, a) :: front a l ++ concat (map circle L)).
    { intros x. unfold circle. cbn. rewrite path_front. count. }
    rewrite E in Hwf, Hnew. eapply ok_mono; [by eapply replace_edge|]. intros h' (Hwf' & _ & Hs).
    eapply holds_next; [exact Hh| |exact Hs|].
    + unfold links_of. cbn [lists map concat]. by rewrite E.
    + unfold all_nodes, nodes_of. cbn. count.
Qed.

Lemma splice_holds h ls l hd m1 m2 L F : l <> [] -> holds h (St ((ls, l) :: (hd, m1 ++ m2) :: L) F) ->
  ok (__list_splice h ls (lastof hd m1) (headof m2 hd)) (fun h' => holds h' (St ((hd, m1 ++ l ++ m2) :: L) (ls :: F))).
Proof.
  intros Hne Hh. pose proof (holds_wf _ _ Hh) as Hwf. destruct l as [|a l]; [done|].
  unfold links_of in *. cbn [lists map concat] in *. set (K := concat (map circle L)) in *.
  assert (E1 : circle (ls, a :: l) ++ circle (hd, m1 ++ m2) ++ K ≡ₚ
    (lastof hd m1, headof m2 hd) :: (ls, a) :: (lastof a l, ls) :: (front hd m1 ++ back m2 hd) ++ front a l ++ K).
  { rewrite (circle_gap hd m1 m2). unfold circle. cbn. rewrite path_front. count. }
  assert (E2 : circle (hd, m1 ++ (a :: l) ++ m2) ++ K ≡ₚ
    (lastof hd m1, a) :: (lastof a l, headof m2 hd) :: (front hd m1 ++ back m2 hd) ++ front a l ++ K).
  { rewrite circle_gap. cbn [app headof back]. rewrite path_cut. count. }
  rewrite E1 in Hwf. eapply ok_mono; [by eapply splice_edge|]. intros h' (Hwf' & _ & Hs). eapply holds_next; [exact Hh| |exact Hs|].
  - unfold links_of. cbn [lists map concat]. fold K. by rewrite E2.
  - unfold all_nodes, nodes_of. cbn. count.
Qed.

Lemma cut_holds h ls hd f l m L F : holds h (St ((hd, (f :: l) ++ m) :: L) (ls :: F)) ->
  ok (__list_cut_position h ls hd (lastof f l)) (fun h' => holds h' (St ((ls, f :: l) :: (hd, m) :: L) F)).
Proof.
  intros Hh. pose proof (holds_wf _ _ Hh) as Hwf. pose proof (holds_loose _ _ ls Hh ltac:(by left)) as Hls. unfold loose in Hls.
  unfold links_of in *. cbn [lists map concat] in *. set (K := concat (map circle L)) in *.
  assert (E1 : circle (hd, (f :: l) ++ m) ++ K ≡ₚ (hd, f) :: (lastof f l, headof m hd) :: front f l ++ back m hd ++ K).
  { rewrite circle_gap. cbn [front lastof]. count. }
  assert (E2 : circle (ls, f :: l) ++ circle (hd, m) ++ K ≡ₚ
    (ls, f) :: (lastof f l, ls) :: (hd, headof m hd) :: front f l ++ back m hd ++ K).
  { unfold circle. cbn. rewrite path_front, path_back. count. }
  rewrite E1 in Hwf, Hls. eapply ok_mono; [by eapply cut_edge|]. intros h' [Hwf' Hs]. eapply holds_next; [exact Hh| |exact Hs|].
  - unfold links_of. cbn [lists map concat]. fold K. by rewrite E2.
  - unfold all_nodes, nodes_of. cbn. count.
Qed.

Lemma del_holds h e hd l1 l2 L F : holds h (St ((hd, l1 ++ e :: l2) :: L) F) ->
  ok (list_del h e) (fun h' => holds h' (St ((hd, l1 ++ l2) :: L) (e :: F))).
Proof.
  intros Hh. apply ok_bind. eapply ok_mono; [by apply unlink_holds|]. intros h1 Hh1. by apply poison_holds.
Qed.

(** A free node can be given back. *)
Lemma holds_delete h x L F : holds h (St L (x :: F)) -> holds (delete x h) (St L F).
Proof.
  intros Hh. destruct Hh as [Hwf Hnd Hl]. unfold all_nodes in *. cbn [lists free] in *.
  rewrite <- Permutation_middle in Hnd, Hl. apply NoDup_cons in Hnd as [Hno Hnd]. apply Forall_cons in Hl as [_ Hl].
  assert (Hne : forall y, y ∈ (nodes_of L ++ F) -> y <> x) by (by intros y Hy ->).
  assert (Ht : forall y, y ∈ (links_of L).*1 -> y <> x) by (intros y Hy; apply Hne; rewrite <- links_fst; apply elem_of_app; by left).
  split; [split|done|].
  - intros a b Hab. destruct (wf_link _ _ Hwf a b Hab) as [Ha Hb]. unfold nxt, prv in *. rewrite !lookup_delete_ne; [done| |].
    + intros <-. apply (Ht x); [|done]. rewrite (wf_closed _ _ Hwf). apply list_elem_of_fmap. by exists (a, x).
    + intros <-. apply (Ht x); [|done]. apply list_elem_of_fmap. by exists (x, b).
  - apply (wf_nodup _ _ Hwf).
  - apply (wf_closed _ _ Hwf).
  - apply Forall_forall. intros y Hy. unfold live. rewrite lookup_delete_ne by (intros E; by apply (Hne y)).
    rewrite Forall_forall in Hl. by apply Hl.
Qed.

(** Stores make no nodes. *)
Lemma st_next_same h a v h' : st_next h a v = Ok h' -> same_nodes h h'.
Proof.
  unfold st_next. destruct (h !! a) as [n|] eqn:E; [|done]. intros [= <-] x. unfold live.
  destruct (decide (x = a)) as [->|]; [rewrite lookup_insert_eq, E|rewrite lookup_insert_ne by done]; by split.
Qed.
Lemma st_prev_same h a v h' : st_prev h a v = Ok h' -> same_nodes h h'.
Proof.
  unfold st_prev. destruct (h !! a) as [n|] eqn:E; [|done]. intros [= <-] x. unfold live.
  destruct (decide (x = a)) as [->|]; [rewrite lookup_insert_eq, E|rewrite lookup_insert_ne by done]; by split.
Qed.
Lemma list_del_same h e h' : list_del h e = Ok h' -> same_nodes h h'.
Proof.
  unfold list_del, list_unlink, __list_del. intros E. inv_bind E. inv_bind E0.
  repeat match goal with H : st_next _ _ _ = Ok _ |- _ => apply st_next_same in H | H : st_prev _ _ _ = Ok _ |- _ => apply st_prev_same in H end.
  nodes.
Qed.

(** ** The loops *)

(** The body on every entry, in order. *)
Fixpoint each {A} (body : A -> Z -> result A) (l : list Z) (a : A) : result A :=
  match l with [] => Ok a | x :: l => a ← body a x; each body l a end.

Section loops.
Context {A : Type} (off : Z).
Implicit Types body : A -> Z -> result A.

Lemma list_entry_member x : list_entry off x + off = x.
Proof. unfold list_entry. lia. Qed.

Lemma for_each_path h body hd : forall l x fuel a, (forall p q, (p, q) ∈ path x l hd -> nxt h p = Some q) -> hd ∉ l ->
  (length l <= fuel)%nat -> for_each off fuel h hd (list_entry off (headof l hd)) body a = each body (map (list_entry off) l) a.
Proof.
  induction l as [|b l IH]; intros x fuel a Hl Hno Hf.
  - destruct fuel; cbn; by rewrite list_entry_member, Z.eqb_refl.
  - apply not_elem_of_cons in Hno as [Hb Hno]. destruct fuel as [|fuel]; [cbn in Hf; lia|]. cbn [for_each headof map each].
    rewrite list_entry_member. destruct (Z.eqb_spec b hd); [congruence|]. destruct (body a (list_entry off b)) as [a'| | |]; try done.
    rewrite !bind_Ok. rewrite (ld_next_nxt h b (headof l hd)), bind_Ok.
    + apply (IH b); [|done|cbn in Hf; lia]. intros p q Hpq. apply Hl. by right.
    + apply Hl. cbn [path]. right. rewrite path_back. by left.
Qed.

Lemma for_each_back_path h body x : forall l fuel a, (forall p q, (p, q) ∈ front x l -> prv h q = Some p) -> x ∉ l ->
  (length l <= fuel)%nat -> for_each_back off fuel h x (list_entry off (lastof x l)) body a = each body (map (list_entry off) (rev l)) a.
Proof.
  induction l as [|b l IH] using rev_ind; intros fuel a Hl Hno Hf.
  - destruct fuel; cbn; by rewrite list_entry_member, Z.eqb_refl.
  - rewrite not_elem_of_app, not_elem_of_cons in Hno. destruct Hno as (Hno & Hb & _). rewrite length_app in Hf. cbn in Hf.
    destruct fuel as [|fuel]; [lia|]. rewrite lastof_app, rev_app_distr. cbn [for_each_back rev app map each].
    rewrite list_entry_member. destruct (Z.eqb_spec b x); [congruence|]. destruct (body a (list_entry off b)) as [a'| | |]; try done.
    rewrite !bind_Ok. rewrite (ld_prev_prv h b (lastof x l)), bind_Ok.
    + apply IH; [|done|lia]. intros p q Hpq. apply Hl. rewrite front_app. apply elem_of_app. by left.
    + apply Hl. rewrite front_app. apply elem_of_app. right. by left.
Qed.

Lemma holds_path h hd l L F p q : holds h (St ((hd, l) :: L) F) -> (p, q) ∈ path hd l hd -> nxt h p = Some q /\ prv h q = Some p.
Proof. intros Hh Hpq. apply (wf_link _ _ (holds_wf _ _ Hh)). unfold links_of. cbn. apply elem_of_app. by left. Qed.

Lemma list_for_each_entry_holds fuel h hd l L F body a : holds h (St ((hd, l) :: L) F) -> (length l <= fuel)%nat ->
  list_for_each_entry off fuel h hd body a = each body (map (list_entry off) l) a.
Proof.
  intros Hh Hf. destruct (holds_head _ _ _ _ _ Hh) as (Hn & _ & Hno & _). unfold list_for_each_entry.
  rewrite (ld_next_nxt _ _ _ Hn), bind_Ok. apply (for_each_path h body hd l hd); [|done|done].
  intros p q Hpq. by eapply holds_path.
Qed.

Lemma list_for_each_entry_reverse_holds fuel h hd l L F body a : holds h (St ((hd, l) :: L) F) -> (length l <= fuel)%nat ->
  list_for_each_entry_reverse off fuel h hd body a = each body (map (list_entry off) (rev l)) a.
Proof.
  intros Hh Hf. destruct (holds_head _ _ _ _ _ Hh) as (_ & Hp & Hno & _). unfold list_for_each_entry_reverse.
  rewrite (ld_prev_prv _ _ _ Hp), bind_Ok. apply for_each_back_path; [|done|done].
  intros p q Hpq. eapply holds_path; [exact Hh|]. rewrite path_front. apply elem_of_app. by left.
Qed.

(** The loop of [clean_mm_obj]: every entry is taken off its list and its memory
    given back, the node with it. *)
Definition free_body (body : A -> Z -> result A) (h : heap) (a : A) (pos : Z) : result (heap * A) :=
  h ← list_del h (pos + off); a ← body a pos; Ok (delete (pos + off) h, a).

Lemma free_body_spec body hd L b l h F a a1 : holds h (St ((hd, b :: l) :: L) F) -> body a (list_entry off b) = Ok a1 ->
  exists h1, free_body body h a (list_entry off b) = Ok (h1, a1) /\ holds h1 (St ((hd, l) :: L) F) /\
    forall x, live h1 x -> live h x /\ x <> b.
Proof.
  intros Hh E1. destruct (del_holds h b hd [] l L F Hh) as (h0 & Ed & Hh0). exists (delete b h0). split; [|split].
  - unfold free_body. by rewrite list_entry_member, Ed, bind_Ok, E1, bind_Ok.
  - by apply holds_delete.
  - intros x Hx. unfold live in Hx. destruct (decide (x = b)) as [->|Hne]; [rewrite lookup_delete_eq in Hx; by destruct Hx|].
    rewrite lookup_delete_ne in Hx by done. split; [|done]. by apply (list_del_same _ _ _ Ed).
Qed.

Lemma for_each_safe_free body hd L : forall l fuel h F a a', holds h (St ((hd, l) :: L) F) -> (length l <= fuel)%nat ->
  each body (map (list_entry off) l) a = Ok a' ->
  ok (for_each_safe off fuel h hd (list_entry off (headof l hd)) (list_entry off (headof (tail l) hd)) (free_body body) a)
    (fun r => r.2 = a' /\ holds r.1 (St ((hd, []) :: L) F) /\ forall x, live r.1 x -> live h x /\ x ∉ l).
Proof.
  induction l as [|b l IH]; intros fuel h F a a' Hh Hf He.
  - injection He as ->. exists (h, a'). split; [destruct fuel; cbn; by rewrite list_entry_member, Z.eqb_refl|].
    split; [done|]. split; [done|]. intros x Hx. split; [done|apply not_elem_of_nil].
  - destruct (holds_head _ _ _ _ _ Hh) as (_ & _ & Hno & _). apply not_elem_of_cons in Hno as [Hb _].
    destruct fuel as [|fuel]; [cbn in Hf; lia|]. cbn [for_each_safe headof tail map each] in *.
    rewrite list_entry_member. destruct (Z.eqb_spec b hd); [congruence|]. apply bind_Ok_inv in He as (a1 & E1 & He).
    destruct (free_body_spec body hd L b l h F a a1 Hh E1) as (h1 & Eb & Hh1 & Hlive).
    rewrite Eb, bind_Ok, list_entry_member.
    assert (Hnext : exists m, ld_next h1 (headof l hd) = Ok m /\ (l = [] \/ m = headof (tail l) hd)).
    { destruct l as [|c l]; [exists hd|exists (headof l hd)]; (split; [apply ld_next_nxt|tauto]).
      - apply (holds_head _ _ _ _ _ Hh1).
      - eapply holds_path; [exact Hh1|]. cbn. right. rewrite path_back. by left. }
    destruct Hnext as (m & -> & Hm). rewrite bind_Ok.
    assert (Hr : ok (for_each_safe off fuel h1 hd (list_entry off (headof l hd)) (list_entry off m) (free_body body) a1)
      (fun r => r.2 = a' /\ holds r.1 (St ((hd, []) :: L) F) /\ forall x, live r.1 x -> live h1 x /\ x ∉ l)).
    { destruct (IH fuel h1 F a1 a' Hh1 ltac:(cbn in Hf; lia) He) as (r & Er & Hr). exists r. split; [|done]. rewrite <- Er.
      destruct Hm as [->| ->]; [|done]. destruct fuel; cbn [for_each_safe headof]; by rewrite list_entry_member, Z.eqb_refl. }
    destruct Hr as (r & Er & E2 & Hh2 & Hl2). exists r. split; [done|]. split; [done|]. split; [done|].
    intros x Hx. destruct (Hl2 x Hx) as [Hx1 Hx2]. destruct (Hlive x Hx1). split; [done|]. by rewrite not_elem_of_cons.
Qed.

Lemma list_for_each_entry_safe_free body fuel h hd l L F a a' : holds h (St ((hd, l) :: L) F) -> (length l <= fuel)%nat ->
  each body (map (list_entry off) l) a = Ok a' ->
  ok (list_for_each_entry_safe off fuel h hd (free_body body) a)
    (fun r => r.2 = a' /\ holds r.1 (St ((hd, []) :: L) F) /\ forall x, live r.1 x -> live h x /\ x ∉ l).
Proof.
  intros Hh Hf He. destruct (holds_head _ _ _ _ _ Hh) as (Hn & _ & _ & _). unfold list_for_each_entry_safe.
  rewrite (ld_next_nxt _ _ _ Hn), bind_Ok, list_entry_member. destruct l as [|b l].
  - cbn [headof]. rewrite (ld_next_nxt _ _ _ Hn), bind_Ok. by apply (for_each_safe_free body hd L []).
  - cbn [headof]. rewrite (ld_next_nxt h b (headof l hd)), bind_Ok; [by apply (for_each_safe_free body hd L (b :: l))|].
    eapply holds_path; [exact Hh|]. cbn. right. rewrite path_back. by left.
Qed.

End loops.

(** ** Programs on lists *)

Inductive cmd :=
| Init (list : Z) | Add (new head : Z) | AddTail (new head : Z) | Del (entry : Z) | DelInit (entry : Z)
| Replace (old new : Z) | ReplaceInit (old new : Z) | Move (list head : Z) | MoveTail (list head : Z)
| RotateLeft (head : Z) | CutPosition (list head entry : Z)
| Splice (list head : Z) | SpliceTail (list head : Z) | SpliceInit (list head : Z) | SpliceTailInit (list head : Z).

Definition run_cmd (h : heap) (c : cmd) : result heap :=
  match c with
  | Init l => INIT_LIST_HEAD h l
  | Add n hd => list_add h n hd
  | AddTail n hd => list_add_tail h n hd
  | Del e => list_del h e
  | DelInit e => list_del_init h e
  | Replace o n => list_replace h o n
  | ReplaceInit o n => list_replace_init h o n
  | Move l hd => list_move h l hd
  | MoveTail l hd => list_move_tail h l hd
  | RotateLeft hd => list_rotate_left h hd
  | CutPosition l hd e => list_cut_position h l hd e
  | Splice l hd => list_splice h l hd
  | SpliceTail l hd => list_splice_tail h l hd
  | SpliceInit l hd => list_splice_init h l hd
  | SpliceTailInit l hd => list_splice_tail_init h l hd
  end.

Fixpoint run_cmds (h : heap) (cs : list cmd) : result heap :=
  match cs with [] => Ok h | c :: cs => h ← run_cmd h c; run_cmds h cs end.

(** What the comments of list.h say: [L] and [F] are the lists and the free
    nodes the operation has nothing to do with. *)
Inductive astep : cmd -> state -> state -> Prop :=
| a_init x L F : astep (Init x) (St L (x :: F)) (St ((x, []) :: L) F)
| a_add x hd l L F : astep (Add x hd) (St ((hd, l) :: L) (x :: F)) (St ((hd, x :: l) :: L) F)
| a_add_tail x hd l L F : astep (AddTail x hd) (St ((hd, l) :: L) (x :: F)) (St ((hd, l ++ [x]) :: L) F)
| a_del e hd l1 l2 L F : astep (Del e) (St ((hd, l1 ++ e :: l2) :: L) F) (St ((hd, l1 ++ l2) :: L) (e :: F))
| a_del_init e hd l1 l2 L F : astep (DelInit e) (St ((hd, l1 ++ e :: l2) :: L) F) (St ((e, []) :: (hd, l1 ++ l2) :: L) F)
| a_replace o n hd l1 l2 L F : astep (Replace o n) (St ((hd, l1 ++ o :: l2) :: L) (n :: F)) (St ((hd, l1 ++ n :: l2) :: L) (o :: F))
| a_replace_head o n l L F : astep (Replace o n) (St ((o, l) :: L) (n :: F)) (St ((n, l) :: L) (o :: F))
| a_replace_init o n hd l1 l2 L F :
    astep (ReplaceInit o n) (St ((hd, l1 ++ o :: l2) :: L) (n :: F)) (St ((o, []) :: (hd, l1 ++ n :: l2) :: L) F)
| a_replace_init_head o n l L F : astep (ReplaceInit o n) (St ((o, l) :: L) (n :: F)) (St ((o, []) :: (n, l) :: L) F)
| a_move e hd1 l1 l2 L hd l L' F : (hd1, l1 ++ l2) :: L ≡ₚ (hd, l) :: L' ->
    astep (Move e hd) (St ((hd1, l1 ++ e :: l2) :: L) F) (St ((hd, e :: l) :: L') F)
| a_move_tail e hd1 l1 l2 L hd l L' F : (hd1, l1 ++ l2) :: L ≡ₚ (hd, l) :: L' ->
    astep (MoveTail e hd) (St ((hd1, l1 ++ e :: l2) :: L) F) (St ((hd, l ++ [e]) :: L') F)
| a_rotate_nil hd L F : astep (RotateLeft hd) (St ((hd, []) :: L) F) (St ((hd, []) :: L) F)
| a_rotate hd e l L F : astep (RotateLeft hd) (St ((hd, e :: l) :: L) F) (St ((hd, l ++ [e]) :: L) F)
| a_cut_nil ls hd e L F : astep (CutPosition ls hd e) (St ((hd, []) :: L) F) (St ((hd, []) :: L) F)
| a_cut_head ls hd x l L F : astep (CutPosition ls hd hd) (St ((hd, x :: l) :: L) (ls :: F)) (St ((ls, []) :: (hd, x :: l) :: L) F)
| a_cut ls hd l1 e l2 L F :
    astep (CutPosition ls hd e) (St ((hd, l1 ++ e :: l2) :: L) (ls :: F)) (St ((ls, l1 ++ [e]) :: (hd, l2) :: L) F)
| a_splice ls l hd m L F : astep (Splice ls hd) (St ((ls, l) :: (hd, m) :: L) F) (St ((hd, l ++ m) :: L) (ls :: F))
| a_splice_tail ls l hd m L F : astep (SpliceTail ls hd) (St ((ls, l) :: (hd, m) :: L) F) (St ((hd, m ++ l) :: L) (ls :: F))
| a_splice_init ls l hd m L F : astep (SpliceInit ls hd) (St ((ls, l) :: (hd, m) :: L) F) (St ((ls, []) :: (hd, l ++ m) :: L) F)
| a_splice_tail_init ls l hd m L F :
    astep (SpliceTailInit ls hd) (St ((ls, l) :: (hd, m) :: L) F) (St ((ls, []) :: (hd, m ++ l) :: L) F).

Inductive asteps : state -> list cmd -> state -> Prop :=
| as_nil s : asteps s [] s
| as_view s s' cs s'' : view s s' -> asteps s' cs s'' -> asteps s cs s''
| as_step s c s' cs s'' : astep c s s' -> asteps s' cs s'' -> asteps s (c :: cs) s''.

Lemma list_add_holds h x hd l L F : holds h (St ((hd, l) :: L) (x :: F)) ->
  ok (list_add h x hd) (fun h' => holds h' (St ((hd, x :: l) :: L) F)).
Proof.
  intros Hh. destruct (holds_head _ _ _ _ _ Hh) as (Hn & _ & _ & _). unfold list_add. rewrite (ld_next_nxt _ _ _ Hn), bind_Ok.
  exact (add_holds h x hd [] l L F Hh).
Qed.

Lemma list_add_tail_holds h x hd l L F : holds h (St ((hd, l) :: L) (x :: F)) ->
  ok (list_add_tail h x hd) (fun h' => holds h' (St ((hd, l ++ [x]) :: L) F)).
Proof.
  intros Hh. destruct (holds_head _ _ _ _ _ Hh) as (_ & Hp & _ & _). unfold list_add_tail. rewrite (ld_prev_prv _ _ _ Hp), bind_Ok.
  apply (add_holds h x hd l [] L F). by rewrite app_nil_r.
Qed.

Lemma move_tail_holds h e hd1 l1 l2 L hd l L' F : (hd1, l1 ++ l2) :: L ≡ₚ (hd, l) :: L' ->
  holds h (St ((hd1, l1 ++ e :: l2) :: L) F) -> ok (list_move_tail h e hd) (fun h' => holds h' (St ((hd, l ++ [e]) :: L') F)).
Proof.
  intros Hp Hh. apply ok_bind. eapply ok_mono; [by apply unlink_holds|]. intros h1 Hh1. apply list_add_tail_holds.
  eapply holds_view; [exact Hh1|]. by constructor.
Qed.

Lemma rotate_holds h hd e l L F : holds h (St ((hd, e :: l) :: L) F) ->
  ok (list_rotate_left h hd) (fun h' => holds h' (St ((hd, l ++ [e]) :: L) F)).
Proof.
  intros Hh. destruct (holds_head _ _ _ _ _ Hh) as (Hn & _ & _ & _). unfold list_rotate_left.
  rewrite (list_empty_holds _ _ _ _ _ Hh), bind_Ok, bool_decide_eq_false_2, (ld_next_nxt _ _ _ Hn), bind_Ok by done.
  by apply (move_tail_holds h e hd [] l L hd l L F).
Qed.

Lemma list_cut_holds h ls hd l1 e l2 L F : holds h (St ((hd, l1 ++ e :: l2) :: L) (ls :: F)) ->
  ok (list_cut_position h ls hd e) (fun h' => holds h' (St ((ls, l1 ++ [e]) :: (hd, l2) :: L) F)).
Proof.
  intros Hh. destruct (holds_head _ _ _ _ _ Hh) as (Hn & Hp & Hno & Hnd). unfold list_cut_position.
  rewrite (list_empty_holds _ _ _ _ _ Hh), bind_Ok, bool_decide_eq_false_2 by (by destruct l1).
  rewrite (list_is_singular_holds _ _ _ _ _ Hh), bind_Ok, (ld_next_nxt _ _ _ Hn), bind_Ok.
  assert (Hs : bool_decide (length (l1 ++ e :: l2) = 1%nat) && (negb (headof (l1 ++ e :: l2) hd =? e) && negb (hd =? e)) = false).
  { destruct l1 as [|f l1]; [cbn; by rewrite Z.eqb_refl, andb_false_r|].
    rewrite bool_decide_eq_false_2; [done|]. rewrite length_app. cbn. lia. }
  rewrite Hs. destruct (Z.eqb_spec e hd) as [->|]; [destruct Hno; apply elem_of_app; right; by left|].
  destruct l1 as [|f l1]; [by apply (cut_holds h ls hd e [] l2)|].
  rewrite <- (lastof_app f l1 e) at 1. apply (cut_holds h ls hd f (l1 ++ [e]) l2). by rewrite (cons_middle e), app_assoc in Hh.
Qed.

Lemma holds_head2 h c hd l L F : holds h (St (c :: (hd, l) :: L) F) -> nxt h hd = Some (headof l hd) /\ prv h hd = Some (lastof hd l).
Proof.
  intros Hh. assert (Hh' : holds h (St ((hd, l) :: c :: L) F)) by (eapply holds_view; [exact Hh|constructor; [apply Permutation_swap|done]]).
  by destruct (holds_head _ _ _ _ _ Hh') as (? & ? & _).
Qed.

(** The four ways to splice begin alike. *)
Ltac splice_start Hh :=
  let Hn := fresh in let Hp := fresh in destruct (holds_head2 _ _ _ _ _ _ Hh) as [Hn Hp];
  rewrite (list_empty_holds _ _ _ _ _ Hh), bind_Ok; case_bool_decide;
  [subst; apply ok_ret | rewrite ?(ld_next_nxt _ _ _ Hn), ?(ld_prev_prv _ _ _ Hp), bind_Ok].

Lemma splice_first h ls l hd m L F : l <> [] -> holds h (St ((ls, l) :: (hd, m) :: L) F) ->
  ok (__list_splice h ls hd (headof m hd)) (fun h' => holds h' (St ((hd, l ++ m) :: L) (ls :: F))).
Proof. apply (splice_holds h ls l hd [] m). Qed.

Lemma splice_last h ls l hd m L F : l <> [] -> holds h (St ((ls, l) :: (hd, m) :: L) F) ->
  ok (__list_splice h ls (lastof hd m) hd) (fun h' => holds h' (St ((hd, m ++ l) :: L) (ls :: F))).
Proof. pose proof (splice_holds h ls l hd m [] L F) as H. by rewrite !app_nil_r in H. Qed.

Lemma list_splice_holds h ls l hd m L F : holds h (St ((ls, l) :: (hd, m) :: L) F) ->
  ok (list_splice h ls hd) (fun h' => holds h' (St ((hd, l ++ m) :: L) (ls :: F))).
Proof.
  intros Hh. unfold list_splice. splice_start Hh; [|by apply splice_first].
  eapply holds_view; [exact Hh|]. apply (view_drop ls []).
Qed.

Lemma list_splice_tail_holds h ls l hd m L F : holds h (St ((ls, l) :: (hd, m) :: L) F) ->
  ok (list_splice_tail h ls hd) (fun h' => holds h' (St ((hd, m ++ l) :: L) (ls :: F))).
Proof.
  intros Hh. unfold list_splice_tail. splice_start Hh; [|by apply splice_last].
  rewrite app_nil_r. eapply holds_view; [exact Hh|]. apply (view_drop ls []).
Qed.

Lemma list_splice_init_holds h ls l hd m L F : holds h (St ((ls, l) :: (hd, m) :: L) F) ->
  ok (list_splice_init h ls hd) (fun h' => holds h' (St ((ls, []) :: (hd, l ++ m) :: L) F)).
Proof.
  intros Hh. unfold list_splice_init. splice_start Hh; [done|].
  apply ok_bind. eapply ok_mono; [by apply splice_first|]. intros h'. apply init_holds.
Qed.

Lemma list_splice_tail_init_holds h ls l hd m L F : holds h (St ((ls, l) :: (hd, m) :: L) F) ->
  ok (list_splice_tail_init h ls hd) (fun h' => holds h' (St ((ls, []) :: (hd, m ++ l) :: L) F)).
Proof.
  intros Hh. unfold list_splice_tail_init. splice_start Hh; [by rewrite app_nil_r|].
  apply ok_bind. eapply ok_mono; [by apply splice_last|]. intros h'. apply init_holds.
Qed.

(** ** The refinement *)

Lemma step_refines h c s s' : holds h s -> astep c s s' -> ok (run_cmd h c) (fun h' => holds h' s').
Proof.
  intros Hh Hs.
  destruct Hs as [| | | | | | | | |e hd1 l1 l2 L hd l L' F Hp|e hd1 l1 l2 L hd l L' F Hp| | | | | | | | |]; cbn [run_cmd];
    try (first [by apply init_holds | by apply list_add_holds | by apply list_add_tail_holds | by apply del_holds
               | by apply replace_holds | by apply replace_head_holds | by apply rotate_holds | by apply list_cut_holds
               | by apply list_splice_holds | by apply list_splice_tail_holds | by apply list_splice_init_holds
               | by apply list_splice_tail_init_holds | by eapply move_tail_holds]).
  - apply ok_bind. eapply ok_mono; [by apply unlink_holds|]. intros h'. apply init_holds.
  - apply ok_bind. eapply ok_mono; [by apply replace_holds|]. intros h'. apply init_holds.
  - apply ok_bind. eapply ok_mono; [by apply replace_head_holds|]. intros h'. apply init_holds.
  - apply ok_bind. eapply ok_mono; [by apply unlink_holds|]. intros h' Hh'. apply list_add_holds.
    eapply holds_view; [exact Hh'|]. by constructor.
  - unfold list_rotate_left. rewrite (list_empty_holds _ _ _ _ _ Hh), bind_Ok. by apply ok_ret.
  - unfold list_cut_position. rewrite (list_empty_holds _ _ _ _ _ Hh), bind_Ok. by apply ok_ret.
  - destruct (holds_head _ _ _ _ _ Hh) as (Hn & _). unfold list_cut_position.
    rewrite (list_empty_holds _ _ _ _ _ Hh), bind_Ok, bool_decide_eq_false_2 by done.
    rewrite (list_is_singular_holds _ _ _ _ _ Hh), bind_Ok, (ld_next_nxt _ _ _ Hn), bind_Ok, Z.eqb_refl, !andb_false_r.
    by apply init_holds.
Qed.

Lemma steps_refine cs : forall h s s', holds h s -> asteps s cs s' -> ok (run_cmds h cs) (fun h' => holds h' s').
Proof.
  intros h s s' Hh Hs. revert h Hh. induction Hs as [s|s s1 cs s' Hv Hs IH|s c s1 cs s' Hc Hs IH]; intros h Hh.
  - by apply ok_ret.
  - apply IH. by eapply holds_view.
  - apply ok_bind. eapply ok_mono; [by eapply step_refines|exact IH].
Qed.

(** C38: any program of list operations that keeps to their contracts runs on the
    links without an astray access and does to the lists what the comments say;
    afterwards the tests and the loops, forwards and backwards, find in every
    list exactly its entries, in their order. *)
Theorem list_ops_refine h s cs s' : holds h s -> asteps s cs s' ->
  exists h', run_cmds h cs = Ok h' /\ holds h' s' /\
    forall hd l, (hd, l) ∈ lists s' ->
      list_empty h' hd = Ok (bool_decide (l = [])) /\ list_is_singular h' hd = Ok (bool_decide (length l = 1%nat)) /\
      forall A off fuel (body : A -> Z -> result A) a, (length l <= fuel)%nat ->
        list_for_each_entry off fuel h' hd body a = each body (map (list_entry off) l) a /\
        list_for_each_entry_reverse off fuel h' hd body a = each body (map (list_entry off) (rev l)) a.
Proof.
  intros Hh Hs. destruct (steps_refine cs h s s' Hh Hs) as (h' & E & Hh'). exists h'. split; [done|]. split; [done|].
  intros hd l Hin. apply elem_of_Permutation in Hin as [L HL]. destruct s' as [Ls F]. cbn [lists] in HL.
  assert (Hv : holds h' (St ((hd, l) :: L) F)) by (eapply holds_view; [exact Hh'|by constructor]).
  split; [by eapply list_empty_holds|]. split; [by eapply list_is_singular_holds|]. intros A off fuel body a Hf.
  split; [by eapply list_for_each_entry_holds|by eapply list_for_each_entry_reverse_holds].
Qed.

(** *** A run on real links *)

(** Six nodes with arbitrary contents. *)
Definition raw : heap := list_to_map (map (fun x => (x, Lh 0 0)) [16; 24; 32; 40; 48; 56]).
Definition prog : list cmd :=
  [Init 16; Init 24; Add 32 16; Add 40 16; AddTail 48 16; Add 56 24; Move 40 24; Splice 24 16; RotateLeft 16; CutPosition 24 16 32; Del 32].

Lemma list_ops_refine_witness : exists h', run_cmds raw prog = Ok h' /\
  list_for_each_entry 8 3 h' 16 (fun a x => Ok (a ++ [x])) [] = Ok [40; 32] /\
  list_for_each_entry_reverse 8 3 h' 24 (fun a x => Ok (a ++ [x])) [] = Ok [48].
Proof.
  assert (H0 : holds raw (St [] [16; 24; 32; 40; 48; 56])).
  { split; [split|apply (bool_decide_unpack _); by vm_compute|apply (bool_decide_unpack _); by vm_compute].
    - intros a b Hab. by apply elem_of_nil in Hab.
    - apply NoDup_nil_2.
    - done. }
  assert (Hs : asteps (St [] [16; 24; 32; 40; 48; 56]) prog (St [(24, [56]); (16, [48; 40])] [32])).
  { do 2 (eapply as_step; [apply a_init|]).
    eapply as_view; [apply (view_perm _ [(16, []); (24, [])]); perm|].
    do 2 (eapply as_step; [apply a_add|]). eapply as_step; [apply a_add_tail|].
    eapply as_view; [apply (view_perm _ [(24, []); (16, [40; 32; 48])]); perm|]. eapply as_step; [apply a_add|].
    eapply as_view; [apply (view_perm _ [(16, [40; 32; 48]); (24, [56])]); perm|].
    eapply as_step; [apply (a_move 40 16 [] [32; 48] [(24, [56])] 24 [56] [(16, [32; 48])] []); perm|].
    eapply as_step; [apply (a_splice 24 [40; 56] 16 [32; 48] [] [])|]. eapply as_step; [apply (a_rotate 16 40 [56; 32; 48])|].
    eapply as_step; [apply (a_cut 24 16 [56] 32 [48; 40] [] [])|]. eapply as_step; [apply (a_del 32 24 [56] [] [(16, [48; 40])] [])|].
    apply as_nil. }
  destruct (list_ops_refine raw _ prog _ H0 Hs) as (h' & E & _ & Hl). exists h'. split; [exact E|].
  split.
  - apply (Hl 16 _ ltac:(by right; left)). cbn. lia.
  - apply (Hl 24 _ ltac:(by left)). cbn. lia.
Defined.

End LListFacts.
