(* ===== verification/MmLinks.v ===== *)
(** The loops of [src/src/core/loader/mm.c] over the links of the buckets.

    Mm.v keeps the buckets of an allocator in a list; here they are the nodes of
    a circle through the head in the stub, and the heads of the buckets stand at
    the address of their node, as [list] is the first field. *)
From S2P Require Import Prelude Mm LinuxList LinuxListFacts.
Import Mm LList LListFacts.

Module MmLinks.

(** The offset of [list] in [struct obj_buk_head]. *)
Definition list_off : Z := 0.

Section links.
Context {K : Type} `{KernelPages K}.

(** The body of the loop in [clean_mm_obj] behind [list_del]. *)
Definition free_buk (s : K * gmap Z obj_buk_head) (buk : Z) : result (K * gmap Z obj_buk_head) :=
  let '(k, heads) := s in
  b ← head heads buk;
  k ← free_obj_buk k b;
  Ok (k, delete buk heads).

(** The loop of [clean_mm_obj]; [stub] is the address of [objmm->buk_list]. *)
Definition clean_buks (fuel : nat) (h : heap) (k : K) (heads : gmap Z obj_buk_head) (stub : Z) :
    result (heap * (K * gmap Z obj_buk_head)) :=
  list_for_each_entry_safe list_off fuel h stub (free_body list_off free_buk) (k, heads).

(** The loop of [alloc_obj] that looks for the bucket with the most room. *)
Definition find_max_buk (fuel : nat) (h : heap) (heads : gmap Z obj_buk_head) (stub : Z) : result (option Z * Z) :=
  list_for_each_entry list_off fuel h stub
    (fun '(max_buk, max_aval) buk =>
       b ← head heads buk;
       Ok (if max_aval <? aval_size b then (Some buk, aval_size b) else (max_buk, max_aval)))
    (None, 0).

(** [alloc_obj_buk] and the link: the node of a new bucket is part of its page. *)
Definition link_buk (h : heap) (buk stub : Z) (junk : list_head) : result heap :=
  h ← INIT_LIST_HEAD (<[buk := junk]> h) buk;
  list_add h buk stub.

End links.

(** ** They are the functions on the list of the buckets *)

Section facts.
Context {K : Type} {KP : KernelPages K} {KL : KernelPagesLaws K} {KU : KernelPagesUp K}.

(** The links of the allocator [mm], and whatever else is linked in memory. *)
Definition linked (h : heap) (stub : Z) (mm : obj_mm_tpd_stub) (L : list (Z * list Z)) (F : list Z) : Prop :=
  holds h (St ((stub, buk_list mm) :: L) F).

Lemma map_list_off l : map (list_entry list_off) l = l.
Proof. induction l as [|a l IH]; [done|]. cbn. rewrite IH. unfold list_entry, list_off. f_equal. lia. Qed.

Lemma each_free_buk (l : list Z) : forall (k k' : K) hs, free_buks k hs l = Ok k' ->
  exists hs', each free_buk l (k, hs) = Ok (k', hs').
Proof.
  induction l as [|a l IH]; intros k k' hs E; cbn [free_buks each] in *.
  - injection E as ->. by exists hs.
  - unfold free_buk. apply bind_Ok_inv in E as (b & -> & E). apply bind_Ok_inv in E as (k1 & E1 & E).
    rewrite !bind_Ok, E1, !bind_Ok. by apply IH.
Qed.

Lemma each_find_max hs l : forall m av,
  each (fun '(max_buk, max_aval) buk =>
    b ← head hs buk; Ok (if max_aval <? aval_size b then (Some buk, aval_size b) else (max_buk, max_aval))) l (m, av) =
  find_max hs l m av.
Proof.
  induction l as [|a l IH]; intros m av; cbn [each find_max]; [done|]. destruct (head hs a) as [b| | |]; [|done..].
  rewrite !bind_Ok. destruct (av <? aval_size b); apply IH.
Qed.

Lemma find_max_buk_spec fuel h stub mm L F : linked h stub mm L F -> (length (buk_list mm) <= fuel)%nat ->
  find_max_buk fuel h (heads mm) stub = find_max (heads mm) (buk_list mm) None 0.
Proof.
  intros Hh Hf. unfold find_max_buk. rewrite (list_for_each_entry_holds _ _ _ _ _ _ _ _ _ Hh Hf), map_list_off. apply each_find_max.
Qed.

(** A node the memory did not have. *)
Lemma holds_insert h x n L F : holds h (St L F) -> x ∉ all_nodes (St L F) -> holds (<[x := n]> h) (St L (x :: F)).
Proof.
  intros Hh Hx. destruct Hh as [Hwf Hnd Hl]. unfold all_nodes in *. cbn [lists free] in *.
  assert (Ht : x ∉ (links_of L).*1) by (rewrite links_fst; intros Hin; apply Hx, elem_of_app; by left).
  split; cbn [lists free].
  - split; [|apply (wf_nodup _ _ Hwf)|apply (wf_closed _ _ Hwf)]. intros a b Hab.
    destruct (wf_link _ _ Hwf a b Hab) as [Ha Hb]. unfold nxt, prv in *. rewrite !lookup_insert_ne; [done| |].
    + intros <-. apply Ht. rewrite (wf_closed _ _ Hwf). apply list_elem_of_fmap. by exists (a, x).
    + intros <-. apply Ht. apply list_elem_of_fmap. by exists (x, b).
  - unfold all_nodes. cbn. rewrite <- Permutation_middle. by apply NoDup_cons.
  - unfold all_nodes. cbn. rewrite <- Permutation_middle. apply Forall_cons. split.
    + unfold live. rewrite lookup_insert_eq. done.
    + eapply Forall_impl; [exact Hl|]. intros y [m Hy]. unfold live. destruct (decide (y = x)) as [->|].
      * by rewrite lookup_insert_eq.
      * rewrite lookup_insert_ne by done. by exists m.
Qed.

Lemma link_buk_spec h buk stub junk mm L F : linked h stub mm L F -> buk ∉ all_nodes (St ((stub, buk_list mm) :: L) F) ->
  ok (link_buk h buk stub junk) (fun h' => holds h' (St ((stub, buk :: buk_list mm) :: L) F)).
Proof.
  intros Hh Hno. apply ok_bind. eapply ok_mono; [by apply init_holds, holds_insert|]. intros h1 Hh1.
  apply list_add_holds. eapply holds_view; [exact Hh1|]. apply (view_drop buk []).
Qed.

(** C40: over the links of the buckets [clean_mm_obj] gives every bucket back
    to the kernel, once and in order, although the node of a bucket goes with
    its pages: the loop never reads a node again that it gave back, it ends,
    and the head in the stub is an empty list. The list of links is that of the
    buckets of a consistent allocator. *)
Theorem clean_mm_obj_links fuel h k mm live stub L F :
  mm_ok k mm live -> linked h stub mm L F -> (length (buk_list mm) <= fuel)%nat ->
  exists h' k' hs', clean_buks fuel h k (heads mm) stub = Ok (h', (k', hs')) /\
    clean_mm_obj k mm = Ok (k', Objmm ∅ [] None false) /\
    mapped k ≡ₚ map (fun a => (a, OBJ_BUCKET_SIZE)) (buk_list mm) ++ mapped k' /\
    holds h' (St ((stub, []) :: L) F) /\ forall a, a ∈ buk_list mm -> h' !! a = None.
Proof.
  intros Hok Hh Hf. destruct (clean_mm_obj_unmaps k mm live Hok) as (k' & E & Hmap).
  pose proof E as E1. unfold clean_mm_obj in E1. apply bind_Ok_inv in E1 as (k1 & E1 & [= ->]).
  destruct (each_free_buk _ _ _ _ E1) as (hs' & He). rewrite <- (map_list_off (buk_list mm)) in He.
  destruct (list_for_each_entry_safe_free list_off free_buk fuel h stub (buk_list mm) L F _ _ Hh Hf He) as ([h' r] & Ec & Er & Hh' & Hl).
  cbn [fst snd] in *. subst r. exists h', k', hs'. split; [exact Ec|]. split; [done|]. split; [done|]. split; [done|].
  intros a Ha. destruct (h' !! a) as [n|] eqn:En; [|done]. destruct (Hl a) as [_ Hno]; [by exists n|]. by destruct Hno.
Qed.

End facts.

(** ** A run: one bucket *)

Definition bucket : Z := 4127195136.
Definition two : heap := list_to_map [(8192, Lh bucket bucket); (bucket, Lh 8192 8192)].

Lemma clean_mm_obj_links_witness : exists h' k' hs',
  clean_buks 1 two used.1 (heads used.2) 8192 = Ok (h', (k', hs')) /\ clean_mm_obj used.1 used.2 = Ok (k', Objmm ∅ [] None false) /\
  h' !! bucket = None.
Proof.
  destruct used_ok as (live & Hok).
  destruct (clean_mm_obj_links 1 two used.1 used.2 live 8192 [] [] Hok) as (h' & k' & hs' & E1 & E2 & _ & _ & Hno).
  - unfold linked. replace (buk_list used.2) with [bucket] by (by vm_compute). split; cbn.
    + split; [|apply (bool_decide_unpack _); by vm_compute|by apply Permutation_swap].
      intros a b Hab. cbn in Hab. rewrite !elem_of_cons, elem_of_nil in Hab. destruct Hab as [[= -> ->]|[[= -> ->]|[]]]; by vm_compute.
    + apply (bool_decide_unpack _); by vm_compute.
    + apply (bool_decide_unpack _); by vm_compute.
  - by vm_compute.
  - exists h', k', hs'. split; [exact E1|]. split; [exact E2|]. apply Hno. replace (buk_list used.2) with [bucket] by (by vm_compute). by left.
Defined.

End MmLinks.
